(* ===== verification/_CoqProject ===== *)
-Q . S2P
Prelude.v
CString.v
Stdio.v
Local.v
BusProt.v
Protocol.v
Llc.v
StreamBuf.v
Pool.v
Device.v
Rch.v
I2o.v
Isr.v
Kernel.v
Outer.v
Owner.v
Frames.v
Sleep.v
Mask.v
Mailbox.v
Waits.v
Exclusion.v
Ioctl.v
Path.v
Clients.v
Bridge.v
Acquire.v
Requests.v
Completes.v
Writes.v
Answered.v
Release.v
Spares.v
Processes.v
Runs.v
Interleaved.v
Shared.v
BufferAB.v
Nodes.v
Mmap.v
Init.v
Driver.v
Probe.v
Removal.v
Listing.v
Sysfs.v
Attributes.v
System.v
HtStream.v
Hw.v
IntTest.v
HtMain.v
AcqCmd.v
Witnesses.v
Races.v
LifeWitnesses.v
