(* ===== verification/Prelude.v ===== *)
(** * acq200_hostdrv: the Linux host driver of the ACQ196 and ACQ216 transient recorders

    An ACQ card is a computer of its own (an 80321 with its data acquisition hardware) in a
    CompactPCI slot.  The host sees a page of registers and nothing else of it; the card, as bus
    master, sees the host's memory.  This library models the driver on the host and the programs that
    come with it, and proves that they do what they are for.

    ** The program and how its parts work together

    - _Registers_.  Four mailboxes, a doorbell, an interrupt status, two queue ports: the inbound one
      (IQP) gives the address of a free message frame when it is read and takes one that holds a
      message, the outbound one (OQP) gives the address (mfa) of a frame the card filled and takes
      it back.
    - _Mailbox commands_ (acq200.c): a command and its arguments are written to the mailboxes, and the
      driver polls the command box, or sleeps until the doorbell rings, until the card acknowledges.
    - _Messages_ (acq200_i2o.c): a request is a message with an identifier; a return command handler
      (rch.h), queued on the device, records who waits for the reply with that identifier.  Handlers
      and the host buffers ("mappings") that the card reads and writes come from two pools
      (acq200_bigbuf_alloc.c).
    - _Interrupts_: the service routine (acq200.c) takes a frame off OQP and queues its address on a
      ring (streambuf.h); a tasklet, the bottom half (acq200_i2o.c), takes it from there, hands the
      message to the handler that waits for it, and gives the frame back.  A thread looks at OQP from
      time to time, in case an interrupt was missed.
    - _Processes_ open device nodes; open, read, write, mmap, ioctl and release (acq200.c,
      acq200_i2o.c, acq200_mmap.c) send messages and commands and sleep for the replies.  The minor
      number chooses the operations (acq200_minors.h).  While a process sleeps the contexts above run.
    - _Attributes_ (acq200_if.c) show the device's state as text; masks of interrupt lines are set
      there and by ioctl (acq200_utils.c).
    - _The driver as a whole_ (acq200.c): a table of the descriptors of its cards; a card is probed,
      registered with the kernel, set up, and removed.
    - _Programs_: htstream.c streams through the two buffers A and B; acqcmd.c sends commands to a card
      and prints the replies; int-disable-test.c runs a test with interrupt lines masked; hw.c is a
      module that looks for the largest block of pages.

    ** What models what

    - Prelude.v: machine integers, bytes of memory, the state monad with faults, records, tactics.
    - CString.v: the part of <<sprintf>> and <<string.h>> that is used.
    - BusProt.v: acq32busprot.h, what the driver computes with.   Protocol.v, Llc.v: the rest of it, the
      requests and their parameters, the data, the low latency and streaming modes.
    - StreamBuf.v: streambuf.h.
    - Pool.v: acq200_bigbuf_alloc.c, over an interface ([PoolHost], [PoolSleeper], [PoolHostLaws])
      for the state that holds the pool and for the sleep, implemented for both pools in Kernel.v and
      Sleep.v.
    - Device.v: acq200.h, and the platform.
    - Rch.v: rch.h.   I2o.v: acq200_i2o.c, messages and the bottom half.   Isr.v: acq200.c, interrupts.
    - Kernel.v: events of other contexts; wait queues, timeouts and semaphores of the kernel.
    - Outer.v, Owner.v, Frames.v, Sleep.v: what events leave alone, the ownership invariant, where
      frames go, what holds after a sleep.   Waits.v: what a wait leaves to the other paths, and when it ends.
    - Mask.v: acq200_utils.c.   Mailbox.v: acq200.c and acq200_core.c, mailbox commands and ioctls.
      Ioctl.v: acq32ioctl.h, the requests of the older cards.
    - Path.v: acq200.c and acq200_minors.h, open and release.   Clients.v: the backstop thread's life.
    - Bridge.v, with Acquire.v (what is taken from the pools, which may be exhausted), Requests.v and
      Writes.v for its theorems: acq200_i2o.c, read, write, release.
    - BufferAB.v: acq200_i2o.c and acq200.c, the buffers A and B.
    - Completes.v, Answered.v: the way of one request, from the read or the write to its reply.
      Release.v: closing a node.   Nodes.v: what every call on a node keeps.
    - Processes.v: the same calls of several processes, each a program counter between two of its sleeps,
      and the machine of the processes and the device; Runs.v: a call of Bridge.v is a run of it;
      Spares.v, Interleaved.v: what one process leaves to the others, and that no process disturbs
      another.   Exclusion.v: the same for the mailbox requests of several processes; a request of Mailbox.v
      is a run of its machine.   Shared.v: the processes of both on one device.
    - Mmap.v: acq200_mmap.c.   Init.v: acq200.c and acq200_bigbuf_alloc.c, the device of a new card.
    - Driver.v: acq200.c and acq200_if.c, the table of cards, probe, set-up, registration, removal,
      module load and unload; with Probe.v and Removal.v for its theorems.
    - Listing.v: acq200_bigbuf_alloc.c, the listings.   Sysfs.v: acq200_if.c, what the attributes show.
    - Attributes.v: acq200_if.c, the files of a card, which look the card up in the table.
    - System.v: the tables of file operations (acq200.c), and the device under any sequence of calls
      and events, as a step relation.
    - Stdio.v: the part of <<stdio.h>> and <<stdlib.h>> the programs use.   Local.v: local.h.
    - HtStream.v, HtMain.v: htstream.c, its loop and files, and the program as a whole.
    - AcqCmd.v: acqcmd.c.   IntTest.v: int-disable-test.c.   Hw.v: hw.c.
    - Witnesses.v, LifeWitnesses.v: platforms, devices, drivers and inputs, and the theorems at them.
      Races.v: runs of the machines of processes.

    A definition has the name of the C function, type, field or macro it models.  A loop that is not
    structural is a function of its own next to the function it is in.

    ** State, effects and faults

    [Device.World] is what the driver reads and writes: the history of the bus, kernel memory and the
    user's memory by byte, the device descriptor, the handlers, the open paths, the time, and [sched],
    the events that other contexts will bring ([Event]).  A C function of type T is a computation
    [M World T], which is [Done] with a result, or [Crash] (a null pointer or an error code followed, a
    poisoned list link, an index out of range, an assertion), [Blocked] (it sleeps, or waits in a busy
    loop, for ever) or [NoFuel].  Theorems are stated with
    [total] (it comes to an end with a result) and [safe] (as [total], but it may sleep for ever);
    neither allows [Crash] or [NoFuel]; [outcome] (of a read, a write, a step) says which faults there
    are, in which states; [settles] (of a probe) does too, and does not allow [Blocked].

    Concurrency: code between two sleeps is atomic, on one CPU, as spin locks and disabled
    interrupts make it where it is shared; a sleep runs events from [sched], one after the other,
    until it is over.  Theorems about a sleep hold for all lists of events, hence for all
    interleavings.  Other processes are modelled twice.  In the first model, during a sleep another
    process is seen as what it does to the semaphores ([EvUp]), and between calls [System.step]
    interleaves the calls of all processes, of every kind, and the events.  In the second,
    [Processes.machine_step], the reads, writes and closes of the bridge sleep at the same time: each
    is cut at its sleeps, [resume] runs it from one sleep to the next, and the processes take turns in
    any order; only the wait for the mailbox at the end of a close ([acq200_release]) is one step, in
    which the card and the interrupts go on but no other process does.  [Exclusion.mbox_step] does the same
    for the mailbox requests, which every process may make, cut at the wait for the semaphore, for the
    answer and at [schedule]; [Shared.together_step] has both kinds of processes.  [call_is_run] and the last part of
    [mailbox_exclusive] connect the models: what Bridge.v and Mailbox.v say of a call, with its sleeps
    and whatever happens in them, is a run of the machine.

    Driver.v has a state of its own: the table, a heap of descriptors, each of which is a [World], and
    what the kernel has registered.  The programs are functions of their environment, their input and
    what the driver answers.

    The card is not trusted: what it answers to a read of a register is a function of the whole
    history of the bus ([card_reply]), and what it writes to memory is in the event ([EvCard]).  Both
    are arbitrary in the theorems, but for those that say so, such as one that expects the card
    to have a free frame.

    Integers are [Z] in the range of their C type; <<int>> and <<long>> have 32 bits, and conversions
    and the wrapping of arithmetic are written out ([u32], [s32], ...).

    ** What the theorems show

    - Every state that can be reached is safe: [reachable_safe], by [events_safe] for the contexts that
      interrupt and [bridge_read_outcome], [bridge_write_outcome], [bridge_release_safe] for the calls,
      whether the pools have something free or not.  The steps are calls by the tables of operations on
      nodes of every kind, for which [sys_inv] (Nodes.v) is kept; reads and writes that use the pool
      are steps when a mapping is free, as without one the code may free another request's mapping
      ([timeout_frees_foreign_mapping]).  The ownership invariant [dev_inv] says that a handler is on
      the queue once, is reserved, knows a path that is open, and holds a mapping nobody else holds;
      [evolves] says what events may do.
    - Processes at the same time: [interleaved_safe] (no handler and no mapping belongs to two of them,
      none faults by another's doing), [answered_read_finishes], [call_is_run].  A turn [spares] what
      the process does not own, and [pc_ok] is what it counts on from one turn to the next.
      [orderly] names the two turns that must not happen; [last_handler_race] shows that without it
      the reply queue is corrupted, by the close that frees its handler twice.  [mailbox_exclusive]: of
      the mailbox requests at most one is under way ([exclusive]), and it is a [transaction] on the bus.
      [bridge_and_mailboxes]: the turns of the bridge are [elsewhere] for the mailboxes and those
      of the mailboxes touch nothing the bridge owns, so both hold for all of them together.
    - Requests: [read_completes] (a request that the card answers is answered to the reader),
      [write_completes] (one of a writer leaves nothing behind), [message_posted], [sent_message_typed], [cleanup_on_release]; [failed_send_steals_reply].
    - Frames: [bottom_half_returns_frames], [consume_keeps_frame], [bad_mfa_masks_interrupt].
    - Data structures: [streambuf_refines_fifo] (the ring against the bounded queue [Fifo]),
      [alloc_correct], [alloc_round_robin]; encodings are read back: [message_roundtrip] and others.
    - The protocol: [requests_unambiguous], [trigger_words_collide], [llc200_init_roundtrip],
      [csr_fields_independent]; [older_requests_refused].
    - Mailboxes: [wbr_mbox_polling], [mailbox_command_last].   Masks: [ints_mask_string],
      [test_restores_lines].   Nodes: [open_close_restores], [newfops_table],
      [clients_backstop], [failed_thread_faults].   Memory:
      [mmap_within_buffer], [fresh_mappings_disjoint].
    - A card's life: [device_create_ready], [probe_keeps_table] (with the faults there are: [stopped]),
      [probe_comes_back], [probe_remove_balance]; [second_remove_faults].   Its files: [attributes_read], [class_files_mask], [listings_fit],
      [bigbuf_read_pieces].
    - Buffers A and B and their client: [fill_status_in_turn], [client_follows_driver],
      [client_alternates].
    - The command client: [process_stdin_script] (against the reference [run_script]),
      [process_command_reply], [do_poll_answers].
    - More theorems are with the components: doorbell interrupts, the register window, the largest
      buffer, the ramp, names and slots, function codes, settings, strings in place, and places where
      the code does not do what it means to.

    ** Fuel, and why it is enough

    - [streaming_loop]: one more than the ring has slots; each turn takes a word off the ring
      ([bottom_half_returns_frames] is a [total] theorem).
    - [_alloc_loop]: once round the pool for every sleep that the events left can end
      ([alloc_correct]).  With a signal pending and no event left every sleep returns at once and the
      loop goes round for ever: that is [Blocked] ([alloc_spins]); in a [calm] state it comes to an end.
    - [poll_loop]: what is left of events, of ticks up to the deadline, and four quick looks
      ([wbr_mbox_polling]).
    - [cleanup_loop]: the handlers on the queue; each turn takes one off ([cleanup_on_release]).
    - [alloc_rch_retry]: each turn sleeps and so takes an event.
    - mask iterator: 33 positions ([ints_mask_visits]); [num_entries_from]: the slots of the ring
      ([num_entries_correct]).
    - [reply_loop], [stdin_loop]: the characters left; each line takes one ([process_stdin_fuel]).
      [poll_rounds]: the answers left ([do_poll_total]).   [chomp_loop]: the array ([chomp_strips]).

    ** What is not modelled

    The driver's printing and debug macros; <<dma_sync>> calls, as memory is coherent on x86; the work
    of htstream.c that is input and output alone (a checksum by another program, a pause); how popt
    splits the command line of acqcmd.c; code that is not compiled (functions under DANGEROUS, names
    of other kernel versions); texts of revisions.  The nodes find their device by its major number:
    the model of a call has the one device it found.  The kernel's functions that Driver.v calls are
    parameters ([KernelApi]), and may fail; that the class cannot be made (acq200_init) is left out.

    The calls on the buffers A and B are not among those that are interleaved at their sleeps: for
    these there is [System.step]; and a close that makes a mailbox request of its own does so in one step,
    which [Shared.apart] leaves out.  A probe is not suspended between its steps,
    and the calls on different cards are not interleaved: they share the table of descriptors only,
    which no call on a node changes. *)

From Stdlib Require Export ZArith Lia Bool.
From stdpp Require Export base decidable numbers list sets gmap.

Open Scope Z_scope.

(** ** Machine integers

    The driver is built for 32-bit x86: [int] and [long] are 32 bits, two's complement, and the
    kernel is compiled with wrapping signed arithmetic.  A C value of an integer type is the [Z]
    in that type's range; a conversion to the type is one of the functions below. *)
Definition wrap (w z : Z) : Z := z mod 2 ^ w.
Definition swrap (w z : Z) : Z := (z + 2 ^ (w - 1)) mod 2 ^ w - 2 ^ (w - 1).
Definition u8 : Z -> Z := wrap 8.
Definition u16 : Z -> Z := wrap 16.
Definition u32 : Z -> Z := wrap 32.
Definition s16 : Z -> Z := swrap 16.
Definition s32 : Z -> Z := swrap 32.

(** C truth values. *)
Definition Zbool (b : bool) : Z := if b then 1 else 0.
Definition istrue (z : Z) : bool := negb (z =? 0).

(** ** Error codes of the kernel the driver returns (asm/errno.h). *)
Definition EINTR : Z := 4.
Definition EAGAIN : Z := 11.
Definition ENOMEM : Z := 12.
Definition EFAULT : Z := 14.
Definition ENODEV : Z := 19.
Definition EINVAL : Z := 22.
Definition ENOTTY : Z := 25.
Definition ETIMEDOUT : Z := 110.
Definition ERESTARTSYS : Z := 512.

Lemma wrap_range w z : 0 <= w -> 0 <= wrap w z < 2 ^ w.
Proof. intros. apply Z.mod_pos_bound. lia. Qed.

Lemma u32_range z : 0 <= u32 z < 2 ^ 32.
Proof. apply wrap_range. lia. Qed.

Lemma u16_range z : 0 <= u16 z < 2 ^ 16.
Proof. apply wrap_range. lia. Qed.

Lemma wrap_id w z : 0 <= z < 2 ^ w -> wrap w z = z.
Proof. apply Z.mod_small. Qed.

Lemma u32_id z : 0 <= z < 2 ^ 32 -> u32 z = z.
Proof. apply wrap_id. Qed.

Lemma u16_id z : 0 <= z < 2 ^ 16 -> u16 z = z.
Proof. apply wrap_id. Qed.

Lemma swrap_range w z : 0 < w -> - 2 ^ (w - 1) <= swrap w z < 2 ^ (w - 1).
Proof.
  intros. unfold swrap.
  replace (2 ^ w) with (2 * 2 ^ (w - 1))
    by (rewrite <- Z.pow_succ_r by lia; f_equal; lia).
  pose proof (Z.mod_pos_bound (z + 2 ^ (w - 1)) (2 * 2 ^ (w - 1)) ltac:(lia)). lia.
Qed.

Lemma s32_range z : - 2 ^ 31 <= s32 z < 2 ^ 31.
Proof. apply (swrap_range 32). lia. Qed.

Lemma swrap_id w z : 0 < w -> - 2 ^ (w - 1) <= z < 2 ^ (w - 1) -> swrap w z = z.
Proof.
  intros Hw H. unfold swrap. rewrite Z.mod_small; [lia|].
  replace (2 ^ w) with (2 * 2 ^ (w - 1))
    by (rewrite <- Z.pow_succ_r by lia; f_equal; lia). lia.
Qed.

Lemma s32_id z : - 2 ^ 31 <= z < 2 ^ 31 -> s32 z = z.
Proof. apply (swrap_id 32). lia. Qed.

(** ** Bits *)
Lemma land_mask_range a n : 0 <= n -> 0 <= Z.land a (2 ^ n - 1) < 2 ^ n.
Proof. intros. rewrite Z.sub_1_r, <- Z.ones_equiv, Z.land_ones by lia. apply Z.mod_pos_bound. lia. Qed.

Lemma land_mask_mod a n : 0 <= n -> Z.land a (2 ^ n - 1) = a mod 2 ^ n.
Proof. intros. rewrite Z.sub_1_r, <- Z.ones_equiv. apply Z.land_ones. lia. Qed.

Lemma testbit_above n p i : 0 <= n < 2 ^ p -> p <= i -> Z.testbit n i = false.
Proof.
  intros Hn Hi. destruct (Z.le_gt_cases 0 p) as [Hp|Hp].
  - rewrite <- (Z.mod_small n (2 ^ p)) by lia. apply Z.mod_pow2_bits_high. lia.
  - rewrite Z.pow_neg_r in Hn by lia. lia.
Qed.

(** [Z.lor] of values with no common bit is their sum. *)
Lemma lor_disjoint_add a b n : 0 <= n -> 0 <= a < 2 ^ n ->
  Z.lor a (Z.shiftl b n) = a + b * 2 ^ n.
Proof.
  intros Hn Ha. rewrite <- Z.shiftl_mul_pow2 by lia. rewrite <- Z.add_lor_land.
  enough (Z.land a (Z.shiftl b n) = 0) by lia.
  apply Z.bits_inj'. intros i Hi. rewrite Z.bits_0, Z.land_spec.
  destruct (Z.lt_ge_cases i n).
  - rewrite Z.shiftl_spec_low by lia. apply andb_false_r.
  - rewrite (testbit_above a n) by lia. reflexivity.
Qed.

Lemma lor_range a b n : 0 <= a < 2 ^ n -> 0 <= b < 2 ^ n -> 0 <= Z.lor a b < 2 ^ n.
Proof.
  intros Ha Hb. assert (0 <= Z.lor a b) as Hl by (apply Z.lor_nonneg; lia). split; [done|].
  assert (0 <= n) by (destruct (Z.le_gt_cases 0 n); [done|]; rewrite (Z.pow_neg_r 2 n) in Ha by lia; lia).
  destruct (Z.eq_dec (Z.lor a b) 0) as [->|]; [lia|]. apply Z.log2_lt_pow2; [lia|].
  rewrite Z.log2_lor by lia. apply Z.max_lub_lt.
  - destruct (Z.eq_dec a 0) as [->|]; [|apply Z.log2_lt_pow2; lia].
    destruct (Z.eq_dec n 0) as [->|]; [|cbn; lia].
    assert (b = 0) as -> by lia. done.
  - destruct (Z.eq_dec b 0) as [->|]; [|apply Z.log2_lt_pow2; lia].
    destruct (Z.eq_dec n 0) as [->|]; [|cbn; lia].
    assert (a = 0) as -> by lia. done.
Qed.

Lemma land_pow2 mask i : 0 <= i -> istrue (Z.land mask (2 ^ i)) = Z.testbit mask i.
Proof.
  intros Hi. unfold istrue. destruct (Z.testbit mask i) eqn:Hb.
  - apply negb_true_iff, Z.eqb_neq. intros E.
    assert (Z.testbit (Z.land mask (2 ^ i)) i = true) as Ht
      by (by rewrite Z.land_spec, Hb, Z.pow2_bits_true).
    by rewrite E, Z.bits_0 in Ht.
  - apply negb_false_iff, Z.eqb_eq, Z.bits_inj'. intros j Hj.
    rewrite Z.land_spec, Z.bits_0, Z.pow2_bits_eqb by lia.
    destruct (Z.eqb_spec i j) as [<-|]; [by rewrite Hb|apply andb_false_r].
Qed.

(** ** Little-endian byte strings: the memory the host and the card share *)
Fixpoint le_bytes (n : nat) (z : Z) : list Z :=
  match n with
  | O => []
  | S n => z mod 256 :: le_bytes n (z / 256)
  end.

Fixpoint le_value (bs : list Z) : Z :=
  match bs with
  | [] => 0
  | b :: bs => b + 256 * le_value bs
  end.

Lemma length_le_bytes n z : length (le_bytes n z) = n.
Proof. revert z; induction n; intros; simpl; auto. Qed.

Lemma le_value_bytes n z : le_value (le_bytes n z) = z mod 2 ^ (8 * Z.of_nat n).
Proof.
  revert z; induction n as [|n IH]; intros z.
  - simpl. symmetry. apply Z.mod_1_r.
  - cbn [le_bytes le_value]. rewrite IH, Nat2Z.inj_succ.
    replace (8 * Z.succ (Z.of_nat n)) with (8 + 8 * Z.of_nat n) by lia.
    rewrite Z.pow_add_r by lia. change (2 ^ 8) with 256.
    rewrite Z.rem_mul_r by lia. reflexivity.
Qed.

Lemma le_value_bytes_id n z : 0 <= z < 2 ^ (8 * Z.of_nat n) -> le_value (le_bytes n z) = z.
Proof. intros. rewrite le_value_bytes. apply Z.mod_small. lia. Qed.

(** ** Memory: bytes by address; a byte nobody wrote reads as 0 *)
Definition mem_read1 (m : gmap Z Z) (a : Z) : Z := default 0 (m !! a).

Fixpoint mem_read (m : gmap Z Z) (a : Z) (n : nat) : list Z :=
  match n with
  | O => []
  | S n => mem_read1 m a :: mem_read m (a + 1) n
  end.

Fixpoint mem_write (m : gmap Z Z) (a : Z) (bs : list Z) : gmap Z Z :=
  match bs with
  | [] => m
  | b :: bs => mem_write (<[a := b]> m) (a + 1) bs
  end.

Lemma mem_write_app m a bs cs :
  mem_write m a (bs ++ cs) = mem_write (mem_write m a bs) (a + Z.of_nat (length bs)) cs.
Proof.
  revert m a. induction bs as [|b bs IH]; intros m a; cbn [mem_write app length].
  - by rewrite Z.add_0_r.
  - rewrite IH. f_equal. lia.
Qed.

Lemma mem_write_other m a bs x :
  x < a \/ a + Z.of_nat (length bs) <= x -> mem_read1 (mem_write m a bs) x = mem_read1 m x.
Proof.
  revert m a; induction bs as [|b bs IH]; intros m a H; simpl; [done|].
  cbn [length] in H. rewrite IH by lia.
  unfold mem_read1. rewrite lookup_insert_ne by lia. done.
Qed.

Lemma mem_read_ext m m' a n :
  (forall x, a <= x < a + Z.of_nat n -> mem_read1 m x = mem_read1 m' x) ->
  mem_read m a n = mem_read m' a n.
Proof.
  revert a; induction n as [|n IH]; intros a H; simpl; [done|]. f_equal.
  - apply H. lia.
  - apply IH. intros. apply H. lia.
Qed.

Lemma mem_read_write m a bs : mem_read (mem_write m a bs) a (length bs) = bs.
Proof.
  revert m a; induction bs as [|b bs IH]; intros m a; simpl; [done|].
  rewrite IH. f_equal. rewrite mem_write_other by lia.
  unfold mem_read1. by rewrite lookup_insert_eq.
Qed.

Lemma mem_read_write_other m a bs x n :
  x + Z.of_nat n <= a \/ a + Z.of_nat (length bs) <= x ->
  mem_read (mem_write m a bs) x n = mem_read m x n.
Proof. intros. apply mem_read_ext. intros. apply mem_write_other. lia. Qed.

Lemma mem_read_length m a n : length (mem_read m a n) = n.
Proof. revert a. induction n; intros; simpl; auto. Qed.

Lemma mem_read_app m a n k :
  mem_read m a (n + k) = mem_read m a n ++ mem_read m (a + Z.of_nat n) k.
Proof.
  revert a; induction n as [|n IH]; intros a; cbn [mem_read Nat.add app].
  - f_equal. lia.
  - rewrite IH. do 2 f_equal. f_equal. lia.
Qed.

(** ** Record update: [r <| field := v |>] *)
Class Setter {R T : Type} (proj : R -> T) := setf : (T -> T) -> R -> R.
Arguments setf {R T} proj {_} f r /.

Declare Scope drv_scope.
Delimit Scope drv_scope with drv.

Notation "r <| proj := v |>" := (setf proj (fun _ => v) r)
  (at level 1, left associativity, proj at level 9) : drv_scope.

(** ** Computations of the driver

    A kernel or user-level function is a state transformer whose run ends in one of four ways:
    it returns, it crashes (a fault of the C program: the kernel would oops), it stays blocked
    for ever, or, in a loop given too little fuel, the model stops.  No theorem ever uses the last
    outcome as an excuse: where a loop has fuel, a lemma shows that it suffices. *)
Inductive Fault : Type :=
| NullDeref          (* a null pointer is dereferenced *)
| UseAfterFree       (* a freed object is dereferenced *)
| ListCorruption     (* a list link that is in no list is unlinked, or linked twice *)
| KernelBug          (* assert(): BUG() *)
| BadPointer         (* an error code that was returned for a pointer is dereferenced *)
| OutOfBounds.       (* an index outside of its array *)

#[export] Instance Fault_eq_dec : EqDecision Fault.
Proof. solve_decision. Defined.

Inductive Outcome (S A : Type) : Type :=
| Done (a : A) (s : S)
| Crash (f : Fault) (s : S)
| Blocked (s : S)
| NoFuel.
Arguments Done {S A} a s.
Arguments Crash {S A} f s.
Arguments Blocked {S A} s.
Arguments NoFuel {S A}.

Definition M (S A : Type) : Type := S -> Outcome S A.

Section Monad.
Context {S : Type}.

Definition ret {A} (a : A) : M S A := fun s => Done a s.

Definition bind {A B} (m : M S A) (k : A -> M S B) : M S B := fun s =>
  match m s with
  | Done a s' => k a s'
  | Crash f s' => Crash f s'
  | Blocked s' => Blocked s'
  | NoFuel => NoFuel
  end.

Definition gets {A} (f : S -> A) : M S A := fun s => Done (f s) s.
Definition modify (f : S -> S) : M S unit := fun s => Done tt (f s).
Definition crash {A} (f : Fault) : M S A := fun s => Crash f s.
Definition block {A} : M S A := fun s => Blocked s.
Definition nofuel {A} : M S A := fun _ => NoFuel.

(** A pointer is dereferenced: crash on null. *)
Definition deref {A} (f : Fault) (o : option A) : M S A :=
  match o with Some a => ret a | None => crash f end.

Definition when (b : bool) (m : M S unit) : M S unit := if b then m else ret tt.
End Monad.

Notation "'let*' x := m 'in' k" := (bind m (fun x => k))
  (at level 100, x pattern, m at next level, right associativity,
   format "'[v' let*  x  :=  m  in '/' k ']'") : drv_scope.
Notation "m1 >> m2" := (bind m1 (fun _ => m2))
  (at level 100, right associativity, format "'[v' m1  >> '/' m2 ']'") : drv_scope.

Open Scope drv_scope.

(** ** Reasoning about computations

    [safe m Q s]: run from [s], [m] does not crash, and if it returns, [Q] holds of the result;
    it may stay blocked.  [total m Q s]: it returns, and [Q] holds. *)
Definition safe {S A} (m : M S A) (Q : A -> S -> Prop) (s : S) : Prop :=
  match m s with
  | Done a s' => Q a s'
  | Blocked _ => True
  | Crash _ _ | NoFuel => False
  end.

Definition total {S A} (m : M S A) (Q : A -> S -> Prop) (s : S) : Prop :=
  match m s with
  | Done a s' => Q a s'
  | Blocked _ | Crash _ _ | NoFuel => False
  end.

(** [outcome m Q E s]: if [m] returns, [Q] holds of the result; if it crashes, [E] of the fault. *)
Definition outcome {S A} (m : M S A) (Q : A -> S -> Prop) (E : Fault -> S -> Prop) (s : S) : Prop :=
  match m s with
  | Done a s' => Q a s'
  | Crash f s' => E f s'
  | Blocked _ => True
  | NoFuel => False
  end.

(** [settles m Q E s]: [m] comes to an end: [Q] holds of its result, or [E] of the fault it crashes with. *)
Definition settles {S A} (m : M S A) (Q : A -> S -> Prop) (E : Fault -> S -> Prop) (s : S) : Prop :=
  match m s with
  | Done a s' => Q a s'
  | Crash f s' => E f s'
  | _ => False
  end.

Section Safe.
Context {S : Type}.
Implicit Types s : S.

Lemma total_safe {A} (m : M S A) Q s : total m Q s -> safe m Q s.
Proof. unfold total, safe. by destruct (m s). Qed.

Lemma safe_done {A} (m : M S A) Q s a s' : m s = Done a s' -> safe m Q s -> Q a s'.
Proof. unfold safe. by intros ->. Qed.

Lemma safe_mono {A} (m : M S A) (P Q : A -> S -> Prop) s :
  safe m P s -> (forall a s', P a s' -> Q a s') -> safe m Q s.
Proof. unfold safe. destruct (m s); auto. Qed.

Lemma total_mono {A} (m : M S A) (P Q : A -> S -> Prop) s :
  total m P s -> (forall a s', P a s' -> Q a s') -> total m Q s.
Proof. unfold total. destruct (m s); auto. Qed.

Lemma safe_ret {A} (a : A) (Q : A -> S -> Prop) s : Q a s -> safe (ret a) Q s.
Proof. done. Qed.

Lemma safe_bind {A B} (m : M S A) (k : A -> M S B) Q s :
  safe m (fun a s' => safe (k a) Q s') s -> safe (bind m k) Q s.
Proof. unfold safe, bind. destruct (m s); auto. Qed.

Lemma outcome_bind {A B} (m : M S A) (k : A -> M S B) Q E s (P : A -> S -> Prop) :
  safe m P s -> (forall a s', P a s' -> outcome (k a) Q E s') -> outcome (bind m k) Q E s.
Proof. unfold safe, outcome, bind. destruct (m s); naive_solver. Qed.

Lemma outcome_then {A B} (m : M S A) (k : A -> M S B) Q E s (P : A -> S -> Prop) :
  outcome m P E s -> (forall a s', P a s' -> outcome (k a) Q E s') -> outcome (bind m k) Q E s.
Proof. unfold outcome, bind. destruct (m s); naive_solver. Qed.

Lemma safe_outcome {A} (m : M S A) Q E s : safe m Q s -> outcome m Q E s.
Proof. unfold safe, outcome. by destruct (m s). Qed.

Lemma outcome_mono {A} (m : M S A) (P Q : A -> S -> Prop) (E F : Fault -> S -> Prop) s :
  outcome m P E s -> (forall a s', P a s' -> Q a s') -> (forall f s', E f s' -> F f s') -> outcome m Q F s.
Proof. unfold outcome. destruct (m s); auto. Qed.

Lemma settles_then {A B} (m : M S A) (k : A -> M S B) P Q E s :
  settles m P E s -> (forall a s', P a s' -> settles (k a) Q E s') -> settles (bind m k) Q E s.
Proof. unfold settles, bind. destruct (m s); naive_solver. Qed.

Lemma settles_bind {A B} (m : M S A) (k : A -> M S B) P Q E s :
  total m P s -> (forall a s', P a s' -> settles (k a) Q E s') -> settles (bind m k) Q E s.
Proof. unfold settles, total, bind. destruct (m s); naive_solver. Qed.

Lemma settles_mono {A} (m : M S A) (P Q : A -> S -> Prop) (E F : Fault -> S -> Prop) s :
  settles m P E s -> (forall a s', P a s' -> Q a s') -> (forall f s', E f s' -> F f s') -> settles m Q F s.
Proof. unfold settles. destruct (m s); auto. Qed.

Lemma settles_total {A} (m : M S A) Q E s : total m Q s -> settles m Q E s.
Proof. unfold settles, total. by destruct (m s). Qed.

Lemma settles_ret {A} (a : A) (Q : A -> S -> Prop) E s : Q a s -> settles (ret a) Q E s.
Proof. done. Qed.

Lemma total_bind {A B} (m : M S A) (k : A -> M S B) Q s :
  total m (fun a s' => total (k a) Q s') s -> total (bind m k) Q s.
Proof. unfold total, bind. destruct (m s); auto. Qed.

Lemma total_ret {A} (a : A) (Q : A -> S -> Prop) s : Q a s -> total (ret a) Q s.
Proof. done. Qed.

Lemma safe_gets {A} (f : S -> A) Q s : Q (f s) s -> safe (gets f) Q s.
Proof. done. Qed.

Lemma total_gets {A} (f : S -> A) Q s : Q (f s) s -> total (gets f) Q s.
Proof. done. Qed.

Lemma safe_modify f (Q : unit -> S -> Prop) s : Q tt (f s) -> safe (modify f) Q s.
Proof. done. Qed.

Lemma total_modify f (Q : unit -> S -> Prop) s : Q tt (f s) -> total (modify f) Q s.
Proof. done. Qed.

Lemma safe_block {A} (Q : A -> S -> Prop) s : safe block Q s.
Proof. done. Qed.

Lemma safe_when b (m : M S unit) Q s :
  (b = true -> safe m Q s) -> (b = false -> Q tt s) -> safe (when b m) Q s.
Proof. destruct b; intros; [auto|]. apply safe_ret; auto. Qed.

Lemma total_when b (m : M S unit) Q s :
  (b = true -> total m Q s) -> (b = false -> Q tt s) -> total (when b m) Q s.
Proof. destruct b; intros; [auto|]. apply total_ret; auto. Qed.

Lemma safe_deref {A} f (o : option A) (Q : A -> S -> Prop) s a :
  o = Some a -> Q a s -> safe (deref f o) Q s.
Proof. by intros -> ?. Qed.

Lemma total_deref {A} f (o : option A) (Q : A -> S -> Prop) s a :
  o = Some a -> Q a s -> total (deref f o) Q s.
Proof. by intros -> ?. Qed.

(** The monad laws, as equations between runs. *)
Lemma bind_inv {A B} (m : M S A) (k : A -> M S B) s b s' : bind m k s = Done b s' ->
  exists a s1, m s = Done a s1 /\ k a s1 = Done b s'.
Proof. unfold bind. destruct (m s) as [a s1| | |]; try done. eauto. Qed.

Lemma bind_done {A B} (m : M S A) (k : A -> M S B) s a s' :
  m s = Done a s' -> bind m k s = k a s'.
Proof. unfold bind. by intros ->. Qed.

Lemma bind_assoc {A B C} (m : M S A) (k : A -> M S B) (h : B -> M S C) s :
  bind (bind m k) h s = bind m (fun a => bind (k a) h) s.
Proof. unfold bind. by destruct (m s). Qed.

(** Three steps whose run is known, in front of the rest. *)
Lemma bind_three {A B C D} (m : M S A) (n : M S B) (o : M S C) (k : C -> M S D) s c s' :
  (m >> n >> o) s = Done c s' -> (m >> n >> bind o k) s = k c s'.
Proof.
  unfold bind. destruct (m s) as [a s1| | |]; try done.
  destruct (n s1) as [b s2| | |]; try done. by intros ->.
Qed.
End Safe.

(** One symbolic-execution step of [safe] or [total]. *)
Ltac run_step :=
  first
    [ apply safe_bind | apply total_bind
    | apply safe_ret | apply total_ret
    | apply safe_gets | apply total_gets
    | apply safe_modify | apply total_modify
    | eapply safe_deref; [eassumption|] | eapply total_deref; [eassumption|]
    | apply safe_when; intros ? | apply total_when; intros ? ].
Ltac run := repeat run_step.

(** ** Hint databases

    [c_int]: ranges of machine integers. *)
Create HintDb c_int discriminated.
Create Rewrite HintDb c_len.
#[export] Hint Resolve u32_range u16_range s32_range wrap_range : c_int.
#[export] Hint Rewrite @length_insert length_le_bytes : c_len.

(** ** Lists *)
Lemma lookup_app_mid {A} (l1 l2 : list A) x : (l1 ++ x :: l2) !! length l1 = Some x.
Proof. by rewrite list_lookup_middle. Qed.

(** Remove the first occurrence. *)
Fixpoint remove_one `{EqDecision A} (x : A) (l : list A) : list A :=
  match l with
  | [] => []
  | y :: l => if decide (x = y) then l else y :: remove_one x l
  end.

Section RemoveOne.
Context `{EqDecision A}.
Implicit Types (x y : A) (l : list A).

Lemma remove_one_not_in x l : x ∉ l -> remove_one x l = l.
Proof.
  induction l as [|y l IH]; intros Hx; simpl; [done|].
  apply not_elem_of_cons in Hx as [? ?]. rewrite decide_False by done. by rewrite IH.
Qed.

Lemma remove_one_elem_ne x y l : x <> y -> (y ∈ remove_one x l <-> y ∈ l).
Proof.
  intros Hne. induction l as [|z l IH]; simpl; [done|].
  case_decide; subst; rewrite !elem_of_cons; [naive_solver|]. by rewrite IH.
Qed.

Lemma remove_one_subset x y l : y ∈ remove_one x l -> y ∈ l.
Proof.
  induction l as [|z l IH]; simpl; [done|].
  case_decide; rewrite !elem_of_cons; naive_solver.
Qed.

Lemma remove_one_NoDup x l : NoDup l -> NoDup (remove_one x l).
Proof.
  induction 1 as [|z l Hz Hl IH]; simpl; [constructor|].
  case_decide; [done|]. constructor; [|done]. by intros ?%remove_one_subset.
Qed.

Lemma remove_one_elem_self x l : NoDup l -> x ∉ remove_one x l.
Proof.
  induction 1 as [|z l Hz Hl IH]; simpl; [set_solver|].
  case_decide; subst; [done|]. rewrite elem_of_cons. naive_solver.
Qed.

Lemma remove_one_length x l : x ∈ l -> S (length (remove_one x l)) = length l.
Proof.
  induction l as [|z l IH]; [set_solver|]. rewrite elem_of_cons. intros H. simpl.
  case_decide; [done|]. simpl. f_equal. apply IH. naive_solver.
Qed.

Lemma remove_one_app_last x l : x ∉ l -> remove_one x (l ++ [x]) = l.
Proof.
  induction l as [|z l IH]; intros Hx; simpl.
  - by rewrite decide_True.
  - apply not_elem_of_cons in Hx as [? ?]. rewrite decide_False by done. by rewrite IH.
Qed.
End RemoveOne.
