(* ===== verification/CString.v ===== *)
(** * C strings and what [sprintf] prints

    A C string is the list of its characters, without the NUL that ends it.  The numbers the driver
    prints, [%d] and [%08x], with their readers: what a program that parses the text gets back. *)

From Stdlib Require Import Ascii String.
From S2P Require Import Prelude.

(** The characters of a literal. *)
Definition chars (s : string) : list Z :=
  (fun c => Z.of_N (N_of_ascii c)) <$> list_ascii_of_string s.
Arguments chars s%_string_scope.

Definition newline : Z := 10.

(** ** Digits *)
Definition digit_char (d : Z) : Z := if d <? 10 then 48 + d else 87 + d.
Definition char_digit (c : Z) : Z := if c <? 58 then c - 48 else c - 87.

(** The digits of [z], the most significant first; 32 digits are more than a 32-bit number has. *)
Fixpoint digits (n : nat) (base z : Z) : list Z :=
  match n with
  | O => []
  | S n => (if z / base =? 0 then [] else digits n base (z / base)) ++ [digit_char (z mod base)]
  end.

Definition read_digits (base : Z) (s : list Z) : Z :=
  fold_left (fun v c => v * base + char_digit c) s 0.

Lemma char_digit_char d : 0 <= d < 16 -> char_digit (digit_char d) = d.
Proof.
  intros ?. unfold char_digit, digit_char. destruct (Z.ltb_spec d 10).
  - destruct (Z.ltb_spec (48 + d) 58); lia.
  - destruct (Z.ltb_spec (87 + d) 58); lia.
Qed.

Lemma read_digits_snoc base s c : read_digits base (s ++ [c]) = read_digits base s * base + char_digit c.
Proof. unfold read_digits. by rewrite fold_left_app. Qed.

Lemma read_digits_digits n base z : 2 <= base <= 16 -> 0 <= z < base ^ Z.of_nat n ->
  read_digits base (digits n base z) = z.
Proof.
  intros Hb. revert z. induction n as [|n IH]; intros z Hz.
  - cbn in *. lia.
  - cbn [digits]. rewrite read_digits_snoc, char_digit_char by (pose proof (Z.mod_pos_bound z base); lia).
    pose proof (Z.div_mod z base). destruct (Z.eqb_spec (z / base) 0) as [E|].
    + change (read_digits base []) with 0. lia.
    + rewrite IH; [lia|]. rewrite Nat2Z.inj_succ, Z.pow_succ_r in Hz by lia.
      split; [by apply Z.div_pos; lia|by apply Z.div_lt_upper_bound; lia].
Qed.

Definition digit_chars_ok (c : Z) : Prop := 48 <= c < 58 \/ 97 <= c < 103.
Lemma digits_chars n base z : 2 <= base <= 16 -> Forall digit_chars_ok (digits n base z).
Proof.
  intros Hb. revert z. induction n as [|n IH]; intros z; [constructor|]. cbn [digits].
  apply Forall_app. split; [by destruct (_ =? _)|]. constructor; [|done].
  pose proof (Z.mod_pos_bound z base). unfold digit_char, digit_chars_ok.
  destruct (Z.ltb_spec (z mod base) 10); lia.
Qed.

Lemma digits_length n base z : (length (digits n base z) <= n)%nat.
Proof.
  revert z. induction n as [|n IH]; intros z; [done|]. cbn [digits]. rewrite length_app.
  specialize (IH (z / base)). destruct (_ =? 0); cbn [length]; lia.
Qed.

(** ** Conversions *)

(** [%d] *)
Definition fmt_d (z : Z) : list Z := if z <? 0 then 45 :: digits 32 10 (- z) else digits 32 10 z.

(** [%08x] of an unsigned: at least 8 digits, padded with zeros. *)
Definition pad0 (n : nat) (s : list Z) : list Z := replicate (n - length s) 48 ++ s.
Definition fmt_08x (z : Z) : list Z := pad0 8 (digits 32 16 z).

(** What [strtol] reads back. *)
Definition read_d (s : list Z) : Z :=
  match s with
  | c :: s' => if c =? 45 then - read_digits 10 s' else read_digits 10 s
  | [] => 0
  end.

Lemma read_d_fmt_d z : - 2 ^ 31 <= z < 2 ^ 32 -> read_d (fmt_d z) = z.
Proof.
  intros Hz. unfold fmt_d. destruct (Z.ltb_spec z 0).
  - unfold read_d. rewrite Z.eqb_refl, read_digits_digits; lia.
  - pose proof (digits_chars 32 10 z ltac:(lia)) as Hf.
    assert (read_digits 10 (digits 32 10 z) = z) as E by (apply read_digits_digits; lia).
    destruct (digits 32 10 z) as [|c s]; [exact E|]. apply Forall_cons in Hf as [Hc _].
    unfold read_d. destruct (Z.eqb_spec c 45) as [->|_]; [unfold digit_chars_ok in Hc; lia|done].
Qed.

Lemma read_digits_pad n base s : read_digits base (pad0 n s) = read_digits base s.
Proof.
  unfold pad0, read_digits. rewrite fold_left_app. f_equal.
  induction (n - length s)%nat as [|m IH]; [done|]. exact IH.
Qed.

Lemma fmt_08x_length z : (length (fmt_08x z) <= 32)%nat.
Proof.
  unfold fmt_08x, pad0. rewrite length_app, length_replicate. pose proof (digits_length 32 16 z). lia.
Qed.

Lemma fmt_08x_read z : 0 <= z < 2 ^ 32 -> read_digits 16 (fmt_08x z) = z.
Proof. intros ?. unfold fmt_08x. rewrite read_digits_pad. apply read_digits_digits; lia. Qed.

(** How long a printed number is. *)
Lemma digits_bound n base z k : 2 <= base -> 0 <= z < base ^ Z.of_nat k -> (0 < k)%nat ->
  (length (digits n base z) <= k)%nat.
Proof.
  intros Hb. revert z k. induction n as [|n IH]; intros z k Hz Hk; [cbn; lia|]. cbn [digits].
  rewrite length_app. cbn [length]. destruct (Z.eqb_spec (z / base) 0) as [_|Hne]; [cbn; lia|].
  destruct k as [|[|k]]; [lia| |].
  - rewrite Z.pow_1_r in Hz. exfalso. apply Hne. apply Z.div_small. lia.
  - enough (length (digits n base (z / base)) <= S k)%nat by lia. apply IH; [|lia].
    rewrite Nat2Z.inj_succ, Z.pow_succ_r in Hz by lia.
    split; [by apply Z.div_pos; lia|by apply Z.div_lt_upper_bound; lia].
Qed.

Lemma fmt_d_bound z : - 2 ^ 31 <= z < 2 ^ 31 -> (length (fmt_d z) <= 11)%nat.
Proof.
  intros Hz. unfold fmt_d. destruct (Z.ltb_spec z 0); cbn [length].
  - pose proof (digits_bound 32 10 (- z) 10 ltac:(lia) ltac:(lia) ltac:(lia)). lia.
  - pose proof (digits_bound 32 10 z 10 ltac:(lia) ltac:(lia) ltac:(lia)). lia.
Qed.

(** ** string.h *)

(** The string an array of characters holds: up to the first NUL. *)
Fixpoint c_string (arr : list Z) : list Z :=
  match arr with
  | [] => []
  | c :: arr => if c =? 0 then [] else c :: c_string arr
  end.

(** [strncmp(s, t, n) == 0]; characters are compared up to the end of both strings. *)
Definition strncmp_eq (s t : list Z) (n : nat) : bool := bool_decide (take n s = take n t).

(** [strncpy] into a zeroed or terminated array of more than [n] characters. *)
Definition strncpy (s : list Z) (n : nat) : list Z := take n s.
