(* ===== verification/Stdio.v ===== *)
(** * The C library of the programs: lines, searches, numbers in text

    What acqcmd.c, htstream.c and int-disable-test.c use of stdio.h, string.h and stdlib.h, on C
    strings as lists of characters. *)

From Stdlib Require Import String.
From S2P Require Import Prelude CString.

(** ** Reading lines *)

(** At most [n] characters, up to and with the first newline, and the rest. *)
Fixpoint take_line (n : nat) (s : list Z) : list Z * list Z :=
  match n, s with
  | S n, c :: s =>
      if c =? newline then ([c], s) else let '(l, s) := take_line n s in (c :: l, s)
  | _, _ => ([], s)
  end.

(** [fgets(buf, size, stream)] of a stream with text [s] to come: the characters read, and the text
    left; [None] at its end. *)
Definition fgets (size : nat) (s : list Z) : option (list Z * list Z) :=
  match s with
  | [] => None
  | _ => Some (take_line (size - 1) s)
  end.

Lemma take_line_app n s : fst (take_line n s) ++ snd (take_line n s) = s.
Proof.
  revert s. induction n as [|n IH]; intros [|c s]; [done..|]. cbn [take_line].
  destruct (c =? newline); [done|]. specialize (IH s).
  destruct (take_line n s) as [l r]. cbn in *. by rewrite IH.
Qed.

Lemma take_line_length n s : (length (fst (take_line n s)) <= n)%nat.
Proof.
  revert s. induction n as [|n IH]; intros [|c s]; cbn; [lia..|].
  destruct (c =? newline); cbn; [lia|]. specialize (IH s). destruct (take_line n s). cbn in *. lia.
Qed.

(** A line that fits is read whole. *)
Lemma take_line_whole n l s : newline ∉ l -> (length l < n)%nat ->
  take_line n (l ++ newline :: s) = (l ++ [newline], s).
Proof.
  revert n. induction l as [|c l IH]; intros [|n] Hl Hn; cbn [length] in Hn; [lia| |lia|].
  - by cbn [take_line app].
  - apply not_elem_of_cons in Hl as [Hc Hl]. cbn [take_line app].
    rewrite (proj2 (Z.eqb_neq c newline)) by congruence. by rewrite IH by (done || lia).
Qed.

(** Every call gets on. *)
Lemma fgets_shrinks size s l r : (1 < size)%nat -> fgets size s = Some (l, r) ->
  s = l ++ r /\ (length r < length s)%nat.
Proof.
  intros Hn. unfold fgets. destruct s as [|c s]; [done|]. intros [= E].
  assert (l ++ r = c :: s) as Happ.
  { rewrite <- (take_line_app (size - 1) (c :: s)), E. done. }
  split; [done|]. rewrite <- Happ. destruct l as [|d l].
  - destruct (size - 1)%nat as [|n] eqn:En; [lia|]. cbn [take_line] in E.
    destruct (c =? newline); [done|]. by destruct (take_line n s).
  - cbn [app length]. rewrite length_app. lia.
Qed.

(** ** Comparing and searching *)

(** [strcmp(s, t) == 0], [STREQ]. *)
Definition STREQ (s t : list Z) : bool := bool_decide (s = t).

Fixpoint is_prefix (t s : list Z) : bool :=
  match t, s with
  | [], _ => true
  | c :: t, d :: s => (c =? d) && is_prefix t s
  | _, [] => false
  end.

(** [strstr(s, t) != 0] *)
Fixpoint strstr (s t : list Z) : bool :=
  is_prefix t s || match s with [] => false | _ :: s => strstr s t end.

Lemma is_prefix_spec t s : is_prefix t s = true <-> exists b, s = t ++ b.
Proof.
  revert s. induction t as [|c t IH]; intros s; cbn [is_prefix app].
  - split; [by exists s|done].
  - destruct s as [|d s]; [split; [done|by intros [b Hb]]|].
    rewrite andb_true_iff, IH, Z.eqb_eq. split.
    + intros [-> [b ->]]. by exists b.
    + intros [b Hb]. injection Hb as -> ->. split; [done|by exists b].
Qed.

(** It finds exactly the strings that occur. *)
Lemma strstr_spec s t : strstr s t = true <-> exists a b, s = a ++ t ++ b.
Proof.
  induction s as [|c s IH]; cbn [strstr]; rewrite orb_true_iff, is_prefix_spec.
  - split.
    + intros [[b Hb]|]; [by exists [], b|done].
    + intros (a & b & Hb). destruct a; [left; by exists b|done].
  - rewrite IH. split.
    + intros [[b Hb]|(a & b & ->)]; [by exists [], b|by exists (c :: a), b].
    + intros ([|d a] & b & Hb); [left; by exists b|]. injection Hb as -> Hb. right. by exists a, b.
Qed.

(** ** Numbers in text *)
Definition isspace (c : Z) : bool := (c =? 32) || ((9 <=? c) && (c <=? 13)).
Fixpoint skip_spaces (s : list Z) : list Z :=
  match s with
  | c :: s' => if isspace c then skip_spaces s' else s
  | [] => []
  end.

(** The value of a character as a digit in bases up to 36, upper case or lower. *)
Definition digit_of (c : Z) : option Z :=
  if (48 <=? c) && (c <=? 57) then Some (c - 48)
  else if (97 <=? c) && (c <=? 122) then Some (c - 87)
  else if (65 <=? c) && (c <=? 90) then Some (c - 55)
  else None.

Fixpoint scan_digits (base v : Z) (s : list Z) : Z :=
  match s with
  | c :: s =>
      match digit_of c with
      | Some d => if d <? base then scan_digits base (v * base + d) s else v
      | None => v
      end
  | [] => v
  end.

Definition scan_sign (s : list Z) : bool * list Z :=
  match s with
  | c :: s' => if c =? 45 then (true, s') else if c =? 43 then (false, s') else (false, s)
  | [] => (false, [])
  end.

(** [atoi]: [(int) strtol(s, 0, 10)]; [long] has 32 bits and [strtol] stops at its bounds. *)
Definition atoi (s : list Z) : Z :=
  let '(neg, s) := scan_sign (skip_spaces s) in
  let v := scan_digits 10 0 s in
  if neg then Z.max (- 2 ^ 31) (- v) else Z.min (2 ^ 31 - 1) v.

(** [strtoul(s, 0, 0)]: the base is that of a C constant. *)
Definition strtoul0 (s : list Z) : Z :=
  let '(neg, s) := scan_sign (skip_spaces s) in
  let v := match s with
           | 48 :: c :: s' =>
               if (c =? 120) || (c =? 88)
               then match s' with
                    | d :: _ => match digit_of d with
                                | Some n => if n <? 16 then scan_digits 16 0 s' else 0
                                | None => 0
                                end
                    | [] => 0
                    end
               else scan_digits 8 0 (c :: s')
           | _ => scan_digits 10 0 s
           end in
  if 2 ^ 32 <=? v then 2 ^ 32 - 1 else if neg then u32 (- v) else v.

(** What [sprintf] printed is read back, whatever follows that is not a digit. *)
Definition no_digit (t : list Z) : Prop :=
  match t with [] => True | c :: _ => digit_of c = None end.

Lemma scan_digits_read base s t v : base <= 10 -> Forall (fun c => 48 <= c < 48 + base) s ->
  no_digit t -> scan_digits base v (s ++ t) = fold_left (fun v c => v * base + char_digit c) s v.
Proof.
  intros Hb Hs Ht. revert v. induction Hs as [|c s Hc Hs IH]; intros v; cbn [app scan_digits fold_left].
  - destruct t as [|c t]; [done|]. cbn [scan_digits]. by rewrite Ht.
  - unfold digit_of. rewrite (proj2 (Z.leb_le 48 c)), (proj2 (Z.leb_le c 57)) by lia. cbn [andb].
    rewrite (proj2 (Z.ltb_lt (c - 48) base)) by lia. rewrite IH. unfold char_digit.
    by rewrite (proj2 (Z.ltb_lt c 58)) by lia.
Qed.

Lemma digits_below n base z : 2 <= base <= 10 -> Forall (fun c => 48 <= c < 48 + base) (digits n base z).
Proof.
  intros Hb. revert z. induction n as [|n IH]; intros z; [constructor|]. cbn [digits]. apply Forall_app.
  split; [by destruct (_ =? _)|]. constructor; [|done].
  pose proof (Z.mod_pos_bound z base). unfold digit_char. destruct (Z.ltb_spec (z mod base) 10); lia.
Qed.

Lemma atoi_fmt_d z t : - 2 ^ 31 <= z < 2 ^ 31 -> no_digit t -> atoi (fmt_d z ++ t) = z.
Proof.
  intros Hz Ht.
  assert (forall y, 0 <= y < 10 ^ Z.of_nat 32 -> scan_digits 10 0 (digits 32 10 y ++ t) = y) as Hs.
  { intros y Hy. rewrite scan_digits_read by (done || lia || (apply digits_below; lia)).
    by apply (read_digits_digits 32 10 y). }
  unfold atoi, fmt_d. destruct (Z.ltb_spec z 0).
  - change (skip_spaces ((45 :: digits 32 10 (- z)) ++ t)) with (45 :: (digits 32 10 (- z) ++ t)).
    cbn [scan_sign Z.eqb Pos.eqb]. rewrite Hs by lia. lia.
  - pose proof (digits_below 32 10 z ltac:(lia)) as Hd. specialize (Hs z ltac:(lia)).
    destruct (digits 32 10 z) as [|c s] eqn:E.
    + apply (f_equal length) in E. cbn [digits] in E. rewrite length_app in E. cbn in E. lia.
    + apply Forall_cons in Hd as [Hc _]. cbn [app] in *.
      assert (isspace c = false) as Hsp by (unfold isspace; lia). cbn [skip_spaces]. rewrite Hsp.
      cbn [scan_sign]. rewrite (proj2 (Z.eqb_neq c 45)), (proj2 (Z.eqb_neq c 43)) by lia. rewrite Hs. lia.
Qed.
