(* ===== verification/Local.v ===== *)
(** * local.h: what the programs share

    Macros on numbers, the logging macros, and two functions that change a string in its array.  The
    array is the state; a place outside of it is out of bounds. *)

From Stdlib Require Import String.
From S2P Require Import Prelude CString Stdio.

(** ** Macros *)
Definition STREQN (s1 s2 : list Z) (n : nat) : bool := strncmp_eq s1 s2 n.
Definition STREQNL (s1 s2 : list Z) : bool := strncmp_eq s1 s2 (length s2).
Definition ATOL (s1 : list Z) : Z := u32 (strtoul0 s1).

Definition IN_RANGE (xx ll rr : Z) : bool := (ll <=? xx) && (xx <=? rr).
(** The value that is assigned to [xx]. *)
Definition CLAMP (xx ll rr : Z) : Z := if xx <? ll then ll else if rr <? xx then rr else xx.
(** [aa], [bb] and [tt] afterwards. *)
Definition SWAP (aa bb tt : Z) : Z * Z * Z :=
  let tt := aa in let aa := bb in let bb := tt in (aa, bb, tt).
Definition MAX (aa bb : Z) : Z := if bb <=? aa then aa else bb.
Definition MIN (aa bb : Z) : Z := if aa <=? bb then aa else bb.
Definition ABS (aa : Z) : Z := if 0 <? aa then aa else s32 (- aa).
Definition SIGN (aa : Z) : Z := if 0 <=? aa then 1 else -1.

(** ** Logging.  What a macro writes, and where: a line, on the screen (the standard error) or in the
    system log with its priority.  The function's name and the line's text are given. *)
Definition ACQ200_SYSLOG_SCREEN : Z := 1.
Definition ACQ200_SYSLOG_SYSLOG : Z := 2.
Definition ACQ200_SYSLOG_MODE : Z := Z.lor ACQ200_SYSLOG_SCREEN ACQ200_SYSLOG_SYSLOG.
Definition LOG_ERR : Z := 3.
Definition LOG_INFO : Z := 6.
Definition LOG_DEBUG : Z := 7.

Inductive Logged := on_screen (text : list Z) | in_syslog (pri : Z) (text : list Z).

Definition _ACQ200_SYSLOG_SCREEN (mode pri : Z) (text : list Z) : list Logged :=
  if istrue (Z.land mode ACQ200_SYSLOG_SCREEN) then [on_screen text] else [].
Definition _ACQ200_SYSLOG_SYSLOG (mode pri : Z) (text : list Z) : list Logged :=
  if istrue (Z.land mode ACQ200_SYSLOG_SYSLOG) then [in_syslog pri text] else [].
Definition ACQ200_SYSLOG (mode pri : Z) (text : list Z) : list Logged :=
  _ACQ200_SYSLOG_SCREEN mode pri text ++ _ACQ200_SYSLOG_SYSLOG mode pri text.

Definition info (mode : Z) (FN text : list Z) : list Logged :=
  ACQ200_SYSLOG mode LOG_INFO (FN ++ chars " " ++ text ++ [newline]).
Definition err (mode : Z) (FN text : list Z) : list Logged :=
  ACQ200_SYSLOG mode LOG_ERR (FN ++ chars " ERROR:" ++ text ++ [newline]).

Definition deb_line (lvl : Z) (FN text : list Z) : list Z :=
  chars "deb(" ++ fmt_d lvl ++ chars ") " ++ FN ++ chars " " ++ text.
Definition dbg (mode acq200_debug lvl : Z) (FN text : list Z) : list Logged :=
  if lvl <=? acq200_debug then
    if lvl <=? 1 then ACQ200_SYSLOG mode LOG_DEBUG (FN ++ chars " " ++ text ++ [newline])
    else [on_screen (deb_line lvl FN text ++ [newline])]
  else [].
Definition dbgnl (mode acq200_debug lvl : Z) (FN text : list Z) : list Logged :=
  if lvl <=? acq200_debug then
    (if lvl <=? 1 then ACQ200_SYSLOG mode LOG_DEBUG (FN ++ chars " " ++ text) else []) ++
    [on_screen (deb_line lvl FN text)]
  else [].

(** ** Strings in place *)
Definition char_at (i : Z) : M (list Z) Z :=
  let* a := gets (fun a => a) in
  if i <? 0 then crash OutOfBounds else deref OutOfBounds (a !! Z.to_nat i).
Definition set_char (i c : Z) : M (list Z) unit :=
  char_at i >> modify (insert (Z.to_nat i) c).
Definition strlen : M (list Z) Z := gets (fun a => Z.of_nat (length (c_string a))).

Definition is_eol (c : Z) : bool := (c =? newline) || (c =? 13).

Fixpoint chomp_loop (fuel : nat) (plast : Z) : M (list Z) unit :=
  match fuel with
  | O => nofuel
  | S fuel =>
      let* c := char_at plast in
      if is_eol c then
        set_char plast 0 >>
        let plast := plast - 1 in
        if plast =? 0 then ret tt else chomp_loop fuel plast
      else ret tt
  end.

Definition chomp : M (list Z) unit :=
  let* n := strlen in
  let* a := gets (fun a => a) in
  chomp_loop (S (length a)) (n - 1).

Fixpoint tr_loop (n : nat) (ii c1 c2 : Z) : M (list Z) unit :=
  match n with
  | O => ret tt
  | S n =>
      let* c := char_at ii in
      when (c =? c1) (set_char ii c2) >> tr_loop n (ii + 1) c1 c2
  end.

Definition tr (c1 c2 : Z) : M (list Z) unit :=
  let* i2 := strlen in tr_loop (Z.to_nat i2) 0 c1 c2.

(** ** Ranges *)

(** A value that was clamped is in range, and is the nearest that is. *)
Lemma clamp_in_range xx ll rr : ll <= rr ->
  IN_RANGE (CLAMP xx ll rr) ll rr = true /\
  forall y, IN_RANGE y ll rr = true -> Z.abs (CLAMP xx ll rr - xx) <= Z.abs (y - xx).
Proof.
  intros Hr. unfold IN_RANGE, CLAMP. setoid_rewrite andb_true_iff. setoid_rewrite Z.leb_le.
  destruct (Z.ltb_spec xx ll), (Z.ltb_spec rr xx); split; intros; lia.
Qed.

(** ** Characters in the array *)
Lemma char_at_app l c r : char_at (Z.of_nat (length l)) (l ++ c :: r) = Done c (l ++ c :: r).
Proof.
  unfold char_at. erewrite bind_done by reflexivity. rewrite (proj2 (Z.ltb_ge _ _)) by lia.
  by rewrite Nat2Z.id, list_lookup_middle.
Qed.

Lemma set_char_app l c r c' : set_char (Z.of_nat (length l)) c' (l ++ c :: r) = Done tt (l ++ c' :: r).
Proof.
  unfold set_char. erewrite bind_done by apply char_at_app. unfold modify. f_equal.
  rewrite Nat2Z.id, insert_app_r_alt, Nat.sub_diag by lia. done.
Qed.

(** The string in an array that begins with [s] and its end. *)
Lemma c_string_app s r : 0 ∉ s -> c_string (s ++ 0 :: r) = s.
Proof.
  induction s as [|c s IH]; [done|]. intros [Hc Hs]%not_elem_of_cons. cbn [c_string app].
  rewrite (proj2 (Z.eqb_neq c 0)) by congruence. by rewrite IH.
Qed.

Lemma chomp_loop_strips fuel body c tail r : is_eol c = false -> Forall (fun c => is_eol c = true) tail ->
  (length tail < fuel)%nat ->
  chomp_loop fuel (Z.of_nat (length body + length tail)) (body ++ c :: tail ++ r) =
    Done tt (body ++ c :: replicate (length tail) 0 ++ r).
Proof.
  intros Hc Ht. revert fuel r. induction tail as [|e tail IH] using rev_ind; intros fuel r Hf;
    (destruct fuel as [|fuel]; [cbn in Hf; lia|]); cbn [chomp_loop].
  - rewrite Nat.add_0_r. erewrite bind_done by apply char_at_app. by rewrite Hc.
  - apply Forall_app in Ht as [Ht [He _]%Forall_cons]. rewrite length_app in *. cbn [length] in *.
    assert (Z.of_nat (length body + (length tail + 1)) = Z.of_nat (length (body ++ c :: tail))) as El
      by (rewrite length_app; cbn; lia).
    assert (forall x, body ++ c :: (tail ++ [x]) ++ r = (body ++ c :: tail) ++ x :: r) as Es
      by (intros x; rewrite <- !app_assoc; done).
    rewrite El, Es. erewrite bind_done by apply char_at_app. rewrite He.
    erewrite bind_done by apply set_char_app. rewrite <- El. cbv zeta.
    replace (Z.of_nat (length body + (length tail + 1)) - 1) with (Z.of_nat (length body + length tail)) by lia.
    rewrite <- app_assoc. cbn [app].
    assert (replicate (length tail + 1) 0 ++ r = replicate (length tail) 0 ++ 0 :: r) as ->
      by (rewrite replicate_add, <- app_assoc; done).
    destruct (Z.eqb_spec (Z.of_nat (length body + length tail)) 0) as [E|E]; [|apply IH; [done|lia]].
    assert (tail = []) as -> by (apply length_zero_iff_nil; lia). done.
Qed.

(** [chomp]: of a string that has a character before its line ends, the line ends are cut off, however
    many there are, and the rest of the array is as it was. *)
Theorem chomp_strips body c tail r : 0 ∉ body -> c <> 0 -> is_eol c = false ->
  Forall (fun c => is_eol c = true) tail ->
  chomp (body ++ c :: tail ++ 0 :: r) = Done tt (body ++ c :: replicate (S (length tail)) 0 ++ r) /\
  c_string (body ++ c :: replicate (S (length tail)) 0 ++ r) = body ++ [c].
Proof.
  intros Hb H0 Hc Ht.
  assert (0 ∉ body ++ [c]) as Hbc by (rewrite elem_of_app, list_elem_of_singleton; naive_solver).
  assert (0 ∉ tail) as H0t by (intros Hin; rewrite Forall_forall in Ht; apply Ht in Hin; done).
  split.
  - unfold chomp, strlen. erewrite bind_done by reflexivity. erewrite bind_done by reflexivity. cbv beta.
    assert (body ++ c :: tail ++ 0 :: r = (body ++ [c] ++ tail) ++ 0 :: r) as Ea
      by (rewrite <- !app_assoc; done).
    rewrite Ea at 2. rewrite c_string_app by (rewrite app_assoc, elem_of_app; naive_solver).
    rewrite !length_app. cbn [length].
    replace (Z.of_nat (length body + (1 + length tail)) - 1) with (Z.of_nat (length body + length tail)) by lia.
    rewrite chomp_loop_strips by (done || (rewrite length_app; lia)).
    by rewrite replicate_S_end, <- app_assoc.
  - change (body ++ c :: replicate (S (length tail)) 0 ++ r) with (body ++ [c] ++ 0 :: replicate (length tail) 0 ++ r).
    rewrite app_assoc. by apply c_string_app.
Qed.

(** An empty string, and one that is a line end alone, are read before the start of their array. *)
Theorem chomp_short r e : is_eol e = true ->
  chomp (0 :: r) = Crash OutOfBounds (0 :: r) /\ chomp (e :: 0 :: r) = Crash OutOfBounds (0 :: 0 :: r).
Proof.
  intros He. split; [reflexivity|]. assert (e = 10 \/ e = 13) as [-> | ->]; [|reflexivity..].
  unfold is_eol, newline in He. apply orb_true_iff in He as [?%Z.eqb_eq|?%Z.eqb_eq]; auto.
Qed.

Definition swap_char (c1 c2 c : Z) : Z := if c =? c1 then c2 else c.

Lemma tr_loop_map done_ todo r c1 c2 :
  tr_loop (length todo) (Z.of_nat (length done_)) c1 c2 (done_ ++ todo ++ r) =
    Done tt (done_ ++ (swap_char c1 c2 <$> todo) ++ r).
Proof.
  revert done_. induction todo as [|c todo IH]; intros d; cbn [tr_loop length app fmap list_fmap]; [done|].
  erewrite bind_done by apply char_at_app.
  erewrite (bind_done _ _ _ tt (d ++ swap_char c1 c2 c :: todo ++ r)).
  - specialize (IH (d ++ [swap_char c1 c2 c])). rewrite length_app in IH. cbn [length] in IH.
    replace (Z.of_nat (length d) + 1) with (Z.of_nat (length d + 1)) by lia.
    rewrite <- !app_assoc in IH. exact IH.
  - unfold swap_char. destruct (c =? c1); cbn [when]; [apply set_char_app|done].
Qed.

(** [tr] changes every [c1] of the string and nothing else; with the characters changed round it is
    undone, when the string has no [c2]. *)
Theorem tr_maps s r c1 c2 : 0 ∉ s ->
  tr c1 c2 (s ++ 0 :: r) = Done tt ((swap_char c1 c2 <$> s) ++ 0 :: r) /\
  (c2 <> 0 -> c2 ∉ s -> (tr c1 c2 >> tr c2 c1) (s ++ 0 :: r) = Done tt (s ++ 0 :: r)).
Proof.
  assert (forall t x y, 0 ∉ t -> tr x y (t ++ 0 :: r) = Done tt ((swap_char x y <$> t) ++ 0 :: r)) as Htr.
  { intros t x y Ht. unfold tr, strlen. erewrite bind_done by reflexivity. cbv beta.
    rewrite c_string_app, Nat2Z.id by done. apply (tr_loop_map [] t (0 :: r)). }
  intros Hs. split; [by apply Htr|]. intros Hc Hn. erewrite bind_done by by apply Htr.
  rewrite Htr.
  - do 2 f_equal. rewrite <- list_fmap_compose. clear Hs. induction s as [|c s IH]; [done|].
    apply not_elem_of_cons in Hn as [Hne Hn]. cbn [fmap list_fmap]. rewrite IH by done. f_equal.
    unfold compose, swap_char. destruct (Z.eqb_spec c c1) as [->|]; [by rewrite Z.eqb_refl|].
    by rewrite (proj2 (Z.eqb_neq c c2)) by congruence.
  - intros (c & E & Hin)%list_elem_of_fmap. unfold swap_char in E. destruct (c =? c1); [congruence|].
    by subst.
Qed.

(** ** Logging *)
Definition is_screen (l : Logged) : bool := match l with on_screen _ => true | _ => false end.
Definition screen_lines (l : list Logged) : nat := length (List.filter is_screen l).

(** With the default mode a message of [dbg] that is wanted shows once on the screen, whatever its
    level; one of [dbgnl] shows twice when its level is at most 1.  Neither shows above the level that
    is set. *)
Theorem dbg_screen_lines acq200_debug lvl FN text :
  screen_lines (dbg ACQ200_SYSLOG_MODE acq200_debug lvl FN text) =
    (if lvl <=? acq200_debug then 1%nat else 0%nat) /\
  screen_lines (dbgnl ACQ200_SYSLOG_MODE acq200_debug lvl FN text) =
    (if lvl <=? acq200_debug then if lvl <=? 1 then 2%nat else 1%nat else 0%nat).
Proof. unfold dbg, dbgnl. by destruct (lvl <=? acq200_debug), (lvl <=? 1). Qed.
