(* ===== verification/BusProt.v ===== *)
(** * acq32busprot.h: the bus protocol between the host and the card

    Mailbox commands and status words, function codes, message types, and the messages exchanged
    through shared memory, with their byte layout.  A macro is a function of the same name on [Z];
    its argument is an [unsigned] or [int] word.  The encodings are read back by the decodings. *)

From S2P Require Import Prelude.

(** ** Mailboxes *)
Definition BP_MB_COMMAND : Z := 0.
Definition BP_MB_A3 : Z := 1.
Definition BP_MB_A4 : Z := 2.
Definition BP_MB_STATUS : Z := 3.

Definition BP_CI_ACK_BIT : Z := 31.
Definition BP_CI_DONE_BIT : Z := 30.
Definition BP_CI_COMMAND_BIT : Z := 29.
Definition BP_CI_QUERY_BIT : Z := 28.
Definition BP_CI_A3_BIT : Z := 27.
Definition BP_CI_A4_BIT : Z := 26.

(** ** Function codes.  [fc80] is the character constant ['\x80'], which is -128 where [char] is
    signed, as on x86. *)
Inductive FUNCODES : Type :=
  | FCA | FCB | FCC | FCD | FCE | FCF | FCG | FCH | FCI | FCK | FCL | FCM | FCN | FCP | FCQ
  | FCR | FCS | FCT | FCU | FCV | FCW | FCX | FCY | FCZ | fca | fcb | fcc | fcd | fce | fcf
  | fch | fci | fck | fcl | fcm | fcn | fcp | fcr | fcs | fct | fcu | fcw | fcy | fcz | fc1
  | fc2 | fc3 | fc4 | fc5 | fc6 | fc80 | keep_arm_sdt_happy.

Definition funcode (f : FUNCODES) : Z :=
  match f with
  | FCA => 65 | FCB => 66 | FCC => 67 | FCD => 68 | FCE => 69 | FCF => 70 | FCG => 71
  | FCH => 72 | FCI => 73 | FCK => 75 | FCL => 76 | FCM => 77 | FCN => 78 | FCP => 80
  | FCQ => 81 | FCR => 82 | FCS => 83 | FCT => 84 | FCU => 85 | FCV => 86 | FCW => 87
  | FCX => 88 | FCY => 89 | FCZ => 90 | fca => 97 | fcb => 98 | fcc => 99 | fcd => 100
  | fce => 101 | fcf => 102 | fch => 104 | fci => 105 | fck => 107 | fcl => 108 | fcm => 109
  | fcn => 110 | fcp => 112 | fcr => 114 | fcs => 115 | fct => 116 | fcu => 117 | fcw => 119
  | fcy => 121 | fcz => 122 | fc1 => 49 | fc2 => 50 | fc3 => 51 | fc4 => 52 | fc5 => 53
  | fc6 => 54 | fc80 => -128 | keep_arm_sdt_happy => 57005
  end.

Definition all_funcodes : list FUNCODES :=
  [FCA; FCB; FCC; FCD; FCE; FCF; FCG; FCH; FCI; FCK; FCL; FCM; FCN; FCP; FCQ; FCR; FCS; FCT;
   FCU; FCV; FCW; FCX; FCY; FCZ; fca; fcb; fcc; fcd; fce; fcf; fch; fci; fck; fcl; fcm; fcn;
   fcp; fcr; fcs; fct; fcu; fcw; fcy; fcz; fc1; fc2; fc3; fc4; fc5; fc6; fc80;
   keep_arm_sdt_happy].

Definition MASK (bit : Z) : Z := u32 (Z.shiftl 1 bit).

Definition BP_CI_ACK : Z := MASK BP_CI_ACK_BIT.
Definition BP_CI_DONE : Z := MASK BP_CI_DONE_BIT.
Definition BP_CI_A3 : Z := MASK BP_CI_A3_BIT.
Definition BP_CI_A4 : Z := MASK BP_CI_A4_BIT.
Definition BP_CI_QUERY : Z := MASK BP_CI_QUERY_BIT.
Definition BP_CI_COMMAND : Z := MASK BP_CI_COMMAND_BIT.

(** ** Fields of the command word *)
Definition BP_GET_FUNCODE (command : Z) : Z := Z.land (Z.shiftr command 16) 0xff.
Definition BP_SET_FUNCODE (fc : Z) : Z := Z.shiftl fc 16.
Definition BP_GET_A1 (command : Z) : Z := Z.land (Z.shiftr command 8) 0xff.
Definition BP_SET_A1 (a1 : Z) : Z := Z.shiftl a1 8.
Definition BP_GET_A2 (command : Z) : Z := Z.land command 0xff.
Definition BP_SET_A2 (a2 : Z) : Z := a2.

(** ** Fields of the status word *)
Definition BP_GET_MODE (status : Z) : Z := Z.land (Z.shiftr status 24) 0x7f.
Definition BP_SET_MODE (mode : Z) : Z := Z.shiftl mode 24.
Definition BP_GET_ERROR (status : Z) : Z := Zbool (negb (Z.land status 0x80000000 =? 0)).
Definition BP_SET_ERROR (status : Z) : Z := Z.shiftl status 31.
Definition BP_GET_STATE (status : Z) : Z := Z.land (Z.shiftr status 16) 0xff.
Definition BP_SET_STATE (state : Z) : Z := Z.shiftl state 16.
Definition BP_GET_CYCLE (status : Z) : Z := Z.land (Z.shiftr status 12) 0xf.
Definition BP_SET_CYCLE (status : Z) : Z := Z.shiftl status 12.
Definition BP_GET_HEARTBEAT (status : Z) : Z := Z.land status 0xfff.
Definition BP_SET_HEARTBEAT (status : Z) : Z := Z.land status 0xfff.

Definition BP_FC_SET_INTERRUPTS : Z := funcode FCI.
Definition BP_FC_SET_HOST_DMABUF : Z := funcode FCB.
Definition BPFC_GET_NCHANNELS : Z := funcode fcn.
Definition BP_FC_STREAM : Z := funcode FCS.

Definition BP_FC_STREAM_NPAIRS : Z := 0xf0.
Definition BP_FC_GET_NPAIRS (f : Z) : Z := Z.shiftr (Z.land f BP_FC_STREAM_NPAIRS) 4.
Definition BP_FC_SET_NPAIRS (p : Z) : Z := Z.land (Z.shiftl p 4) BP_FC_STREAM_NPAIRS.

(** ** Message types *)
Definition MT_TYPE_SHIFT : Z := 24.
Definition MT_TYPE_MASK : Z := u32 (Z.shiftl 0xff MT_TYPE_SHIFT).
Definition MT_PRAM_MASK : Z := u32 (Z.lnot MT_TYPE_MASK).
Definition MT_ID (type : Z) : Z := Z.land type MT_TYPE_MASK.
Definition MT_PRAM (type : Z) : Z := Z.land type MT_PRAM_MASK.

Definition MT_STREAM : Z := Z.shiftl BP_FC_STREAM MT_TYPE_SHIFT.
Definition MTP_STREAM_IS_TAGGED : Z := 0x800000.
Definition MTP_STREAM_NCHAN_MASK : Z := 0x0000ff.
Definition MTP_STREAM_NSAM_MASK : Z := 0x00ff00.
Definition MTP_STREAM_NCHAN (type : Z) : Z := Z.land type MTP_STREAM_NCHAN_MASK.
Definition MTP_STREAM_NSAM (type : Z) : Z := Z.shiftr (Z.land type MTP_STREAM_NSAM_MASK) 8.
Definition MTP_STREAM_SLEN (type : Z) : Z :=
  (MTP_STREAM_NCHAN type + (if negb (Z.land type MTP_STREAM_IS_TAGGED =? 0) then 2 else 0)) * 2.

Definition LLC_CSR_S_TCYCLE : Z := 0x00ff0000.
Definition LLC_MAKE_TCYCLE (tc : Z) : Z := Z.shiftl tc 16.
Definition LLC_GET_TCYCLE (csr : Z) : Z := Z.shiftr (Z.land csr LLC_CSR_S_TCYCLE) 16.
Definition LLC_CSR_M_DECIM : Z := 0x00000f00.
Definition LLC_MAKE_DECIM (decim : Z) : Z := Z.shiftl decim 8.
Definition LLC_GET_DECIM (csr : Z) : Z := Z.shiftr (Z.land csr LLC_CSR_M_DECIM) 8.

Definition HTM_HOSTBUF_MB : Z := 0x00fff000.
Definition HTM_GET_BUFFLEN_BYTES (csr : Z) : Z := u32 (Z.shiftl (Z.land csr HTM_HOSTBUF_MB) (20 - 12)).
Definition HTM_SET_BUFFLEN_BYTES (len : Z) : Z := u32 (Z.shiftl (Z.shiftr len 20) 12).

Definition MT_COMMAND_PACKET : Z := Z.shiftl (funcode fcz) MT_TYPE_SHIFT.
Definition MAKE_MT_COMMAND (subtype : Z) : Z := Z.lor MT_COMMAND_PACKET subtype.

Inductive MTC_SUBTYPES : Type :=
  | MTC_TEST | MTC_HOST_REQUEST_DATA | MTC_LOAD_AO | MTC_LOAD_DO | MTC_DEBUG_TEXT
  | MTC_HOST_REQUEST_X_DATA | MTC_REQUEST_STATUS_CHANGE_NOTIFICATION
  | MTC_HOST_REQUEST_DATA_HOSTBOUND | MTC_HOST_REQUEST_DATA_ACQBOUND | MTC_LAST.

Definition mtc_value (m : MTC_SUBTYPES) : Z :=
  match m with
  | MTC_TEST => 0 | MTC_HOST_REQUEST_DATA => 1 | MTC_LOAD_AO => 2 | MTC_LOAD_DO => 3
  | MTC_DEBUG_TEXT => 4 | MTC_HOST_REQUEST_X_DATA => 5
  | MTC_REQUEST_STATUS_CHANGE_NOTIFICATION => 6
  | MTC_HOST_REQUEST_DATA_HOSTBOUND => 7 | MTC_HOST_REQUEST_DATA_ACQBOUND => 8 | MTC_LAST => 9
  end.

(** ** Host request data records and messages *)
Definition HRD_CHAN_IS_FILE : Z := 0x8000.
Definition HRD_CHAN_EOF : Z := 0x0400.
Definition HRD_CHECKED : Z := 0x4000.
Definition HRD_ABS_PCI : Z := 0x2000.
Definition HRD_READ_NEXT : Z := 0x1000.
Definition HRD_TRACK (chan : Z) : Z := Z.land (Z.shiftr chan 5) 0x7.
Definition HRD_CHAN (chan : Z) : Z := Z.land chan 0x1f + 1.

Definition MAKE_ID_DTACQ (n : Z) : Z := Z.lor (Z.shiftl (Z.land n 0x7f) 8) 0xDC.
Definition IS_ID_DTACQ (id : Z) : bool := Z.land id 0xff =? 0xDC.
Definition GET_IDN (id : Z) : Z := Z.shiftr id 8.

Record HOST_REQUEST_DATA_RECORD := mkHrdr {
  hrd_pci : Z;        (* unsigned *)
  hrd_start : Z;      (* unsigned *)
  hrd_nsamples : Z;   (* unsigned *)
  hrd_chan : Z;       (* unsigned short *)
  hrd_stride : Z      (* unsigned short *)
}.

(** [sizeof(struct HOST_REQUEST_DATA_RECORD)]: three words and two halfwords. *)
Definition HRDR_SZ : Z := 16.

(** A message: header, and the payload seen as host request data records.  The driver writes and
    reads the first two records only. *)
Record Message := mkMessage {
  msg_id : Z;         (* unsigned short *)
  msg_length : Z;     (* unsigned short *)
  msg_type : Z;       (* unsigned *)
  hrdr0 : HOST_REQUEST_DATA_RECORD;
  hrdr1 : HOST_REQUEST_DATA_RECORD
}.

Definition zero_hrdr : HOST_REQUEST_DATA_RECORD := mkHrdr 0 0 0 0 0.
Definition zero_message : Message := mkMessage 0 0 0 zero_hrdr zero_hrdr.

Definition MESSAGE_HEADER_SIZE : Z := 8.
Definition MESSAGE_ACTUAL_LEN (m : Message) : Z := MESSAGE_HEADER_SIZE + msg_length m.

(** The bytes of a message in memory, and back (x86 is little-endian, and no field needs padding). *)
Definition hrdr_bytes (h : HOST_REQUEST_DATA_RECORD) : list Z :=
  le_bytes 4 (hrd_pci h) ++ le_bytes 4 (hrd_start h) ++ le_bytes 4 (hrd_nsamples h) ++
  le_bytes 2 (hrd_chan h) ++ le_bytes 2 (hrd_stride h).

Definition message_bytes (m : Message) : list Z :=
  le_bytes 2 (msg_id m) ++ le_bytes 2 (msg_length m) ++ le_bytes 4 (msg_type m) ++
  hrdr_bytes (hrdr0 m) ++ hrdr_bytes (hrdr1 m).

Definition hrdr_at (mem : gmap Z Z) (a : Z) : HOST_REQUEST_DATA_RECORD :=
  mkHrdr (le_value (mem_read mem a 4)) (le_value (mem_read mem (a + 4) 4))
         (le_value (mem_read mem (a + 8) 4)) (le_value (mem_read mem (a + 12) 2))
         (le_value (mem_read mem (a + 14) 2)).

Definition message_at (mem : gmap Z Z) (a : Z) : Message :=
  mkMessage (le_value (mem_read mem a 2)) (le_value (mem_read mem (a + 2) 2))
            (le_value (mem_read mem (a + 4) 4)) (hrdr_at mem (a + 8)) (hrdr_at mem (a + 24)).

(** Every field within its C type. *)
Record hrdr_ok (h : HOST_REQUEST_DATA_RECORD) : Prop := {
  ho_pci : 0 <= hrd_pci h < 2 ^ 32;
  ho_start : 0 <= hrd_start h < 2 ^ 32;
  ho_nsamples : 0 <= hrd_nsamples h < 2 ^ 32;
  ho_chan : 0 <= hrd_chan h < 2 ^ 16;
  ho_stride : 0 <= hrd_stride h < 2 ^ 16
}.

Record message_ok (m : Message) : Prop := {
  mo_id : 0 <= msg_id m < 2 ^ 16;
  mo_length : 0 <= msg_length m < 2 ^ 16;
  mo_type : 0 <= msg_type m < 2 ^ 32;
  mo_hrdr0 : hrdr_ok (hrdr0 m);
  mo_hrdr1 : hrdr_ok (hrdr1 m)
}.

(** ** Bit-field arithmetic: masks and shifts as divisions *)
Lemma land_0x7f z : Z.land z 0x7f = z mod 128.
Proof. exact (land_mask_mod z 7 ltac:(lia)). Qed.
Lemma land_0xf z : Z.land z 0xf = z mod 16.
Proof. exact (land_mask_mod z 4 ltac:(lia)). Qed.
Lemma land_0x1f z : Z.land z 0x1f = z mod 32.
Proof. exact (land_mask_mod z 5 ltac:(lia)). Qed.
Lemma land_0xff z : Z.land z 0xff = z mod 256.
Proof. exact (land_mask_mod z 8 ltac:(lia)). Qed.
Lemma land_0xfff z : Z.land z 0xfff = z mod 4096.
Proof. exact (land_mask_mod z 12 ltac:(lia)). Qed.

Lemma shiftr_div z n : 0 <= n -> Z.shiftr z n = z / 2 ^ n.
Proof. apply Z.shiftr_div_pow2. Qed.

Create Rewrite HintDb bitfield.
#[export] Hint Rewrite land_0x7f land_0xf land_0x1f land_0xff land_0xfff : bitfield.
#[export] Hint Rewrite shiftr_div Z.shiftl_mul_pow2 using lia : bitfield.

(** Rewrite masks and shifts by constants as [mod], [/] and [*] by constants, for [lia]. *)
Ltac powers := change (2 ^ 4) with 16 in *; change (2 ^ 5) with 32 in *;
  change (2 ^ 8) with 256 in *; change (2 ^ 12) with 4096 in *; change (2 ^ 16) with 65536 in *;
  change (2 ^ 20) with 1048576 in *; change (2 ^ 24) with 16777216 in *;
  change (2 ^ 31) with 2147483648 in *; change (2 ^ 32) with 4294967296 in *.
Ltac bitfield := autorewrite with bitfield; powers; Z.to_euclidean_division_equations; lia.

(** The bits between [n] and [n + l], as a mask in place. *)
Lemma land_mask_at z n l : 0 <= n -> 0 <= l ->
  Z.land z (Z.shiftl (2 ^ l - 1) n) = (z / 2 ^ n) mod 2 ^ l * 2 ^ n.
Proof.
  intros Hn Hl. rewrite <- Z.shiftr_div_pow2, <- land_mask_mod, <- Z.shiftl_mul_pow2 by lia.
  rewrite Z.shiftl_land. apply Z.bits_inj'. intros i Hi. rewrite !Z.land_spec.
  destruct (Z.lt_ge_cases i n).
  - rewrite !(Z.shiftl_spec_low _ n) by lia. by rewrite !andb_false_r.
  - rewrite !Z.shiftl_spec, Z.shiftr_spec by lia. do 2 f_equal. lia.
Qed.

(** ** Commands and status words *)

(** A command word as the header describes it: immediate bits 31..24, function code, A1, A2. *)
Definition command_word (imm fc a1 a2 : Z) : Z :=
  Z.lor (Z.lor (BP_SET_A2 a2) (BP_SET_A1 a1)) (Z.lor (BP_SET_FUNCODE fc) (Z.shiftl imm 24)).

Lemma command_word_sum imm fc a1 a2 :
  0 <= fc < 256 -> 0 <= a1 < 256 -> 0 <= a2 < 256 ->
  command_word imm fc a1 a2 = a2 + a1 * 2 ^ 8 + fc * 2 ^ 16 + imm * 2 ^ 24.
Proof.
  intros. unfold command_word, BP_SET_A2, BP_SET_A1, BP_SET_FUNCODE.
  rewrite (lor_disjoint_add a2 a1 8) by lia. rewrite Z.lor_assoc.
  rewrite (lor_disjoint_add _ fc 16) by lia. rewrite (lor_disjoint_add _ imm 24) by lia. lia.
Qed.

(** The fields of a command word do not overlap: each decoder returns the field that was
    encoded, whatever the immediate bits and the other fields. *)
Theorem command_word_roundtrip imm fc a1 a2 :
  0 <= fc < 256 -> 0 <= a1 < 256 -> 0 <= a2 < 256 ->
  BP_GET_FUNCODE (command_word imm fc a1 a2) = fc /\
  BP_GET_A1 (command_word imm fc a1 a2) = a1 /\
  BP_GET_A2 (command_word imm fc a1 a2) = a2.
Proof.
  intros. rewrite command_word_sum by lia.
  unfold BP_GET_FUNCODE, BP_GET_A1, BP_GET_A2. repeat split; bitfield.
Qed.

Definition status_word (err mode state cycle hb : Z) : Z :=
  Z.lor (Z.lor (BP_SET_HEARTBEAT hb) (BP_SET_CYCLE cycle))
        (Z.lor (BP_SET_STATE state) (Z.lor (BP_SET_MODE mode) (BP_SET_ERROR err))).

Lemma status_word_sum err mode state cycle hb :
  0 <= err < 2 -> 0 <= mode < 128 -> 0 <= state < 256 -> 0 <= cycle < 16 ->
  status_word err mode state cycle hb =
    hb mod 4096 + cycle * 2 ^ 12 + state * 2 ^ 16 + mode * 2 ^ 24 + err * 2 ^ 31.
Proof.
  intros. unfold status_word, BP_SET_HEARTBEAT, BP_SET_CYCLE, BP_SET_STATE, BP_SET_MODE, BP_SET_ERROR.
  rewrite land_0xfff. pose proof (Z.mod_pos_bound hb 4096 ltac:(lia)).
  rewrite (lor_disjoint_add (hb mod 4096) cycle 12) by lia. rewrite !Z.lor_assoc.
  rewrite (lor_disjoint_add _ state 16) by lia. rewrite (lor_disjoint_add _ mode 24) by lia.
  rewrite (lor_disjoint_add _ err 31) by lia. lia.
Qed.

(** The fields of the status mailbox do not overlap: error flag, mode, state, cycle and heartbeat
    are each read back as written (the heartbeat modulo 4096). *)
Theorem status_word_roundtrip err mode state cycle hb :
  0 <= err < 2 -> 0 <= mode < 128 -> 0 <= state < 256 -> 0 <= cycle < 16 ->
  let s := status_word err mode state cycle hb in
  BP_GET_ERROR s = err /\ BP_GET_MODE s = mode /\ BP_GET_STATE s = state /\
  BP_GET_CYCLE s = cycle /\ BP_GET_HEARTBEAT s = hb mod 4096.
Proof.
  intros. subst s. rewrite status_word_sum by lia.
  pose proof (Z.mod_pos_bound hb 4096 ltac:(lia)).
  unfold BP_GET_ERROR, BP_GET_MODE, BP_GET_STATE, BP_GET_CYCLE, BP_GET_HEARTBEAT.
  change 0x80000000 with (Z.shiftl (2 ^ 1 - 1) 31). rewrite land_mask_at by lia.
  repeat split; [|bitfield..].
  destruct (Z.eqb_spec ((hb mod 4096 + cycle * 2 ^ 12 + state * 2 ^ 16 + mode * 2 ^ 24 + err * 2 ^ 31)
    / 2 ^ 31 mod 2 ^ 1 * 2 ^ 31) 0) as [E|E]; cbn [negb Zbool]; revert E;
    change (2 ^ 1) with 2; bitfield.
Qed.

(** ** Function codes *)

(** The function codes are listed as an enumeration to avoid giving two functions one code: no
    two of them are equal. *)
Theorem funcode_injective f g : funcode f = funcode g -> f = g.
Proof. destruct f, g; try reflexivity; discriminate. Qed.

(** ** Message identifiers *)
Lemma make_id_sum n : MAKE_ID_DTACQ n = n mod 128 * 256 + 0xDC.
Proof.
  unfold MAKE_ID_DTACQ. rewrite land_0x7f, Z.lor_comm, lor_disjoint_add by lia. lia.
Qed.

(** Message identifiers: [MAKE_ID_DTACQ] always carries the D-TACQ mark, is non-negative as a
    [short], gives back the sequence number modulo 128, and so two sequence numbers get the same
    identifier exactly when they are equal modulo 128. *)
Theorem make_id_dtacq n m :
  IS_ID_DTACQ (MAKE_ID_DTACQ n) = true /\ 0 <= MAKE_ID_DTACQ n < 2 ^ 15 /\
  GET_IDN (MAKE_ID_DTACQ n) = n mod 128 /\
  (MAKE_ID_DTACQ n = MAKE_ID_DTACQ m <-> n mod 128 = m mod 128).
Proof.
  rewrite !make_id_sum. unfold IS_ID_DTACQ, GET_IDN.
  pose proof (Z.mod_pos_bound n 128 ltac:(lia)).
  repeat split; [|lia|lia|bitfield|lia|lia]. apply Z.eqb_eq. bitfield.
Qed.

(** ** Field round trips of the streaming, LLC and HTM registers *)

(** Setting and getting the pair count, the LLC cycle time and decimation, and the HTM buffer
    length: the first three are read back as written; the buffer length comes back rounded down to
    whole megabytes. *)
Theorem register_fields_roundtrip p tc d len :
  0 <= p < 16 -> 0 <= tc < 256 -> 0 <= d < 16 -> 0 <= len < 2 ^ 32 ->
  BP_FC_GET_NPAIRS (BP_FC_SET_NPAIRS p) = p /\
  LLC_GET_TCYCLE (LLC_MAKE_TCYCLE tc) = tc /\ LLC_GET_DECIM (LLC_MAKE_DECIM d) = d /\
  HTM_GET_BUFFLEN_BYTES (HTM_SET_BUFFLEN_BYTES len) = len - len mod 2 ^ 20.
Proof.
  intros Hp Ht Hd Hl.
  unfold BP_FC_GET_NPAIRS, BP_FC_SET_NPAIRS, LLC_GET_TCYCLE, LLC_MAKE_TCYCLE, LLC_GET_DECIM,
    LLC_MAKE_DECIM, HTM_GET_BUFFLEN_BYTES, HTM_SET_BUFFLEN_BYTES, u32, wrap.
  change BP_FC_STREAM_NPAIRS with (Z.shiftl (2 ^ 4 - 1) 4).
  change LLC_CSR_S_TCYCLE with (Z.shiftl (2 ^ 8 - 1) 16).
  change LLC_CSR_M_DECIM with (Z.shiftl (2 ^ 4 - 1) 8).
  change HTM_HOSTBUF_MB with (Z.shiftl (2 ^ 12 - 1) 12). change (20 - 12) with 8.
  rewrite !land_mask_at by lia. repeat split; bitfield.
Qed.

(** ** Messages in memory *)
Lemma length_hrdr_bytes h : length (hrdr_bytes h) = 16%nat.
Proof. unfold hrdr_bytes. rewrite !length_app, !length_le_bytes. done. Qed.

Lemma length_message_bytes m : length (message_bytes m) = 40%nat.
Proof. unfold message_bytes. rewrite !length_app, !length_le_bytes, !length_hrdr_bytes. done. Qed.

(** Reading the two parts of what is stored at an address. *)
Lemma mem_read_split mem a n k l1 l2 :
  mem_read mem a (n + k) = l1 ++ l2 -> length l1 = n ->
  mem_read mem a n = l1 /\ mem_read mem (a + Z.of_nat n) k = l2.
Proof.
  intros H Hl. rewrite mem_read_app in H. apply app_inj_1 in H; [done|]. by rewrite mem_read_length.
Qed.

Lemma hrdr_at_bytes mem a h :
  hrdr_ok h -> mem_read mem a 16 = hrdr_bytes h -> hrdr_at mem a = h.
Proof.
  intros [? ? ? ? ?] H. unfold hrdr_bytes in H.
  apply (mem_read_split mem a 4 12) in H as [H0 H]; [|apply length_le_bytes].
  apply (mem_read_split mem (a + 4) 4 8) in H as [H1 H]; [|apply length_le_bytes].
  apply (mem_read_split mem (a + 4 + 4) 4 4) in H as [H2 H]; [|apply length_le_bytes].
  apply (mem_read_split mem (a + 4 + 4 + 4) 2 2) in H as [H3 H4]; [|apply length_le_bytes].
  unfold hrdr_at. replace (a + 8) with (a + 4 + 4) by lia.
  replace (a + 12) with (a + 4 + 4 + 4) by lia.
  replace (a + 14) with (a + 4 + 4 + 4 + Z.of_nat 2) by lia.
  rewrite H0, H1, H2, H3, H4, !le_value_bytes_id by (simpl; lia). by destruct h.
Qed.

Lemma message_at_bytes mem a m :
  message_ok m -> mem_read mem a 40 = message_bytes m -> message_at mem a = m.
Proof.
  intros [? ? ? ? ?] H. unfold message_bytes in H.
  apply (mem_read_split mem a 2 38) in H as [H0 H]; [|apply length_le_bytes].
  apply (mem_read_split mem (a + 2) 2 36) in H as [H1 H]; [|apply length_le_bytes].
  apply (mem_read_split mem (a + 2 + 2) 4 32) in H as [H2 H]; [|apply length_le_bytes].
  apply (mem_read_split mem (a + 2 + 2 + 4) 16 16) in H as [H3 H4]; [|apply length_hrdr_bytes].
  unfold message_at. replace (a + 4) with (a + 2 + 2) by lia.
  replace (a + 8) with (a + 2 + 2 + 4) by lia.
  replace (a + 24) with (a + 2 + 2 + 4 + Z.of_nat 16) by lia.
  rewrite H0, H1, H2, !le_value_bytes_id by (simpl; lia).
  rewrite (hrdr_at_bytes mem _ (hrdr0 m)), (hrdr_at_bytes mem _ (hrdr1 m)) by done. by destruct m.
Qed.

(** A message copied into shared memory is read back unchanged: header, and every field of both
    data records. *)
Theorem message_roundtrip mem a m :
  message_ok m -> message_at (mem_write mem a (message_bytes m)) a = m.
Proof.
  intros Hok. apply message_at_bytes; [done|].
  rewrite <- (length_message_bytes m). apply mem_read_write.
Qed.

(** ** Witnesses *)
Definition sample_message : Message :=
  mkMessage (MAKE_ID_DTACQ 5) 32 (MAKE_MT_COMMAND (mtc_value MTC_HOST_REQUEST_DATA_HOSTBOUND))
    (mkHrdr 0x400000 7 1024 (Z.lor HRD_CHAN_IS_FILE 3) 1) zero_hrdr.

Lemma sample_message_ok : message_ok sample_message.
Proof. repeat constructor; vm_compute; congruence. Qed.

Lemma message_roundtrip_witness :
  message_at (mem_write ∅ 0x1000 (message_bytes sample_message)) 0x1000 = sample_message.
Proof. exact (message_roundtrip ∅ 0x1000 sample_message sample_message_ok). Defined.

Lemma command_word_roundtrip_witness :
  BP_GET_FUNCODE (command_word 0x60 (funcode FCB) 4 0) = 66 /\
  BP_GET_A1 (command_word 0x60 (funcode FCB) 4 0) = 4 /\
  BP_GET_A2 (command_word 0x60 (funcode FCB) 4 0) = 0.
Proof. apply (command_word_roundtrip 0x60 (funcode FCB) 4 0); cbn; lia. Defined.

Lemma status_word_roundtrip_witness :
  let s := status_word 1 5 2 9 4097 in
  BP_GET_ERROR s = 1 /\ BP_GET_MODE s = 5 /\ BP_GET_STATE s = 2 /\
  BP_GET_CYCLE s = 9 /\ BP_GET_HEARTBEAT s = 1.
Proof. apply (status_word_roundtrip 1 5 2 9 4097); lia. Defined.

Lemma funcode_injective_witness : funcode fca = 97 /\ fca = fca.
Proof. split; [reflexivity|]. exact (funcode_injective fca fca eq_refl). Defined.

Lemma register_fields_roundtrip_witness :
  BP_FC_GET_NPAIRS (BP_FC_SET_NPAIRS 3) = 3 /\
  LLC_GET_TCYCLE (LLC_MAKE_TCYCLE 200) = 200 /\ LLC_GET_DECIM (LLC_MAKE_DECIM 7) = 7 /\
  HTM_GET_BUFFLEN_BYTES (HTM_SET_BUFFLEN_BYTES 0x412345) = 0x412345 - 0x412345 mod 2 ^ 20.
Proof. apply (register_fields_roundtrip 3 200 7 0x412345); lia. Defined.
