(* ===== verification/Protocol.v ===== *)
(** * acq32busprot.h: what the host says to the card

    The codes of the commands and queries with their parameters, the flags of the modes, the message
    types, the special channels, and the tags and frames of the data.  [BusProt] has the encodings
    the driver itself computes with; the definitions here are the rest of the protocol, in the order
    of the header.  An enumeration is an inductive type with its values; enumerators may share one. *)

From S2P Require Import Prelude BusProt.

Inductive ACQXX_FLAVOR : Type := ACQXX_FLAVOR32 | ACQXX_FLAVOR16 | ACQXX_FLAVOR_NOT_FOUND.
Definition flavor_value (f : ACQXX_FLAVOR) : Z :=
  match f with ACQXX_FLAVOR32 => 32 | ACQXX_FLAVOR16 => 16 | ACQXX_FLAVOR_NOT_FOUND => 17 end.

(** ** Commands and queries *)
Definition BP_FC_SET_DEBUG : Z := funcode fcb.

(** Digital inputs and outputs share the bits of a line. *)
Inductive ACQ32_DIOSELECT : Type :=
  | ACQ32_DIO_NONE | ACQ32_DI_0 | ACQ32_DI_1 | ACQ32_DI_2 | ACQ32_DI_3 | ACQ32_DI_4 | ACQ32_DI_5
  | ACQ32_DO_0 | ACQ32_DO_1 | ACQ32_DO_2 | ACQ32_DO_3 | ACQ32_DO_4 | ACQ32_DO_5.
Definition dio_value (d : ACQ32_DIOSELECT) : Z :=
  match d with
  | ACQ32_DIO_NONE => 0
  | ACQ32_DI_0 | ACQ32_DO_0 => MASK 0 | ACQ32_DI_1 | ACQ32_DO_1 => MASK 1
  | ACQ32_DI_2 | ACQ32_DO_2 => MASK 2 | ACQ32_DI_3 | ACQ32_DO_3 => MASK 3
  | ACQ32_DI_4 | ACQ32_DO_4 => MASK 4 | ACQ32_DI_5 | ACQ32_DO_5 => MASK 5
  end.

Definition BP_FC_SET_INTCLOCK : Z := funcode fci.
Definition BP_FC_GET_INTCLOCK : Z := funcode fci.
Definition BP_FC_SET_EXTCLOCK : Z := funcode fce.
Definition BP_FC_GET_EXTCLOCK : Z := funcode fce.
Definition BP_FC_SET_TAGGING : Z := funcode FCT.
Definition BP_FC_SET_SPIN : Z := funcode FCY.
Definition BP_FC_BIG_DUMP : Z := funcode FCU.
Definition BP_FC_GET_FWREV : Z := funcode FCR.
Definition BP_FC_GET_CONFIG : Z := funcode FCV.
Definition BP_FC_GET_CALINFO : Z := funcode FCW.
Definition BP_FC_GET_CAPTURESTATS : Z := funcode FCE.
Definition BP_FC_DEBUG_GET_REGS : Z := funcode FCQ.
Definition BP_FC_GET_NUMSAMPLES : Z := funcode FCN.
Definition BP_FC_SET_ROUTE : Z := funcode fcr.
Definition BP_FC_SET_MASK_RAW : Z := 114.
Definition BP_FC_SET_MASK_ROW : Z := 82.
Definition BP_FC_SET_MASK_CHAN : Z := 67.
Definition BP_FC_SET_CALDACS : Z := funcode FCC.
Definition BP_FC_SET_DACPOT : Z := funcode FCP.
Definition BP_FC_SET_DACPOT_UP : Z := BP_SET_A2 117.
Definition BP_FC_SET_DACPOT_DN : Z := BP_SET_A2 100.
Definition BP_FC_SET_MODE : Z := funcode FCM.
Definition BP_FC_SET_MODE_GC : Z := funcode FCG.
Definition BP_FC_SET_MODE_TC : Z := funcode FCH.
Definition BP_FC_SM_FLAGS_DEB : Z := 0x80.
Definition BP_FC_SM_FLAGS_NEM : Z := 0x40.
Definition BP_FC_SET_ARM : Z := funcode FCA.
Definition BP_FC_SET_ABORT : Z := funcode FCZ.
Definition BP_FC_SET_MASK : Z := funcode FCK.
Definition BP_FC_GET_MASK : Z := funcode FCK.
Definition BPFC_GET_MODEL : Z := funcode fck.
Definition BPFC_GET_RANGE : Z := funcode fcm.

Inductive BPFC_RANGE : Type :=
  | BPFC_RANGE_UNKNOWN | BPFC_RANGE_10_10 | BPFC_RANGE_05_05 | BPFC_RANGE_02_02
  | BPFC_RANGE_01_01 | BPFC_RANGE_2p5_2p5.
Definition range_value (r : BPFC_RANGE) : Z :=
  match r with
  | BPFC_RANGE_UNKNOWN => 0 | BPFC_RANGE_10_10 => 1 | BPFC_RANGE_05_05 => 2
  | BPFC_RANGE_02_02 => 3 | BPFC_RANGE_01_01 => 4 | BPFC_RANGE_2p5_2p5 => 5
  end.

(** *** Waveform output and signal conditioning *)
Definition BP_FC_RESERVE_AO : Z := funcode fca.
Definition BP_FC_QUERY_AO : Z := funcode fca.
Definition BP_FC_SET_DACS : Z := funcode FCD.
Definition BP_FC_SET_DO : Z := funcode fcf.
Definition BP_FC_SET_XO_FUNCTION : Z := 70.
Definition BP_FC_SET_XO_CLEAR : Z := 0x80.
Definition BP_FC_SET_XO_END : Z := 0x40.
Definition BP_FC_SET_XO_DATA : Z := 0x02.
Definition BP_FC_SET_XO_CYCLE : Z := 0x01.
Definition BP_FC_SC_GET_DIO : Z := funcode fcd.
Definition BP_FC_SC_SET_DIO : Z := funcode fcd.
Definition BP_FC_SC_SET_CHANNEL : Z := funcode fcc.
Definition BP_FC_SC_SET_CHANNEL_CH_LSB : Z := 24.
Definition BP_FC_SC_SET_CHANNEL_G1_LSB : Z := 16.
Definition BP_FC_SC_SET_CHANNEL_G2_LSB : Z := 8.
Definition BP_FC_SC_SET_CHANNEL_V_EX_LSB : Z := 0.

Definition BYTE_ENCODE_BIT (lsb val : Z) : Z := Z.shiftl val lsb.
Definition BYTE_DECODE_BIT (lsb val : Z) : Z := Z.land (Z.shiftr val lsb) 0xff.

Definition BP_FC_SC_POT : Z := funcode fcp.
Definition BP_FC_SC_POT_BOARD0 : Z := 0x00.
Definition BP_FC_SC_POT_BOARD1 : Z := 0x80.
Definition BP_FC_SC_POT_1V : Z := 0x00.
Definition BP_FC_SC_POT_2V : Z := 0x04.
Definition BP_FC_SC_POT_5V : Z := 0x08.
Definition BP_FC_SC_POT_10V : Z := 0x0c.
Definition BP_FC_SET_DISTRIBUTOR : Z := funcode fcs.
Definition BP_FC_SET_DIST_NORMAL : Z := 0.
Definition BP_FC_SET_DIST_ID : Z := 1.
Definition BP_FC_SET_DIST_ID_ALL : Z := 2.
Definition BP_FC_SET_DATA_TRIGGER : Z := 0x0d.
Definition BP_FC_SET_DATA_TRIGGER_MULTI : Z := 0x0e.
Definition BP_FC_SET_DATA_EDGE_TRIGGER : Z := 0x1d.
Definition BP_FC_SET_DATA_EDGE_TRIGGER_MULTI : Z := 0x1e.
Definition BP_FC_SET_DATA_FAST_TRIGGER_MULTI : Z := 0x1f.
Definition BP_FC_SELECT_CALSET : Z := funcode fcl.
Definition BP_FC_GET_ATRIGGER : Z := funcode fc80.
Definition BP_FC_ADJUST_TRIGGER : Z := funcode fc80.

(** *** Phases, events and clocks *)
Inductive PHASE_PROPERTY : Type := PP_REQUESTED_SAMPLES | PP_ACTUAL_SAMPLES | PP_STATE.
Definition phase_property_value (p : PHASE_PROPERTY) : Z :=
  match p with PP_REQUESTED_SAMPLES => 1 | PP_ACTUAL_SAMPLES => 2 | PP_STATE => 3 end.

Inductive EVENT_CONDITION : Type :=
  | EC_NONE | EC_TRUE | EC_SOFT | EC_TRIGGER_RISING | EC_TRIGGER_FALLING | EC_DATA_ABOVE
  | EC_DATA_BELOW.
Definition event_condition_value (c : EVENT_CONDITION) : Z :=
  match c with
  | EC_NONE => 0 | EC_TRUE => 1 | EC_SOFT => 2 | EC_TRIGGER_RISING => 3
  | EC_TRIGGER_FALLING => 4 | EC_DATA_ABOVE => 5 | EC_DATA_BELOW => 6
  end.

Definition BP_GUT_FC_FX_AI : Z := 0x80.
Definition BP_GUT_FC_FX_AO : Z := 0x40.
Definition BP_GUT_FC_FX_DO : Z := 0x20.
Definition BP_GUT_FC_EV : Z := 0x10.
Definition BP_GUT_FC_EPMASK : Z := 0x0f.
Definition BP_GUT_SETPHASE : Z := funcode fc1.
Definition BP_GUT_GETPHASE : Z := funcode fc1.
Definition BP_GUT_SETEVENT : Z := funcode fc2.
Definition BP_GUT_GETEVENT : Z := funcode fc2.
Definition BP_GUT_FIREEVENT : Z := funcode fc3.

Inductive CLOCK_SOURCE : Type :=
  | CS_DI0 | CS_DI1 | CS_DI2 | CS_DI3 | CS_DI4 | CS_DI5 | CS_SOFT_CLOCK | CS_INT_CLOCK.
Definition clock_source_value (c : CLOCK_SOURCE) : Z :=
  match c with
  | CS_DI0 => 0 | CS_DI1 => 1 | CS_DI2 => 2 | CS_DI3 => 3 | CS_DI4 => 4 | CS_DI5 => 5
  | CS_SOFT_CLOCK => 6 | CS_INT_CLOCK => 7
  end.

Definition BP_GUT_SETCLOCK : Z := funcode fc4.
Definition BP_GUT_CLOCKNOW : Z := funcode fc5.
Definition BP_GUT_RESET : Z := funcode fc6.
Definition BP_FC_SET_DATA_THRESHOLD : Z := funcode fct.
Definition BP_FC_USER : Z := funcode fcu.
Definition BP_FC_USER_LED3_ON : Z := 0x1.
Definition BP_FC_USER_LED3_OFF : Z := 0x2.
Definition BP_FC_USER_LED3_FLIP : Z := 0x3.
Definition BP_FC_USER_LED4_ON : Z := 0x4.
Definition BP_FC_USER_LED4_OFF : Z := 0x8.
Definition BP_FC_USER_LED4_FLIP : Z := 0xc.
Definition BP_FC_WAIT_EVENT : Z := funcode fcw.

(** *** Getting data; interrupts *)
Definition BP_FC_FETCH_DATA : Z := funcode FCF.
Definition BP_FC_TXDATA : Z := funcode FCX.
Definition BP_FC_STREAM_MEAN : Z := 0x01.
Definition BP_FC_STREAM_BURST : Z := 0x02.
Definition BP_INT_COMMAND_ACK : Z := 0x0001.
Definition BP_INT_STATUS_CHANGE : Z := 0x0002.
Definition BP_INT_LLC_DMA_DONE : Z := 0x0004.
Definition BP_INT_LLC_ERROR : Z := 0x0008.
Definition BS_16K : Z := 0x4000.
Definition BS_1K : Z := 0x400.
Definition BP_A1_START_BS_16K : Z := 0x01.
Definition BP_A1_LENGTH_BS_16K : Z := 0x02.
Definition BP_A1_START_BS_1K : Z := 0x04.
Definition BP_A1_LENGTH_BS_1K : Z := 0x08.
Definition BP_A1_FETCH_PRETRIGGER : Z := 0x10.
Definition MAX_START_CODING : Z := 0xffff.
Definition MAX_LENGTH_CODING : Z := 0xffff.

(** *** The modes' own commands, the ACQ32CPCI route *)
Definition BP_FC_SET_MODE_LLC : Z := funcode FCL.
Definition BP_FC_SETMODE_HTM : Z := funcode fch.
Definition BP_FC_CPCI_SET_ROUTE : Z := funcode fcy.
Definition BP_FC_CPCI_GETROUTE_STATUS : Z := funcode fcy.

(** The bits of a route are those of the hardware: destinations of one connector share one. *)
Inductive Q32C_SR_FUNC : Type :=
  | Q32C_SR_FUNC_DI0 | Q32C_SR_FUNC_DI1 | Q32C_SR_FUNC_DI2 | Q32C_SR_FUNC_DI3
  | Q32C_SR_FUNC_DI4 | Q32C_SR_FUNC_DI5 | Q32C_SR_FUNC_AICLK | Q32C_SR_FUNC_AITRIG
  | Q32C_SR_FUNC_AOCLK | Q32C_SR_FUNC_AOTRIG | Q32C_SR_FUNC_DOCLK | Q32C_SR_FUNC_DOTRIG.
Definition sr_func_value (f : Q32C_SR_FUNC) : Z :=
  match f with
  | Q32C_SR_FUNC_DI0 | Q32C_SR_FUNC_AICLK => 0 | Q32C_SR_FUNC_DI1 | Q32C_SR_FUNC_AITRIG => 1
  | Q32C_SR_FUNC_DI2 | Q32C_SR_FUNC_AOCLK => 2 | Q32C_SR_FUNC_DI3 | Q32C_SR_FUNC_AOTRIG => 3
  | Q32C_SR_FUNC_DI4 | Q32C_SR_FUNC_DOCLK => 4 | Q32C_SR_FUNC_DI5 | Q32C_SR_FUNC_DOTRIG => 5
  end.

Inductive Q32C_SR_DEST : Type :=
  | Q32C_SR_DEST_NONE | Q32C_SR_DEST_MIx | Q32C_SR_DEST_MOx
  | Q32C_SR_DEST_J50 | Q32C_SR_DEST_J51 | Q32C_SR_DEST_J52 | Q32C_SR_DEST_J53
  | Q32C_SR_DEST_J34 | Q32C_SR_DEST_J35
  | Q32C_SR_DEST_PXI_TRIG0 | Q32C_SR_DEST_PXI_TRIG1 | Q32C_SR_DEST_PXI_TRIG2
  | Q32C_SR_DEST_PXI_TRIG3 | Q32C_SR_DEST_PXI_TRIG4 | Q32C_SR_DEST_PXI_TRIG5
  | Q32C_SR_DEST_PXI_TRIG6 | Q32C_SR_DEST_PXI_TRIG7
  | Q32C_SR_DEST_PXI_STAR | Q32C_SR_DEST_PXI_CLK10.
Definition sr_dest_value (d : Q32C_SR_DEST) : Z :=
  match d with
  | Q32C_SR_DEST_NONE => 0x00 | Q32C_SR_DEST_MIx => 0x01 | Q32C_SR_DEST_MOx => 0x02
  | Q32C_SR_DEST_J50 | Q32C_SR_DEST_J51 | Q32C_SR_DEST_J52 | Q32C_SR_DEST_J53
  | Q32C_SR_DEST_J34 | Q32C_SR_DEST_J35 => 0x04
  | Q32C_SR_DEST_PXI_TRIG0 | Q32C_SR_DEST_PXI_TRIG1 | Q32C_SR_DEST_PXI_TRIG2
  | Q32C_SR_DEST_PXI_TRIG3 | Q32C_SR_DEST_PXI_TRIG4 | Q32C_SR_DEST_PXI_TRIG5 => 0x08
  | Q32C_SR_DEST_PXI_TRIG6 | Q32C_SR_DEST_PXI_TRIG7
  | Q32C_SR_DEST_PXI_STAR | Q32C_SR_DEST_PXI_CLK10 => 0x10
  end.

(** ** Tags and multi-frame signatures of the data *)
Definition SF0 : Z := 0xfe.
Definition SF1 : Z := 0xed.
Definition SUBFRAME_MASK : Z := 0x3f.
Definition NSUBFRAMES : Z := 0x40.
Definition NID_BITS : Z := 0x30.
Definition nX_bit : Z := 15.
Definition T_bit : Z := 14.
Definition s0_bit : Z := 8.
Definition MFX_SF0 : Z := 0.
Definition MFX_SF1 : Z := 1.
Definition MFX_MF2 : Z := 2.
Definition MFX_MF3 : Z := 3.
Definition MFX_FNa : Z := 4.
Definition MFX_FNb : Z := 5.
Definition MFX_Ja : Z := 6.
Definition MFX_Jb : Z := 7.
Definition MFX_Jc : Z := 8.
Definition MFX_Jd : Z := 9.
Definition MFX_ESa : Z := 10.
Definition MFX_ESb : Z := 11.
Definition MFX_ESc : Z := 12.
Definition MFX_ESd : Z := 13.
Definition MFX_ESOFa : Z := 14.
Definition MFX_ESOFb : Z := 15.
Definition MFX_ESOFc : Z := 16.
Definition MFX_DIO : Z := 17.
Definition MFX_EDIOa : Z := 18.
Definition MFX_EDIOb : Z := 19.
Definition MFX_EDIOc : Z := 20.
Definition MFX_EDIOd : Z := 21.
Definition MFX_BLENa : Z := 22.
Definition MFX_BLENb : Z := 23.
Definition MFX_BDELa : Z := 24.
Definition MFX_BDELb : Z := 25.
Definition MFX_OVER : Z := 26.
Definition MFX_MFNa : Z := 28.
Definition MFX_MFNb : Z := 29.
Definition MFX_MFNc : Z := 30.
Definition MFX_MFNd : Z := 31.
Definition MFX_TVSa : Z := 32.
Definition MFX_TVSb : Z := 33.
Definition MFX_TVSc : Z := 34.
Definition MFX_TVSd : Z := 35.
Definition MFX_TVUSa : Z := 36.
Definition MFX_TVUSb : Z := 37.
Definition MFX_TVUSc : Z := 38.
Definition MFX_TVUSd : Z := 39.
Definition MF_MF2 : Z := 0xf0.
Definition MF_MF3 : Z := 0x01.
Definition MF_FILLa : Z := 0xf1.
Definition MF_FILLb : Z := 0x11.

(** ** Message types and special channels *)
Definition MTP_STREAM_END_PACKET : Z := 0x400000.
Definition MT_FWREV : Z := Z.shiftl BP_FC_GET_FWREV MT_TYPE_SHIFT.
Definition MT_BIGDUMP_COMPLETE : Z := Z.shiftl BP_FC_BIG_DUMP MT_TYPE_SHIFT.
Definition MT_GETCONFIG : Z := BP_FC_GET_CONFIG.
Definition MT_GETCALINFO : Z := Z.shiftl BP_FC_GET_CALINFO MT_TYPE_SHIFT.
Definition MT_GETCAPTURESTATS : Z := Z.shiftl BP_FC_GET_CAPTURESTATS MT_TYPE_SHIFT.
Definition HRD_WAVETRACK : Z := 0x2000.
Definition HRD_SPCLID_BATCHTO : Z := 99.
Definition HRD_SPCLID_BATCHOUT : Z := 100.
Definition HRD_SPCLID_BATCHIO : Z := 101.
Definition HRD_SPCLID_BATCHRSH : Z := 102.
Definition HRD_SPCLID_ACQCMD : Z := 109.

Definition HRD_CHANNEL (hrd : HOST_REQUEST_DATA_RECORD) : Z := Z.land (hrd_chan hrd) 0x0ff.
Definition HRD_SPCLID (hrd : HOST_REQUEST_DATA_RECORD) : Z := Z.land (hrd_chan hrd) 0x07f.
Definition REQUESTMAXBYTES (hrdr : HOST_REQUEST_DATA_RECORD) : Z := hrd_nsamples hrdr.
Definition START_LATEST : Z := 0xFFFFFFFF.
Definition MID_NOT_VALID : Z := 0x8000.
Definition MESSAGE_LEN : Z := 0x400.
Definition MESSAGE_DATA_LEN : Z := MESSAGE_LEN - MESSAGE_HEADER_SIZE.
Definition MESSAGE_HRDR_LEN : Z := MESSAGE_DATA_LEN / HRDR_SZ.

Record StatusChangeNotificationRequest := mkNotification {
  request_mask : Z;    (* unsigned *)
  response_mask : Z    (* unsigned *)
}.

(** [unsigned data[1]] is the head of [nsamples] words that follow. *)
Record Acq32PullOutputDataRecord := mkPullOutput {
  src_pci : Z;         (* unsigned *)
  func : Z;            (* unsigned: BP_FC_SET_DACS or BP_FC_SET_DO *)
  po_start : Z;        (* unsigned *)
  po_nsamples : Z;     (* unsigned *)
  po_data : list Z     (* unsigned *)
}.

(** ** The test distributor's samples *)
Definition T_ISAMPLE_BIT : Z := 0x0040.
Definition T_SUBFRAME_MASK : Z := 0x003f.
Definition T_CHANNEL_MASK : Z := 0x0f80.
Definition T_TRIGGER_BIT : Z := 0x8000.
Definition T_RAMP_MASK : Z := 0x7000.

(** ** Requests: what the host can ask of the card *)

(** Every code that sets or starts something, and every code that asks. *)
Definition command_codes : list Z :=
  [BP_FC_SET_DEBUG; BP_FC_SET_INTERRUPTS; BP_FC_SET_INTCLOCK; BP_FC_SET_EXTCLOCK;
   BP_FC_SET_TAGGING; BP_FC_SET_HOST_DMABUF; BP_FC_SET_SPIN; BP_FC_BIG_DUMP; BP_FC_SET_ROUTE;
   BP_FC_SET_CALDACS; BP_FC_SET_DACPOT; BP_FC_SET_MODE; BP_FC_SET_MODE_GC; BP_FC_SET_MODE_TC;
   BP_FC_SET_ARM; BP_FC_SET_ABORT; BP_FC_SET_MASK; BP_FC_RESERVE_AO; BP_FC_SET_DACS;
   BP_FC_SET_DO; BP_FC_SC_SET_DIO; BP_FC_SC_SET_CHANNEL; BP_FC_SC_POT; BP_FC_SET_DISTRIBUTOR;
   BP_FC_SELECT_CALSET; BP_FC_ADJUST_TRIGGER; BP_GUT_SETPHASE; BP_GUT_SETEVENT;
   BP_GUT_FIREEVENT; BP_GUT_SETCLOCK; BP_GUT_CLOCKNOW; BP_GUT_RESET; BP_FC_SET_DATA_THRESHOLD;
   BP_FC_USER; BP_FC_WAIT_EVENT; BP_FC_FETCH_DATA; BP_FC_TXDATA; BP_FC_STREAM;
   BP_FC_SET_MODE_LLC; BP_FC_SETMODE_HTM; BP_FC_CPCI_SET_ROUTE].
Definition query_codes : list Z :=
  [BP_FC_GET_INTCLOCK; BP_FC_GET_EXTCLOCK; BP_FC_GET_FWREV; BP_FC_GET_CONFIG; BP_FC_GET_CALINFO;
   BP_FC_GET_CAPTURESTATS; BP_FC_DEBUG_GET_REGS; BP_FC_GET_NUMSAMPLES; BP_FC_GET_MASK;
   BPFC_GET_MODEL; BPFC_GET_NCHANNELS; BPFC_GET_RANGE; BP_FC_QUERY_AO; BP_FC_SC_GET_DIO;
   BP_FC_GET_ATRIGGER; BP_GUT_GETPHASE; BP_GUT_GETEVENT; BP_FC_CPCI_GETROUTE_STATUS].

(** A request: whether it is a query, and its code.  Its word as [acq200_sendCommand] and
    [acq200_sendQuery] write it (acq200.c, lines 772 and 825). *)
Definition requests : list (bool * Z) :=
  map (pair false) command_codes ++ map (pair true) query_codes.
Definition request_command (fc a1 a2 : Z) : Z :=
  Z.lor (Z.lor (BP_SET_A2 a2) (BP_SET_A1 a1)) (BP_SET_FUNCODE fc).
Definition sent_word (query : bool) (fc a1 a2 : Z) : Z :=
  let command := request_command fc a1 a2 in
  u32 (if query then Z.lor (Z.lor command BP_CI_QUERY) BP_CI_DONE
       else Z.lor (Z.lor command BP_CI_DONE) BP_CI_COMMAND).

Definition immediate (query : bool) : Z := if query then 0x50 else 0x60.

Lemma sent_word_sum query fc a1 a2 : 0 <= fc < 256 -> 0 <= a1 < 256 -> 0 <= a2 < 256 ->
  sent_word query fc a1 a2 = a2 + a1 * 2 ^ 8 + fc * 2 ^ 16 + immediate query * 2 ^ 24.
Proof.
  intros. rewrite <- command_word_sum by done.
  assert (sent_word query fc a1 a2 = u32 (command_word (immediate query) fc a1 a2)) as ->.
  { unfold sent_word, request_command, command_word. f_equal. rewrite !Z.lor_assoc.
    destruct query; rewrite <- !Z.lor_assoc; repeat f_equal. }
  apply u32_id. rewrite command_word_sum by done. destruct query; cbn [immediate]; lia.
Qed.

Lemma request_code_range r : r ∈ requests -> r.2 <> funcode fc80 -> 0 <= r.2 < 256.
Proof.
  intros Hr Hne. assert (forallb (fun r => (r.2 =? funcode fc80) || ((0 <=? r.2) && (r.2 <? 256)))
    requests = true) as H by reflexivity.
  rewrite forallb_forall in H. specialize (H r). rewrite <- list_elem_of_In in H.
  specialize (H Hr). lia.
Qed.

(** No command is given twice, nor any query, and the words of two requests (of codes other than
    [fc80]) with byte arguments are equal only when kind, code and arguments are: a code that a
    command and a query share is told apart by their bits, and every argument is kept. *)
Theorem requests_unambiguous q fc a1 a2 q' fc' a1' a2' :
  NoDup requests /\
  ((q, fc) ∈ requests -> (q', fc') ∈ requests -> fc <> funcode fc80 -> fc' <> funcode fc80 ->
   0 <= a1 < 256 -> 0 <= a2 < 256 -> 0 <= a1' < 256 -> 0 <= a2' < 256 ->
   sent_word q fc a1 a2 = sent_word q' fc' a1' a2' ->
   (q, fc, a1, a2) = (q', fc', a1', a2')).
Proof.
  split; [by apply (bool_decide_unpack _); vm_compute|].
  intros Hr Hr' Hc Hc' ? ? ? ?. apply request_code_range in Hr, Hr'; [cbn in Hr, Hr'|done..].
  rewrite !sent_word_sum by done. powers. intros E.
  assert (immediate q = immediate q' /\ fc = fc' /\ a1 = a1' /\ a2 = a2') as (Hi & -> & -> & ->).
  { destruct q, q'; cbn [immediate] in *; lia. }
  by destruct q, q'.
Qed.

(** The codes that a command and a query share. *)
Theorem shared_codes :
  filter (fun fc => fc ∈ query_codes) command_codes =
    map funcode [fci; fce; FCK; fca; fcd; fc80; fc1; fc2; fcy].
Proof. reflexivity. Qed.

(** [fc80] is a negative character, whose sign fills the immediate bits of the word: the query of the
    trigger's channel and the command that adjusts for it are the same word, in which every immediate
    bit is set. *)
Theorem trigger_words_collide a1 a2 : 0 <= a1 < 256 -> 0 <= a2 < 256 ->
  sent_word false BP_FC_ADJUST_TRIGGER a1 a2 = 0xff800000 + a1 * 2 ^ 8 + a2 /\
  sent_word true BP_FC_GET_ATRIGGER a1 a2 = 0xff800000 + a1 * 2 ^ 8 + a2.
Proof.
  intros. assert (request_command (funcode fc80) a1 a2 = a2 + a1 * 2 ^ 8 + -128 * 2 ^ 16) as E.
  { unfold request_command, BP_SET_A2, BP_SET_A1, BP_SET_FUNCODE.
    rewrite (lor_disjoint_add a2 a1 8), (lor_disjoint_add _ _ 16) by (cbn [funcode]; lia). reflexivity. }
  assert (forall m, Z.land m (- 2 ^ 23) = m -> Z.lor (a2 + a1 * 2 ^ 8 + -128 * 2 ^ 16) m =
                    a2 + a1 * 2 ^ 8 + -128 * 2 ^ 16) as A.
  { intros m Hm. replace (a2 + a1 * 2 ^ 8 + -128 * 2 ^ 16) with (a2 + a1 * 2 ^ 8 + -1 * 2 ^ 23) by lia.
    rewrite <- (lor_disjoint_add _ (-1) 23) by lia. rewrite <- Z.lor_assoc. f_equal.
    rewrite <- Hm. change (Z.shiftl (-1) 23) with (- 2 ^ 23). apply Z.bits_inj'. intros i _.
    rewrite Z.lor_spec, Z.land_spec. by destruct (Z.testbit _ i), (Z.testbit _ i). }
  unfold sent_word, BP_FC_ADJUST_TRIGGER, BP_FC_GET_ATRIGGER. cbv zeta. rewrite E, !A by reflexivity. unfold u32, wrap. powers.
  split; Z.to_euclidean_division_equations; lia.
Qed.

(** A signal conditioning channel: channel, two gains and the excitation, a byte each; every one is
    read back as it was encoded. *)
Definition sc_channel_word (ch g1 g2 v_ex : Z) : Z :=
  Z.lor (Z.lor (BYTE_ENCODE_BIT BP_FC_SC_SET_CHANNEL_V_EX_LSB v_ex)
               (BYTE_ENCODE_BIT BP_FC_SC_SET_CHANNEL_G2_LSB g2))
        (Z.lor (BYTE_ENCODE_BIT BP_FC_SC_SET_CHANNEL_G1_LSB g1)
               (BYTE_ENCODE_BIT BP_FC_SC_SET_CHANNEL_CH_LSB ch)).

Theorem sc_channel_roundtrip ch g1 g2 v_ex :
  0 <= ch < 256 -> 0 <= g1 < 256 -> 0 <= g2 < 256 -> 0 <= v_ex < 256 ->
  let w := sc_channel_word ch g1 g2 v_ex in
  BYTE_DECODE_BIT BP_FC_SC_SET_CHANNEL_CH_LSB w = ch /\
  BYTE_DECODE_BIT BP_FC_SC_SET_CHANNEL_G1_LSB w = g1 /\
  BYTE_DECODE_BIT BP_FC_SC_SET_CHANNEL_G2_LSB w = g2 /\
  BYTE_DECODE_BIT BP_FC_SC_SET_CHANNEL_V_EX_LSB w = v_ex /\ 0 <= w < 2 ^ 32.
Proof.
  intros ? ? ? ? w. assert (w = v_ex + g2 * 2 ^ 8 + g1 * 2 ^ 16 + ch * 2 ^ 24) as ->.
  { subst w. unfold sc_channel_word, BYTE_ENCODE_BIT, BP_FC_SC_SET_CHANNEL_V_EX_LSB,
      BP_FC_SC_SET_CHANNEL_G2_LSB, BP_FC_SC_SET_CHANNEL_G1_LSB, BP_FC_SC_SET_CHANNEL_CH_LSB.
    rewrite Z.shiftl_0_r, (lor_disjoint_add v_ex g2 8), Z.lor_assoc by lia.
    rewrite (lor_disjoint_add _ g1 16), (lor_disjoint_add _ ch 24) by lia. lia. }
  unfold BYTE_DECODE_BIT, BP_FC_SC_SET_CHANNEL_V_EX_LSB,
      BP_FC_SC_SET_CHANNEL_G2_LSB, BP_FC_SC_SET_CHANNEL_G1_LSB, BP_FC_SC_SET_CHANNEL_CH_LSB.
  repeat split; try bitfield; powers; lia.
Qed.

(** ** Tags, frames and test samples *)

(** The tag of a subframe: a bit of the sample number, the trigger, the subframe and eight inputs. *)
Definition sample_tag (nX trig subframe dio : Z) : Z :=
  Z.lor (Z.lor dio (Z.shiftl subframe s0_bit)) (Z.lor (Z.shiftl trig T_bit) (Z.shiftl nX nX_bit)).

Theorem sample_tag_roundtrip nX trig subframe dio :
  0 <= nX < 2 -> 0 <= trig < 2 -> 0 <= subframe < NSUBFRAMES -> 0 <= dio < 256 ->
  let tag := sample_tag nX trig subframe dio in
  Z.land (Z.shiftr tag nX_bit) 1 = nX /\ Z.land (Z.shiftr tag T_bit) 1 = trig /\
  Z.land (Z.shiftr tag s0_bit) SUBFRAME_MASK = subframe /\ Z.land tag 0xff = dio /\
  0 <= tag < 2 ^ 16.
Proof.
  intros ? ? Hs ? tag. unfold NSUBFRAMES in Hs.
  assert (tag = dio + subframe * 2 ^ 8 + trig * 2 ^ 14 + nX * 2 ^ 15) as ->.
  { subst tag. unfold sample_tag, s0_bit, T_bit, nX_bit.
    rewrite (lor_disjoint_add dio subframe 8), Z.lor_assoc by lia.
    rewrite (lor_disjoint_add _ trig 14), (lor_disjoint_add _ nX 15) by lia. lia. }
  change 1 with (2 ^ 1 - 1). change SUBFRAME_MASK with (2 ^ 6 - 1).
  rewrite !land_mask_mod by lia. unfold s0_bit, T_bit, nX_bit.
  change (2 ^ 1) with 2. change (2 ^ 6) with 64. change (2 ^ 14) with 16384. change (2 ^ 15) with 32768.
  repeat split; try (autorewrite with bitfield; change (2 ^ 14) with 16384;
    change (2 ^ 15) with 32768; powers; Z.to_euclidean_division_equations; lia);
    powers; lia.
Qed.

(** The frames of a multi-frame signature: the fields do not overlap, and fill the first forty of the
    sixty-four subframes but number 27, which the header leaves spare. *)
Definition mfx_fields : list Z :=
  [MFX_SF0; MFX_SF1; MFX_MF2; MFX_MF3; MFX_FNa; MFX_FNb; MFX_Ja; MFX_Jb; MFX_Jc; MFX_Jd; MFX_ESa;
   MFX_ESb; MFX_ESc; MFX_ESd; MFX_ESOFa; MFX_ESOFb; MFX_ESOFc; MFX_DIO; MFX_EDIOa; MFX_EDIOb;
   MFX_EDIOc; MFX_EDIOd; MFX_BLENa; MFX_BLENb; MFX_BDELa; MFX_BDELb; MFX_OVER; MFX_MFNa; MFX_MFNb;
   MFX_MFNc; MFX_MFNd; MFX_TVSa; MFX_TVSb; MFX_TVSc; MFX_TVSd; MFX_TVUSa; MFX_TVUSb; MFX_TVUSc;
   MFX_TVUSd].

Theorem mfx_layout i : i ∈ mfx_fields <-> 0 <= i < 40 /\ i <> 27.
Proof.
  assert (mfx_fields = seqZ 0 27 ++ seqZ 28 12) as -> by reflexivity.
  rewrite elem_of_app, !elem_of_seqZ. lia.
Qed.

(** A sample of the test distributor: trigger, ramp, channel, a bit of the sample number and the
    subframe.  The masks cover the sixteen bits without overlap. *)
Definition test_sample (trig ramp chan isample subframe : Z) : Z :=
  subframe + isample * T_ISAMPLE_BIT + chan * 2 ^ 7 + ramp * 2 ^ 12 + trig * T_TRIGGER_BIT.

Theorem test_sample_roundtrip trig ramp chan isample subframe :
  0 <= trig < 2 -> 0 <= ramp < 8 -> 0 <= chan < 32 -> 0 <= isample < 2 -> 0 <= subframe < 64 ->
  let s := test_sample trig ramp chan isample subframe in
  Z.land s T_SUBFRAME_MASK = subframe /\ Z.land s T_ISAMPLE_BIT = isample * T_ISAMPLE_BIT /\
  Z.shiftr (Z.land s T_CHANNEL_MASK) 7 = chan /\ Z.shiftr (Z.land s T_RAMP_MASK) 12 = ramp /\
  Z.land s T_TRIGGER_BIT = trig * T_TRIGGER_BIT.
Proof.
  intros. subst s. unfold test_sample.
  change T_SUBFRAME_MASK with (Z.shiftl (2 ^ 6 - 1) 0).
  change T_ISAMPLE_BIT with (Z.shiftl (2 ^ 1 - 1) 6).
  change T_CHANNEL_MASK with (Z.shiftl (2 ^ 5 - 1) 7).
  change T_RAMP_MASK with (Z.shiftl (2 ^ 3 - 1) 12).
  change T_TRIGGER_BIT with (Z.shiftl (2 ^ 1 - 1) 15).
  rewrite !land_mask_at, !Z.shiftr_div_pow2, !Z.shiftl_mul_pow2 by lia.
  change (2 ^ 0) with 1. change (2 ^ 1) with 2. change (2 ^ 3) with 8. change (2 ^ 6) with 64.
  change (2 ^ 7) with 128. change (2 ^ 15) with 32768. powers.
  repeat split; Z.to_euclidean_division_equations; lia.
Qed.

(** ** Message types and channels *)
Definition message_types : list Z :=
  [MT_STREAM; MT_FWREV; MT_BIGDUMP_COMPLETE; MT_GETCALINFO; MT_GETCAPTURESTATS; MT_COMMAND_PACKET].

(** The types of message are told apart by their identifier, which no parameter changes.
    [MT_GETCONFIG] is the exception: it is the bare code, so that its identifier is 0. *)
Theorem message_types_distinct t p :
  NoDup message_types /\ (MT_ID MT_GETCONFIG = 0 /\ MT_PRAM MT_GETCONFIG = BP_FC_GET_CONFIG) /\
  (t ∈ message_types -> 0 <= p < 2 ^ 24 ->
   MT_ID (Z.lor t p) = t /\ MT_PRAM (Z.lor t p) = p).
Proof.
  split; [by apply (bool_decide_unpack _); vm_compute|]. split; [done|]. intros Ht Hp.
  assert (exists fc, t = Z.shiftl fc 24 /\ 0 <= fc < 256) as (fc & -> & Hfc).
  { repeat (apply elem_of_cons in Ht as [->|Ht]); [exists 83|exists 82|exists 85|exists 87|exists 69
      |exists 122|by apply elem_of_nil in Ht]; by split. }
  rewrite Z.lor_comm, lor_disjoint_add by lia. unfold MT_ID, MT_PRAM.
  change MT_TYPE_MASK with (Z.shiftl (2 ^ 8 - 1) 24). change MT_PRAM_MASK with (2 ^ 24 - 1).
  rewrite land_mask_at, land_mask_mod by lia.
  split; [|bitfield]. rewrite Z.shiftl_mul_pow2 by lia. bitfield.
Qed.

(** The channel of a data record is its low byte whatever the flags above it; the special channel is
    that of a node less its top bit; a wave track is read back with its channel counted from one. *)
Theorem hrd_channel_fields flags c h : 0 <= c < 256 -> hrd_chan h = Z.lor (Z.shiftl flags 8) c ->
  HRD_CHANNEL h = c /\ HRD_SPCLID h = c mod 128 /\
  (forall track ch, 0 <= track < 8 -> 0 <= ch < 32 ->
   HRD_TRACK (Z.lor (Z.shiftl track 5) ch) = track /\ HRD_CHAN (Z.lor (Z.shiftl track 5) ch) = ch + 1).
Proof.
  intros Hc E. unfold HRD_CHANNEL, HRD_SPCLID. rewrite E, Z.lor_comm, lor_disjoint_add by lia.
  split; [bitfield|]. split; [change (2 ^ 8) with 256; rewrite land_0x7f; Z.to_euclidean_division_equations; lia|].
  intros track ch ? ?. rewrite Z.lor_comm, lor_disjoint_add by lia. unfold HRD_TRACK, HRD_CHAN.
  change 7 with (2 ^ 3 - 1). rewrite land_mask_mod by lia. change (2 ^ 3) with 8. split; bitfield.
Qed.

(** A message fits its frame: header and the largest payload are [MESSAGE_LEN] bytes, sixty-three
    data records fit in the payload and no more do. *)
Theorem message_layout :
  MESSAGE_HEADER_SIZE + MESSAGE_DATA_LEN = MESSAGE_LEN /\ MESSAGE_HRDR_LEN = 63 /\
  MESSAGE_HRDR_LEN * HRDR_SZ <= MESSAGE_DATA_LEN < (MESSAGE_HRDR_LEN + 1) * HRDR_SZ /\
  forall m, Z.of_nat (length (message_bytes m)) <= MESSAGE_LEN.
Proof. do 2 (split; [reflexivity|]). split; [vm_compute; split; [intros [=]|done]|].
  intros. rewrite length_message_bytes. unfold MESSAGE_LEN. lia.
Qed.

(** ** Witnesses *)
Lemma requests_unambiguous_witness :
  sent_word true BP_FC_GET_INTCLOCK 1 2 = sent_word true 105 1 2 /\
  (true, BP_FC_GET_INTCLOCK, 1, 2) = (true, 105, 1, 2).
Proof.
  split; [reflexivity|]. apply (requests_unambiguous true BP_FC_GET_INTCLOCK 1 2 true 105 1 2);
    try (by apply (bool_decide_unpack _); vm_compute); vm_compute; try done; split; done || lia.
Defined.
