(* ===== verification/Llc.v ===== *)
(** * acq32busprot.h: low latency control and high throughput streaming

    In both modes the card leaves its command protocol: mailbox 0 becomes a register that host
    and card share, the others hold addresses and times, and the card writes its status to the
    host's memory.  The fields of the two registers do not overlap, and the initialisation block that
    the host prepares for an ACQ216 (struct LLC200_INIT) has the layout of a packed structure. *)

From S2P Require Import Prelude BusProt Protocol.

(** ** Low latency control *)
Definition BP_FC_SET_MODE_LLC_SOFTCLOCK : Z := 0x80.
Definition BP_FC_SET_MODE_LLC_EXTCLOCK : Z := 0x40.
Definition BP_FC_SET_MODE_LLC_CLKPOL_POS : Z := 0x20.
Definition BP_FC_SET_MODE_LLC_TRPOL_POS : Z := 0x10.
Definition BP_FC_SET_LLCV2_INIT : Z := 0x08.
Definition BP_FC_SET_RTCLOCK_TIMING : Z := 0x04.
Definition BP_FC_SET_MODE_LLC_INTSOFT_CLK : Z := 0x01.
Definition BP_FC_SET_MODE_LLC_INTDIV_CLK : Z := 0x02.
Definition BP_MB_LLC_CSR : Z := 0.
Definition BP_MB_LLC_DATA_ADDR : Z := 1.
Definition BP_MB_LLC_TADC : Z := 2.
Definition BP_MB_LLC_TINST : Z := 3.
Definition LLC_CSR_SACK : Z := 0x80000000.
Definition LLC_CSR_SNACK : Z := 0x40000000.
Definition LLC_CSR_READY : Z := 0x10000000.
Definition LLC_CSR_S_IS_ARMED : Z := 0x08000000.
Definition LLC_CSR_S_CTR_RUN : Z := 0x04000000.
Definition LLC_CSR_S_DMA_DONE : Z := 0x02000000.
Definition LLC_CSR_S_ERROR : Z := 0x01000000.
Definition LLC_CSR_M_LLC200_INIT : Z := 0x00000080.
Definition LLC_CSR_M_AUTOINCR : Z := 0x00000020.
Definition LLC_CSR_M_SETADDR : Z := 0x00000010.
Definition LLC_CSR_M_READCTR : Z := 0x00000008.
Definition LLC_CSR_M_ESC : Z := 0x00000004.
Definition LLC_CSR_M_ARM : Z := 0x00000002.
Definition LLC_CSR_M_SOFTCLOCK : Z := 0x00000001.

Definition LLCV2_INIT_MAGIC_MARKER : Z := 0xfeedc0de.
Definition LLCV2_INIT_MARKER : Z := 0.
Definition LLCV2_INIT_AI_HSBT : Z := 1.
Definition LLCV2_INIT_AO_HSBS : Z := 2.
Definition LLCV2_INIT_DO_HSBS : Z := 3.
Definition LLCV2_INIT_STATUS_HSBT : Z := 4.
Definition LLCV2_INIT_LAST : Z := 5.
Definition LLC200_INIT_MAGIC_MARKER : Z := 0x200cafe0.
Definition LLC200_INIT_MASK_DDS_FTW : Z := 0x0001.
Definition LLC200_INIT_MASK_RANGE : Z := 0x0002.
Definition LLC200_INIT_MASK_OFFSETS : Z := 0x0004.
Definition LLC200_INIT_MASK_TRIG : Z := 0x0008.
Definition LLC200_INIT_MASK_CHANNEL : Z := 0x0010.
Definition LLC200_INIT_MASK_INTCLK : Z := 0x0020.
Definition LLC200_INIT_MASK_DDS_QDAC : Z := 0x0040.
Definition LLC200_INIT_TRIG_EXTRIG : Z := 0x0010.
Definition LLC200_INIT_TRIG_EXTLINE : Z := 0x000f.
Definition LLC200_INIT_TRIG_RISING : Z := 0x0020.

(** [struct LLC200_INIT], packed: the ranges are a union of four halfwords and one long word. *)
Record LLC200_INIT := mkInit {
  init_marker : Z;         (* unsigned *)
  init_mask : Z;           (* unsigned *)
  dds_ftw : list Z;        (* unsigned char [8] *)
  vranges : list Z;        (* unsigned short [4] *)
  offsets : list Z;        (* unsigned short [16] *)
  trig : Z;                (* unsigned *)
  channel_mask : Z;        (* unsigned *)
  int_clk : Z              (* unsigned *)
}.

Definition LLC200_INIT_CHANNEL_MASK_ANTIPHASE : Z := 0x80000000.
Definition LLC200_INIT_CHANNEL_MASK_BLOCKLEN_MASK : Z := 0x0fff0000.
Definition LLC200_INIT_CHANNEL_MASK_BLOCKLEN_SHIFT : Z := 16.
Definition LLC200_INIT_CHANNEL_BLOCKLEN_1K : Z := 10.
Definition LLCV2_STATUS_MBOX0 : Z := 0.
Definition LLCV2_STATUS_MBOX1 : Z := 1.
Definition LLCV2_STATUS_MBOX2 : Z := 2.
Definition LLCV2_STATUS_MBOX3 : Z := 3.
Definition LLCV2_STATUS_DIO : Z := 4.
Definition LLCV2_STATUS_TINST : Z := 5.
Definition LLCV2_STATUS_TLATCH : Z := 6.
Definition LLCV2_STATUS_BDR : Z := 7.
Definition LLC_SYNC2V_DO : Z := 8.
Definition LLC_SYNC2V_IN_MBOX0 : Z := LLCV2_STATUS_MBOX0.
Definition LLC_SYNC2V_IN_MBOX1 : Z := LLCV2_STATUS_MBOX1.
Definition LLC_SYNC2V_IN_MBOX2 : Z := LLCV2_STATUS_MBOX2.
Definition LLC_SYNC2V_IN_MBOX3 : Z := LLCV2_STATUS_MBOX3.
Definition LLC_SYNC2V_IN_DIO6 : Z := LLCV2_STATUS_DIO.
Definition LLC_SYNC2V_IN_TINST : Z := LLCV2_STATUS_TINST.
Definition LLC_SYNC2V_IN_TLATCH : Z := LLCV2_STATUS_TLATCH.
Definition LLC_SYNC2V_IN_BDR : Z := LLCV2_STATUS_BDR.
Definition LLC_SYNC2V_IN_ITER : Z := LLCV2_STATUS_BDR + 1.
Definition LLC_SYNC2V_IN_DI32 : Z := LLCV2_STATUS_BDR + 2.
Definition LLC_SYNC2V_IN_LASTE : Z := LLCV2_STATUS_BDR + 3.
Definition LLC_SYNC2V_IN_TLAT32 : Z := LLCV2_STATUS_BDR + 4.
Definition LLC_SYNC2V_IN_VERID : Z := LLCV2_STATUS_BDR + 5.
Definition LLC_SYNC2V_IN_SCOUNT : Z := LLCV2_STATUS_BDR + 6.
Definition LLC_SYNC2V_IN_FIFSTA : Z := LLCV2_STATUS_BDR + 7.
Definition LLC_SYNC2V_IN_LAST : Z := LLCV2_STATUS_MBOX0 + 15.
Definition LLC_SYNC2V_IDLE_PAT : Z := 0x2f2fc0de.
Definition BP_FC_SETMODE_HTM : Z := funcode fch.
Definition BP_FC_SETMODE_HTM_V2 : Z := 0x80.
Definition BP_FC_SETMODE_HTM_STATUSBUF : Z := 0x40.
Definition BP_FC_SETMODE_HTM_HOFF : Z := 0x1f.
Definition HTM_V2_STATUS_OVERRUN : Z := 0x1.
Definition HTM_V2_STATUS_COMPLETE : Z := 0x2.
Definition BP_MB_HTM_CSR : Z := 0.
Definition BP_MB_HTM_DATA_ADDR : Z := 1.
Definition BP_MB_HTM_STATUS_ADDR : Z := 2.
Definition BP_MB_HTM_CURRENT_ADDR : Z := 3.
Definition HTM_CSR_SACK : Z := 0x80000000.
Definition HTM_CSR_SNACK : Z := 0x40000000.
Definition HTM_CSR_READY : Z := 0x10000000.
Definition HTM_CSR_S_IS_ARMED : Z := 0x08000000.
Definition HTM_CSR_S_OVERRUN : Z := 0x04000000.
Definition HTM_CSR_S_COMPLETE : Z := 0x02000000.
Definition HTM_CSR_M_SETADDR : Z := 0x00000010.
Definition HTM_CSR_M_RECYCLE : Z := 0x00000020.
Definition HTM_CSR_M_INTERRUPT : Z := 0x00000100.
Definition HTM_CSR_M_ESC : Z := 0x00000004.
Definition HTM_CSR_M_ARM : Z := 0x00000002.

(** The block in memory, and back. *)
Definition halfwords_bytes (ws : list Z) : list Z := ws ≫= le_bytes 2.

Fixpoint halfwords_at (mem : gmap Z Z) (a : Z) (n : nat) : list Z :=
  match n with O => [] | S n => le_value (mem_read mem a 2) :: halfwords_at mem (a + 2) n end.

Definition vranges_ull (b : LLC200_INIT) : Z := le_value (halfwords_bytes (vranges b)).

Definition init_bytes (b : LLC200_INIT) : list Z :=
  le_bytes 4 (init_marker b) ++ le_bytes 4 (init_mask b) ++ dds_ftw b ++
  halfwords_bytes (vranges b) ++ halfwords_bytes (offsets b) ++
  le_bytes 4 (trig b) ++ le_bytes 4 (channel_mask b) ++ le_bytes 4 (int_clk b).

Definition init_at (mem : gmap Z Z) (a : Z) : LLC200_INIT :=
  mkInit (le_value (mem_read mem a 4)) (le_value (mem_read mem (a + 4) 4))
    (mem_read mem (a + 8) 8) (halfwords_at mem (a + 16) 4) (halfwords_at mem (a + 24) 16)
    (le_value (mem_read mem (a + 56) 4)) (le_value (mem_read mem (a + 60) 4))
    (le_value (mem_read mem (a + 64) 4)).

Definition halfword (z : Z) : Prop := 0 <= z < 2 ^ 16.

Record init_ok (b : LLC200_INIT) : Prop := {
  io_marker : 0 <= init_marker b < 2 ^ 32;
  io_mask : 0 <= init_mask b < 2 ^ 32;
  io_ftw : length (dds_ftw b) = 8%nat;
  io_vranges : length (vranges b) = 4%nat /\ Forall halfword (vranges b);
  io_offsets : length (offsets b) = 16%nat /\ Forall halfword (offsets b);
  io_trig : 0 <= trig b < 2 ^ 32;
  io_channel_mask : 0 <= channel_mask b < 2 ^ 32;
  io_int_clk : 0 <= int_clk b < 2 ^ 32
}.

(** ** The block in memory *)
Lemma length_halfwords ws : length (halfwords_bytes ws) = (2 * length ws)%nat.
Proof.
  induction ws as [|x ws IH]; [done|]. unfold halfwords_bytes in *. cbn [mbind list_bind].
  rewrite length_app, IH, length_le_bytes. cbn [length]. lia.
Qed.

Lemma halfwords_at_bytes mem ws a : Forall halfword ws ->
  mem_read mem a (2 * length ws) = halfwords_bytes ws -> halfwords_at mem a (length ws) = ws.
Proof.
  intros H. revert a. induction H as [|x ws Hx H IH]; intros a E; [done|].
  replace (2 * length (x :: ws))%nat with (2 + 2 * length ws)%nat in E by (cbn [length]; lia).
  apply mem_read_split in E as [E0 E]; [|apply length_le_bytes].
  cbn [length halfwords_at]. by rewrite E0, le_value_bytes_id, IH.
Qed.

Lemma mem_read_split_at mem a b n k l1 l2 : mem_read mem a (n + k) = l1 ++ l2 ->
  length l1 = n -> b = a + Z.of_nat n -> mem_read mem a n = l1 /\ mem_read mem b k = l2.
Proof. intros ? ? ->. by apply mem_read_split. Qed.

(** The initialisation block is 68 bytes, laid out as [init_at] reads it with every field at a multiple
    of four, and the block that the host writes to memory is the one the card reads there. *)
Theorem llc200_init_roundtrip mem a b : init_ok b ->
  length (init_bytes b) = 68%nat /\ init_at (mem_write mem a (init_bytes b)) a = b.
Proof.
  intros [? ? Hf [Hv Fv] [Ho Fo] ? ? ?].
  assert (length (init_bytes b) = 68%nat) as Hl.
  { unfold init_bytes. rewrite !length_app, !length_halfwords, !length_le_bytes, Hf, Hv, Ho. done. }
  split; [done|]. pose proof (mem_read_write mem a (init_bytes b)) as E. rewrite Hl in E.
  revert E. generalize (mem_write mem a (init_bytes b)). clear mem Hl. intros mem E.
  unfold init_bytes in E.
  apply (mem_read_split_at mem a (a + 4) 4 64) in E as [E0 E]; [|apply length_le_bytes|lia].
  apply (mem_read_split_at mem _ (a + 8) 4 60) in E as [E1 E]; [|apply length_le_bytes|lia].
  apply (mem_read_split_at mem _ (a + 16) 8 52) in E as [E2 E]; [|done|lia].
  apply (mem_read_split_at mem _ (a + 24) 8 44) in E as [E3 E]; [|by rewrite length_halfwords, Hv|lia].
  apply (mem_read_split_at mem _ (a + 56) 32 12) in E as [E4 E]; [|by rewrite length_halfwords, Ho|lia].
  apply (mem_read_split_at mem _ (a + 60) 4 8) in E as [E5 E]; [|apply length_le_bytes|lia].
  apply (mem_read_split_at mem _ (a + 64) 4 4) in E as [E6 E7]; [|apply length_le_bytes|lia].
  unfold init_at. rewrite E0, E1, E2, E5, E6, E7, !le_value_bytes_id by (cbn; lia).
  pose proof (halfwords_at_bytes mem (vranges b) (a + 16) Fv) as Rv.
  pose proof (halfwords_at_bytes mem (offsets b) (a + 24) Fo) as Ro.
  rewrite Hv in Rv. rewrite Ho in Ro. rewrite Rv, Ro by done. by destruct b.
Qed.

(** The long word of the ranges is made of its halfwords, the first lowest. *)
Theorem vranges_ull_sum b r1 r2 r3 pad : vranges b = [r1; r2; r3; pad] ->
  Forall halfword (vranges b) ->
  vranges_ull b = r1 + r2 * 2 ^ 16 + r3 * 2 ^ 32 + pad * 2 ^ 48.
Proof.
  intros E. unfold vranges_ull, halfword. rewrite E. intros F. rewrite !Forall_cons in F.
  destruct F as (? & ? & ? & ? & _). unfold halfwords_bytes. cbn [mbind list_bind le_bytes le_value app].
  powers. change (2 ^ 48) with 281474976710656. Z.to_euclidean_division_equations. lia.
Qed.

(** ** The fields of the shared registers *)
Fixpoint disjoint_masks (ms : list Z) : bool :=
  match ms with
  | [] => true
  | m :: ms => forallb (fun n => Z.land m n =? 0) ms && disjoint_masks ms
  end.

(** Writing the bits [v] to the field [m] of a register. *)
Definition set_field (csr m v : Z) : Z := Z.lor (Z.ldiff csr m) (Z.land v m).

Lemma disjoint_masks_nth ms i j m n : disjoint_masks ms = true -> ms !! i = Some m ->
  ms !! j = Some n -> (i < j)%nat -> Z.land m n = 0.
Proof.
  revert i j. induction ms as [|x ms IH]; intros [|i] [|j] H Hi Hj Hlt; try done; try lia.
  - cbn in Hi, Hj, H. injection Hi as ->. apply andb_true_iff in H as [H _].
    rewrite forallb_forall in H. apply Z.eqb_eq, H, list_elem_of_In.
    by eapply list_elem_of_lookup_2.
  - cbn in Hi, Hj, H. apply andb_true_iff in H as [_ H]. by apply (IH i j); [..|lia].
Qed.

Lemma set_field_own csr m v : Z.land (set_field csr m v) m = Z.land v m.
Proof.
  apply Z.bits_inj'. intros i _. unfold set_field. rewrite !Z.land_spec, Z.lor_spec, Z.ldiff_spec, Z.land_spec.
  by destruct (Z.testbit csr i), (Z.testbit m i), (Z.testbit v i).
Qed.

Lemma set_field_other csr m n v : Z.land m n = 0 ->
  Z.land (set_field csr m v) n = Z.land csr n.
Proof.
  intros H. apply Z.bits_inj'. intros i _. assert (Z.testbit (Z.land m n) i = false) as E
    by (rewrite H; apply Z.bits_0). revert E. unfold set_field.
  rewrite !Z.land_spec, Z.lor_spec, Z.ldiff_spec, Z.land_spec.
  by destruct (Z.testbit csr i), (Z.testbit m i), (Z.testbit n i), (Z.testbit v i).
Qed.

Definition LLC_CSR_fields : list Z :=
  [LLC_CSR_SACK; LLC_CSR_SNACK; LLC_CSR_READY; LLC_CSR_S_IS_ARMED; LLC_CSR_S_CTR_RUN;
   LLC_CSR_S_DMA_DONE; LLC_CSR_S_ERROR; LLC_CSR_S_TCYCLE; LLC_CSR_M_DECIM; LLC_CSR_M_LLC200_INIT;
   LLC_CSR_M_AUTOINCR; LLC_CSR_M_SETADDR; LLC_CSR_M_READCTR; LLC_CSR_M_ESC; LLC_CSR_M_ARM;
   LLC_CSR_M_SOFTCLOCK].
Definition HTM_CSR_fields : list Z :=
  [HTM_CSR_SACK; HTM_CSR_SNACK; HTM_CSR_READY; HTM_CSR_S_IS_ARMED; HTM_CSR_S_OVERRUN;
   HTM_CSR_S_COMPLETE; HTM_HOSTBUF_MB; HTM_CSR_M_INTERRUPT; HTM_CSR_M_RECYCLE; HTM_CSR_M_SETADDR;
   HTM_CSR_M_ESC; HTM_CSR_M_ARM].

(** The register of either mode is shared by host and card: writing one of its fields gives the
    field its value and leaves every other field as it was. *)
Theorem csr_fields_independent fields i j m n csr v :
  fields = LLC_CSR_fields \/ fields = HTM_CSR_fields ->
  fields !! i = Some m -> fields !! j = Some n -> i <> j ->
  Z.land (set_field csr m v) m = Z.land v m /\ Z.land (set_field csr m v) n = Z.land csr n.
Proof.
  intros Hf Hi Hj Hne. assert (disjoint_masks fields = true) as D by (by destruct Hf; subst).
  split; [apply set_field_own|]. apply set_field_other. destruct (decide (i < j)%nat).
  - by apply (disjoint_masks_nth fields i j).
  - rewrite Z.land_comm. apply (disjoint_masks_nth fields j i); [done..|lia].
Qed.

(** The words of the status vector are the first sixteen, each named once. *)
Definition sync2v_words : list Z :=
  [LLC_SYNC2V_IN_MBOX0; LLC_SYNC2V_IN_MBOX1; LLC_SYNC2V_IN_MBOX2; LLC_SYNC2V_IN_MBOX3;
   LLC_SYNC2V_IN_DIO6; LLC_SYNC2V_IN_TINST; LLC_SYNC2V_IN_TLATCH; LLC_SYNC2V_IN_BDR;
   LLC_SYNC2V_IN_ITER; LLC_SYNC2V_IN_DI32; LLC_SYNC2V_IN_LASTE; LLC_SYNC2V_IN_TLAT32;
   LLC_SYNC2V_IN_VERID; LLC_SYNC2V_IN_SCOUNT; LLC_SYNC2V_IN_FIFSTA; LLC_SYNC2V_IN_LAST].

Theorem sync2v_layout : sync2v_words = seqZ 0 16.
Proof. reflexivity. Qed.

(** The channel mask of the block: sixteen channels, the length of a burst, and the antiphase bit. *)
Definition channel_mask_word (channels blocklen : Z) (antiphase : bool) : Z :=
  Z.lor (Z.lor channels (Z.shiftl blocklen LLC200_INIT_CHANNEL_MASK_BLOCKLEN_SHIFT))
        (if antiphase then LLC200_INIT_CHANNEL_MASK_ANTIPHASE else 0).

Theorem channel_mask_roundtrip channels blocklen antiphase :
  0 <= channels < 2 ^ 16 -> 0 <= blocklen < 2 ^ 12 ->
  let w := channel_mask_word channels blocklen antiphase in
  Z.land w 0xffff = channels /\
  Z.shiftr (Z.land w LLC200_INIT_CHANNEL_MASK_BLOCKLEN_MASK)
    LLC200_INIT_CHANNEL_MASK_BLOCKLEN_SHIFT = blocklen /\
  istrue (Z.land w LLC200_INIT_CHANNEL_MASK_ANTIPHASE) = antiphase.
Proof.
  intros Hc Hb w. assert (w = channels + blocklen * 2 ^ 16 + (if antiphase then 1 else 0) * 2 ^ 31) as ->.
  { subst w. unfold channel_mask_word, LLC200_INIT_CHANNEL_MASK_BLOCKLEN_SHIFT.
    rewrite (lor_disjoint_add channels blocklen 16) by lia.
    change (if antiphase then LLC200_INIT_CHANNEL_MASK_ANTIPHASE else 0) with
      (if antiphase then Z.shiftl 1 31 else Z.shiftl 0 31).
    destruct antiphase; by rewrite lor_disjoint_add by lia. }
  change LLC200_INIT_CHANNEL_MASK_ANTIPHASE with (2 ^ 31). rewrite land_pow2, Z.testbit_eqb by lia.
  change 0xffff with (2 ^ 16 - 1). change LLC200_INIT_CHANNEL_MASK_BLOCKLEN_MASK with (Z.shiftl (2 ^ 12 - 1) 16).
  rewrite land_mask_mod, land_mask_at by lia. unfold LLC200_INIT_CHANNEL_MASK_BLOCKLEN_SHIFT.
  split; [destruct antiphase; bitfield|]. split; [destruct antiphase; bitfield|].
  powers. destruct antiphase; [apply Z.eqb_eq|apply Z.eqb_neq]; Z.to_euclidean_division_equations; lia.
Qed.

(** ** Witnesses *)
Definition sample_init : LLC200_INIT :=
  mkInit LLC200_INIT_MAGIC_MARKER (Z.lor LLC200_INIT_MASK_CHANNEL LLC200_INIT_MASK_OFFSETS)
    [1; 2; 3; 4; 5; 6; 7; 8] [10; 20; 30; 0] (seqZ 1000 16) LLC200_INIT_TRIG_EXTRIG
    (channel_mask_word 0xffff 10 true) 1000000.

Lemma sample_init_ok : init_ok sample_init.
Proof.
  assert (forall ws, forallb (fun z => (0 <=? z) && (z <? 2 ^ 16)) ws = true -> Forall halfword ws) as F.
  { intros ws H. apply Forall_forall. intros z Hz. rewrite forallb_forall in H.
    specialize (H z). rewrite <- list_elem_of_In in H. unfold halfword. specialize (H Hz). lia. }
  constructor; repeat split; try done; by apply F.
Qed.

Lemma llc200_init_roundtrip_witness :
  length (init_bytes sample_init) = 68%nat /\
  init_at (mem_write ∅ 0x2000 (init_bytes sample_init)) 0x2000 = sample_init.
Proof. exact (llc200_init_roundtrip ∅ 0x2000 sample_init sample_init_ok). Defined.

(** Acknowledging a command leaves the cycle time in place. *)
Lemma csr_fields_independent_witness :
  Z.land (set_field 0x80420000 LLC_CSR_SACK 0) LLC_CSR_SACK = Z.land 0 LLC_CSR_SACK /\
  Z.land (set_field 0x80420000 LLC_CSR_SACK 0) LLC_CSR_S_TCYCLE = Z.land 0x80420000 LLC_CSR_S_TCYCLE.
Proof.
  apply (csr_fields_independent LLC_CSR_fields 0 7); [by left|reflexivity..|lia].
Defined.
