(* ===== verification/StreamBuf.v ===== *)
(** * streambuf.h: the ring buffers of message frame addresses

    [GenericIntBuf] is the ring of [u32] words between the interrupt handler, which puts message
    frame addresses (mfa) in, and the bottom half, which takes them out.  The index [iputback] is the
    previous value of [iget]: the slot of the last word taken is not reused until the next get, so
    that it can be put back.  The abstract specification is [Fifo]: a bounded queue which remembers
    the last word taken.  The C code is refined operation by operation and then for every sequence of
    operations. *)

From S2P Require Import Prelude.

Record GenericIntBuf := mkGenericIntBuf {
  buffer_mask : Z;       (* u32 *)
  iput : Z;
  iget : Z;
  iputback : Z;
  iswrapped : Z;
  nwrapped : Z;
  hitide : Z;
  qpresent : Z;
  buffers : list Z       (* u32 words, the array behind the header *)
}.

#[export] Instance set_buffer_mask : Setter buffer_mask := fun f b =>
  mkGenericIntBuf (f (buffer_mask b)) (iput b) (iget b) (iputback b) (iswrapped b) (nwrapped b) (hitide b) (qpresent b) (buffers b).
#[export] Instance set_iput : Setter iput := fun f b =>
  mkGenericIntBuf (buffer_mask b) (f (iput b)) (iget b) (iputback b) (iswrapped b) (nwrapped b) (hitide b) (qpresent b) (buffers b).
#[export] Instance set_iget : Setter iget := fun f b =>
  mkGenericIntBuf (buffer_mask b) (iput b) (f (iget b)) (iputback b) (iswrapped b) (nwrapped b) (hitide b) (qpresent b) (buffers b).
#[export] Instance set_iputback : Setter iputback := fun f b =>
  mkGenericIntBuf (buffer_mask b) (iput b) (iget b) (f (iputback b)) (iswrapped b) (nwrapped b) (hitide b) (qpresent b) (buffers b).
#[export] Instance set_iswrapped : Setter iswrapped := fun f b =>
  mkGenericIntBuf (buffer_mask b) (iput b) (iget b) (iputback b) (f (iswrapped b)) (nwrapped b) (hitide b) (qpresent b) (buffers b).
#[export] Instance set_nwrapped : Setter nwrapped := fun f b =>
  mkGenericIntBuf (buffer_mask b) (iput b) (iget b) (iputback b) (iswrapped b) (f (nwrapped b)) (hitide b) (qpresent b) (buffers b).
#[export] Instance set_buffers : Setter buffers := fun f b =>
  mkGenericIntBuf (buffer_mask b) (iput b) (iget b) (iputback b) (iswrapped b) (nwrapped b) (hitide b) (qpresent b) (f (buffers b)).

Definition NSTREAMBUF : Z := Z.shiftl 1 7.
Definition NSTATBUF : Z := Z.shiftl 1 4.
Definition STREAM_MFA_INVALID : Z := 0xFFFFFFFF.

(** ** Operations *)

Definition genericIntBufInit (nbuf : Z) (buf : GenericIntBuf) : GenericIntBuf :=
  buf <| iput := 0 |> <| iget := 0 |> <| iputback := 0 |> <| buffer_mask := u32 (nbuf - 1) |>.

Definition genericIntBufInc (buf : GenericIntBuf) (ii : Z) : Z :=
  s32 (Z.land (u32 (ii + 1)) (buffer_mask buf)).

Definition genericIntBufIsFull (buf : GenericIntBuf) : bool :=
  genericIntBufInc buf (iput buf) =? iputback buf.

Definition genericIntBufIsEmpty (buf : GenericIntBuf) : bool :=
  iget buf =? iput buf.

(** [buf->buffers[i]]; the invariant keeps every index inside the array. *)
Definition slot (bs : list Z) (i : Z) : Z := default 0 (bs !! Z.to_nat i).

Definition genericIntBufPut (data : Z) (buf : GenericIntBuf) : Z * GenericIntBuf :=
  if negb (genericIntBufIsFull buf) then
    let buf := buf <| buffers := <[Z.to_nat (iput buf) := data]> (buffers buf) |> in
    let iput' := genericIntBufInc buf (iput buf) in
    let buf := if iput' <? iput buf
               then buf <| iswrapped := 1 |> <| nwrapped := s32 (nwrapped buf + 1) |>
               else buf in
    (0, buf <| iput := iput' |>)
  else (-1, buf).

Definition genericIntBufGet (buf : GenericIntBuf) : Z * GenericIntBuf :=
  if negb (genericIntBufIsEmpty buf) then
    let data := slot (buffers buf) (iget buf) in
    let buf := buf <| iputback := iget buf |> in
    (data, buf <| iget := genericIntBufInc buf (iget buf) |>)
  else (STREAM_MFA_INVALID, buf).

Definition genericIntBufPutBack (buf : GenericIntBuf) : GenericIntBuf :=
  buf <| iget := iputback buf |>.

(** The loop of [genericIntBufNumEntries]; [None] when the fuel runs out. *)
Fixpoint num_entries_from (fuel : nat) (buf : GenericIntBuf) (ig entries : Z) : option Z :=
  match fuel with
  | O => None
  | S fuel =>
      if negb (ig =? iput buf)
      then num_entries_from fuel buf (genericIntBufInc buf ig) (entries + 1)
      else Some entries
  end.

Definition genericIntBufNumEntries (buf : GenericIntBuf) : option Z :=
  num_entries_from (S (length (buffers buf))) buf (iget buf) 0.

(** [struct StreamBuf] and [struct StatBuf] are the generic buffer with 128 and 16 words behind
    it; their operations are the generic ones. *)
Definition streamBufInit : GenericIntBuf -> GenericIntBuf := genericIntBufInit NSTREAMBUF.
Definition streamPut : Z -> GenericIntBuf -> Z * GenericIntBuf := genericIntBufPut.
Definition streamGet : GenericIntBuf -> Z * GenericIntBuf := genericIntBufGet.
Definition streamPutBack : GenericIntBuf -> GenericIntBuf := genericIntBufPutBack.
Definition streamNumEntries : GenericIntBuf -> option Z := genericIntBufNumEntries.
Definition statbufPut : Z -> GenericIntBuf -> Z * GenericIntBuf := genericIntBufPut.
Definition statbufGet : GenericIntBuf -> Z * GenericIntBuf := genericIntBufGet.
Definition statbufIsEmpty : GenericIntBuf -> bool := genericIntBufIsEmpty.
Definition statBufInit : GenericIntBuf -> GenericIntBuf := genericIntBufInit NSTATBUF.

(** A zeroed buffer with room for [n] words, as [memset] leaves it. *)
Definition zeroIntBuf (n : nat) : GenericIntBuf :=
  mkGenericIntBuf 0 0 0 0 0 0 0 0 (replicate n 0).
Definition freshStreamBuf : GenericIntBuf := streamBufInit (zeroIntBuf (Z.to_nat NSTREAMBUF)).

(** ** Abstract specification: a bounded queue with one word of undo *)
Record Fifo := mkFifo { fq : list Z; flast : option Z }.

(** The words that occupy a slot: those queued, and the one that can be put back. *)
Definition fifo_held (f : Fifo) : nat :=
  match flast f with None => length (fq f) | Some _ => S (length (fq f)) end.

Definition fifo_room (cap : nat) (f : Fifo) : bool := bool_decide (fifo_held f < cap)%nat.

Definition fifo_put (cap : nat) (x : Z) (f : Fifo) : Z * Fifo :=
  if fifo_room cap f then (0, mkFifo (fq f ++ [x]) (flast f)) else (-1, f).

Definition fifo_get (f : Fifo) : Z * Fifo :=
  match fq f with
  | [] => (STREAM_MFA_INVALID, f)
  | x :: q => (x, mkFifo q (Some x))
  end.

Definition fifo_putback (f : Fifo) : Fifo :=
  match flast f with
  | Some x => mkFifo (x :: fq f) None
  | None => f
  end.

(** ** Well-formed buffers and their abstraction *)
Record wf (k : Z) (b : GenericIntBuf) : Prop := {
  wf_k : 1 <= k <= 30;
  wf_mask : buffer_mask b = 2 ^ k - 1;
  wf_len : Z.of_nat (length (buffers b)) = 2 ^ k;
  wf_iput : 0 <= iput b < 2 ^ k;
  wf_iputback : 0 <= iputback b < 2 ^ k;
  wf_iget : iget b = iputback b \/ (iget b = (iputback b + 1) mod 2 ^ k /\ iput b <> iputback b)
}.

(** [n] words of the ring from index [from] on, cyclically. *)
Fixpoint slots (bs : list Z) (k from : Z) (n : nat) : list Z :=
  match n with
  | O => []
  | S n => slot bs (from mod 2 ^ k) :: slots bs k (from + 1) n
  end.

Definition ring_dist (k from to : Z) : nat := Z.to_nat ((to - from) mod 2 ^ k).

Definition abs (k : Z) (b : GenericIntBuf) : Fifo :=
  mkFifo (slots (buffers b) k (iget b) (ring_dist k (iget b) (iput b)))
         (if iget b =? iputback b then None else Some (slot (buffers b) (iputback b))).

(** ** Ring arithmetic *)
Section Ring.
Context (k : Z) (Hk : 1 <= k <= 30).

Lemma pow_k_bounds : 2 <= 2 ^ k <= 2 ^ 30.
Proof.
  split.
  - change 2 with (2 ^ 1) at 1. apply Z.pow_le_mono_r; lia.
  - apply Z.pow_le_mono_r; lia.
Qed.

Lemma succ_mod i : 0 <= i < 2 ^ k ->
  (i + 1 = 2 ^ k /\ (i + 1) mod 2 ^ k = 0) \/ (i + 1 < 2 ^ k /\ (i + 1) mod 2 ^ k = i + 1).
Proof.
  intros Hi. destruct (Z.eq_dec (i + 1) (2 ^ k)) as [E|E]; [left|right].
  - rewrite E, Z.mod_same by lia. lia.
  - rewrite Z.mod_small by lia. lia.
Qed.

Lemma dist_cases from to : 0 <= from < 2 ^ k -> 0 <= to < 2 ^ k ->
  (from <= to /\ (to - from) mod 2 ^ k = to - from) \/
  (to < from /\ (to - from) mod 2 ^ k = to - from + 2 ^ k).
Proof.
  intros Hf Ht. destruct (Z.le_gt_cases from to); [left|right].
  - rewrite Z.mod_small by lia. lia.
  - split; [lia|]. symmetry. apply (Z.mod_unique _ _ (-1)); lia.
Qed.

Lemma slots_mod bs from n : slots bs k (from mod 2 ^ k) n = slots bs k from n.
Proof.
  pose proof pow_k_bounds. revert from. induction n as [|n IH]; intros from; simpl; [done|].
  rewrite Z.mod_mod by lia. f_equal.
  rewrite <- IH. rewrite <- (IH (from + 1)). f_equal. rewrite Z.add_mod_idemp_l by lia. done.
Qed.

Lemma length_slots bs from n : length (slots bs k from n) = n.
Proof. revert from. induction n; intros; simpl; auto. Qed.

Lemma slots_snoc bs from n :
  slots bs k from (S n) = slots bs k from n ++ [slot bs ((from + Z.of_nat n) mod 2 ^ k)].
Proof.
  revert from. induction n as [|n IH]; intros from.
  - simpl. do 2 f_equal. f_equal. lia.
  - change (slots bs k from (S (S n))) with (slot bs (from mod 2 ^ k) :: slots bs k (from + 1) (S n)).
    rewrite IH. cbn [slots app]. do 4 f_equal. f_equal. lia.
Qed.

(** Writing a slot outside of the window does not change the window. *)
Lemma slots_insert bs from n i x :
  0 <= i -> Z.of_nat n <= (i - from) mod 2 ^ k ->
  slots (<[Z.to_nat i := x]> bs) k from n = slots bs k from n.
Proof.
  intros Hi Hw. pose proof pow_k_bounds as Hb.
  pose proof (Z.mod_pos_bound (i - from) (2 ^ k) ltac:(lia)) as Hd.
  assert (Hgen : forall m f, (forall j, 0 <= j < Z.of_nat m -> (f + j) mod 2 ^ k <> i) ->
    slots (<[Z.to_nat i := x]> bs) k f m = slots bs k f m).
  { induction m as [|m IH]; intros f Hne; simpl; [done|]. f_equal.
    - unfold slot. rewrite list_lookup_insert_ne; [done|].
      specialize (Hne 0 ltac:(lia)). rewrite Z.add_0_r in Hne.
      pose proof (Z.mod_pos_bound f (2 ^ k) ltac:(lia)). lia.
    - apply IH. intros j Hj. replace (f + 1 + j) with (f + (j + 1)) by lia. apply Hne. lia. }
  apply Hgen. intros j Hj E. subst i.
  rewrite Zminus_mod_idemp_l in Hw. replace (from + j - from) with j in Hw by lia.
  pose proof (Z.mod_pos_bound j (2 ^ k) ltac:(lia)). rewrite Z.mod_small in Hw by lia. lia.
Qed.

Lemma slot_insert_eq bs i x :
  0 <= i < Z.of_nat (length bs) -> slot (<[Z.to_nat i := x]> bs) i = x.
Proof. intros. unfold slot. rewrite list_lookup_insert_eq by lia. done. Qed.

Lemma slot_insert_ne bs i j x :
  0 <= i -> 0 <= j -> i <> j -> slot (<[Z.to_nat i := x]> bs) j = slot bs j.
Proof. intros. unfold slot. rewrite list_lookup_insert_ne by lia. done. Qed.
End Ring.

(** ** The operations on well-formed buffers *)
Section Ops.
Context (k : Z) (b : GenericIntBuf) (Hwf : wf k b).

Lemma inc_mod i : 0 <= i < 2 ^ k -> genericIntBufInc b i = (i + 1) mod 2 ^ k.
Proof.
  destruct Hwf as [Hk Hm _ _ _ _]. intros Hi. pose proof (pow_k_bounds k Hk).
  unfold genericIntBufInc. rewrite Hm, u32_id by lia. rewrite land_mask_mod by lia.
  pose proof (Z.mod_pos_bound (i + 1) (2 ^ k) ltac:(lia)). apply s32_id. lia.
Qed.

Lemma wf_iget_range : 0 <= iget b < 2 ^ k.
Proof.
  destruct Hwf as [Hk _ _ _ Hpb [->|[-> _]]]; [lia|].
  pose proof (pow_k_bounds k Hk). apply Z.mod_pos_bound. lia.
Qed.
End Ops.

(** Case analysis on a well-formed buffer: every [mod] in sight becomes linear. *)
Ltac ring_cases Hwf :=
  let Hk := fresh "Hk" in let Hm := fresh "Hm" in let Hl := fresh "Hl" in
  let Hp := fresh "Hp" in let Hpb := fresh "Hpb" in let Hg := fresh "Hg" in
  let Hig := fresh "Hig" in let HN := fresh "HN" in
  pose proof (wf_iget_range _ _ Hwf) as Hig;
  pose proof Hwf as [Hk Hm Hl Hp Hpb Hg];
  pose proof (pow_k_bounds _ Hk) as HN.

Section Refinement.
Context (k : Z).
Implicit Types b : GenericIntBuf.

(** How many words the ring can hold: one less than its size. *)
Definition capacity : nat := Z.to_nat (2 ^ k - 1).

Lemma full_iff b : wf k b -> genericIntBufIsFull b = negb (fifo_room capacity (abs k b)).
Proof.
  intros Hwf. ring_cases Hwf. unfold genericIntBufIsFull, fifo_room, fifo_held.
  rewrite (inc_mod k) by done. cbn [fq flast abs]. rewrite length_slots. unfold ring_dist, capacity.
  pose proof (succ_mod k Hk _ Hp) as Hs.
  pose proof (dist_cases k Hk (iget b) (iput b) Hig Hp) as Hd.
  pose proof (succ_mod k Hk _ Hpb) as Hs'.
  destruct (Z.eqb_spec (iget b) (iputback b)); case_bool_decide; destruct (Z.eqb_spec ((iput b + 1) mod 2 ^ k) (iputback b)); try done;
    exfalso; lia.
Qed.

(** The three operations in closed form on well-formed buffers. *)
Definition put_result (x : Z) (b : GenericIntBuf) : GenericIntBuf :=
  let iput' := (iput b + 1) mod 2 ^ k in
  let w := iput' <? iput b in
  mkGenericIntBuf (buffer_mask b) iput' (iget b) (iputback b)
    (if w then 1 else iswrapped b) (if w then s32 (nwrapped b + 1) else nwrapped b)
    (hitide b) (qpresent b) (<[Z.to_nat (iput b) := x]> (buffers b)).

Lemma put_ok b x : wf k b -> genericIntBufIsFull b = false ->
  genericIntBufPut x b = (0, put_result x b).
Proof.
  intros Hwf Hf. unfold genericIntBufPut, put_result. rewrite Hf. ring_cases Hwf.
  rewrite <- (inc_mod k b Hwf) by done.
  change (genericIntBufInc (b <| buffers := _ |>) ?i) with (genericIntBufInc b i).
  cbn. by destruct (_ <? _).
Qed.

Lemma put_full b x : genericIntBufIsFull b = true -> genericIntBufPut x b = (-1, b).
Proof. intros Hf. unfold genericIntBufPut. by rewrite Hf. Qed.

Definition get_result (b : GenericIntBuf) : GenericIntBuf :=
  b <| iputback := iget b |> <| iget := (iget b + 1) mod 2 ^ k |>.

Lemma get_ok b : wf k b -> genericIntBufIsEmpty b = false ->
  genericIntBufGet b = (slot (buffers b) (iget b), get_result b).
Proof.
  intros Hwf He. unfold genericIntBufGet, get_result. rewrite He.
  by rewrite <- (inc_mod k b Hwf) by (by eapply wf_iget_range).
Qed.

Lemma get_empty b : genericIntBufIsEmpty b = true ->
  genericIntBufGet b = (STREAM_MFA_INVALID, b).
Proof. intros He. unfold genericIntBufGet. by rewrite He. Qed.

(** [wf] is an invariant. *)
Lemma full_false_ne b : wf k b -> genericIntBufIsFull b = false ->
  (iput b + 1) mod 2 ^ k <> iputback b.
Proof.
  intros Hwf. ring_cases Hwf. unfold genericIntBufIsFull. rewrite (inc_mod k b Hwf) by done. lia.
Qed.

Lemma put_wf b x : wf k b -> wf k (genericIntBufPut x b).2.
Proof.
  intros Hwf. destruct (genericIntBufIsFull b) eqn:Hf; [by rewrite put_full|].
  rewrite put_ok by done. pose proof (full_false_ne b Hwf Hf). ring_cases Hwf.
  pose proof (Z.mod_pos_bound (iput b + 1) (2 ^ k) ltac:(lia)).
  constructor; simpl; rewrite ?length_insert; try done. destruct Hg as [?|[? ?]]; auto.
Qed.

Lemma get_wf b : wf k b -> wf k (genericIntBufGet b).2.
Proof.
  intros Hwf. destruct (genericIntBufIsEmpty b) eqn:He; [by rewrite get_empty|].
  rewrite get_ok by done. ring_cases Hwf.
  unfold genericIntBufIsEmpty in He. apply Z.eqb_neq in He.
  constructor; simpl; try done. right. auto with lia.
Qed.

Lemma putback_wf b : wf k b -> wf k (genericIntBufPutBack b).
Proof. intros Hwf. ring_cases Hwf. constructor; simpl; auto. Qed.

(** Each operation simulates its abstract counterpart. *)
Lemma put_abs b x : wf k b ->
  (genericIntBufPut x b).1 = (fifo_put capacity x (abs k b)).1 /\
  abs k (genericIntBufPut x b).2 = (fifo_put capacity x (abs k b)).2.
Proof.
  intros Hwf. pose proof (full_iff b Hwf) as Hroom. unfold fifo_put.
  destruct (genericIntBufIsFull b) eqn:Hf.
  - rewrite put_full by done. by destruct (fifo_room _ _).
  - rewrite put_ok by done. pose proof (full_false_ne b Hwf Hf) as Hne.
    destruct (fifo_room _ _); [|done]. split; [done|]. cbn [snd].
    ring_cases Hwf. unfold abs, put_result. cbn.
    pose proof (succ_mod k Hk _ Hp) as Hs.
    pose proof (dist_cases k Hk _ _ Hig Hp) as Hd.
    assert (ring_dist k (iget b) ((iput b + 1) mod 2 ^ k) = S (ring_dist k (iget b) (iput b))) as ->.
    { pose proof (dist_cases k Hk _ _ Hig (Z.mod_pos_bound (iput b + 1) (2 ^ k) ltac:(lia))).
      pose proof (succ_mod k Hk _ Hpb). unfold ring_dist. lia. }
    rewrite slots_snoc.
    assert ((iget b + Z.of_nat (ring_dist k (iget b) (iput b))) mod 2 ^ k = iput b) as ->.
    { unfold ring_dist. rewrite Z2Nat.id by lia. rewrite Z.add_mod_idemp_r by lia.
      rewrite <- (Z.mod_small (iput b) (2 ^ k)) at 2 by lia. f_equal. lia. }
    rewrite slot_insert_eq by lia.
    rewrite slots_insert by (unfold ring_dist; try rewrite Z2Nat.id; lia).
    destruct (Z.eqb_spec (iget b) (iputback b)); [done|].
    rewrite slot_insert_ne by (destruct Hg as [?|[? ?]]; lia). reflexivity.
Qed.

Lemma abs_length b : length (fq (abs k b)) = ring_dist k (iget b) (iput b).
Proof. apply length_slots. Qed.

Lemma abs_empty b : wf k b -> genericIntBufIsEmpty b = true -> fq (abs k b) = [].
Proof.
  intros Hwf He. unfold genericIntBufIsEmpty in He. apply Z.eqb_eq in He.
  apply length_zero_iff_nil. rewrite abs_length. unfold ring_dist.
  rewrite He, Z.sub_diag, Z.mod_0_l by (pose proof (pow_k_bounds k (wf_k _ _ Hwf)); lia). done.
Qed.

Lemma get_abs b : wf k b ->
  (genericIntBufGet b).1 = (fifo_get (abs k b)).1 /\
  abs k (genericIntBufGet b).2 = (fifo_get (abs k b)).2.
Proof.
  intros Hwf. unfold fifo_get. destruct (genericIntBufIsEmpty b) eqn:He.
  - rewrite get_empty by done. by rewrite abs_empty.
  - rewrite get_ok by done. unfold genericIntBufIsEmpty in He. apply Z.eqb_neq in He.
    ring_cases Hwf.
    pose proof (dist_cases k Hk _ _ Hig Hp) as Hd. pose proof (succ_mod k Hk _ Hig) as Hs.
    assert (ring_dist k (iget b) (iput b) = S (ring_dist k ((iget b + 1) mod 2 ^ k) (iput b))) as Hrd.
    { pose proof (dist_cases k Hk _ _ (Z.mod_pos_bound (iget b + 1) (2 ^ k) ltac:(lia)) Hp).
      unfold ring_dist. lia. }
    unfold abs, get_result. cbn. rewrite Hrd. cbn [slots]. rewrite Z.mod_small by lia.
    split; [done|]. rewrite (slots_mod k Hk).
    destruct (Z.eqb_spec ((iget b + 1) mod 2 ^ k) (iget b)); [lia|done].
Qed.

Lemma putback_abs b : wf k b -> abs k (genericIntBufPutBack b) = fifo_putback (abs k b).
Proof.
  intros Hwf. ring_cases Hwf. unfold fifo_putback, abs, genericIntBufPutBack. cbn.
  rewrite Z.eqb_refl.
  destruct (Z.eqb_spec (iget b) (iputback b)) as [E|E]; [by rewrite E|].
  destruct Hg as [?|[Hg Hne]]; [done|]. f_equal.
  pose proof (dist_cases k Hk _ _ Hig Hp). pose proof (dist_cases k Hk _ _ Hpb Hp).
  pose proof (succ_mod k Hk _ Hpb).
  assert (ring_dist k (iputback b) (iput b) = S (ring_dist k (iget b) (iput b))) as ->
    by (unfold ring_dist; lia).
  cbn [slots]. rewrite Z.mod_small by lia. f_equal. rewrite Hg. by rewrite (slots_mod k Hk).
Qed.
End Refinement.

(** ** Counting the entries *)
Lemma num_entries_from_eq k b fuel ig n :
  wf k b -> 0 <= ig < 2 ^ k -> (ring_dist k ig (iput b) < fuel)%nat ->
  num_entries_from fuel b ig n = Some (n + Z.of_nat (ring_dist k ig (iput b))).
Proof.
  intros Hwf. ring_cases Hwf. revert ig n.
  induction fuel as [|fuel IH]; intros ig n Hi Hf; [lia|]. cbn [num_entries_from].
  destruct (Z.eqb_spec ig (iput b)) as [->|Hne]; cbn [negb].
  - unfold ring_dist. rewrite Z.sub_diag, Z.mod_0_l by lia. f_equal. lia.
  - rewrite (inc_mod k b Hwf) by done.
    pose proof (Z.mod_pos_bound (ig + 1) (2 ^ k) ltac:(lia)) as Hi'.
    pose proof (dist_cases k Hk _ _ Hi Hp). pose proof (dist_cases k Hk _ _ Hi' Hp).
    pose proof (succ_mod k Hk _ Hi).
    assert (ring_dist k ig (iput b) = S (ring_dist k ((ig + 1) mod 2 ^ k) (iput b))) as E
      by (unfold ring_dist; lia).
    rewrite IH by lia. f_equal. lia.
Qed.

Lemma ring_dist_lt k from to : 1 <= k <= 30 -> Z.of_nat (ring_dist k from to) < 2 ^ k.
Proof.
  intros Hk. pose proof (pow_k_bounds k Hk). unfold ring_dist.
  pose proof (Z.mod_pos_bound (to - from) (2 ^ k) ltac:(lia)). lia.
Qed.

(** [genericIntBufNumEntries] terminates, within one turn of the ring, and returns the number of
    words queued. *)
Theorem num_entries_correct k b : wf k b ->
  genericIntBufNumEntries b = Some (Z.of_nat (length (fq (abs k b)))).
Proof.
  intros Hwf. unfold genericIntBufNumEntries. ring_cases Hwf.
  rewrite (num_entries_from_eq k) by (try done; pose proof (ring_dist_lt k (iget b) (iput b) Hk); lia).
  by rewrite abs_length.
Qed.

(** ** Initialisation *)
Lemma init_wf k b : 1 <= k <= 30 -> Z.of_nat (length (buffers b)) = 2 ^ k ->
  wf k (genericIntBufInit (2 ^ k) b).
Proof.
  intros Hk Hl. pose proof (pow_k_bounds k Hk).
  constructor; simpl; rewrite ?u32_id; lia.
Qed.

Lemma init_abs k b : 1 <= k <= 30 -> abs k (genericIntBufInit (2 ^ k) b) = mkFifo [] None.
Proof. intros Hk. unfold abs, ring_dist. cbn. by rewrite Z.mod_0_l by (pose proof (pow_k_bounds k Hk); lia). Qed.

Lemma fresh_wf : wf 7 freshStreamBuf.
Proof. apply (init_wf 7); [lia|reflexivity]. Qed.

(** ** Sequences of operations *)
Inductive BufOp := OpPut (x : Z) | OpGet | OpPutBack.

Definition buf_step (o : BufOp) (b : GenericIntBuf) : Z * GenericIntBuf :=
  match o with
  | OpPut x => genericIntBufPut x b
  | OpGet => genericIntBufGet b
  | OpPutBack => (0, genericIntBufPutBack b)
  end.

Definition fifo_step (cap : nat) (o : BufOp) (f : Fifo) : Z * Fifo :=
  match o with
  | OpPut x => fifo_put cap x f
  | OpGet => fifo_get f
  | OpPutBack => (0, fifo_putback f)
  end.

(** Run a sequence: the values returned, and the final state. *)
Fixpoint run_ops {B} (step : BufOp -> B -> Z * B) (os : list BufOp) (b : B) : list Z * B :=
  match os with
  | [] => ([], b)
  | o :: os => let (r, b) := step o b in let (rs, b) := run_ops step os b in (r :: rs, b)
  end.

Lemma step_refines k b o : wf k b ->
  wf k (buf_step o b).2 /\
  fifo_step (capacity k) o (abs k b) = ((buf_step o b).1, abs k (buf_step o b).2).
Proof.
  intros Hwf. destruct o; cbn [buf_step fifo_step].
  - destruct (put_abs k b x Hwf) as [-> ->]. split; [by apply put_wf|]. by destruct (fifo_put _ _ _).
  - destruct (get_abs k b Hwf) as [-> ->]. split; [by apply get_wf|]. by destruct (fifo_get _).
  - cbn. rewrite putback_abs by done. split; [by apply putback_wf|done].
Qed.

Lemma run_refines k b os : wf k b ->
  wf k (run_ops buf_step os b).2 /\
  run_ops (fifo_step (capacity k)) os (abs k b) =
    ((run_ops buf_step os b).1, abs k (run_ops buf_step os b).2).
Proof.
  revert b. induction os as [|o os IH]; intros b Hwf; cbn [run_ops]; [done|].
  destruct (step_refines k b o Hwf) as [Hwf' ->].
  destruct (buf_step o b) as [r b']. cbn [fst snd] in *.
  destruct (IH b' Hwf') as [Hw ->]. by destruct (run_ops buf_step os b').
Qed.

(** C11: the stream buffer refines its abstract specification: from the state [streamBufInit]
    leaves, every sequence of puts, gets and put-backs returns what a queue of at most 127 words
    with a one-word undo returns, and ends in a state that represents the queue's. *)
Theorem streambuf_refines_fifo os :
  let '(rs, b) := run_ops buf_step os freshStreamBuf in
  run_ops (fifo_step 127) os (mkFifo [] None) = (rs, abs 7 b) /\ wf 7 b.
Proof.
  destruct (run_refines 7 freshStreamBuf os fresh_wf) as [Hw Hr].
  change (abs 7 freshStreamBuf) with (abs 7 (genericIntBufInit (2 ^ 7) (zeroIntBuf 128))) in Hr.
  rewrite init_abs in Hr by lia. change (capacity 7) with 127%nat in Hr.
  by destruct (run_ops buf_step os freshStreamBuf).
Qed.

(** The words accepted and the words delivered by a run without put-backs. *)
Fixpoint accepted (os : list BufOp) (rs : list Z) : list Z :=
  match os, rs with
  | OpPut x :: os, r :: rs => if r =? 0 then x :: accepted os rs else accepted os rs
  | _ :: os, _ :: rs => accepted os rs
  | _, _ => []
  end.

Fixpoint delivered (os : list BufOp) (rs : list Z) : list Z :=
  match os, rs with
  | OpGet :: os, r :: rs => if r =? STREAM_MFA_INVALID then delivered os rs else r :: delivered os rs
  | _ :: os, _ :: rs => delivered os rs
  | _, _ => []
  end.

Definition plain_op (o : BufOp) : bool :=
  match o with OpPut x => negb (x =? STREAM_MFA_INVALID) | OpGet => true | OpPutBack => false end.

Lemma fifo_order cap os f :
  forallb plain_op os = true -> Forall (fun x => x <> STREAM_MFA_INVALID) (fq f) ->
  let '(rs, f') := run_ops (fifo_step cap) os f in
  fq f ++ accepted os rs = delivered os rs ++ fq f'.
Proof.
  revert f. induction os as [|o os IH]; intros f Hp Hq; cbn [run_ops].
  { simpl. apply app_nil_r. }
  cbn [forallb] in Hp. apply andb_true_iff in Hp as [Ho Hp].
  destruct o as [x| |]; [| |done]; cbn [fifo_step].
  - unfold fifo_put. cbn [plain_op] in Ho. apply negb_true_iff, Z.eqb_neq in Ho.
    destruct (fifo_room cap f).
    + specialize (IH (mkFifo (fq f ++ [x]) (flast f)) Hp).
      destruct (run_ops _ os _) as [rs f']. cbn [accepted delivered]. rewrite Z.eqb_refl.
      cbn [fq] in IH. rewrite <- app_assoc in IH. apply IH, Forall_app. auto.
    + specialize (IH f Hp Hq). by destruct (run_ops _ os f) as [rs f'].
  - unfold fifo_get. destruct (fq f) as [|x q] eqn:E.
    + specialize (IH f Hp). rewrite E in IH. specialize (IH Hq).
      destruct (run_ops _ os f) as [rs f']. cbn [accepted delivered]. by rewrite Z.eqb_refl.
    + apply Forall_cons in Hq as [Hx Hq]. specialize (IH (mkFifo q (Some x)) Hp Hq).
      destruct (run_ops _ os _) as [rs f']. cbn [accepted delivered].
      apply Z.eqb_neq in Hx. rewrite Hx. cbn in *. by rewrite IH.
Qed.

(** No frame address is lost, duplicated or reordered: in every sequence of puts and gets on a
    fresh stream buffer (no put of the invalid marker), the words accepted by the puts are the words
    returned by the gets, in that order, followed by the words still queued. *)
Theorem streambuf_fifo_order os :
  forallb plain_op os = true ->
  let '(rs, b) := run_ops buf_step os freshStreamBuf in
  accepted os rs = delivered os rs ++ fq (abs 7 b).
Proof.
  intros Hp. pose proof (streambuf_refines_fifo os) as Hr.
  pose proof (fifo_order 127 os (mkFifo [] None) Hp (Forall_nil_2 _)) as Ho.
  destruct (run_ops buf_step os freshStreamBuf) as [rs b]. destruct Hr as [Hr _].
  by rewrite Hr in Ho.
Qed.

(** ** Witnesses *)
Definition sample_ops : list BufOp := [OpPut 5; OpPut 6; OpPut 7; OpGet; OpPut 8].

Lemma num_entries_correct_witness :
  genericIntBufNumEntries (run_ops buf_step sample_ops freshStreamBuf).2 = Some 3.
Proof.
  rewrite (num_entries_correct 7) by exact (proj1 (run_refines 7 freshStreamBuf sample_ops fresh_wf)).
  vm_compute. reflexivity.
Defined.

Lemma streambuf_fifo_order_witness :
  (run_ops buf_step sample_ops freshStreamBuf).1 = [0; 0; 0; 5; 0] /\
  accepted sample_ops (run_ops buf_step sample_ops freshStreamBuf).1 =
  delivered sample_ops (run_ops buf_step sample_ops freshStreamBuf).1 ++
  fq (abs 7 (run_ops buf_step sample_ops freshStreamBuf).2).
Proof.
  split; [vm_compute; reflexivity|].
  pose proof (streambuf_fifo_order sample_ops eq_refl) as H.
  destruct (run_ops buf_step sample_ops freshStreamBuf). exact H.
Defined.
