(* ===== verification/Pool.v ===== *)
(** * acq200_bigbuf_alloc.c: the pools of mappings and of return command handlers

    A pool is an array of entries, each with a [reserved] flag and an item, and a cursor: [_alloc]
    looks for a free entry from the one after the cursor on, cyclically, and sleeps on the pool's
    wait queue each time it comes round to the cursor; [_free] clears the entry of an item.

    Both pools of a device have the same code, so it is written once, over the interface [PoolHost]:
    where the host state keeps the pool, and the kernel sleep during which other contexts run.  The
    theorems are proved from the laws [PoolHostLaws] of that interface; Kernel.v provides the
    instances for the device's two pools. *)

From S2P Require Import Prelude.

Record PoolEntry (A : Type) := mkPoolEntry { reserved : bool; item : A }.
Arguments mkPoolEntry {A} reserved item.
Arguments reserved {A} p.
Arguments item {A} p.

(** [struct Pool], with the wait queue [sleepq] of the enclosing [BigBufPool] next to it: [woken]
    says that a wake-up was sent to it. *)
Record Pool (A : Type) := mkPool {
  max_entries : nat;
  entries : list (PoolEntry A);
  cursor : nat
}.
Arguments mkPool {A} max_entries entries cursor.
Arguments max_entries {A} p.
Arguments entries {A} p.
Arguments cursor {A} p.

#[export] Instance PoolEntry_eq_dec {A} `{EqDecision A} : EqDecision (PoolEntry A).
Proof. solve_decision. Defined.

(** ** The interface between a pool and the state it lives in *)
Class PoolHost (W A : Type) := {
  host_pool : W -> Pool A;
  host_set_pool : Pool A -> W -> W;
  (** [wake_up_interruptible(&sleepq)] *)
  host_wake : M W unit
}.

Class PoolSleeper (W A : Type) `{PoolHost W A} := {
  (** [interruptible_sleep_on_timeout(&sleepq, 1000)]: the ticks left, 0 on timeout *)
  host_sleep : M W Z;
  (** how many more times a sleep can end before its timeout *)
  host_naps : W -> nat
}.

Section Operations.
Context {W A : Type} `{PoolHost W A} `{EqDecision A}.

(** The macro [INCR] of [_alloc]. *)
Definition INCR (p : Pool A) (ibuf : nat) : nat :=
  if (max_entries p - 1 <=? ibuf)%nat then 0%nat else S ibuf.

Definition reserve (ibuf : nat) (p : Pool A) : Pool A :=
  mkPool (max_entries p)
    (alter (fun e => mkPoolEntry true (item e)) ibuf (entries p)) ibuf.

(** The loop of [_free]: the index of the entry that holds the item. *)
Fixpoint find_item (pe : list (PoolEntry A)) (it : A) : option nat :=
  match pe with
  | [] => None
  | e :: pe => if decide (item e = it) then Some 0%nat else S <$> find_item pe it
  end.

Definition unreserve (ibuf : nat) (p : Pool A) : Pool A :=
  mkPool (max_entries p)
    (alter (fun e => mkPoolEntry false (item e)) ibuf (entries p)) (cursor p).

Definition _free (it : A) : M W unit :=
  let* p := gets host_pool in
  match find_item (entries p) it with
  | Some ibuf => modify (host_set_pool (unreserve ibuf p)) >> host_wake
  | None => ret tt     (* err("FAILED to free item") *)
  end.
Context `{!PoolSleeper W A}.

Fixpoint _alloc_loop (fuel : nat) (ibuf : nat) : M W (option A) :=
  match fuel with
  | O => nofuel
  | S fuel =>
      let* p := gets host_pool in
      match entries p !! ibuf with
      | None => crash OutOfBounds
      | Some pe =>
          if reserved pe then
            if (ibuf =? cursor p)%nat then
              let* ticks := host_sleep in
              if ticks =? 0 then ret None
              else let* p := gets host_pool in _alloc_loop fuel (INCR p ibuf)
            else _alloc_loop fuel (INCR p ibuf)
          else
            modify (host_set_pool (reserve ibuf p)) >>
            ret (Some (item pe))
      end
  end.

(** Enough turns of the loop: one round of the array, and one more for every nap. *)
Definition alloc_fuel (w : W) : nat :=
  ((host_naps w + 1) * max_entries (host_pool w))%nat.

Definition _alloc : M W (option A) :=
  let* fuel := gets alloc_fuel in
  let* p := gets host_pool in
  _alloc_loop fuel (INCR p (cursor p)).
End Operations.

(** ** Well-formed pools *)
Record pool_wf {A} (p : Pool A) : Prop := {
  pw_max : (0 < max_entries p)%nat;
  pw_len : length (entries p) = max_entries p;
  pw_cursor : (cursor p < max_entries p)%nat;
  pw_items : NoDup (item <$> entries p)
}.

(** Same array of items, whatever the flags and the cursor. *)
Definition same_items {A} (p q : Pool A) : Prop :=
  max_entries p = max_entries q /\ item <$> entries p = item <$> entries q.

Definition is_reserved {A} `{EqDecision A} (p : Pool A) (it : A) : bool :=
  match find_item (entries p) it with
  | Some i => match entries p !! i with Some e => reserved e | None => false end
  | None => false
  end.

(** The laws of the host interface, with an invariant [inv] of the host state that other contexts
    keep while the allocator sleeps. *)
Class PoolHostLaws (W A : Type) `{PoolSleeper W A} `{EqDecision A} (inv : W -> Prop) : Prop := {
  law_get_set w p : host_pool (host_set_pool p w) = p;
  law_naps_set w p : host_naps (host_set_pool p w) = host_naps w;
  law_wf w : inv w -> pool_wf (host_pool w);
  law_sleep w : inv w ->
    safe host_sleep (fun left w' =>
      inv w' /\ same_items (host_pool w) (host_pool w') /\
      cursor (host_pool w') = cursor (host_pool w) /\
      (left <> 0 -> (host_naps w' < host_naps w)%nat)) w
}.

(** Where the allocator cannot spin: in a [calm] state a sleep comes to an end, and the state is calm again.
    (A sleep with a signal pending ends at once, and the allocator goes round again.) *)
Class PoolHostCalm (W A : Type) `{PoolSleeper W A} (inv calm : W -> Prop) : Prop := {
  law_calm w : inv w -> calm w -> total host_sleep (fun _ w' => calm w') w
}.

#[export] Instance same_items_equiv {A} : Equivalence (@same_items A).
Proof.
  split.
  - intros p. done.
  - intros p q [? ?]. done.
  - intros p q r [? ?] [? ?]. split; congruence.
Qed.

Lemma fmap_alter_item {A} (l : list (PoolEntry A)) (r : bool) i :
  item <$> alter (fun e => mkPoolEntry r (item e)) i l = item <$> l.
Proof. revert i. induction l as [|e l IH]; intros [|i]; csimpl; try done. f_equal. apply IH. Qed.

(** ** Lookups by item *)
Section Find.
Context {A : Type} `{EqDecision A}.
Implicit Types (pe : list (PoolEntry A)) (p : Pool A) (it : A).

Lemma find_item_spec pe it i :
  NoDup (item <$> pe) -> (find_item pe it = Some i <-> item <$> pe !! i = Some it).
Proof.
  revert i. induction pe as [|e pe IH]; intros i Hnd; simpl in *; [split; done|].
  apply NoDup_cons in Hnd as [Hni Hnd]. case_decide as Hd; subst.
  - destruct i; simpl; split; intros Hx; simplify_eq; try done.
    exfalso. apply Hni. apply list_elem_of_lookup. exists i. by rewrite list_lookup_fmap.
  - destruct i as [|i]; simpl.
    + split; [|congruence]. by destruct (find_item pe it).
    + rewrite <- (IH i) by done. destruct (find_item pe it); simpl; split; congruence.
Qed.

Lemma find_item_None pe it : find_item pe it = None <-> it ∉ item <$> pe.
Proof.
  induction pe as [|e pe IH]; simpl; [set_solver|]. rewrite not_elem_of_cons.
  case_decide; [naive_solver|]. destruct (find_item pe it); simpl; naive_solver.
Qed.

Lemma is_reserved_lookup p i e :
  NoDup (item <$> entries p) -> entries p !! i = Some e -> is_reserved p (item e) = reserved e.
Proof.
  intros Hnd Hi. unfold is_reserved.
  assert (find_item (entries p) (item e) = Some i) as -> by (apply find_item_spec; [done|by rewrite Hi]).
  by rewrite Hi.
Qed.

Lemma reserve_wf p i : pool_wf p -> (i < max_entries p)%nat -> pool_wf (reserve i p).
Proof.
  intros [? ? ? ?] ?. constructor; simpl; try done.
  - by rewrite length_alter.
  - by rewrite fmap_alter_item.
Qed.

Lemma unreserve_wf p i : pool_wf p -> pool_wf (unreserve i p).
Proof.
  intros [? ? ? ?]. constructor; simpl; try done.
  - by rewrite length_alter.
  - by rewrite fmap_alter_item.
Qed.

Lemma reserve_same_items p i : same_items p (reserve i p).
Proof. split; [done|]. simpl. by rewrite fmap_alter_item. Qed.

Lemma unreserve_same_items p i : same_items p (unreserve i p).
Proof. split; [done|]. simpl. by rewrite fmap_alter_item. Qed.

(** Reserving or freeing one entry changes the flag of its item and of no other. *)
Lemma is_reserved_set p i e r q it :
  NoDup (item <$> entries p) -> entries p !! i = Some e ->
  entries q = alter (fun e => mkPoolEntry r (item e)) i (entries p) ->
  is_reserved q it = if decide (it = item e) then r else is_reserved p it.
Proof.
  intros Hnd Hi Hq.
  assert (NoDup (item <$> entries q)) as Hndq by (by rewrite Hq, fmap_alter_item).
  assert (entries q !! i = Some (mkPoolEntry r (item e))) as Hqi
    by (by rewrite Hq, list_lookup_alter_eq, Hi).
  case_decide as Hd; [subst it|].
  - by apply (is_reserved_lookup q i (mkPoolEntry r (item e))).
  - unfold is_reserved.
    assert (find_item (entries q) it = find_item (entries p) it) as ->.
    { destruct (find_item (entries p) it) as [j|] eqn:Hj.
      - apply find_item_spec in Hj; [|done]. apply find_item_spec; [done|].
        rewrite <- list_lookup_fmap, Hq, fmap_alter_item. by rewrite list_lookup_fmap.
      - apply find_item_None. rewrite Hq, fmap_alter_item. by apply find_item_None. }
    destruct (find_item (entries p) it) as [j|] eqn:Hj; [|done].
    apply find_item_spec in Hj; [|done].
    assert (i <> j) by (intros ->; rewrite Hi in Hj; simpl in Hj; congruence).
    by rewrite Hq, list_lookup_alter_ne.
Qed.

Lemma is_reserved_reserve p i e it :
  pool_wf p -> entries p !! i = Some e ->
  is_reserved (reserve i p) it = if decide (it = item e) then true else is_reserved p it.
Proof. intros Hwf Hi. by apply (is_reserved_set p i e true); [apply pw_items| |]. Qed.

Lemma is_reserved_unreserve p i e it :
  pool_wf p -> entries p !! i = Some e ->
  is_reserved (unreserve i p) it = if decide (it = item e) then false else is_reserved p it.
Proof. intros Hwf Hi. by apply (is_reserved_set p i e false); [apply pw_items| |]. Qed.
End Find.

(** ** A pool after an item was freed *)
Section Freed.
Context {A : Type} `{EqDecision A}.
Implicit Types (p : Pool A) (it : A).

Definition freed it p : Pool A :=
  match find_item (entries p) it with
  | Some i => unreserve i p
  | None => p
  end.

Lemma freed_wf it p : pool_wf p -> pool_wf (freed it p).
Proof. unfold freed. case_match; [apply unreserve_wf|done]. Qed.

Lemma freed_same_items it p : same_items p (freed it p).
Proof. unfold freed. case_match; [apply unreserve_same_items|done]. Qed.

Lemma freed_cursor it p : cursor (freed it p) = cursor p.
Proof. unfold freed. by case_match. Qed.

Lemma is_reserved_freed it p it' : pool_wf p ->
  is_reserved (freed it p) it' = if decide (it' = it) then false else is_reserved p it'.
Proof.
  intros Hwf. unfold freed. destruct (find_item (entries p) it) as [i|] eqn:Hi.
  - apply find_item_spec in Hi; [|apply Hwf]. destruct (entries p !! i) as [e|] eqn:He; [|done].
    simplify_eq/=. by apply is_reserved_unreserve.
  - case_decide; [subst it'|done]. unfold is_reserved. by rewrite Hi.
Qed.
End Freed.

(** ** The allocator *)
Section Alloc.
Context {W A : Type} `{PHL : PoolHostLaws W A inv}.

(** How many turns of the loop lead from index [i] to the cursor. *)
Definition steps_to_cursor (p : Pool A) (i : nat) : nat :=
  if (i <=? cursor p)%nat then cursor p - i else cursor p + max_entries p - i.

Lemma INCR_lt (p : Pool A) i : pool_wf p -> (INCR p i < max_entries p)%nat.
Proof. intros [? ? ? ?]. unfold INCR. destruct (Nat.leb_spec (max_entries p - 1) i); lia. Qed.

Lemma steps_INCR (p : Pool A) i : pool_wf p -> (i < max_entries p)%nat ->
  if (i =? cursor p)%nat then (S (steps_to_cursor p (INCR p i)) <= max_entries p)%nat
  else steps_to_cursor p i = S (steps_to_cursor p (INCR p i)).
Proof.
  intros [? ? ? ?] Hi. unfold steps_to_cursor, INCR.
  destruct (Nat.eqb_spec i (cursor p)), (Nat.leb_spec (max_entries p - 1) i),
    (Nat.leb_spec i (cursor p)); repeat case_match;
    rewrite ?Nat.leb_le, ?Nat.leb_gt in *; lia.
Qed.

(** What [_alloc] promises: a sleep timed out, or the item returned was free in the host's pool the
    moment before it was reserved, and the reservation is all that changed then. *)
Definition alloc_post (p : Pool A) (r : option A) (w' : W) : Prop :=
  match r with
  | None => inv w' /\ same_items p (host_pool w') /\ exists w1, inv w1 /\ host_sleep w1 = Done 0 w'
  | Some it => exists w0 i e,
      inv w0 /\ same_items p (host_pool w0) /\
      entries (host_pool w0) !! i = Some e /\ reserved e = false /\ item e = it /\
      w' = host_set_pool (reserve i (host_pool w0)) w0
  end.

Lemma alloc_loop_safe fuel i w :
  inv w -> (i < max_entries (host_pool w))%nat ->
  (host_naps w * max_entries (host_pool w) + steps_to_cursor (host_pool w) i < fuel)%nat ->
  safe (_alloc_loop fuel i) (alloc_post (host_pool w)) w.
Proof.
  revert i w. induction fuel as [|fuel IH]; intros i w Hinv Hi Hf; [lia|].
  pose proof (law_wf w Hinv) as Hwf. cbn [_alloc_loop]. run.
  destruct (entries (host_pool w) !! i) as [e|] eqn:He.
  2:{ apply lookup_ge_None in He. rewrite (pw_len _ Hwf) in He. lia. }
  pose proof (steps_INCR (host_pool w) i Hwf Hi) as Hs.
  destruct (reserved e) eqn:Hr.
  - destruct (i =? cursor (host_pool w))%nat eqn:Hc.
    + apply Nat.eqb_eq in Hc. apply safe_bind.
      pose proof (law_sleep w Hinv) as Hsleep. unfold safe in *.
      destruct (host_sleep w) as [t w'| | |] eqn:Es; try done.
      destruct Hsleep as (Hinv' & Hsame & Hcur & Hnaps).
      destruct (Z.eqb_spec t 0) as [->|Ht]; [by split; [|split; [|exists w]]|].
      fold (safe (let* p := gets host_pool in _alloc_loop fuel (INCR p i)) (alloc_post (host_pool w)) w'). run.
      pose proof (law_wf w' Hinv') as Hwf'. destruct Hsame as [Hm Hit].
      eapply safe_mono.
      * apply IH; [done|by apply INCR_lt|].
        specialize (Hnaps Ht). pose proof (steps_INCR (host_pool w') i Hwf' ltac:(lia)) as Hs'.
        rewrite (proj2 (Nat.eqb_eq i _)) in Hs' by lia. nia.
      * intros r w'' Hpost. destruct r as [it|]; simpl in *.
        -- destruct Hpost as (w0 & j & e' & ? & ? & ?). exists w0, j, e'.
           split; [done|]. split; [|done]. by transitivity (host_pool w').
        -- destruct Hpost as (? & ? & ?). split; [done|]. split; [|done]. by transitivity (host_pool w').
    + apply IH; [done|by apply INCR_lt|]. lia.
  - run. simpl. by exists w, i, e.
Qed.

Lemma alloc_spec w : inv w -> safe _alloc (alloc_post (host_pool w)) w.
Proof.
  intros Hinv. pose proof (law_wf w Hinv) as Hwf. unfold _alloc. run.
  apply alloc_loop_safe; [done|by apply INCR_lt|].
  pose proof (steps_INCR (host_pool w) (cursor (host_pool w)) Hwf (pw_cursor _ Hwf)) as Hs.
  rewrite Nat.eqb_refl in Hs. unfold alloc_fuel. lia.
Qed.

(** It waits for ever only where a sleep does. *)
Lemma alloc_loop_wakes `{!PoolHostCalm W A inv calm} fuel i w : inv w -> calm w ->
  match _alloc_loop fuel i w with Blocked _ => False | _ => True end.
Proof.
  revert i w. induction fuel as [|fuel IH]; intros i w Hi Hc; cbn [_alloc_loop]; [done|].
  unfold bind at 1, gets at 1. destruct (entries (host_pool w) !! i) as [e|]; [|done].
  destruct (reserved e); [|done]. destruct (i =? cursor (host_pool w))%nat; [|by apply IH].
  pose proof (law_sleep w Hi) as Hs. pose proof (law_calm w Hi Hc) as Hw. unfold bind, safe, total in *.
  destruct (host_sleep w) as [t w'| | |]; try done. destruct (t =? 0); [done|]. by apply IH; [apply Hs|].
Qed.

(** C20: allocation from a pool, on whose sleeping other contexts keep the invariant, never runs off
    the entry array and never runs out of the fuel; the item it returns was free and is now reserved; a
    null result means that its last sleep timed out.  In a calm state (no signal is pending, and none
    comes) it comes to an end; with a signal pending it may wait for ever. *)
Theorem alloc_correct `{!PoolHostCalm W A inv calm} w : inv w ->
  safe _alloc (alloc_post (host_pool w)) w /\
  (calm w -> total _alloc (alloc_post (host_pool w)) w).
Proof.
  intros Hi. pose proof (alloc_spec w Hi) as Hs. split; [done|]. intros Hc.
  assert (match _alloc w with Blocked _ => False | _ => True end) as Hb.
  { unfold _alloc, bind, gets. by apply alloc_loop_wakes. }
  unfold safe, total in *. by destruct (_alloc w).
Qed.

(** The turn at which the search that starts after the cursor comes to index [j]: 1 for the next
    entry, [max_entries] for the cursor's own. *)
Definition turn (p : Pool A) (j : nat) : nat :=
  if (cursor p <? j)%nat then j - cursor p else j + max_entries p - cursor p.

Lemma turn_INCR (p : Pool A) i : pool_wf p -> (i < max_entries p)%nat ->
  turn p (INCR p i) = if (i =? cursor p)%nat then 1%nat else S (turn p i).
Proof.
  intros [? ? ? ?] Hi. unfold turn, INCR.
  destruct (Nat.eqb_spec i (cursor p)), (Nat.leb_spec (max_entries p - 1) i);
    repeat case_match; rewrite ?Nat.ltb_lt, ?Nat.ltb_ge in *; lia.
Qed.

Lemma turn_inj (p : Pool A) i j : pool_wf p -> (i < max_entries p)%nat -> (j < max_entries p)%nat ->
  turn p i = turn p j -> i = j.
Proof.
  intros [? ? ? ?] ? ?. unfold turn.
  destruct (Nat.ltb_spec (cursor p) i), (Nat.ltb_spec (cursor p) j); lia.
Qed.

Lemma turn_max (p : Pool A) i : pool_wf p -> (i < max_entries p)%nat ->
  (turn p i <= max_entries p)%nat.
Proof. intros [? ? ? ?] ?. unfold turn. destruct (Nat.ltb_spec (cursor p) i); lia. Qed.

(** Entry [j] is free, and it is the free entry whose turn comes first. *)
Definition next_free (p : Pool A) (j : nat) (e : PoolEntry A) : Prop :=
  entries p !! j = Some e /\ reserved e = false /\
  forall j' e', entries p !! j' = Some e' -> reserved e' = false -> (turn p j <= turn p j')%nat.

Lemma next_free_unique (p : Pool A) i e j f : pool_wf p -> next_free p i e -> next_free p j f -> e = f.
Proof.
  intros Hwf (Hi & He & Hmi) (Hj & Hf & Hmj). enough (i = j) as -> by congruence.
  pose proof (pw_len _ Hwf). apply (turn_inj p); try done.
  1,2: by apply lookup_lt_Some in Hi, Hj; lia.
  apply Nat.le_antisymm; [by eapply Hmi|by eapply Hmj].
Qed.

Lemma alloc_loop_finds fuel i w j e :
  pool_wf (host_pool w) -> next_free (host_pool w) j e -> (i < max_entries (host_pool w))%nat ->
  (turn (host_pool w) i <= turn (host_pool w) j)%nat ->
  (turn (host_pool w) j - turn (host_pool w) i < fuel)%nat ->
  _alloc_loop fuel i w = Done (Some (item e)) (host_set_pool (reserve j (host_pool w)) w).
Proof.
  intros Hwf (Hj & Hfree & Hmin). revert i. induction fuel as [|fuel IH]; intros i Hi Ht Hf; [lia|].
  assert (Hjl : (j < max_entries (host_pool w))%nat)
    by (rewrite <- (pw_len _ Hwf); by eapply lookup_lt_Some).
  cbn [_alloc_loop]. unfold bind at 1, gets at 1.
  destruct (entries (host_pool w) !! i) as [ei|] eqn:He.
  2:{ apply lookup_ge_None in He. rewrite (pw_len _ Hwf) in He. lia. }
  destruct (reserved ei) eqn:Hr.
  - assert (i <> j) by (intros ->; congruence).
    assert (turn (host_pool w) i <> turn (host_pool w) j) by (intros ?; by eapply turn_inj in Hwf).
    pose proof (turn_INCR (host_pool w) i Hwf Hi) as HI.
    pose proof (turn_max (host_pool w) j Hwf Hjl).
    destruct (Nat.eqb_spec i (cursor (host_pool w))) as [->|Hne].
    + exfalso.
      assert (turn (host_pool w) (cursor (host_pool w)) = max_entries (host_pool w)); [|lia].
      unfold turn. rewrite Nat.ltb_irrefl. lia.
    + apply IH; [by apply INCR_lt|lia|lia].
  - assert (i = j) as -> by (eapply turn_inj; eauto; specialize (Hmin i ei He Hr); lia).
    unfold bind, modify, ret. congruence.
Qed.

Lemma next_free_exists (p : Pool A) j e :
  entries p !! j = Some e -> reserved e = false -> exists j' e', next_free p j' e'.
Proof.
  remember (turn p j) as t eqn:Ht. revert j e Ht.
  induction t as [t IH] using (well_founded_induction Nat.lt_wf_0). intros j e -> Hj He.
  destruct (existsb (fun i => match entries p !! i with
    | Some e' => negb (reserved e') && (turn p i <? turn p j)%nat | None => false end)
    (seq 0 (length (entries p)))) eqn:Hex.
  - apply existsb_exists in Hex as (i & _ & Hi). destruct (entries p !! i) as [e'|] eqn:Hl; [|done].
    apply andb_true_iff in Hi as [?%negb_true_iff ?%Nat.ltb_lt]. by eapply IH.
  - exists j, e. split; [done|]. split; [done|]. intros j' e' Hj' He'.
    destruct (Nat.le_gt_cases (turn p j) (turn p j')) as [?|Hlt]; [done|]. exfalso.
    apply not_true_iff_false in Hex. apply Hex, existsb_exists. exists j'. split.
    + apply in_seq. apply lookup_lt_Some in Hj'. lia.
    + rewrite Hj', He'. by apply Nat.ltb_lt.
Qed.

Lemma alloc_first_free w i e :
  pool_wf (host_pool w) -> entries (host_pool w) !! i = Some e -> reserved e = false ->
  exists j f, next_free (host_pool w) j f /\
    _alloc w = Done (Some (item f)) (host_set_pool (reserve j (host_pool w)) w).
Proof.
  intros Hwf Hi He. destruct (next_free_exists _ _ _ Hi He) as (j & f & Hnf).
  exists j, f. split; [done|]. unfold _alloc, bind, gets.
  pose proof (turn_INCR _ _ Hwf (pw_cursor _ Hwf)) as Ht. rewrite Nat.eqb_refl in Ht.
  assert (Hjl : (j < max_entries (host_pool w))%nat)
    by (rewrite <- (pw_len _ Hwf); destruct Hnf; by eapply lookup_lt_Some).
  pose proof (turn_max _ _ Hwf Hjl).
  assert (1 <= turn (host_pool w) j)%nat.
  { destruct Hwf. unfold turn. destruct (Nat.ltb_spec (cursor (host_pool w)) j); lia. }
  apply alloc_loop_finds; [done|done|by apply INCR_lt|lia|]. unfold alloc_fuel. lia.
Qed.

(** C21: while any entry is free an allocation does not sleep: it takes the free entry that comes
    first after the cursor, cyclically, moves the cursor to it and changes nothing else. *)
Theorem alloc_round_robin w i e :
  pool_wf (host_pool w) -> entries (host_pool w) !! i = Some e -> reserved e = false ->
  exists j f, next_free (host_pool w) j f /\
    _alloc w = Done (Some (item f)) (host_set_pool (reserve j (host_pool w)) w).
Proof. apply alloc_first_free. Qed.

(** [_free] of an item of the pool clears its flag; of anything else it does nothing. *)
Lemma free_eq w it i e :
  pool_wf (host_pool w) -> entries (host_pool w) !! i = Some e -> item e = it ->
  _free it w = host_wake (host_set_pool (unreserve i (host_pool w)) w).
Proof.
  intros Hwf Hi <-. unfold _free, bind, gets, modify.
  assert (find_item (entries (host_pool w)) (item e) = Some i) as ->; [|done].
  apply find_item_spec; [apply Hwf|by rewrite Hi].
Qed.

Lemma free_not_found w it :
  it ∉ item <$> entries (host_pool w) -> _free it w = Done tt w.
Proof. intros Hni. unfold _free, bind, gets. by rewrite (proj2 (find_item_None _ _) Hni). Qed.
End Alloc.
