(* ===== verification/Device.v ===== *)
(** * acq200.h: the data of the driver and of the platform it runs on

    [World] is everything the driver reads or writes: the bus history to the card, memory, the device
    descriptor, the return command handlers, the open paths, and the events that other contexts will
    bring while the driver sleeps.  A pointer to a handler is its index in the [handlers] array, a
    pointer to a path is a key of [paths], [None] is null.

    What is not the driver is a parameter, [Platform]: what the card answers when a register is read
    (a function of the whole bus history), how much of a user copy faults, and the tick rate. *)

From S2P Require Import Prelude BusProt StreamBuf Pool.

(** ** The platform *)

(** The bus history: register words read and written by the driver, what it copied to the memory it
    shares with the card (messages, and the user's data), and the card's own actions. *)
Inductive Io :=
| IoRd (reg val : Z)
| IoWr (reg val : Z)
| IoMem (va : Z) (bytes : list Z)
| IoAct (n : Z).

Class Platform := {
  (** the word the card gives when register word [reg] is read after the history *)
  card_reply : list Io -> Z -> Z;
  (** [copy_to_user] and [copy_from_user] of a range of user addresses: the bytes not copied *)
  copy_fault : Z -> Z -> Z;
  (** timer ticks per second *)
  HZ : Z;
  (** interrupt lines of the kernel; a multiple of 4 *)
  NR_IRQS : Z;
  (** whether [kthread_run] can start a thread, after the history *)
  kthread_starts : list Io -> bool
}.

Definition PAGE_SHIFT : Z := 12.
Definition PAGE_SIZE : Z := Z.shiftl 1 PAGE_SHIFT.

(** What the driver asks of the kernel's interrupt controller (linux/interrupt.h), and of the CPU in
    its big lock. *)
Inductive IrqOp :=
| request_irq (irq : Z)
| free_irq (irq : Z)
| disable_irq_nosync (irq : Z)
| enable_irq (irq : Z)
| spin_lock_irqsave
| spin_unlock_irqrestore.

(** The semaphores of a device. *)
Inductive Sem := mbox_sem | AB_busy_sem | clients_sem.

#[export] Instance Sem_eq_dec : EqDecision Sem.
Proof. solve_decision. Defined.

(** What a [struct task_struct *] of [kthread_run] is: none, or that of a thread which ended; that of a
    thread which runs; an error code. *)
Inductive Task := no_task | task_runs | task_error.

#[export] Instance Task_eq_dec : EqDecision Task.
Proof. solve_decision. Defined.

(** What other contexts do while the driver sleeps: the card's interrupt line fires, the scheduled
    tasklet runs, the backstop thread polls, the card acts by itself and writes host memory by DMA,
    another process releases a semaphore, a signal reaches the process, a timer tick passes. *)
Inductive Event :=
| EvIrq
| EvTasklet
| EvBackstop
| EvCard (n : Z) (dma : list (Z * list Z))
| EvUp (s : Sem)
| EvSignal
| EvTick.

(** ** Buffers and mappings *)
Record DmaBuf := mkDmaBuf {
  order : Z;
  buf_va : Z;   (** 0 is null *)
  buf_pa : Z
}.
#[export] Instance set_order : Setter order := fun f r => mkDmaBuf (f (order r)) (buf_va r) (buf_pa r).
#[export] Instance set_buf_va : Setter buf_va := fun f r => mkDmaBuf (order r) (f (buf_va r)) (buf_pa r).
#[export] Instance set_buf_pa : Setter buf_pa := fun f r => mkDmaBuf (order r) (buf_va r) (f (buf_pa r)).

Record IoMapping := mkIoMapping {
  map_va : Z;
  map_pa : Z;
  map_len : Z
}.
#[export] Instance set_map_va : Setter map_va := fun f r => mkIoMapping (f (map_va r)) (map_pa r) (map_len r).
#[export] Instance set_map_pa : Setter map_pa := fun f r => mkIoMapping (map_va r) (f (map_pa r)) (map_len r).
#[export] Instance set_map_len : Setter map_len := fun f r => mkIoMapping (map_va r) (map_pa r) (f (map_len r)).

#[export] Instance IoMapping_eq_dec : EqDecision IoMapping.
Proof. solve_decision. Defined.

(** [ORDER2LEN] and [dma_buf_len]; an [int]. *)
Definition ORDER2LEN (ord : Z) : Z := Z.shiftl 1 ord * PAGE_SIZE.
Definition dma_buf_len (d : DmaBuf) : Z :=
  if negb (buf_va d =? 0) then s32 (Z.shiftl 1 (order d) * PAGE_SIZE) else 0.
Definition PCI_WINDOW_MASK (d : DmaBuf) : Z := dma_buf_len d - 1.

Definition copyDmaBuf2IoMapping (d : DmaBuf) : IoMapping :=
  mkIoMapping (buf_va d) (buf_pa d) (dma_buf_len d).

(** A [struct IoMapping *] in a handler's return record: null, an entry of the mappings pool, one of
    a path's two buffer mappings, or the caller's local variable. *)
Inductive Kbuf :=
| KNull
| KPool (i : nat)
| KPath (p : nat) (ibuf : Z)
| KStack (m : IoMapping).

#[export] Instance Kbuf_eq_dec : EqDecision Kbuf.
Proof. solve_decision. Defined.

Definition MK_DMABUF_OFFSET (m : IoMapping) (d : DmaBuf) : Z :=
  u32 (Z.land (map_pa m) (u32 (PCI_WINDOW_MASK d))).

(** ** Return command handlers *)
Definition RCH_KB_POOL : Z := 1.

Record RchReturn := mkRchReturn {
  valid : Z;
  start_id : Z;   (** unsigned *)
  nbytes : Z;   (** int *)
  kbuf : Kbuf;
  rflags : Z
}.
#[export] Instance set_valid : Setter valid := fun f r => mkRchReturn (f (valid r)) (start_id r) (nbytes r) (kbuf r) (rflags r).
#[export] Instance set_start_id : Setter start_id := fun f r => mkRchReturn (valid r) (f (start_id r)) (nbytes r) (kbuf r) (rflags r).
#[export] Instance set_nbytes : Setter nbytes := fun f r => mkRchReturn (valid r) (start_id r) (f (nbytes r)) (kbuf r) (rflags r).
#[export] Instance set_kbuf : Setter kbuf := fun f r => mkRchReturn (valid r) (start_id r) (nbytes r) (f (kbuf r)) (rflags r).
#[export] Instance set_rflags : Setter rflags := fun f r => mkRchReturn (valid r) (start_id r) (nbytes r) (kbuf r) (f (rflags r)).

(** The functions a handler pointer can hold. *)
Inductive Handler :=
| HNone
| i2o_handleReadMessageFile_fn
| i2o_recycleRchWrapper_fn
| i2o_handleLastMessage_fn.

#[export] Instance Handler_eq_dec : EqDecision Handler.
Proof. solve_decision. Defined.

(** The state of a [struct list_head] link (linux/list.h): initialised and alone, in the list, or
    poisoned by [list_del]. *)
Inductive Link := LinkSelf | LinkIn | LinkPoison.

#[export] Instance Link_eq_dec : EqDecision Link.
Proof. solve_decision. Defined.

Record ReturnCommandHandler := mkRch {
  rhandler : Handler;
  rpath : option nat;
  rdevice : option Z;   (** null until buildRch sets it *)
  command_id : Z;   (** short *)
  rchReturn : RchReturn;
  rlink : Link
}.
#[export] Instance set_rhandler : Setter rhandler := fun f r => mkRch (f (rhandler r)) (rpath r) (rdevice r) (command_id r) (rchReturn r) (rlink r).
#[export] Instance set_rpath : Setter rpath := fun f r => mkRch (rhandler r) (f (rpath r)) (rdevice r) (command_id r) (rchReturn r) (rlink r).
#[export] Instance set_rdevice : Setter rdevice := fun f r => mkRch (rhandler r) (rpath r) (f (rdevice r)) (command_id r) (rchReturn r) (rlink r).
#[export] Instance set_command_id : Setter command_id := fun f r => mkRch (rhandler r) (rpath r) (rdevice r) (f (command_id r)) (rchReturn r) (rlink r).
#[export] Instance set_rchReturn : Setter rchReturn := fun f r => mkRch (rhandler r) (rpath r) (rdevice r) (command_id r) (f (rchReturn r)) (rlink r).
#[export] Instance set_rlink : Setter rlink := fun f r => mkRch (rhandler r) (rpath r) (rdevice r) (command_id r) (rchReturn r) (f (rlink r)).

(** A handler as [memset] and [rchInit] leave it. *)
Definition zero_rch : ReturnCommandHandler :=
  mkRch HNone None None 0 (mkRchReturn 0 0 0 KNull 0) LinkSelf.

(** ** Mailbox requests and buffer A/B requests *)
Definition MBOX_NUM : nat := 4.
Definition MBC_FLAGS_TO : Z := 0xffff.
Definition MBC_FLAGS_TO_FOREVER : Z := 0.
Definition MBC_FLAGS_MBXW : Z := 0x000f0000.
Definition MBC_FLAGS_MBXR : Z := 0x00f00000.
Definition MBC_FLAGS_ONRELEASE : Z := 0x10000000.

Record MailboxControl := mkMbc {
  mbc_flags : Z;   (** u32 *)
  mbxw : list Z;   (** MBOX_NUM words *)
  mbxr : list Z   (** MBOX_NUM words *)
}.
#[export] Instance set_mbc_flags : Setter mbc_flags := fun f r => mkMbc (f (mbc_flags r)) (mbxw r) (mbxr r).
#[export] Instance set_mbxw : Setter mbxw := fun f r => mkMbc (mbc_flags r) (f (mbxw r)) (mbxr r).
#[export] Instance set_mbxr : Setter mbxr := fun f r => mkMbc (mbc_flags r) (mbxw r) (f (mbxr r)).

Definition MBC_TO_MBXW (mx : Z) : Z := Z.shiftl mx 16.
Definition MBC_FROM_MBXW (mbc : MailboxControl) : Z := Z.shiftr (Z.land (mbc_flags mbc) MBC_FLAGS_MBXW) 16.
Definition MBC_TO_MBXR (mx : Z) : Z := Z.shiftl mx 20.
Definition MBC_FROM_MBXR (mbc : MailboxControl) : Z := Z.shiftr (Z.land (mbc_flags mbc) MBC_FLAGS_MBXR) 20.

Definition zero_mbc : MailboxControl := mkMbc 0 [0; 0; 0; 0] [0; 0; 0; 0].

(** Arrays of two, indexed by [BUFFERA] and [BUFFERB]. *)
Definition BUFFERA : Z := 0.
Definition BUFFERB : Z := 1.
Definition ab_get {X} (ab : X * X) (i : Z) : X := if i =? 0 then ab.1 else ab.2.
Definition ab_set {X} (ab : X * X) (i : Z) (x : X) : X * X :=
  if i =? 0 then (x, ab.2) else (ab.1, x).

Definition BUFFER_A_FLAG : Z := 0x1.
Definition BUFFER_B_FLAG : Z := 0x2.
Definition BUFFER_FLAG_LUT (i : Z) : Z := if i =? 0 then 1 else 2.
Definition FULL_EOF : Z := 0x80000000.

Record BufferAB_Ops := mkABOps {
  ci_recycle : Z;   (** unsigned *)
  ci_timeout : Z;   (** unsigned *)
  ds_full : Z;   (** unsigned *)
  ds_sid : Z * Z;
  ds_len : Z * Z
}.
#[export] Instance set_ci_recycle : Setter ci_recycle := fun f r => mkABOps (f (ci_recycle r)) (ci_timeout r) (ds_full r) (ds_sid r) (ds_len r).
#[export] Instance set_ci_timeout : Setter ci_timeout := fun f r => mkABOps (ci_recycle r) (f (ci_timeout r)) (ds_full r) (ds_sid r) (ds_len r).
#[export] Instance set_ds_full : Setter ds_full := fun f r => mkABOps (ci_recycle r) (ci_timeout r) (f (ds_full r)) (ds_sid r) (ds_len r).
#[export] Instance set_ds_sid : Setter ds_sid := fun f r => mkABOps (ci_recycle r) (ci_timeout r) (ds_full r) (f (ds_sid r)) (ds_len r).
#[export] Instance set_ds_len : Setter ds_len := fun f r => mkABOps (ci_recycle r) (ci_timeout r) (ds_full r) (ds_sid r) (f (ds_len r)).

(** ** Paths: one per open file *)
Definition LDH_OUTBOUND : Z := 1.
Definition LDH_INBOUND : Z := -1.
Definition LDH_NONE : Z := 0.

Record Acq200Path := mkPath {
  minor : Z;
  path_dma_buf : DmaBuf;
  path_llhost_dma_buf : DmaBuf;
  last_direction_hack : Z;
  return_waitq : bool;   (** a wake-up was sent since the last wait *)
  rchAB : option nat * option nat;
  bufferMappings : IoMapping * IoMapping;
  ab_next : Z;
  sid : Z;   (** unsigned long *)
  has_AB_busy_mutex : Z;
  mbc_on_release : MailboxControl;
  scratch : Message   (** the message under construction in LBUF *)
}.
#[export] Instance set_minor : Setter minor := fun f r => mkPath (f (minor r)) (path_dma_buf r) (path_llhost_dma_buf r) (last_direction_hack r) (return_waitq r) (rchAB r) (bufferMappings r) (ab_next r) (sid r) (has_AB_busy_mutex r) (mbc_on_release r) (scratch r).
#[export] Instance set_path_dma_buf : Setter path_dma_buf := fun f r => mkPath (minor r) (f (path_dma_buf r)) (path_llhost_dma_buf r) (last_direction_hack r) (return_waitq r) (rchAB r) (bufferMappings r) (ab_next r) (sid r) (has_AB_busy_mutex r) (mbc_on_release r) (scratch r).
#[export] Instance set_path_llhost_dma_buf : Setter path_llhost_dma_buf := fun f r => mkPath (minor r) (path_dma_buf r) (f (path_llhost_dma_buf r)) (last_direction_hack r) (return_waitq r) (rchAB r) (bufferMappings r) (ab_next r) (sid r) (has_AB_busy_mutex r) (mbc_on_release r) (scratch r).
#[export] Instance set_last_direction_hack : Setter last_direction_hack := fun f r => mkPath (minor r) (path_dma_buf r) (path_llhost_dma_buf r) (f (last_direction_hack r)) (return_waitq r) (rchAB r) (bufferMappings r) (ab_next r) (sid r) (has_AB_busy_mutex r) (mbc_on_release r) (scratch r).
#[export] Instance set_return_waitq : Setter return_waitq := fun f r => mkPath (minor r) (path_dma_buf r) (path_llhost_dma_buf r) (last_direction_hack r) (f (return_waitq r)) (rchAB r) (bufferMappings r) (ab_next r) (sid r) (has_AB_busy_mutex r) (mbc_on_release r) (scratch r).
#[export] Instance set_rchAB : Setter rchAB := fun f r => mkPath (minor r) (path_dma_buf r) (path_llhost_dma_buf r) (last_direction_hack r) (return_waitq r) (f (rchAB r)) (bufferMappings r) (ab_next r) (sid r) (has_AB_busy_mutex r) (mbc_on_release r) (scratch r).
#[export] Instance set_bufferMappings : Setter bufferMappings := fun f r => mkPath (minor r) (path_dma_buf r) (path_llhost_dma_buf r) (last_direction_hack r) (return_waitq r) (rchAB r) (f (bufferMappings r)) (ab_next r) (sid r) (has_AB_busy_mutex r) (mbc_on_release r) (scratch r).
#[export] Instance set_ab_next : Setter ab_next := fun f r => mkPath (minor r) (path_dma_buf r) (path_llhost_dma_buf r) (last_direction_hack r) (return_waitq r) (rchAB r) (bufferMappings r) (f (ab_next r)) (sid r) (has_AB_busy_mutex r) (mbc_on_release r) (scratch r).
#[export] Instance set_sid : Setter sid := fun f r => mkPath (minor r) (path_dma_buf r) (path_llhost_dma_buf r) (last_direction_hack r) (return_waitq r) (rchAB r) (bufferMappings r) (ab_next r) (f (sid r)) (has_AB_busy_mutex r) (mbc_on_release r) (scratch r).
#[export] Instance set_has_AB_busy_mutex : Setter has_AB_busy_mutex := fun f r => mkPath (minor r) (path_dma_buf r) (path_llhost_dma_buf r) (last_direction_hack r) (return_waitq r) (rchAB r) (bufferMappings r) (ab_next r) (sid r) (f (has_AB_busy_mutex r)) (mbc_on_release r) (scratch r).
#[export] Instance set_mbc_on_release : Setter mbc_on_release := fun f r => mkPath (minor r) (path_dma_buf r) (path_llhost_dma_buf r) (last_direction_hack r) (return_waitq r) (rchAB r) (bufferMappings r) (ab_next r) (sid r) (has_AB_busy_mutex r) (f (mbc_on_release r)) (scratch r).
#[export] Instance set_scratch : Setter scratch := fun f r => mkPath (minor r) (path_dma_buf r) (path_llhost_dma_buf r) (last_direction_hack r) (return_waitq r) (rchAB r) (bufferMappings r) (ab_next r) (sid r) (has_AB_busy_mutex r) (mbc_on_release r) (f (scratch r)).

(** An open file: its path and its device number. *)
Record File := mkFile { private_data : nat; i_rdev : Z }.
Definition CHAN (file : File) : Z := Z.land (i_rdev file) 0x00ff.

(** ** The device *)
Record DevicePrivateData := mkDpd {
  i2o_packets_incoming : Z;
  i2o_packets_returned : Z;
  i2o_packets_discarded : Z;
  i2o_last_in : Z;
  i2o_packets_outgoing : Z;
  i2o_last_id_out : Z;   (** short *)
  rch_list : list nat;   (** the handlers linked in m_dpd.rch.list *)
  tasklet_scheduled : bool;
  aux_mfa : Z;
  aux_waitq : bool;
  aux_task_waiting : Z;
  bad_mfa_count : Z   (** unsigned *)
}.
#[export] Instance set_i2o_packets_incoming : Setter i2o_packets_incoming := fun f r => mkDpd (f (i2o_packets_incoming r)) (i2o_packets_returned r) (i2o_packets_discarded r) (i2o_last_in r) (i2o_packets_outgoing r) (i2o_last_id_out r) (rch_list r) (tasklet_scheduled r) (aux_mfa r) (aux_waitq r) (aux_task_waiting r) (bad_mfa_count r).
#[export] Instance set_i2o_packets_returned : Setter i2o_packets_returned := fun f r => mkDpd (i2o_packets_incoming r) (f (i2o_packets_returned r)) (i2o_packets_discarded r) (i2o_last_in r) (i2o_packets_outgoing r) (i2o_last_id_out r) (rch_list r) (tasklet_scheduled r) (aux_mfa r) (aux_waitq r) (aux_task_waiting r) (bad_mfa_count r).
#[export] Instance set_i2o_packets_discarded : Setter i2o_packets_discarded := fun f r => mkDpd (i2o_packets_incoming r) (i2o_packets_returned r) (f (i2o_packets_discarded r)) (i2o_last_in r) (i2o_packets_outgoing r) (i2o_last_id_out r) (rch_list r) (tasklet_scheduled r) (aux_mfa r) (aux_waitq r) (aux_task_waiting r) (bad_mfa_count r).
#[export] Instance set_i2o_last_in : Setter i2o_last_in := fun f r => mkDpd (i2o_packets_incoming r) (i2o_packets_returned r) (i2o_packets_discarded r) (f (i2o_last_in r)) (i2o_packets_outgoing r) (i2o_last_id_out r) (rch_list r) (tasklet_scheduled r) (aux_mfa r) (aux_waitq r) (aux_task_waiting r) (bad_mfa_count r).
#[export] Instance set_i2o_packets_outgoing : Setter i2o_packets_outgoing := fun f r => mkDpd (i2o_packets_incoming r) (i2o_packets_returned r) (i2o_packets_discarded r) (i2o_last_in r) (f (i2o_packets_outgoing r)) (i2o_last_id_out r) (rch_list r) (tasklet_scheduled r) (aux_mfa r) (aux_waitq r) (aux_task_waiting r) (bad_mfa_count r).
#[export] Instance set_i2o_last_id_out : Setter i2o_last_id_out := fun f r => mkDpd (i2o_packets_incoming r) (i2o_packets_returned r) (i2o_packets_discarded r) (i2o_last_in r) (i2o_packets_outgoing r) (f (i2o_last_id_out r)) (rch_list r) (tasklet_scheduled r) (aux_mfa r) (aux_waitq r) (aux_task_waiting r) (bad_mfa_count r).
#[export] Instance set_rch_list : Setter rch_list := fun f r => mkDpd (i2o_packets_incoming r) (i2o_packets_returned r) (i2o_packets_discarded r) (i2o_last_in r) (i2o_packets_outgoing r) (i2o_last_id_out r) (f (rch_list r)) (tasklet_scheduled r) (aux_mfa r) (aux_waitq r) (aux_task_waiting r) (bad_mfa_count r).
#[export] Instance set_tasklet_scheduled : Setter tasklet_scheduled := fun f r => mkDpd (i2o_packets_incoming r) (i2o_packets_returned r) (i2o_packets_discarded r) (i2o_last_in r) (i2o_packets_outgoing r) (i2o_last_id_out r) (rch_list r) (f (tasklet_scheduled r)) (aux_mfa r) (aux_waitq r) (aux_task_waiting r) (bad_mfa_count r).
#[export] Instance set_aux_mfa : Setter aux_mfa := fun f r => mkDpd (i2o_packets_incoming r) (i2o_packets_returned r) (i2o_packets_discarded r) (i2o_last_in r) (i2o_packets_outgoing r) (i2o_last_id_out r) (rch_list r) (tasklet_scheduled r) (f (aux_mfa r)) (aux_waitq r) (aux_task_waiting r) (bad_mfa_count r).
#[export] Instance set_aux_waitq : Setter aux_waitq := fun f r => mkDpd (i2o_packets_incoming r) (i2o_packets_returned r) (i2o_packets_discarded r) (i2o_last_in r) (i2o_packets_outgoing r) (i2o_last_id_out r) (rch_list r) (tasklet_scheduled r) (aux_mfa r) (f (aux_waitq r)) (aux_task_waiting r) (bad_mfa_count r).
#[export] Instance set_aux_task_waiting : Setter aux_task_waiting := fun f r => mkDpd (i2o_packets_incoming r) (i2o_packets_returned r) (i2o_packets_discarded r) (i2o_last_in r) (i2o_packets_outgoing r) (i2o_last_id_out r) (rch_list r) (tasklet_scheduled r) (aux_mfa r) (aux_waitq r) (f (aux_task_waiting r)) (bad_mfa_count r).
#[export] Instance set_bad_mfa_count : Setter bad_mfa_count := fun f r => mkDpd (i2o_packets_incoming r) (i2o_packets_returned r) (i2o_packets_discarded r) (i2o_last_in r) (i2o_packets_outgoing r) (i2o_last_id_out r) (rch_list r) (tasklet_scheduled r) (aux_mfa r) (aux_waitq r) (aux_task_waiting r) (f (bad_mfa_count r)).

Record MailboxSync := mkMboxSync {
  using_interrupt : Z;
  mbox_mutex : Z;   (** semaphore count *)
  response_received : Z;
  mbox_waitq : bool
}.
#[export] Instance set_using_interrupt : Setter using_interrupt := fun f r => mkMboxSync (f (using_interrupt r)) (mbox_mutex r) (response_received r) (mbox_waitq r).
#[export] Instance set_mbox_mutex : Setter mbox_mutex := fun f r => mkMboxSync (using_interrupt r) (f (mbox_mutex r)) (response_received r) (mbox_waitq r).
#[export] Instance set_response_received : Setter response_received := fun f r => mkMboxSync (using_interrupt r) (mbox_mutex r) (f (response_received r)) (mbox_waitq r).
#[export] Instance set_mbox_waitq : Setter mbox_waitq := fun f r => mkMboxSync (using_interrupt r) (mbox_mutex r) (response_received r) (f (mbox_waitq r)).

Record Acq200Device := mkDevice {
  idx : Z;
  card_type : Z;
  model_name : list Z;   (** a C string *)
  pci_irq : Z;   (** pci_dev->irq *)
  pci_devfn : Z;   (** pci_dev->devfn *)
  major : Z;
  llhost_dma_buf : DmaBuf;
  dma_buf : DmaBuf;
  AB : DmaBuf * DmaBuf;
  mappings : Pool Kbuf;
  handlers : Pool nat;
  sleepq : bool;   (** a wake-up was sent to the pool's wait queue *)
  csr_pa : Z;
  imask : list Z;   (** a C string of characters, without its end *)
  imask_a : list Z;   (** unsigned char *)
  bkl_is_locked : Z;
  mbox_sync : MailboxSync;
  buffer_AB_busy_mutex : Z;   (** semaphore count *)
  clients_mutex : Z;   (** semaphore count *)
  clients_count : Z;
  input_nchannels : Z;
  output_nchannels : Z;
  completed_onetime_setups : Z;
  heartbeat_detected : Z;
  interrupt_count : Z * Z * Z;
  bad_report : Z;   (** the static variable of acq200_isr *)
  m_dpd : DevicePrivateData;
  streambuf : GenericIntBuf;
  i2o_backstop : Task
}.
#[export] Instance set_idx : Setter idx := fun f r => mkDevice (f (idx r)) (card_type r) (model_name r) (pci_irq r) (pci_devfn r) (major r) (llhost_dma_buf r) (dma_buf r) (AB r) (mappings r) (handlers r) (sleepq r) (csr_pa r) (imask r) (imask_a r) (bkl_is_locked r) (mbox_sync r) (buffer_AB_busy_mutex r) (clients_mutex r) (clients_count r) (input_nchannels r) (output_nchannels r) (completed_onetime_setups r) (heartbeat_detected r) (interrupt_count r) (bad_report r) (m_dpd r) (streambuf r) (i2o_backstop r).
#[export] Instance set_card_type : Setter card_type := fun f r => mkDevice (idx r) (f (card_type r)) (model_name r) (pci_irq r) (pci_devfn r) (major r) (llhost_dma_buf r) (dma_buf r) (AB r) (mappings r) (handlers r) (sleepq r) (csr_pa r) (imask r) (imask_a r) (bkl_is_locked r) (mbox_sync r) (buffer_AB_busy_mutex r) (clients_mutex r) (clients_count r) (input_nchannels r) (output_nchannels r) (completed_onetime_setups r) (heartbeat_detected r) (interrupt_count r) (bad_report r) (m_dpd r) (streambuf r) (i2o_backstop r).
#[export] Instance set_model_name : Setter model_name := fun f r => mkDevice (idx r) (card_type r) (f (model_name r)) (pci_irq r) (pci_devfn r) (major r) (llhost_dma_buf r) (dma_buf r) (AB r) (mappings r) (handlers r) (sleepq r) (csr_pa r) (imask r) (imask_a r) (bkl_is_locked r) (mbox_sync r) (buffer_AB_busy_mutex r) (clients_mutex r) (clients_count r) (input_nchannels r) (output_nchannels r) (completed_onetime_setups r) (heartbeat_detected r) (interrupt_count r) (bad_report r) (m_dpd r) (streambuf r) (i2o_backstop r).
#[export] Instance set_pci_irq : Setter pci_irq := fun f r => mkDevice (idx r) (card_type r) (model_name r) (f (pci_irq r)) (pci_devfn r) (major r) (llhost_dma_buf r) (dma_buf r) (AB r) (mappings r) (handlers r) (sleepq r) (csr_pa r) (imask r) (imask_a r) (bkl_is_locked r) (mbox_sync r) (buffer_AB_busy_mutex r) (clients_mutex r) (clients_count r) (input_nchannels r) (output_nchannels r) (completed_onetime_setups r) (heartbeat_detected r) (interrupt_count r) (bad_report r) (m_dpd r) (streambuf r) (i2o_backstop r).
#[export] Instance set_pci_devfn : Setter pci_devfn := fun f r => mkDevice (idx r) (card_type r) (model_name r) (pci_irq r) (f (pci_devfn r)) (major r) (llhost_dma_buf r) (dma_buf r) (AB r) (mappings r) (handlers r) (sleepq r) (csr_pa r) (imask r) (imask_a r) (bkl_is_locked r) (mbox_sync r) (buffer_AB_busy_mutex r) (clients_mutex r) (clients_count r) (input_nchannels r) (output_nchannels r) (completed_onetime_setups r) (heartbeat_detected r) (interrupt_count r) (bad_report r) (m_dpd r) (streambuf r) (i2o_backstop r).
#[export] Instance set_major : Setter major := fun f r => mkDevice (idx r) (card_type r) (model_name r) (pci_irq r) (pci_devfn r) (f (major r)) (llhost_dma_buf r) (dma_buf r) (AB r) (mappings r) (handlers r) (sleepq r) (csr_pa r) (imask r) (imask_a r) (bkl_is_locked r) (mbox_sync r) (buffer_AB_busy_mutex r) (clients_mutex r) (clients_count r) (input_nchannels r) (output_nchannels r) (completed_onetime_setups r) (heartbeat_detected r) (interrupt_count r) (bad_report r) (m_dpd r) (streambuf r) (i2o_backstop r).
#[export] Instance set_llhost_dma_buf : Setter llhost_dma_buf := fun f r => mkDevice (idx r) (card_type r) (model_name r) (pci_irq r) (pci_devfn r) (major r) (f (llhost_dma_buf r)) (dma_buf r) (AB r) (mappings r) (handlers r) (sleepq r) (csr_pa r) (imask r) (imask_a r) (bkl_is_locked r) (mbox_sync r) (buffer_AB_busy_mutex r) (clients_mutex r) (clients_count r) (input_nchannels r) (output_nchannels r) (completed_onetime_setups r) (heartbeat_detected r) (interrupt_count r) (bad_report r) (m_dpd r) (streambuf r) (i2o_backstop r).
#[export] Instance set_dma_buf : Setter dma_buf := fun f r => mkDevice (idx r) (card_type r) (model_name r) (pci_irq r) (pci_devfn r) (major r) (llhost_dma_buf r) (f (dma_buf r)) (AB r) (mappings r) (handlers r) (sleepq r) (csr_pa r) (imask r) (imask_a r) (bkl_is_locked r) (mbox_sync r) (buffer_AB_busy_mutex r) (clients_mutex r) (clients_count r) (input_nchannels r) (output_nchannels r) (completed_onetime_setups r) (heartbeat_detected r) (interrupt_count r) (bad_report r) (m_dpd r) (streambuf r) (i2o_backstop r).
#[export] Instance set_AB : Setter AB := fun f r => mkDevice (idx r) (card_type r) (model_name r) (pci_irq r) (pci_devfn r) (major r) (llhost_dma_buf r) (dma_buf r) (f (AB r)) (mappings r) (handlers r) (sleepq r) (csr_pa r) (imask r) (imask_a r) (bkl_is_locked r) (mbox_sync r) (buffer_AB_busy_mutex r) (clients_mutex r) (clients_count r) (input_nchannels r) (output_nchannels r) (completed_onetime_setups r) (heartbeat_detected r) (interrupt_count r) (bad_report r) (m_dpd r) (streambuf r) (i2o_backstop r).
#[export] Instance set_mappings : Setter mappings := fun f r => mkDevice (idx r) (card_type r) (model_name r) (pci_irq r) (pci_devfn r) (major r) (llhost_dma_buf r) (dma_buf r) (AB r) (f (mappings r)) (handlers r) (sleepq r) (csr_pa r) (imask r) (imask_a r) (bkl_is_locked r) (mbox_sync r) (buffer_AB_busy_mutex r) (clients_mutex r) (clients_count r) (input_nchannels r) (output_nchannels r) (completed_onetime_setups r) (heartbeat_detected r) (interrupt_count r) (bad_report r) (m_dpd r) (streambuf r) (i2o_backstop r).
#[export] Instance set_handlers : Setter handlers := fun f r => mkDevice (idx r) (card_type r) (model_name r) (pci_irq r) (pci_devfn r) (major r) (llhost_dma_buf r) (dma_buf r) (AB r) (mappings r) (f (handlers r)) (sleepq r) (csr_pa r) (imask r) (imask_a r) (bkl_is_locked r) (mbox_sync r) (buffer_AB_busy_mutex r) (clients_mutex r) (clients_count r) (input_nchannels r) (output_nchannels r) (completed_onetime_setups r) (heartbeat_detected r) (interrupt_count r) (bad_report r) (m_dpd r) (streambuf r) (i2o_backstop r).
#[export] Instance set_sleepq : Setter sleepq := fun f r => mkDevice (idx r) (card_type r) (model_name r) (pci_irq r) (pci_devfn r) (major r) (llhost_dma_buf r) (dma_buf r) (AB r) (mappings r) (handlers r) (f (sleepq r)) (csr_pa r) (imask r) (imask_a r) (bkl_is_locked r) (mbox_sync r) (buffer_AB_busy_mutex r) (clients_mutex r) (clients_count r) (input_nchannels r) (output_nchannels r) (completed_onetime_setups r) (heartbeat_detected r) (interrupt_count r) (bad_report r) (m_dpd r) (streambuf r) (i2o_backstop r).
#[export] Instance set_csr_pa : Setter csr_pa := fun f r => mkDevice (idx r) (card_type r) (model_name r) (pci_irq r) (pci_devfn r) (major r) (llhost_dma_buf r) (dma_buf r) (AB r) (mappings r) (handlers r) (sleepq r) (f (csr_pa r)) (imask r) (imask_a r) (bkl_is_locked r) (mbox_sync r) (buffer_AB_busy_mutex r) (clients_mutex r) (clients_count r) (input_nchannels r) (output_nchannels r) (completed_onetime_setups r) (heartbeat_detected r) (interrupt_count r) (bad_report r) (m_dpd r) (streambuf r) (i2o_backstop r).
#[export] Instance set_imask : Setter imask := fun f r => mkDevice (idx r) (card_type r) (model_name r) (pci_irq r) (pci_devfn r) (major r) (llhost_dma_buf r) (dma_buf r) (AB r) (mappings r) (handlers r) (sleepq r) (csr_pa r) (f (imask r)) (imask_a r) (bkl_is_locked r) (mbox_sync r) (buffer_AB_busy_mutex r) (clients_mutex r) (clients_count r) (input_nchannels r) (output_nchannels r) (completed_onetime_setups r) (heartbeat_detected r) (interrupt_count r) (bad_report r) (m_dpd r) (streambuf r) (i2o_backstop r).
#[export] Instance set_imask_a : Setter imask_a := fun f r => mkDevice (idx r) (card_type r) (model_name r) (pci_irq r) (pci_devfn r) (major r) (llhost_dma_buf r) (dma_buf r) (AB r) (mappings r) (handlers r) (sleepq r) (csr_pa r) (imask r) (f (imask_a r)) (bkl_is_locked r) (mbox_sync r) (buffer_AB_busy_mutex r) (clients_mutex r) (clients_count r) (input_nchannels r) (output_nchannels r) (completed_onetime_setups r) (heartbeat_detected r) (interrupt_count r) (bad_report r) (m_dpd r) (streambuf r) (i2o_backstop r).
#[export] Instance set_bkl_is_locked : Setter bkl_is_locked := fun f r => mkDevice (idx r) (card_type r) (model_name r) (pci_irq r) (pci_devfn r) (major r) (llhost_dma_buf r) (dma_buf r) (AB r) (mappings r) (handlers r) (sleepq r) (csr_pa r) (imask r) (imask_a r) (f (bkl_is_locked r)) (mbox_sync r) (buffer_AB_busy_mutex r) (clients_mutex r) (clients_count r) (input_nchannels r) (output_nchannels r) (completed_onetime_setups r) (heartbeat_detected r) (interrupt_count r) (bad_report r) (m_dpd r) (streambuf r) (i2o_backstop r).
#[export] Instance set_mbox_sync : Setter mbox_sync := fun f r => mkDevice (idx r) (card_type r) (model_name r) (pci_irq r) (pci_devfn r) (major r) (llhost_dma_buf r) (dma_buf r) (AB r) (mappings r) (handlers r) (sleepq r) (csr_pa r) (imask r) (imask_a r) (bkl_is_locked r) (f (mbox_sync r)) (buffer_AB_busy_mutex r) (clients_mutex r) (clients_count r) (input_nchannels r) (output_nchannels r) (completed_onetime_setups r) (heartbeat_detected r) (interrupt_count r) (bad_report r) (m_dpd r) (streambuf r) (i2o_backstop r).
#[export] Instance set_buffer_AB_busy_mutex : Setter buffer_AB_busy_mutex := fun f r => mkDevice (idx r) (card_type r) (model_name r) (pci_irq r) (pci_devfn r) (major r) (llhost_dma_buf r) (dma_buf r) (AB r) (mappings r) (handlers r) (sleepq r) (csr_pa r) (imask r) (imask_a r) (bkl_is_locked r) (mbox_sync r) (f (buffer_AB_busy_mutex r)) (clients_mutex r) (clients_count r) (input_nchannels r) (output_nchannels r) (completed_onetime_setups r) (heartbeat_detected r) (interrupt_count r) (bad_report r) (m_dpd r) (streambuf r) (i2o_backstop r).
#[export] Instance set_clients_mutex : Setter clients_mutex := fun f r => mkDevice (idx r) (card_type r) (model_name r) (pci_irq r) (pci_devfn r) (major r) (llhost_dma_buf r) (dma_buf r) (AB r) (mappings r) (handlers r) (sleepq r) (csr_pa r) (imask r) (imask_a r) (bkl_is_locked r) (mbox_sync r) (buffer_AB_busy_mutex r) (f (clients_mutex r)) (clients_count r) (input_nchannels r) (output_nchannels r) (completed_onetime_setups r) (heartbeat_detected r) (interrupt_count r) (bad_report r) (m_dpd r) (streambuf r) (i2o_backstop r).
#[export] Instance set_clients_count : Setter clients_count := fun f r => mkDevice (idx r) (card_type r) (model_name r) (pci_irq r) (pci_devfn r) (major r) (llhost_dma_buf r) (dma_buf r) (AB r) (mappings r) (handlers r) (sleepq r) (csr_pa r) (imask r) (imask_a r) (bkl_is_locked r) (mbox_sync r) (buffer_AB_busy_mutex r) (clients_mutex r) (f (clients_count r)) (input_nchannels r) (output_nchannels r) (completed_onetime_setups r) (heartbeat_detected r) (interrupt_count r) (bad_report r) (m_dpd r) (streambuf r) (i2o_backstop r).
#[export] Instance set_input_nchannels : Setter input_nchannels := fun f r => mkDevice (idx r) (card_type r) (model_name r) (pci_irq r) (pci_devfn r) (major r) (llhost_dma_buf r) (dma_buf r) (AB r) (mappings r) (handlers r) (sleepq r) (csr_pa r) (imask r) (imask_a r) (bkl_is_locked r) (mbox_sync r) (buffer_AB_busy_mutex r) (clients_mutex r) (clients_count r) (f (input_nchannels r)) (output_nchannels r) (completed_onetime_setups r) (heartbeat_detected r) (interrupt_count r) (bad_report r) (m_dpd r) (streambuf r) (i2o_backstop r).
#[export] Instance set_output_nchannels : Setter output_nchannels := fun f r => mkDevice (idx r) (card_type r) (model_name r) (pci_irq r) (pci_devfn r) (major r) (llhost_dma_buf r) (dma_buf r) (AB r) (mappings r) (handlers r) (sleepq r) (csr_pa r) (imask r) (imask_a r) (bkl_is_locked r) (mbox_sync r) (buffer_AB_busy_mutex r) (clients_mutex r) (clients_count r) (input_nchannels r) (f (output_nchannels r)) (completed_onetime_setups r) (heartbeat_detected r) (interrupt_count r) (bad_report r) (m_dpd r) (streambuf r) (i2o_backstop r).
#[export] Instance set_completed_onetime_setups : Setter completed_onetime_setups := fun f r => mkDevice (idx r) (card_type r) (model_name r) (pci_irq r) (pci_devfn r) (major r) (llhost_dma_buf r) (dma_buf r) (AB r) (mappings r) (handlers r) (sleepq r) (csr_pa r) (imask r) (imask_a r) (bkl_is_locked r) (mbox_sync r) (buffer_AB_busy_mutex r) (clients_mutex r) (clients_count r) (input_nchannels r) (output_nchannels r) (f (completed_onetime_setups r)) (heartbeat_detected r) (interrupt_count r) (bad_report r) (m_dpd r) (streambuf r) (i2o_backstop r).
#[export] Instance set_heartbeat_detected : Setter heartbeat_detected := fun f r => mkDevice (idx r) (card_type r) (model_name r) (pci_irq r) (pci_devfn r) (major r) (llhost_dma_buf r) (dma_buf r) (AB r) (mappings r) (handlers r) (sleepq r) (csr_pa r) (imask r) (imask_a r) (bkl_is_locked r) (mbox_sync r) (buffer_AB_busy_mutex r) (clients_mutex r) (clients_count r) (input_nchannels r) (output_nchannels r) (completed_onetime_setups r) (f (heartbeat_detected r)) (interrupt_count r) (bad_report r) (m_dpd r) (streambuf r) (i2o_backstop r).
#[export] Instance set_interrupt_count : Setter interrupt_count := fun f r => mkDevice (idx r) (card_type r) (model_name r) (pci_irq r) (pci_devfn r) (major r) (llhost_dma_buf r) (dma_buf r) (AB r) (mappings r) (handlers r) (sleepq r) (csr_pa r) (imask r) (imask_a r) (bkl_is_locked r) (mbox_sync r) (buffer_AB_busy_mutex r) (clients_mutex r) (clients_count r) (input_nchannels r) (output_nchannels r) (completed_onetime_setups r) (heartbeat_detected r) (f (interrupt_count r)) (bad_report r) (m_dpd r) (streambuf r) (i2o_backstop r).
#[export] Instance set_bad_report : Setter bad_report := fun f r => mkDevice (idx r) (card_type r) (model_name r) (pci_irq r) (pci_devfn r) (major r) (llhost_dma_buf r) (dma_buf r) (AB r) (mappings r) (handlers r) (sleepq r) (csr_pa r) (imask r) (imask_a r) (bkl_is_locked r) (mbox_sync r) (buffer_AB_busy_mutex r) (clients_mutex r) (clients_count r) (input_nchannels r) (output_nchannels r) (completed_onetime_setups r) (heartbeat_detected r) (interrupt_count r) (f (bad_report r)) (m_dpd r) (streambuf r) (i2o_backstop r).
#[export] Instance set_m_dpd : Setter m_dpd := fun f r => mkDevice (idx r) (card_type r) (model_name r) (pci_irq r) (pci_devfn r) (major r) (llhost_dma_buf r) (dma_buf r) (AB r) (mappings r) (handlers r) (sleepq r) (csr_pa r) (imask r) (imask_a r) (bkl_is_locked r) (mbox_sync r) (buffer_AB_busy_mutex r) (clients_mutex r) (clients_count r) (input_nchannels r) (output_nchannels r) (completed_onetime_setups r) (heartbeat_detected r) (interrupt_count r) (bad_report r) (f (m_dpd r)) (streambuf r) (i2o_backstop r).
#[export] Instance set_streambuf : Setter streambuf := fun f r => mkDevice (idx r) (card_type r) (model_name r) (pci_irq r) (pci_devfn r) (major r) (llhost_dma_buf r) (dma_buf r) (AB r) (mappings r) (handlers r) (sleepq r) (csr_pa r) (imask r) (imask_a r) (bkl_is_locked r) (mbox_sync r) (buffer_AB_busy_mutex r) (clients_mutex r) (clients_count r) (input_nchannels r) (output_nchannels r) (completed_onetime_setups r) (heartbeat_detected r) (interrupt_count r) (bad_report r) (m_dpd r) (f (streambuf r)) (i2o_backstop r).
#[export] Instance set_i2o_backstop : Setter i2o_backstop := fun f r => mkDevice (idx r) (card_type r) (model_name r) (pci_irq r) (pci_devfn r) (major r) (llhost_dma_buf r) (dma_buf r) (AB r) (mappings r) (handlers r) (sleepq r) (csr_pa r) (imask r) (imask_a r) (bkl_is_locked r) (mbox_sync r) (buffer_AB_busy_mutex r) (clients_mutex r) (clients_count r) (input_nchannels r) (output_nchannels r) (completed_onetime_setups r) (heartbeat_detected r) (interrupt_count r) (bad_report r) (m_dpd r) (streambuf r) (f (i2o_backstop r)).

(** The module parameters the modelled code reads. *)
Record Params := mkParams {
  acq200_debug : Z;
  acq200_stub_copy_to_user : Z;
  user_max_buf : Z;
  acq200_AB_dmabuf_max_order : Z;
  acq200_use_interrupts : Z;
  slots : Z   (** the device's entry *)
}.
#[export] Instance set_acq200_debug : Setter acq200_debug := fun f r => mkParams (f (acq200_debug r)) (acq200_stub_copy_to_user r) (user_max_buf r) (acq200_AB_dmabuf_max_order r) (acq200_use_interrupts r) (slots r).
#[export] Instance set_acq200_stub_copy_to_user : Setter acq200_stub_copy_to_user := fun f r => mkParams (acq200_debug r) (f (acq200_stub_copy_to_user r)) (user_max_buf r) (acq200_AB_dmabuf_max_order r) (acq200_use_interrupts r) (slots r).
#[export] Instance set_user_max_buf : Setter user_max_buf := fun f r => mkParams (acq200_debug r) (acq200_stub_copy_to_user r) (f (user_max_buf r)) (acq200_AB_dmabuf_max_order r) (acq200_use_interrupts r) (slots r).
#[export] Instance set_acq200_AB_dmabuf_max_order : Setter acq200_AB_dmabuf_max_order := fun f r => mkParams (acq200_debug r) (acq200_stub_copy_to_user r) (user_max_buf r) (f (acq200_AB_dmabuf_max_order r)) (acq200_use_interrupts r) (slots r).
#[export] Instance set_acq200_use_interrupts : Setter acq200_use_interrupts := fun f r => mkParams (acq200_debug r) (acq200_stub_copy_to_user r) (user_max_buf r) (acq200_AB_dmabuf_max_order r) (f (acq200_use_interrupts r)) (slots r).
#[export] Instance set_slots : Setter slots := fun f r => mkParams (acq200_debug r) (acq200_stub_copy_to_user r) (user_max_buf r) (acq200_AB_dmabuf_max_order r) (acq200_use_interrupts r) (f (slots r)).
Definition default_params : Params := mkParams 0 0 0x300000 12 1 0.

Record World := mkWorld {
  params : Params;
  iolog : list Io;   (** the bus history, oldest first *)
  mem : gmap Z Z;   (** kernel memory, by virtual address *)
  umem : gmap Z Z;   (** the user's memory *)
  dev : Acq200Device;
  maps : list IoMapping;   (** the array behind the mappings pool *)
  rchs : list ReturnCommandHandler;   (** the array behind the handlers pool *)
  paths : gmap nat Acq200Path;
  sched : list Event;   (** what other contexts will do while the driver sleeps *)
  jiffies : Z;
  sigpending : bool;
  irqops : list IrqOp   (** the calls to disable and enable interrupt lines, oldest first *)
}.
#[export] Instance set_params : Setter params := fun f r => mkWorld (f (params r)) (iolog r) (mem r) (umem r) (dev r) (maps r) (rchs r) (paths r) (sched r) (jiffies r) (sigpending r) (irqops r).
#[export] Instance set_iolog : Setter iolog := fun f r => mkWorld (params r) (f (iolog r)) (mem r) (umem r) (dev r) (maps r) (rchs r) (paths r) (sched r) (jiffies r) (sigpending r) (irqops r).
#[export] Instance set_mem : Setter mem := fun f r => mkWorld (params r) (iolog r) (f (mem r)) (umem r) (dev r) (maps r) (rchs r) (paths r) (sched r) (jiffies r) (sigpending r) (irqops r).
#[export] Instance set_umem : Setter umem := fun f r => mkWorld (params r) (iolog r) (mem r) (f (umem r)) (dev r) (maps r) (rchs r) (paths r) (sched r) (jiffies r) (sigpending r) (irqops r).
#[export] Instance set_dev : Setter dev := fun f r => mkWorld (params r) (iolog r) (mem r) (umem r) (f (dev r)) (maps r) (rchs r) (paths r) (sched r) (jiffies r) (sigpending r) (irqops r).
#[export] Instance set_maps : Setter maps := fun f r => mkWorld (params r) (iolog r) (mem r) (umem r) (dev r) (f (maps r)) (rchs r) (paths r) (sched r) (jiffies r) (sigpending r) (irqops r).
#[export] Instance set_rchs : Setter rchs := fun f r => mkWorld (params r) (iolog r) (mem r) (umem r) (dev r) (maps r) (f (rchs r)) (paths r) (sched r) (jiffies r) (sigpending r) (irqops r).
#[export] Instance set_paths : Setter paths := fun f r => mkWorld (params r) (iolog r) (mem r) (umem r) (dev r) (maps r) (rchs r) (f (paths r)) (sched r) (jiffies r) (sigpending r) (irqops r).
#[export] Instance set_sched : Setter sched := fun f r => mkWorld (params r) (iolog r) (mem r) (umem r) (dev r) (maps r) (rchs r) (paths r) (f (sched r)) (jiffies r) (sigpending r) (irqops r).
#[export] Instance set_jiffies : Setter jiffies := fun f r => mkWorld (params r) (iolog r) (mem r) (umem r) (dev r) (maps r) (rchs r) (paths r) (sched r) (f (jiffies r)) (sigpending r) (irqops r).
#[export] Instance set_sigpending : Setter sigpending := fun f r => mkWorld (params r) (iolog r) (mem r) (umem r) (dev r) (maps r) (rchs r) (paths r) (sched r) (jiffies r) (f (sigpending r)) (irqops r).
#[export] Instance set_irqops : Setter irqops := fun f r => mkWorld (params r) (iolog r) (mem r) (umem r) (dev r) (maps r) (rchs r) (paths r) (sched r) (jiffies r) (sigpending r) (f (irqops r)).

(** ** Register words: [CSR(dev, byte_off)] is [csr.va + byte_off/4] *)
Definition CSR (byte_off : Z) : Z := byte_off / 4.
Definition ACQ200_MAILBOX_0 : Z := 0x10.
Definition ACQ200_ODR : Z := 0x2c.
Definition ACQ200_OISR : Z := 0x30.
Definition ACQ200_OIMR : Z := 0x34.
Definition ACQ200_IQP : Z := 0x40.
Definition ACQ200_OQP : Z := 0x44.
Definition ACQ200_OISR_OM_0 : Z := 0x01.
Definition ACQ200_OISR_OM_1 : Z := 0x02.
Definition ACQ200_OISR_ODI : Z := 0x04.
Definition ACQ200_OISR_OPQI : Z := 0x08.
Definition PCI_I2O_INVALID_MFA : Z := 0xffffffff.
Definition BAD_MFA_THRESHOLD : Z := 100.
Definition MBOX_OFFSET : Z := 0x10.
Definition MBOX_OFFSETL : Z := MBOX_OFFSET / 4.
Definition MBOX (ibox : Z) : Z := MBOX_OFFSETL + ibox.
Definition ACQ200_PCIWINSZ : Z := 0x01000000.
Definition ACQ200_PCIWINMSK : Z := ACQ200_PCIWINSZ - 1.
Definition EACQ32_NO_INCOMING_I2O : Z := 3200.

Definition RESPONSE_RECEIVED (w : World) : bool :=
  negb (response_received (mbox_sync (dev w)) =? 0).

(** ** Access to the parts of the world *)
Definition upd_dev (f : Acq200Device -> Acq200Device) : World -> World := setf dev f.
Definition upd_dpd (f : DevicePrivateData -> DevicePrivateData) : World -> World :=
  setf dev (setf m_dpd f).
Definition upd_mbox (f : MailboxSync -> MailboxSync) : World -> World :=
  setf dev (setf mbox_sync f).

Notation MW := (M World).
Definition get_world : MW World := fun w => Done w w.

Section Primitives.
Context `{Platform}.

(** [readl], [ioread32]; [writel], [iowrite32]. *)
Definition readl (reg : Z) : MW Z := fun w =>
  let v := u32 (card_reply (iolog w) reg) in
  Done v (w <| iolog := iolog w ++ [IoRd reg v] |>).
Definition writel (val reg : Z) : MW unit :=
  modify (fun w => w <| iolog := iolog w ++ [IoWr reg (u32 val)] |>).

(** Copies between the kernel and the user: the bytes that could be copied are, the number that
    could not is returned. *)
Definition user_copied (uaddr count : Z) : nat := Z.to_nat (count - copy_fault uaddr count).
Definition copy_to_user (ubuf va count : Z) : MW Z := fun w =>
  Done (copy_fault ubuf count)
    (w <| umem := mem_write (umem w) ubuf (mem_read (mem w) va (user_copied ubuf count)) |>).
Definition copy_from_user (va ubuf count : Z) : MW Z := fun w =>
  let data := mem_read (umem w) ubuf (user_copied ubuf count) in
  Done (copy_fault ubuf count)
    (w <| mem := mem_write (mem w) va data |> <| iolog := iolog w ++ [IoMem va data] |>).
End Primitives.

(** Dereference a handler, a path; update one in place. *)
Definition rch_ref (r : nat) : MW ReturnCommandHandler :=
  let* l := gets rchs in deref OutOfBounds (l !! r).
Definition rch_upd (r : nat) (f : ReturnCommandHandler -> ReturnCommandHandler) : MW unit :=
  let* _ := rch_ref r in modify (setf rchs (alter f r)).
Definition path_ref (p : nat) : MW Acq200Path :=
  let* m := gets paths in deref UseAfterFree (m !! p).
Definition path_upd (p : nat) (f : Acq200Path -> Acq200Path) : MW unit :=
  let* _ := path_ref p in modify (setf paths (alter f p)).

(** [PD(file)]. *)
Definition PD (file : File) : nat := private_data file.

(** ** Wait queues *)
Definition wake_path (p : nat) : MW unit := path_upd p (fun x => x <| return_waitq := true |>).
Definition wake_mbox : MW unit := modify (upd_mbox (fun m => m <| mbox_waitq := true |>)).
Definition wake_aux : MW unit := modify (upd_dpd (fun d => d <| aux_waitq := true |>)).
Definition wake_sleepq : MW unit := modify (upd_dev (fun d => d <| sleepq := true |>)).

(** ** The pools in the device *)
#[export] Instance mappings_host : PoolHost World Kbuf := {
  host_pool w := mappings (dev w);
  host_set_pool p := upd_dev (fun d => d <| mappings := p |>);
  host_wake := wake_sleepq
}.
#[export] Instance handlers_host : PoolHost World nat := {
  host_pool w := handlers (dev w);
  host_set_pool p := upd_dev (fun d => d <| handlers := p |>);
  host_wake := wake_sleepq
}.

Definition acq200_pool_free_mapping (m : Kbuf) : MW unit := _free m.
Definition acq200_pool_free_rch (r : nat) : MW unit := _free r.

(** ** Linked lists (linux/list.h) of handlers on [m_dpd.rch.list] *)
Definition set_link (r : nat) (l : Link) : MW unit := rch_upd r (fun x => x <| rlink := l |>).
Definition upd_rch_list (f : list nat -> list nat) : MW unit :=
  modify (upd_dpd (fun d => d <| rch_list := f (rch_list d) |>)).

(** Linking an element that is already in the list would corrupt it. *)
Definition list_link (r : nat) (f : list nat -> list nat) : MW unit :=
  let* x := rch_ref r in
  if decide (rlink x = LinkIn) then crash ListCorruption
  else upd_rch_list f >> set_link r LinkIn.
Definition list_add (r : nat) : MW unit := list_link r (fun l => r :: l).
Definition list_add_tail (r : nat) : MW unit := list_link r (fun l => l ++ [r]).

(** [list_del] poisons the link of the element; to unlink a poisoned link is a fault. *)
Definition list_del (r : nat) : MW unit :=
  let* x := rch_ref r in
  match rlink x with
  | LinkIn => upd_rch_list (remove_one r) >> set_link r LinkPoison
  | LinkSelf => set_link r LinkPoison
  | LinkPoison => crash ListCorruption
  end.
