(* ===== verification/Rch.v ===== *)
(** * rch.h: return command handlers and the queue of those waiting for a reply

    A handler is queued on [m_dpd.rch.list] when its request is sent and unlinked when it is
    recycled.  The spin lock around each operation makes it atomic, as every operation of the model
    is; all handlers share the device's lock from [rchInit] on, so it is not part of the state. *)

From S2P Require Import Prelude BusProt StreamBuf Pool Device.

Section Rch.
Definition rchInsert (r : nat) : MW unit := list_add r.

Definition rchAppend (r : nat) : MW unit := list_add_tail r.

Definition rchRemove (r : nat) : MW unit :=
  list_del r >>
  rch_upd r (fun x => x <| rpath := None |> <| rhandler := HNone |>).

Definition rchRemoveIfNotValid (r : nat) : MW Z :=
  let* x := rch_ref r in
  let v := valid (rchReturn x) in
  when (negb (v =? 1))
    (when (v <? 0) (list_del r) >>
     rch_upd r (fun x => x <| rhandler := HNone |>)) >>
  ret v.

(** [nsamples] is an [int], compared to the unsigned constant. *)
Definition rr_set (id nsamples : Z) (rr : RchReturn) : RchReturn :=
  if u32 nsamples =? 0xffffffff then rr <| valid := -1 |>
  else rr <| start_id := u32 id |> <| nbytes := s32 (nsamples * 2) |> <| valid := 1 |>.

Definition rchSetSamplesAndGetPath (r : nat) (id nsamples : Z) : MW (option nat) :=
  rch_upd r (fun x => x <| rchReturn := rr_set id nsamples (rchReturn x) |>) >>
  let* x := rch_ref r in
  ret (rpath x).

(** [rchInit(device, 0)] and [rchInit(device, rch)]. *)
Definition rchInit (rch : option nat) : MW unit :=
  match rch with
  | None => upd_rch_list (fun _ => [])
  | Some r => rch_upd r (fun x => x <| rlink := LinkSelf |> <| rhandler := HNone |>)
  end.
End Rch.

(** ** What the accesses do *)
Lemma rch_ref_eq r x w : rchs w !! r = Some x -> rch_ref r w = Done x w.
Proof. intros E. unfold rch_ref, bind, gets. cbn. by rewrite E. Qed.

Lemma rch_upd_eq r x f w :
  rchs w !! r = Some x -> rch_upd r f w = Done tt (setf rchs (alter f r) w).
Proof. intros E. unfold rch_upd, bind. by rewrite (rch_ref_eq r x). Qed.

Lemma path_ref_eq p x w : paths w !! p = Some x -> path_ref p w = Done x w.
Proof. intros E. unfold path_ref, bind, gets. cbn. by rewrite E. Qed.

Lemma path_upd_eq p x f w :
  paths w !! p = Some x -> path_upd p f w = Done tt (setf paths (alter f p) w).
Proof. intros E. unfold path_upd, bind. by rewrite (path_ref_eq p x). Qed.

(** The worlds after linking and unlinking a handler. *)
Definition linked (r : nat) (f : list nat -> list nat) (l : Link) (w : World) : World :=
  setf rchs (alter (setf rlink (fun _ => l)) r)
    (upd_dpd (setf rch_list f) w).

Lemma list_add_tail_eq r x w :
  rchs w !! r = Some x -> rlink x <> LinkIn ->
  rchAppend r w = Done tt (linked r (fun l => l ++ [r]) LinkIn w).
Proof.
  intros E Hl. unfold rchAppend, list_add_tail, list_link, bind. rewrite (rch_ref_eq r x) by done.
  rewrite decide_False by done. unfold upd_rch_list, modify, set_link.
  by rewrite (rch_upd_eq r x).
Qed.

Lemma list_del_eq r x w :
  rchs w !! r = Some x -> rlink x = LinkIn ->
  list_del r w = Done tt (linked r (remove_one r) LinkPoison w).
Proof.
  intros E Hl. unfold list_del, bind. rewrite (rch_ref_eq r x) by done. rewrite Hl.
  unfold upd_rch_list, modify, set_link. by rewrite (rch_upd_eq r x).
Qed.

Definition removed (r : nat) (w : World) : World :=
  setf rchs (alter (fun x => x <| rlink := LinkPoison |> <| rpath := None |> <| rhandler := HNone |>) r)
    (upd_dpd (setf rch_list (remove_one r)) w).

Lemma list_alter_alter {A} (f g : A -> A) i (l : list A) :
  alter f i (alter g i l) = alter (fun x => f (g x)) i l.
Proof.
  revert i. induction l as [|x l IH]; intros [|i]; try done. exact (f_equal (cons x) (IH i)).
Qed.

Lemma rchRemove_eq r x w :
  rchs w !! r = Some x -> rlink x = LinkIn -> rchRemove r w = Done tt (removed r w).
Proof.
  intros E Hl. unfold rchRemove, bind. rewrite (list_del_eq r x) by done.
  erewrite rch_upd_eq by (cbn; by rewrite list_lookup_alter_eq, E).
  unfold removed, linked, setf, set_rchs. cbn -[alter]. by rewrite list_alter_alter.
Qed.
