(* ===== verification/I2o.v ===== *)
(** * acq200_i2o.c: message frames

    The host and the card share the memory of [device->dma_buf].  A message is copied to a frame, and
    the frame's address (mfa) is posted to the card's inbound queue port (IQP); the card answers by
    filling a frame, whose address the interrupt handler reads from the outbound queue port (OQP) and
    queues on the stream buffer; the bottom half hands the message to the handler that waits for it
    and gives the frame back to the card through OQP. *)

From S2P Require Import Prelude BusProt StreamBuf Pool Device Rch.

Section I2o.
Context `{Platform}.

Definition MFA_MASK : Z := 0x00ffffff.

(** ** Building messages *)
Definition build_hrd_message (file : File) (pa start length stride outbound cflags : Z)
    : MW Message :=
  let ty := if (outbound =? 1) || (outbound =? -1)
            then MAKE_MT_COMMAND (mtc_value
                   (if 0 <? outbound then MTC_HOST_REQUEST_DATA_ACQBOUND
                    else MTC_HOST_REQUEST_DATA_HOSTBOUND))
            else u32 outbound in
  let hrd := mkHrdr (u32 pa) (u32 start) (u32 length)
                    (u16 (Z.lor (CHAN file) (u16 cflags))) (u16 stride) in
  path_upd (PD file) (fun p =>
    p <| scratch := mkMessage (msg_id (scratch p)) (2 * HRDR_SZ) ty hrd zero_hrdr |>
      <| last_direction_hack := outbound |>) >>
  let* p := path_ref (PD file) in
  ret (scratch p).

Definition build_outgoing_raw_message (file : File) (pa start_byte nbytes cflags : Z) : MW Message :=
  build_hrd_message file pa (u32 start_byte / 2) (u32 nbytes / 2) 1 LDH_OUTBOUND cflags.

Definition build_incoming_raw_message (file : File) (pa start_byte nbytes cflags : Z) : MW Message :=
  build_hrd_message file pa (u32 start_byte / 2) (u32 nbytes / 2) 1 LDH_INBOUND cflags.

Definition buildRch (r : nat) (handler : Handler) (path : nat) (kb : Kbuf) (flags : Z) : MW unit :=
  let* _ := path_ref path in
  let* w := get_world in
  rch_upd r (fun x =>
    x <| rhandler := handler |> <| rpath := Some path |> <| rdevice := Some (idx (dev w)) |>
      <| command_id := MAKE_ID_DTACQ (i2o_last_id_out (m_dpd (dev w)) + 1) |>
      <| rchReturn := (rchReturn x) <| valid := 0 |> <| nbytes := 0 |> <| kbuf := kb |>
                                    <| rflags := flags |> |>).

(** The frame at [mfa], as the driver addresses it. *)
Definition frame_va (w : World) (mfa : Z) : Z := buf_va (dma_buf (dev w)) + mfa.

(** [memcpy] of the message; the frame is written in the byte order of the bus. *)
Definition memcpy_message (pdst : Z) (m : Message) : MW unit :=
  let bytes := firstn (Z.to_nat (MESSAGE_ACTUAL_LEN m)) (message_bytes m) in
  modify (fun w => w <| mem := mem_write (mem w) pdst bytes |>
                     <| iolog := iolog w ++ [IoMem pdst bytes] |>).

Definition acq200_sendI2O_kbuf (path : nat) (message : Message) : MW Z :=
  let* _ := path_ref path in
  let* mfa := readl (CSR ACQ200_IQP) in
  if mfa =? PCI_I2O_INVALID_MFA then ret (- EACQ32_NO_INCOMING_I2O)
  else
    let mfa := Z.land mfa MFA_MASK in
    modify (upd_dpd (fun d => d <| i2o_last_id_out := s16 (i2o_last_id_out d + 1) |>)) >>
    let* w := get_world in
    let message := mkMessage (u16 (MAKE_ID_DTACQ (i2o_last_id_out (m_dpd (dev w)))))
                     (msg_length message) (msg_type message) (hrdr0 message) (hrdr1 message) in
    path_upd path (fun p => p <| scratch := message |>) >>
    memcpy_message (frame_va w mfa) message >>
    writel mfa (CSR ACQ200_IQP) >>
    modify (upd_dpd (fun d => d <| i2o_packets_outgoing := s32 (i2o_packets_outgoing d + 1) |>)) >>
    ret 0.

(** ** Recycling and the handler functions *)
Definition i2o_recycleRch (self : nat) : MW unit :=
  let* x := rch_ref self in
  when (match rpath x with Some _ => true | None => false end) (rchRemove self) >>
  let* x := rch_ref self in
  let rr := rchReturn x in
  when (negb (bool_decide (kbuf rr = KNull)) && istrue (Z.land (rflags rr) RCH_KB_POOL))
    (let* _ := deref NullDeref (rdevice x) in acq200_pool_free_mapping (kbuf rr)) >>
  let* _ := deref NullDeref (rdevice x) in
  acq200_pool_free_rch self.

Definition i2o_recycleRchWrapper (self : nat) (unused : Message) : MW unit := i2o_recycleRch self.

(** [int nsamples = response->payload.hrdr[0].nsamples]. *)
Definition i2o_handleReadMessageFile (self : nat) (response : Message) : MW unit :=
  let nsamples := s32 (hrd_nsamples (hrdr0 response)) in
  let* path := rchSetSamplesAndGetPath self (hrd_start (hrdr0 response)) nsamples in
  match path with
  | Some p => wake_path p
  | None => i2o_recycleRch self
  end.

Definition i2o_handleLastMessage (self : nat) (response : Message) : MW unit :=
  rch_upd self (fun x => x <| rchReturn := (rchReturn x) <| valid := 1 |> |>) >>
  let* x := rch_ref self in
  let* p := deref NullDeref (rpath x) in
  wake_path p >>
  i2o_recycleRch self.

(** [rch->handler(rch, message)] *)
Definition call_handler (h : Handler) (r : nat) (m : Message) : MW unit :=
  match h with
  | HNone => crash NullDeref
  | i2o_handleReadMessageFile_fn => i2o_handleReadMessageFile r m
  | i2o_recycleRchWrapper_fn => i2o_recycleRchWrapper r m
  | i2o_handleLastMessage_fn => i2o_handleLastMessage r m
  end.

(** ** Frames back to the card *)
Definition acq200_dev_i2o_return_mfa (mfa : Z) : MW unit := writel mfa (CSR ACQ200_OQP).

Definition acq200_dev_i2o_mfa2va (w : World) (mfa : Z) : Z :=
  frame_va w (Z.land mfa ACQ200_PCIWINMSK).

Definition i2o_return_message (mfa : Z) : MW Z :=
  acq200_dev_i2o_return_mfa mfa >>
  modify (upd_dpd (fun d => d <| i2o_packets_returned := s32 (i2o_packets_returned d + 1) |>)) >>
  ret 0.

Definition count_discarded : MW unit :=
  modify (upd_dpd (fun d => d <| i2o_packets_discarded := s32 (i2o_packets_discarded d + 1) |>)).

(** ** The bottom half *)

(** [list_for_each_entry] up to the first handler with the identifier. *)
Fixpoint find_rch (id : Z) (l : list nat) : MW (option nat) :=
  match l with
  | [] => ret None
  | r :: l =>
      let* x := rch_ref r in
      if command_id x =? id then ret (Some r) else find_rch id l
  end.

Definition acq200_processCommandMessageReturn (message : Message) : MW unit :=
  let* l := gets (fun w => rch_list (m_dpd (dev w))) in
  let* found := find_rch (msg_id message) l in
  match found with
  | Some r =>
      let* x := rch_ref r in
      if decide (rhandler x = HNone) then i2o_recycleRch r >> count_discarded
      else call_handler (rhandler x) r message
  | None => ret tt
  end.

Definition stream_get : MW Z := fun w =>
  let (mfa, sb) := streamGet (streambuf (dev w)) in
  Done mfa (upd_dev (fun d => d <| streambuf := sb |>) w).

Definition stream_put (mfa : Z) : MW Z := fun w =>
  let (rc, sb) := streamPut mfa (streambuf (dev w)) in
  Done rc (upd_dev (fun d => d <| streambuf := sb |>) w).

Fixpoint streaming_loop (fuel : nat) : MW unit :=
  match fuel with
  | O => nofuel
  | S fuel =>
      let* mfa := stream_get in
      if mfa =? STREAM_MFA_INVALID then ret tt
      else
        let* w := get_world in
        let message := message_at (mem w) (acq200_dev_i2o_mfa2va w mfa) in
        if acq200_debug (params w) =? 7 then i2o_return_message mfa >> streaming_loop fuel
        else if MT_ID (msg_type message) =? MT_COMMAND_PACKET then
          acq200_processCommandMessageReturn message >>
          i2o_return_message mfa >> streaming_loop fuel
        else if istrue (aux_task_waiting (m_dpd (dev w))) then
          modify (upd_dpd (fun d => d <| aux_mfa := mfa |> <| aux_task_waiting := 0 |>)) >>
          wake_aux
        else
          count_discarded >> i2o_return_message mfa >> streaming_loop fuel
  end.

Definition acq200_streaming_isr_bh : MW unit :=
  let* fuel := gets (fun w => S (length (buffers (streambuf (dev w))))) in
  streaming_loop fuel.

Definition acq200_consume_i2o (mfa : Z) : MW unit :=
  modify (upd_dpd (fun d => d <| i2o_packets_incoming := s32 (i2o_packets_incoming d + 1) |>)) >>
  let* w := get_world in
  if acq200_debug (params w) =? 8 then i2o_return_message mfa >> ret tt
  else
    let* rc := stream_put mfa in
    if rc <? 0 then i2o_return_message mfa >> count_discarded
    else
      modify (upd_dpd (fun d => d <| i2o_last_in := mfa |> <| tasklet_scheduled := true |>)).
End I2o.
