(* ===== verification/Isr.v ===== *)
(** * acq200.c: the interrupt service routine

    The interrupt handler reads the outbound interrupt status register and serves one source: a posted
    message, which it takes off the outbound queue, or a doorbell, which answers a mailbox request. *)

From S2P Require Import Prelude BusProt StreamBuf Pool Device Rch I2o.

Section Isr.
Context `{Platform}.

Definition IRQ_NONE : Z := 0.
Definition IRQ_HANDLED : Z := 1.

Definition set_bad_mfa_count' (n : Z) : MW unit :=
  modify (upd_dpd (fun d => d <| bad_mfa_count := n |>)).

(** Thread level: the backstop's poll. *)
Definition acq200_handle_incoming_message : MW Z :=
  let* mfa := readl (CSR ACQ200_OQP) in
  if (mfa =? 0xffffffff) || (mfa =? 0) then ret 0
  else set_bad_mfa_count' 0 >> acq200_consume_i2o mfa >> ret 1.

(** Interrupt level. *)
Definition acq200_incoming_message_isr : MW Z :=
  let* mfa := readl (CSR ACQ200_OQP) in
  if (mfa =? 0xffffffff) || (mfa =? 0) then
    let* w := get_world in
    let count := u32 (bad_mfa_count (m_dpd (dev w)) + 1) in
    set_bad_mfa_count' count >>
    when (BAD_MFA_THRESHOLD <? count)
      (let* mask := readl (CSR ACQ200_OIMR) in
       writel (Z.lor mask ACQ200_OISR_OPQI) (CSR ACQ200_OIMR)) >>
    ret IRQ_NONE
  else set_bad_mfa_count' 0 >> acq200_consume_i2o mfa >> ret IRQ_HANDLED.

Definition acq200_doorbell_isr (doorbell : Z) : MW Z :=
  modify (upd_mbox (fun m => m <| response_received := 1 |>)) >>
  wake_mbox >>
  ret IRQ_HANDLED.

Definition IRQ_IGNORE : Z := Z.lor ACQ200_OISR_OM_0 ACQ200_OISR_OM_1.

Definition set_bad_report' (f : Z -> Z) : MW unit := modify (upd_dev (setf bad_report f)).
Definition count_interrupt (i : Z) : MW unit :=
  modify (upd_dev (setf interrupt_count (fun '(a, b, c) =>
    if i =? 0 then (s32 (a + 1), b, c)
    else if i =? 1 then (a, s32 (b + 1), c)
    else (a, b, s32 (c + 1))))).

Definition acq200_isr : MW Z :=
  let* status := readl (CSR ACQ200_OISR) in
  if Z.land status (u32 (Z.lnot IRQ_IGNORE)) =? 0 then
    when (negb (Z.land status IRQ_IGNORE =? 0)) (writel status (CSR IRQ_IGNORE)) >>
    ret IRQ_NONE
  else if istrue (Z.land status ACQ200_OISR_OPQI) then
    set_bad_report' (fun _ => 0) >> count_interrupt 0 >>
    acq200_incoming_message_isr
  else if istrue (Z.land status ACQ200_OISR_ODI) then
    let* doorbell := readl (CSR ACQ200_ODR) in
    writel doorbell (CSR ACQ200_ODR) >>
    set_bad_report' (fun _ => 0) >> count_interrupt 1 >>
    acq200_doorbell_isr doorbell
  else
    writel status (CSR ACQ200_OISR) >>
    set_bad_report' (fun b => s32 (b + 1)) >> count_interrupt 2 >>
    ret IRQ_HANDLED.
End Isr.

(** ** What the interrupt handler does *)
Section Interrupts.
Context `{Platform}.

(** An interrupt that only has causes the driver ignores is left to the other drivers of the line;
    to clear the causes the driver means to write the status back, but writes it to register word 0,
    where the offset that is given instead of the register's leads. *)
Theorem isr_ignored_writes_word0 w :
  let status := u32 (card_reply (iolog w) (CSR ACQ200_OISR)) in
  Z.land status (u32 (Z.lnot IRQ_IGNORE)) = 0 ->
  acq200_isr w = Done IRQ_NONE (w <| iolog := iolog w ++
    IoRd (CSR ACQ200_OISR) status :: (if status =? 0 then [] else [IoWr 0 status]) |>).
Proof.
  intros status Hs. unfold acq200_isr. erewrite bind_done by reflexivity. fold status.
  rewrite Hs. change (0 =? 0) with true. cbv iota.
  assert (Z.land status IRQ_IGNORE = status) as ->.
  { pose proof (u32_range (card_reply (iolog w) (CSR ACQ200_OISR))) as Hr. fold status in Hr.
    apply Z.bits_inj. intros i. apply (f_equal (fun z => Z.testbit z i)) in Hs.
    rewrite Z.land_spec in *. rewrite Z.bits_0 in Hs.
    destruct (Z.lt_ge_cases i 0); [by rewrite !Z.testbit_neg_r|].
    destruct (Z.lt_ge_cases i 32) as [Hi|Hi]; [|by rewrite (testbit_above status 32)].
    destruct (Z.testbit status i); [|done]. cbn [andb] in *.
    assert (Z.testbit (u32 (Z.lnot IRQ_IGNORE)) i = negb (Z.testbit IRQ_IGNORE i)) as E.
    { unfold u32, wrap. rewrite Z.mod_pow2_bits_low by lia. by apply Z.lnot_spec. }
    rewrite E in Hs. by destruct (Z.testbit IRQ_IGNORE i). }
  destruct (Z.eqb_spec status 0) as [->|]; cbn [negb]; unfold when.
  - reflexivity.
  - erewrite bind_done by reflexivity. unfold ret. f_equal. cbn.
    rewrite <- app_assoc. cbn. rewrite u32_id by apply u32_range. done.
Qed.

(** A doorbell interrupt is acknowledged with the bits that were set, and wakes who waits for a
    mailbox reply. *)
Theorem isr_doorbell w :
  let status := u32 (card_reply (iolog w) (CSR ACQ200_OISR)) in
  Z.testbit status 3 = false -> Z.testbit status 2 = true ->
  exists d w', acq200_isr w = Done IRQ_HANDLED w' /\
    iolog w' = iolog w ++ [IoRd (CSR ACQ200_OISR) status; IoRd (CSR ACQ200_ODR) d;
                           IoWr (CSR ACQ200_ODR) d] /\
    RESPONSE_RECEIVED w' = true /\ mbox_waitq (mbox_sync (dev w')) = true.
Proof.
  intros status H3 H2. unfold acq200_isr. erewrite bind_done by reflexivity. fold status.
  destruct (Z.eqb_spec (Z.land status (u32 (Z.lnot IRQ_IGNORE))) 0) as [E|_].
  { apply (f_equal (fun z => Z.testbit z 2)) in E. by rewrite Z.land_spec, H2 in E. }
  change ACQ200_OISR_OPQI with (2 ^ 3). change ACQ200_OISR_ODI with (2 ^ 2).
  rewrite !land_pow2, H3, H2 by lia. erewrite bind_done by reflexivity.
  eexists _, _. split; [reflexivity|]. split; [|done]. cbn.
  rewrite <- !app_assoc. cbn. by rewrite (u32_id (u32 _)) by apply u32_range.
Qed.

(** ** A card that keeps interrupting without a frame *)
Fixpoint isr_times (n : nat) : MW unit :=
  match n with
  | O => ret tt
  | S n => isr_times n >> let* _ := acq200_isr in ret tt
  end.

Section Storm.
Context (status mask : Z) (Hs : 0 <= status < 2 ^ 32) (Hb : Z.testbit status 3 = true)
  (Hm : 0 <= mask < 2 ^ 32).
Context (HS : forall log, card_reply log (CSR ACQ200_OISR) = status)
  (HQ : forall log, card_reply log (CSR ACQ200_OQP) = PCI_I2O_INVALID_MFA)
  (HM : forall log, card_reply log (CSR ACQ200_OIMR) = mask).

Definition empty_reads : list Io :=
  [IoRd (CSR ACQ200_OISR) status; IoRd (CSR ACQ200_OQP) PCI_I2O_INVALID_MFA].
Definition masking : list Io :=
  [IoRd (CSR ACQ200_OIMR) mask; IoWr (CSR ACQ200_OIMR) (Z.lor mask ACQ200_OISR_OPQI)].

Lemma isr_empty w : 0 <= bad_mfa_count (m_dpd (dev w)) < 2 ^ 31 ->
  exists w', acq200_isr w = Done IRQ_NONE w' /\
    bad_mfa_count (m_dpd (dev w')) = bad_mfa_count (m_dpd (dev w)) + 1 /\
    iolog w' = iolog w ++ empty_reads ++
      (if BAD_MFA_THRESHOLD <? bad_mfa_count (m_dpd (dev w)) + 1 then masking else []).
Proof.
  intros Hc. unfold acq200_isr. erewrite bind_done by reflexivity. rewrite HS, u32_id by done.
  destruct (Z.eqb_spec (Z.land status (u32 (Z.lnot IRQ_IGNORE))) 0) as [E|_].
  { apply (f_equal (fun z => Z.testbit z 3)) in E. by rewrite Z.land_spec, Hb in E. }
  replace (istrue (Z.land status ACQ200_OISR_OPQI)) with true
    by (change ACQ200_OISR_OPQI with (2 ^ 3); by rewrite land_pow2, Hb by lia).
  erewrite bind_done by reflexivity. erewrite bind_done by reflexivity.
  unfold acq200_incoming_message_isr. erewrite bind_done by reflexivity.
  rewrite HQ. change (u32 PCI_I2O_INVALID_MFA) with PCI_I2O_INVALID_MFA.
  change ((PCI_I2O_INVALID_MFA =? 0xffffffff) || (PCI_I2O_INVALID_MFA =? 0)) with true. cbv iota.
  erewrite bind_done by reflexivity. cbv zeta. erewrite bind_done by reflexivity.
  match goal with |- context [u32 (?c + 1)] => change c with (bad_mfa_count (m_dpd (dev w))) end.
  rewrite (u32_id (_ + 1)) by lia.
  destruct (BAD_MFA_THRESHOLD <? _); unfold when.
  - assert (0 <= Z.lor mask ACQ200_OISR_OPQI < 2 ^ 32) by (apply lor_range; [done|unfold ACQ200_OISR_OPQI; lia]).
    erewrite bind_done; [eexists; split; [reflexivity|]|].
    2:{ erewrite bind_done by reflexivity. rewrite HM, (u32_id mask) by done. reflexivity. }
    split; [reflexivity|]. cbn -[CSR]. rewrite <- !app_assoc. cbn -[CSR].
    by rewrite (u32_id (Z.lor mask _)).
  - erewrite bind_done by reflexivity. eexists. split; [reflexivity|].
    split; [reflexivity|]. cbn. by rewrite <- !app_assoc.
Qed.

Lemma isr_storm w n : bad_mfa_count (m_dpd (dev w)) = 0 -> (n <= 101)%nat ->
  exists w', isr_times n w = Done tt w' /\ bad_mfa_count (m_dpd (dev w')) = Z.of_nat n /\
    iolog w' = iolog w ++ concat (replicate n empty_reads) ++
      (if decide (n = 101%nat) then masking else []).
Proof.
  intros H0. induction n as [|n IH]; intros Hn.
  { exists w. split; [done|]. split; [done|]. cbn. by rewrite app_nil_r. }
  destruct IH as (w1 & E1 & Hc & Hl); [lia|]. rewrite decide_False, app_nil_r in Hl by lia.
  destruct (isr_empty w1) as (w2 & E2 & Hc2 & Hl2); [lia|].
  exists w2. cbn [isr_times]. erewrite bind_done by exact E1. erewrite bind_done by exact E2.
  split; [done|]. split; [lia|]. rewrite Hl2, Hl, Hc. rewrite replicate_S_end, concat_app. cbn [concat].
  rewrite app_nil_r, <- !app_assoc. do 3 f_equal. unfold BAD_MFA_THRESHOLD.
  destruct (Z.ltb_spec 100 (Z.of_nat n + 1)); case_decide; lia || done.
Qed.

(** C37: a card that keeps raising the message interrupt with no frame behind it is only read, a
    hundred times; the next interrupt masks the cause, and so ends the storm. *)
Theorem bad_mfa_masks_interrupt w n : bad_mfa_count (m_dpd (dev w)) = 0 -> (n <= 101)%nat ->
  exists w', isr_times n w = Done tt w' /\
    iolog w' = iolog w ++ concat (replicate n empty_reads) ++
      (if decide (n = 101%nat) then masking else []).
Proof. intros H0 Hn. destruct (isr_storm w n H0 Hn) as (w' & ? & _ & ?). by exists w'. Qed.
End Storm.
End Interrupts.
