(* ===== verification/Kernel.v ===== *)
(** * The kernel services the driver sleeps in

    While a process sleeps in the kernel, other contexts run: [sched] lists what they will do, as
    [Event]s, and a sleep consumes events until it ends.  Everything between two sleeps is atomic.
    The services are those of Linux 2.6 (linux/wait.h, kernel/sched.c, linux/semaphore.h): a wake-up
    reaches only the processes that are on the queue; a woken process checks its condition before
    it checks for signals; when a timeout expires the condition is not checked again. *)

From S2P Require Import Prelude BusProt StreamBuf Pool Device Rch I2o Isr.

Section Kernel.
Context `{Platform}.

(** ** Events *)
Definition dma_write (m : gmap Z Z) (d : Z * list Z) : gmap Z Z := mem_write m d.1 d.2.

Definition sem_get (s : Sem) (w : World) : Z :=
  match s with
  | mbox_sem => mbox_mutex (mbox_sync (dev w))
  | AB_busy_sem => buffer_AB_busy_mutex (dev w)
  | clients_sem => clients_mutex (dev w)
  end.

Definition sem_upd (s : Sem) (f : Z -> Z) : World -> World :=
  match s with
  | mbox_sem => upd_mbox (setf mbox_mutex f)
  | AB_busy_sem => upd_dev (setf buffer_AB_busy_mutex f)
  | clients_sem => upd_dev (setf clients_mutex f)
  end.

Definition run_tasklet : MW unit :=
  let* w := get_world in
  when (tasklet_scheduled (m_dpd (dev w)))
    (modify (upd_dpd (fun d => d <| tasklet_scheduled := false |>)) >>
     acq200_streaming_isr_bh).

Definition run_event (e : Event) : MW unit :=
  match e with
  | EvIrq => let* _ := acq200_isr in ret tt
  | EvTasklet => run_tasklet
  | EvBackstop =>
      let* w := get_world in
      when (bool_decide (i2o_backstop (dev w) = task_runs)) (let* _ := acq200_handle_incoming_message in ret tt)
  | EvCard n dma =>
      modify (fun w => w <| iolog := iolog w ++ [IoAct n] |>
                         <| mem := fold_left dma_write dma (mem w) |>)
  | EvUp s => modify (sem_upd s (fun n => n + 1))
  | EvSignal => modify (fun w => w <| sigpending := true |>)
  | EvTick => modify (fun w => w <| jiffies := u32 (jiffies w + 1) |>)
  end.

Definition is_tick (e : Event) : bool := match e with EvTick => true | _ => false end.

Definition set_sched' (evs : list Event) : MW unit := modify (fun w => w <| sched := evs |>).

(** ** Wait queues: whether a wake-up was sent, and going on the queue *)
Record WaitQ := mkWaitQ { woken : World -> bool; enqueue : MW unit }.

Definition path_waitq (p : nat) : WaitQ :=
  mkWaitQ (fun w => match paths w !! p with Some x => return_waitq x | None => false end)
          (path_upd p (fun x => x <| return_waitq := false |>)).
Definition mbox_wq : WaitQ :=
  mkWaitQ (fun w => mbox_waitq (mbox_sync (dev w)))
          (modify (upd_mbox (fun m => m <| mbox_waitq := false |>))).
Definition pool_sleepq : WaitQ :=
  mkWaitQ (fun w => sleepq (dev w)) (modify (upd_dev (fun d => d <| sleepq := false |>))).
(** A queue on the stack that nobody else knows. *)
Definition private_wq : WaitQ := mkWaitQ (fun _ => false) (ret tt).

(** ** [wait_event_interruptible(wq, cond)] *)
Section Wait.
Context (q : WaitQ) (cond : World -> bool).

Fixpoint wait_from (evs : list Event) : MW Z :=
  match evs with
  | [] => block
  | e :: evs =>
      run_event e >> set_sched' evs >>
      let* w := get_world in
      if woken q w || sigpending w then
        if cond w then ret 0
        else if sigpending w then ret (- ERESTARTSYS)
        else enqueue q >> wait_from evs
      else wait_from evs
  end.

Definition wait_event_interruptible : MW Z :=
  let* w := get_world in
  if cond w then ret 0
  else if sigpending w then ret (- ERESTARTSYS)
  else enqueue q >> wait_from (sched w).

(** [wait_event_interruptible_timeout(wq, cond, timeout)]: [left] ticks remain. *)
Fixpoint wait_timeout_from (evs : list Event) (left : Z) : MW Z :=
  if left <=? 0 then ret 0
  else
    match evs with
    | [] => ret 0
    | e :: evs =>
        let left := if is_tick e then left - 1 else left in
        run_event e >> set_sched' evs >>
        let* w := get_world in
        if left <=? 0 then ret 0
        else if woken q w || sigpending w then
          if cond w then ret left
          else if sigpending w then ret (- ERESTARTSYS)
          else enqueue q >> wait_timeout_from evs left
        else wait_timeout_from evs left
    end.

Definition wait_event_interruptible_timeout (timeout : Z) : MW Z :=
  let* w := get_world in
  if cond w then ret timeout
  else if sigpending w then ret (- ERESTARTSYS)
  else enqueue q >> wait_timeout_from (sched w) timeout.
End Wait.

(** ** [interruptible_sleep_on_timeout(q, timeout)]: the ticks left

    With a signal pending it returns at once, without waiting: the caller that tries again spins,
    and in the meantime other contexts run; when none is left it spins for ever. *)
Fixpoint sleep_from (q : WaitQ) (evs : list Event) (left : Z) : MW Z :=
  if left <=? 0 then ret 0
  else
    match evs with
    | [] => ret 0
    | e :: evs =>
        let left := if is_tick e then left - 1 else left in
        run_event e >> set_sched' evs >>
        let* w := get_world in
        if left <=? 0 then ret 0
        else if woken q w || sigpending w then ret left
        else sleep_from q evs left
    end.

Definition interruptible_sleep_on_timeout (q : WaitQ) (timeout : Z) : MW Z :=
  let* w := get_world in
  if sigpending w then
    match sched w with
    | [] => ret timeout
    | e :: evs => run_event e >> set_sched' evs >> ret timeout
    end
  else enqueue q >> sleep_from q (sched w) timeout.

(** ** Semaphores *)
Fixpoint down_from (s : Sem) (evs : list Event) : MW Z :=
  match evs with
  | [] => block
  | e :: evs =>
      run_event e >> set_sched' evs >>
      let* w := get_world in
      if 0 <? sem_get s w then modify (sem_upd s (fun n => n - 1)) >> ret 0
      else if sigpending w then ret (- EINTR)
      else down_from s evs
  end.

Definition down_interruptible (s : Sem) : MW Z :=
  let* w := get_world in
  if 0 <? sem_get s w then modify (sem_upd s (fun n => n - 1)) >> ret 0
  else if sigpending w then ret (- EINTR)
  else down_from s (sched w).

Definition up (s : Sem) : MW unit := modify (sem_upd s (fun n => n + 1)).

(** ** The pools sleep on their wait queue, 1000 ticks at most

    The allocator tries again after every sleep that did not time out: with a signal pending, and
    nobody left to free an entry, it spins for ever. *)
Definition pool_sleep : MW Z :=
  let* w := get_world in
  if sigpending w && bool_decide (sched w = []) then block
  else interruptible_sleep_on_timeout pool_sleepq 1000.

#[export] Instance mappings_sleeper : PoolSleeper World Kbuf := {
  host_sleep := pool_sleep;
  host_naps w := length (sched w)
}.
#[export] Instance handlers_sleeper : PoolSleeper World nat := {
  host_sleep := pool_sleep;
  host_naps w := length (sched w)
}.

Definition acq200_pool_alloc_mapping (direction : Z) : MW (option Kbuf) := _alloc.
Definition acq200_pool_alloc_rch : MW (option nat) := _alloc.
End Kernel.
