(* ===== verification/Outer.v ===== *)
(** * What interrupt context leaves alone

    The interrupt handler, the bottom half and the backstop poll touch nothing that belongs to the
    processes: the time, the user's memory, pending signals, the semaphores, the interrupt lines.
    [keeps m] says so of a computation.  [within R m] is the general form, for a relation [R] of states before
    and after; it is closed under composition, and the tactic [within] takes a computation apart. *)

From S2P Require Import Prelude BusProt StreamBuf Pool Device Rch I2o Isr Kernel.

(** What identifies the card and its device node. *)
Definition card (w : World) := (idx (dev w), major (dev w), pci_irq (dev w)).

Definition outer (w : World) :=
  (jiffies w, sched w, umem w, sigpending w, irqops w,
   (mbox_mutex (mbox_sync (dev w)), buffer_AB_busy_mutex (dev w), clients_mutex (dev w)),
   using_interrupt (mbox_sync (dev w)), (clients_count (dev w), i2o_backstop (dev w)), card w).

(** Whether a mailbox is written. *)
Definition box_reg (reg : Z) : bool := (MBOX 0 <=? reg) && (reg <=? MBOX 3).
Definition writes_box (io : Io) : bool := match io with IoWr reg _ => box_reg reg | _ => false end.

(** The bus history grows, and no mailbox is written. *)
Definition box_quiet (w w' : World) : Prop :=
  exists l, iolog w' = iolog w ++ l /\ Forall (fun io => writes_box io = false) l.

#[export] Instance box_quiet_preorder : PreOrder box_quiet.
Proof.
  split.
  - intros w. exists []. by rewrite app_nil_r.
  - intros w1 w2 w3 (l & El & Hl) (k & Ek & Hk). exists (l ++ k). rewrite app_assoc, <- El, Ek. split; [done|].
    by apply Forall_app.
Qed.

Lemma box_quiet_same w w' : iolog w' = iolog w -> box_quiet w w'.
Proof. intros E. exists []. by rewrite app_nil_r. Qed.

Lemma box_quiet_one w w' io : iolog w' = iolog w ++ [io] -> writes_box io = false -> box_quiet w w'.
Proof. intros E H. exists [io]. by split; [|constructor]. Qed.

Definition quiet_step (w w' : World) : Prop := outer w' = outer w /\ box_quiet w w'.

#[export] Instance quiet_step_preorder : PreOrder quiet_step.
Proof. split; [by split|]. intros w1 w2 w3 [] []. split; [congruence|by etransitivity]. Qed.

(** ** Computations whose effect is within a relation *)
Definition within (R : World -> World -> Prop) {A} (m : MW A) : Prop :=
  forall w, match m w with Done _ w' => R w w' | _ => True end.

Section Within.
Context (R : World -> World -> Prop) `{!PreOrder R}.

Lemma within_bind {A B} (m : MW A) (k : A -> MW B) :
  within R m -> (forall a, within R (k a)) -> within R (bind m k).
Proof.
  intros Hm Hk w. unfold bind. specialize (Hm w). destruct (m w) as [a w'| | |]; try done.
  specialize (Hk a w'). destruct (k a w') as [b w''| | |]; try done. by etransitivity.
Qed.

Lemma within_modify f : (forall w, R w (f w)) -> within R (modify f).
Proof. intros Hf w. apply Hf. Qed.

Lemma within_ret {A} (a : A) : within R (ret a). Proof. intros w. cbn [ret]. reflexivity. Qed.
Lemma within_gets {A} (f : World -> A) : within R (gets f). Proof. intros w. cbn [gets]. reflexivity. Qed.
Lemma within_world : within R get_world. Proof. intros w. cbn [get_world]. reflexivity. Qed.
Lemma within_crash {A} f : within R (@crash World A f). Proof. done. Qed.
Lemma within_nofuel {A} : within R (@nofuel World A). Proof. done. Qed.
Lemma within_block {A} : within R (@block World A). Proof. done. Qed.
Lemma within_deref {A} f (o : option A) : within R (deref f o). Proof. destruct o; [apply within_ret|done]. Qed.
Lemma within_when b (m : MW unit) : within R m -> within R (when b m).
Proof. destruct b; [done|]. intros _. apply within_ret. Qed.
Lemma within_if {A} (b : bool) (m n : MW A) : within R m -> within R n -> within R (if b then m else n).
Proof. by destruct b. Qed.
End Within.

Lemma within_mono (R R' : World -> World -> Prop) {A} (m : MW A) : (forall w w', R w w' -> R' w w') -> within R m -> within R' m.
Proof. intros HR Hm w. specialize (Hm w). destruct (m w); [by apply HR|done..]. Qed.

Create HintDb c_keeps.
#[export] Hint Resolve within_ret within_gets within_world within_crash within_nofuel within_block within_deref : c_keeps.

(** Takes a computation apart; [step] does the updates. *)
Ltac within step := repeat
  first [ solve [auto with c_keeps typeclass_instances]
        | apply within_bind; [typeclasses eauto| |intros ?]
        | apply within_when; [typeclasses eauto|] | apply within_if
        | step
        | match goal with |- within _ (match ?x with _ => _ end) => destruct x end ].

Notation keeps := (within quiet_step).

Lemma keeps_modify f : (forall w, outer (f w) = outer w /\ iolog (f w) = iolog w) -> keeps (modify f).
Proof. intros Hf. apply within_modify. intros w. destruct (Hf w) as [? Hl]. split; [done|]. by apply box_quiet_same. Qed.

Ltac keeps := within ltac:(apply keeps_modify; intros ?; split; reflexivity).

Lemma keeps_rch_upd r f : keeps (rch_upd r f).
Proof. unfold rch_upd, rch_ref. keeps. Qed.
Lemma keeps_rch_ref r : keeps (rch_ref r).
Proof. unfold rch_ref. keeps. Qed.
Lemma keeps_path_upd p f : keeps (path_upd p f).
Proof. unfold path_upd, path_ref. keeps. Qed.
#[export] Hint Resolve keeps_rch_upd keeps_rch_ref keeps_path_upd : c_keeps.

Lemma keeps_list_del r : keeps (list_del r).
Proof. unfold list_del, upd_rch_list, set_link. keeps. Qed.

Lemma keeps_free_mapping k : keeps (acq200_pool_free_mapping k).
Proof. unfold acq200_pool_free_mapping, _free. cbn [host_set_pool host_wake mappings_host]. keeps. Qed.
Lemma keeps_free_rch r : keeps (acq200_pool_free_rch r).
Proof. unfold acq200_pool_free_rch, _free. cbn [host_set_pool host_wake handlers_host]. keeps. Qed.
#[export] Hint Resolve keeps_list_del keeps_free_mapping keeps_free_rch : c_keeps.

Lemma keeps_recycle r : keeps (i2o_recycleRch r).
Proof. unfold i2o_recycleRch, rchRemove. keeps. Qed.
#[export] Hint Resolve keeps_recycle : c_keeps.

Section Keeps.
Context `{Platform}.

Lemma keeps_readl reg : keeps (readl reg).
Proof. intros w. split; [done|]. by eapply box_quiet_one. Qed.
Lemma keeps_writel v reg : box_reg reg = false -> keeps (writel v reg).
Proof. intros Hr w. split; [done|]. by eapply box_quiet_one. Qed.
Lemma keeps_stream_get : keeps stream_get.
Proof. intros w. unfold stream_get. destruct (streamGet _). split; [done|by apply box_quiet_same]. Qed.
Lemma keeps_stream_put mfa : keeps (stream_put mfa).
Proof. intros w. unfold stream_put. destruct (streamPut _ _). split; [done|by apply box_quiet_same]. Qed.
#[local] Hint Resolve keeps_readl keeps_stream_get keeps_stream_put : c_keeps.
#[local] Hint Extern 1 (keeps (writel _ _)) => apply keeps_writel; reflexivity : c_keeps.

Lemma keeps_handler h r m : keeps (call_handler h r m).
Proof.
  destruct h; cbn [call_handler];
    unfold i2o_handleReadMessageFile, rchSetSamplesAndGetPath, i2o_recycleRchWrapper,
      i2o_handleLastMessage, wake_path; keeps.
Qed.

Lemma keeps_find_rch id l : keeps (find_rch id l).
Proof. induction l; cbn [find_rch]; keeps. Qed.
#[local] Hint Resolve keeps_handler keeps_find_rch : c_keeps.

Lemma keeps_process m : keeps (acq200_processCommandMessageReturn m).
Proof. unfold acq200_processCommandMessageReturn, count_discarded. keeps. Qed.
Lemma keeps_return_message mfa : keeps (i2o_return_message mfa).
Proof. unfold i2o_return_message, acq200_dev_i2o_return_mfa. keeps. Qed.
#[local] Hint Resolve keeps_process keeps_return_message : c_keeps.

Lemma keeps_streaming_loop fuel : keeps (streaming_loop fuel).
Proof. induction fuel; cbn [streaming_loop]; unfold wake_aux, count_discarded; cbv zeta; keeps. Qed.
#[local] Hint Resolve keeps_streaming_loop : c_keeps.

Lemma keeps_consume mfa : keeps (acq200_consume_i2o mfa).
Proof. unfold acq200_consume_i2o, count_discarded. keeps. Qed.
#[local] Hint Resolve keeps_consume : c_keeps.

Lemma keeps_poll : keeps acq200_handle_incoming_message.
Proof. unfold acq200_handle_incoming_message, set_bad_mfa_count'. keeps. Qed.

Lemma keeps_message_isr : keeps acq200_incoming_message_isr.
Proof. unfold acq200_incoming_message_isr, set_bad_mfa_count'. cbv zeta. keeps. Qed.
#[local] Hint Resolve keeps_poll keeps_message_isr : c_keeps.

Lemma keeps_isr : keeps acq200_isr.
Proof.
  unfold acq200_isr, acq200_doorbell_isr, set_bad_report', count_interrupt, wake_mbox. keeps.
Qed.

Lemma keeps_tasklet : keeps run_tasklet.
Proof. unfold run_tasklet, acq200_streaming_isr_bh. keeps. Qed.
#[local] Hint Resolve keeps_isr keeps_tasklet : c_keeps.

(** Only ticks move the time, only signals make one pending, only another process's [up] changes
    a semaphore. *)
Definition event_outer (e : Event) (w w' : World) : Prop :=
  match e with
  | EvIrq | EvTasklet | EvBackstop | EvCard _ _ => outer w' = outer w
  | EvUp s => outer w' = outer (sem_upd s (fun n => n + 1) w)
  | EvSignal => outer w' = outer (w <| sigpending := true |>)
  | EvTick => outer w' = outer (w <| jiffies := u32 (jiffies w + 1) |>)
  end.

Lemma run_event_quiet e w w' : run_event e w = Done tt w' -> event_outer e w w' /\ box_quiet w w'.
Proof.
  intros E. assert (forall m : MW unit, keeps m -> m w = Done tt w' -> quiet_step w w') as Hk.
  { intros m Hm Em. specialize (Hm w). by rewrite Em in Hm. }
  destruct e; cbn [event_outer run_event] in *;
    try (unfold modify in E; simplify_eq; split; [reflexivity|]).
  - eapply Hk; [|exact E]. keeps.
  - eapply Hk; [|exact E]. keeps.
  - eapply Hk; [|exact E]. keeps.
  - by eapply box_quiet_one.
  - apply box_quiet_same. by destruct s.
  - by apply box_quiet_same.
  - by apply box_quiet_same.
Qed.

Lemma run_event_outer e w w' : run_event e w = Done tt w' ->
  event_outer e w w' /\ iolog w `prefix_of` iolog w'.
Proof. intros [? (l & El & _)]%run_event_quiet. split; [done|]. by exists l. Qed.
End Keeps.
