(* ===== verification/Owner.v ===== *)
(** * Who owns a handler and a mapping

    The invariant of the device, [dev_inv]: a handler on the reply queue is linked exactly once, is
    reserved in its pool, knows its device and a live path, and the pool mapping it holds is reserved
    and held by no other queued handler.  [evolves w w'] says what other contexts may have done to the
    device between two moments: they keep the invariant, they touch no handler and no mapping that
    is not queued, and a handler that left the queue was freed together with its mapping.

    Every interrupt, tasklet run and backstop poll keeps [dev_inv] and never faults, whatever the card
    answers and writes ([events_safe] in Frames.v). *)

From S2P Require Import Prelude BusProt StreamBuf Pool Device Rch I2o Isr Kernel.

Definition queued (w : World) : list nat := rch_list (m_dpd (dev w)).

(** The pool mapping a handler gives back when it is recycled. *)
Definition pool_kbuf (x : ReturnCommandHandler) : option Kbuf :=
  if negb (bool_decide (kbuf (rchReturn x) = KNull)) && istrue (Z.land (rflags (rchReturn x)) RCH_KB_POOL)
  then Some (kbuf (rchReturn x)) else None.

Record queued_ok (w : World) (r : nat) (x : ReturnCommandHandler) : Prop := {
  qo_link : rlink x = LinkIn;
  qo_device : is_Some (rdevice x);
  qo_path : exists p, rpath x = Some p /\ is_Some (paths w !! p);
  qo_reserved : is_reserved (handlers (dev w)) r = true;
  qo_kbuf : forall k, pool_kbuf x = Some k -> is_reserved (mappings (dev w)) k = true
}.

Definition holds (w : World) (r : nat) (k : Kbuf) : Prop :=
  r ∈ queued w /\ exists x, rchs w !! r = Some x /\ pool_kbuf x = Some k.

(** What the interrupt handlers let on the stream buffer. *)
Definition mfa_ok (mfa : Z) : Prop := 0 <= mfa < 2 ^ 32 /\ mfa <> STREAM_MFA_INVALID.

Record dev_inv (w : World) : Prop := {
  di_maps : pool_wf (mappings (dev w));
  di_handlers : pool_wf (handlers (dev w));
  di_items : forall r, r ∈ item <$> entries (handlers (dev w)) -> is_Some (rchs w !! r);
  di_map_items : forall k, k ∈ item <$> entries (mappings (dev w)) ->
    exists i m, k = KPool i /\ maps w !! i = Some m /\ 0 < map_len m < 2 ^ 31;
  di_nodup : NoDup (queued w);
  di_queued : forall r, r ∈ queued w -> exists x, rchs w !! r = Some x /\ queued_ok w r x;
  di_unqueued : forall r x, rchs w !! r = Some x -> r ∉ queued w -> rlink x <> LinkIn;
  di_holder : forall r r' k, holds w r k -> holds w r' k -> r = r';
  di_stream : wf 7 (streambuf (dev w));
  di_mfas : Forall mfa_ok
                   (fq (abs 7 (streambuf (dev w))))
}.

(** A queued handler may have got its reply: the rest of it stays. *)
Definition replied (x x' : ReturnCommandHandler) : Prop :=
  rhandler x' = rhandler x /\ rpath x' = rpath x /\ rdevice x' = rdevice x /\
  command_id x' = command_id x /\ rlink x' = rlink x /\
  kbuf (rchReturn x') = kbuf (rchReturn x) /\ rflags (rchReturn x') = rflags (rchReturn x) /\
  (valid (rchReturn x') = valid (rchReturn x) \/ valid (rchReturn x') = 1 \/ valid (rchReturn x') = -1).

#[export] Instance replied_preorder : PreOrder replied.
Proof.
  split; [intros ?; repeat split; auto|]. intros x y z (?&?&?&?&?&?&?&Hv) (?&?&?&?&?&?&?&Hv').
  repeat split; try congruence. destruct Hv' as [->|?]; auto.
Qed.

(** A path may have been woken. *)
Definition same_path (o o' : option Acq200Path) : Prop :=
  setf return_waitq (fun _ => false) <$> o = setf return_waitq (fun _ => false) <$> o'.

#[export] Instance same_path_equiv : Equivalence same_path.
Proof. split; [done|intros ? ? E; exact (eq_sym E)|intros ? ? ? E F; exact (eq_trans E F)]. Qed.

Record evolves (w w' : World) : Prop := {
  ev_inv : dev_inv w';
  ev_queue : forall r, r ∈ queued w' -> r ∈ queued w;
  ev_unqueued : forall r, r ∉ queued w -> rchs w' !! r = rchs w !! r;
  ev_queued : forall r x, r ∈ queued w' -> rchs w !! r = Some x ->
    exists x', rchs w' !! r = Some x' /\ replied x x';
  ev_left : forall r x, r ∈ queued w -> r ∉ queued w' -> rchs w !! r = Some x ->
    is_reserved (handlers (dev w')) r = false /\
    forall k, pool_kbuf x = Some k -> is_reserved (mappings (dev w')) k = false;
  ev_gone : forall r x, r ∈ queued w -> r ∉ queued w' -> rchs w !! r = Some x ->
    exists x', rchs w' !! r = Some x' /\ rpath x' = None /\ rdevice x' = rdevice x /\ pool_kbuf x' = pool_kbuf x;
  ev_reader : forall r x, r ∈ queued w -> rchs w !! r = Some x ->
    rhandler x = i2o_handleReadMessageFile_fn -> r ∈ queued w';
  ev_handlers : forall r, r ∉ queued w ->
    is_reserved (handlers (dev w')) r = is_reserved (handlers (dev w)) r;
  ev_maps : forall k, (forall r, ~ holds w r k) ->
    is_reserved (mappings (dev w')) k = is_reserved (mappings (dev w)) k;
  ev_items : same_items (handlers (dev w)) (handlers (dev w')) /\
             same_items (mappings (dev w)) (mappings (dev w'));
  ev_cursors : cursor (handlers (dev w')) = cursor (handlers (dev w)) /\
               cursor (mappings (dev w')) = cursor (mappings (dev w));
  ev_paths : forall p, same_path (paths w !! p) (paths w' !! p);
  ev_const : umem w' = umem w /\ maps w' = maps w /\ params w' = params w /\
             dma_buf (dev w') = dma_buf (dev w) /\ AB (dev w') = AB (dev w) /\
             i2o_last_id_out (m_dpd (dev w')) = i2o_last_id_out (m_dpd (dev w))
}.

Lemma replied_kbuf x x' : replied x x' -> pool_kbuf x' = pool_kbuf x.
Proof. intros (_&_&_&_&_&Hk&Hf&_). unfold pool_kbuf. by rewrite Hk, Hf. Qed.

Lemma same_path_is_Some o o' : same_path o o' -> is_Some o -> is_Some o'.
Proof. unfold same_path. destruct o, o'; simpl; intros Hs [? ?]; done. Qed.

Lemma evolves_refl w : dev_inv w -> evolves w w.
Proof.
  intros Hi. constructor; try done.
  intros r x _ Hx. exists x. split; [done|reflexivity].
Qed.

Lemma evolves_holds w w' r k : evolves w w' -> dev_inv w -> holds w' r k -> holds w r k.
Proof.
  intros He Hi [Hq (x' & Hx' & Hk)]. pose proof (ev_queue _ _ He r Hq) as Hqw.
  destruct (di_queued _ Hi r Hqw) as (x & Hx & _).
  destruct (ev_queued _ _ He r x Hq Hx) as (x2 & Hx2 & Hrep). simplify_eq.
  split; [done|]. exists x. split; [done|]. by rewrite <- (replied_kbuf _ _ Hrep).
Qed.

Lemma evolves_trans w1 w2 w3 : dev_inv w1 -> evolves w1 w2 -> evolves w2 w3 -> evolves w1 w3.
Proof.
  intros H1 E12 E23. pose proof (ev_inv _ _ E12) as H2.
  assert (forall r, r ∉ queued w1 -> r ∉ queued w2) as Hnq.
  { intros r Hr Hr2. by apply Hr, E12. }
  constructor.
  - apply E23.
  - intros r Hr. by apply E12, E23.
  - intros r Hr. rewrite (ev_unqueued _ _ E23) by auto. by apply E12.
  - intros r x Hr Hx. destruct (ev_queued _ _ E12 r x (ev_queue _ _ E23 r Hr) Hx) as (x2 & Hx2 & ?).
    destruct (ev_queued _ _ E23 r x2 Hr Hx2) as (x3 & Hx3 & ?). exists x3. split; [done|].
    by transitivity x2.
  - intros r x Hr Hr3 Hx. destruct (decide (r ∈ queued w2)) as [Hq2|Hq2].
    + destruct (ev_queued _ _ E12 r x Hq2 Hx) as (x2 & Hx2 & Hrep).
      destruct (ev_left _ _ E23 r x2 Hq2 Hr3 Hx2) as [? Hk]. split; [done|].
      intros k Hxk. apply Hk. by rewrite (replied_kbuf _ _ Hrep).
    + destruct (ev_left _ _ E12 r x Hr Hq2 Hx) as [Hh Hk]. split.
      * by rewrite (ev_handlers _ _ E23).
      * intros k Hxk. rewrite (ev_maps _ _ E23); [by apply Hk|]. intros r' Hh'.
        pose proof (evolves_holds _ _ _ _ E12 H1 Hh') as Hh1.
        assert (r' = r) as ->. { eapply (di_holder _ H1); [done|]. split; eauto. }
        by apply Hq2, Hh'.
  - intros r x Hr Hr3 Hx. destruct (decide (r ∈ queued w2)) as [Hq2|Hq2].
    + destruct (ev_queued _ _ E12 r x Hq2 Hx) as (x2 & Hx2 & Hrep).
      destruct (ev_gone _ _ E23 r x2 Hq2 Hr3 Hx2) as (x3 & ? & ? & Hd & Hk). exists x3.
      rewrite Hd, Hk, (replied_kbuf _ _ Hrep). destruct Hrep as (_ & _ & -> & _). done.
    + destruct (ev_gone _ _ E12 r x Hr Hq2 Hx) as (x2 & ? & ?). exists x2.
      by rewrite (ev_unqueued _ _ E23).
  - intros r x Hr Hx Hh. pose proof (ev_reader _ _ E12 r x Hr Hx Hh) as Hq2.
    destruct (ev_queued _ _ E12 r x Hq2 Hx) as (x2 & Hx2 & Hrep).
    apply (ev_reader _ _ E23 r x2 Hq2 Hx2). by rewrite (proj1 Hrep).
  - intros r Hr. rewrite (ev_handlers _ _ E23) by auto. by apply E12.
  - intros k Hk. rewrite (ev_maps _ _ E23).
    + by apply E12.
    + intros r Hh. by apply (Hk r), (evolves_holds _ _ _ _ E12 H1).
  - destruct (ev_items _ _ E12), (ev_items _ _ E23). split; etransitivity; eauto.
  - destruct (ev_cursors _ _ E12), (ev_cursors _ _ E23). split; congruence.
  - intros p. by etransitivity; [apply E12|apply E23].
  - destruct (ev_const _ _ E12) as (?&?&?&?&?&?), (ev_const _ _ E23) as (?&?&?&?&?&?).
    repeat split; congruence.
Qed.

(** ** Changes outside of the ownership state *)
Record same_own (w w' : World) : Prop := {
  so_handlers : handlers (dev w') = handlers (dev w);
  so_mappings : mappings (dev w') = mappings (dev w);
  so_queue : queued w' = queued w;
  so_rchs : rchs w' = rchs w;
  so_paths : forall p, same_path (paths w !! p) (paths w' !! p);
  so_stream : streambuf (dev w') = streambuf (dev w);
  so_const : umem w' = umem w /\ maps w' = maps w /\ params w' = params w /\
             dma_buf (dev w') = dma_buf (dev w) /\ AB (dev w') = AB (dev w) /\
             i2o_last_id_out (m_dpd (dev w')) = i2o_last_id_out (m_dpd (dev w))
}.

Lemma queued_ok_paths w w' r x :
  handlers (dev w') = handlers (dev w) -> mappings (dev w') = mappings (dev w) ->
  (forall p, same_path (paths w !! p) (paths w' !! p)) -> queued_ok w r x -> queued_ok w' r x.
Proof.
  intros Eh Em Ep [? ? (p & Hp & Hl) ? ?]. constructor; rewrite ?Eh, ?Em; try done.
  exists p. split; [done|]. by apply (same_path_is_Some _ _ (Ep p)).
Qed.

(** The same, but the stream buffer may have changed too. *)
Lemma evolves_stream w w' :
  dev_inv w -> same_own w (upd_dev (fun d => d <| streambuf := streambuf (dev w) |>) w') ->
  wf 7 (streambuf (dev w')) ->
  Forall mfa_ok (fq (abs 7 (streambuf (dev w')))) ->
  evolves w w'.
Proof.
  intros Hi [Eh Em Eq Er Ep _ Ec] Hwf Hm. cbn in Eh, Em, Er, Ep, Ec.
  change (queued w' = queued w) in Eq.
  assert (forall r k, holds w' r k <-> holds w r k) as Hh by (intros; unfold holds; by rewrite Eq, Er).
  constructor; rewrite ?Eq, ?Er, ?Eh, ?Em; try done.
  - destruct Hi as [? ? ? ? ? Hq ? Hho ? ?].
    constructor; rewrite ?Eq, ?Er, ?Eh, ?Em, ?(proj1 (proj2 Ec)); try done.
    + intros r Hr. destruct (Hq r Hr) as (x & ? & ?). exists x. split; [done|]. by eapply queued_ok_paths.
    + intros r r' k. rewrite !Hh. apply Hho.
  - intros r x _ Hx. exists x. split; [done|reflexivity].
Qed.

Lemma evolves_same w w' : dev_inv w -> same_own w w' -> evolves w w'.
Proof.
  intros Hi Hs. pose proof (so_stream _ _ Hs) as Es.
  apply evolves_stream; rewrite ?Es; [done| |apply Hi|apply Hi].
  destruct Hs. constructor; cbn; try done.
Qed.

(** ** Recycling *)
Definition rch_freed (r : nat) (w : World) : World :=
  match find_item (entries (handlers (dev w))) r with
  | Some _ => upd_dev (fun d => d <| handlers := freed r (handlers d) |> <| sleepq := true |>) w
  | None => w
  end.

Definition map_freed (k : Kbuf) (w : World) : World :=
  match find_item (entries (mappings (dev w))) k with
  | Some _ => upd_dev (fun d => d <| mappings := freed k (mappings d) |> <| sleepq := true |>) w
  | None => w
  end.

Lemma free_rch_eq r w : acq200_pool_free_rch r w = Done tt (rch_freed r w).
Proof.
  unfold acq200_pool_free_rch, _free, rch_freed, bind, gets, upd_dev, freed. cbn -[find_item].
  destruct (find_item _ r) as [i|] eqn:Hi; [|done].
  unfold wake_sleepq, modify, upd_dev, setf, set_dev, set_handlers. cbn -[find_item]. by rewrite Hi.
Qed.

Lemma free_mapping_eq k w : acq200_pool_free_mapping k w = Done tt (map_freed k w).
Proof.
  unfold acq200_pool_free_mapping, _free, map_freed, bind, gets, upd_dev, freed. cbn -[find_item].
  destruct (find_item _ k) as [i|] eqn:Hi; [|done].
  unfold wake_sleepq, modify, upd_dev, setf, set_dev, set_mappings. cbn -[find_item]. by rewrite Hi.
Qed.

(** What freeing leaves alone. *)
Lemma rch_freed_facts r w :
  handlers (dev (rch_freed r w)) = freed r (handlers (dev w)) /\
  mappings (dev (rch_freed r w)) = mappings (dev w) /\ queued (rch_freed r w) = queued w /\
  rchs (rch_freed r w) = rchs w /\ paths (rch_freed r w) = paths w /\
  streambuf (dev (rch_freed r w)) = streambuf (dev w) /\ m_dpd (dev (rch_freed r w)) = m_dpd (dev w).
Proof. unfold rch_freed, freed. destruct (find_item _ r) eqn:Hi; cbn; rewrite ?Hi; done. Qed.

Lemma map_freed_facts k w :
  mappings (dev (map_freed k w)) = freed k (mappings (dev w)) /\
  handlers (dev (map_freed k w)) = handlers (dev w) /\ queued (map_freed k w) = queued w /\
  rchs (map_freed k w) = rchs w /\ paths (map_freed k w) = paths w /\
  streambuf (dev (map_freed k w)) = streambuf (dev w) /\ m_dpd (dev (map_freed k w)) = m_dpd (dev w).
Proof. unfold map_freed, freed. destruct (find_item _ k) eqn:Hi; cbn; rewrite ?Hi; done. Qed.

(** The rest of the world that neither freeing nor recycling touches. *)
Record same_rest (w w' : World) : Prop := {
  sr_log : iolog w' = iolog w;
  sr_mem : mem w' = mem w;
  sr_umem : umem w' = umem w;
  sr_sched : sched w' = sched w;
  sr_sig : sigpending w' = sigpending w;
  sr_params : params w' = params w;
  sr_maps : maps w' = maps w;
  sr_dma_buf : dma_buf (dev w') = dma_buf (dev w);
  sr_AB : AB (dev w') = AB (dev w);
  sr_stream : streambuf (dev w') = streambuf (dev w);
  sr_id : i2o_last_id_out (m_dpd (dev w')) = i2o_last_id_out (m_dpd (dev w));
  sr_aux : aux_task_waiting (m_dpd (dev w')) = aux_task_waiting (m_dpd (dev w));
  sr_returned : i2o_packets_returned (m_dpd (dev w')) = i2o_packets_returned (m_dpd (dev w));
  sr_mbox : mbox_sync (dev w') = mbox_sync (dev w)
}.

#[export] Instance same_rest_preorder : PreOrder same_rest.
Proof. split; [intros ?; by constructor|]. intros w1 w2 w3 [] []. constructor; congruence. Qed.

Lemma rch_freed_rest r w : same_rest w (rch_freed r w).
Proof. unfold rch_freed. destruct (find_item _ _); by constructor. Qed.

Lemma map_freed_rest k w : same_rest w (map_freed k w).
Proof. unfold map_freed. destruct (find_item _ _); by constructor. Qed.

Lemma removed_rest r w : same_rest w (removed r w).
Proof. by constructor. Qed.

Definition recycled (r : nat) (x : ReturnCommandHandler) (w : World) : World :=
  let w1 := match rpath x with Some _ => removed r w | None => w end in
  let w2 := match pool_kbuf x with Some k => map_freed k w1 | None => w1 end in
  rch_freed r w2.

Lemma recycled_rest r x w : same_rest w (recycled r x w).
Proof.
  unfold recycled. etransitivity; [|apply rch_freed_rest].
  transitivity (match rpath x with Some _ => removed r w | None => w end).
  - destruct (rpath x); [apply removed_rest|reflexivity].
  - destruct (pool_kbuf x); [apply map_freed_rest|reflexivity].
Qed.

Lemma recycle_eq r x w :
  rchs w !! r = Some x -> is_Some (rdevice x) -> (is_Some (rpath x) -> rlink x = LinkIn) ->
  i2o_recycleRch r w = Done tt (recycled r x w).
Proof.
  intros Hx [d Hd] Hp. unfold i2o_recycleRch, recycled.
  set (w1 := match rpath x with Some _ => removed r w | None => w end).
  assert (exists x1, rchs w1 !! r = Some x1 /\ rdevice x1 = rdevice x /\ rchReturn x1 = rchReturn x)
    as (x1 & Hx1 & Hd1 & Hr1).
  { subst w1. destruct (rpath x) as [p|]; [|by exists x]. eexists. split; [|split].
    - cbn. rewrite list_lookup_alter_eq, Hx. done.
    - done.
    - done. }
  erewrite bind_done by (by apply rch_ref_eq).
  erewrite (bind_done _ _ w tt w1).
  2:{ subst w1. destruct (rpath x) as [p|] eqn:Ep; [|done]. apply (rchRemove_eq r x); [done|].
      apply Hp. by exists p. }
  erewrite bind_done by (by apply rch_ref_eq). rewrite Hr1, Hd1, Hd.
  set (w2 := match pool_kbuf x with Some k => map_freed k w1 | None => w1 end).
  erewrite (bind_done _ _ w1 tt w2); [unfold bind, deref, ret; apply free_rch_eq|].
  subst w2. unfold pool_kbuf.
  destruct (negb (bool_decide (kbuf (rchReturn x) = KNull)) && _); [|done].
  unfold when, bind, deref, ret. apply free_mapping_eq.
Qed.

(** The parts of the world after a queued handler was recycled. *)
Lemma recycled_facts r x w :
  is_Some (rpath x) ->
  queued (recycled r x w) = remove_one r (queued w) /\
  rchs (recycled r x w) = rchs (removed r w) /\
  handlers (dev (recycled r x w)) = freed r (handlers (dev w)) /\
  mappings (dev (recycled r x w)) =
    match pool_kbuf x with Some k => freed k (mappings (dev w)) | None => mappings (dev w) end /\
  paths (recycled r x w) = paths w.
Proof.
  intros [p Hp]. unfold recycled. rewrite Hp.
  destruct (pool_kbuf x) as [k|].
  - destruct (map_freed_facts k (removed r w)) as (Em & Eh & Eq & Er & Epa & _).
    destruct (rch_freed_facts r (map_freed k (removed r w))) as (Eh2 & Em2 & Eq2 & Er2 & Ep2 & _).
    rewrite Eh2, Em2, Eq2, Er2, Ep2, Em, Eh, Eq, Er, Epa. done.
  - destruct (rch_freed_facts r (removed r w)) as (Eh2 & Em2 & Eq2 & Er2 & Ep2 & _).
    rewrite Eh2, Em2, Eq2, Er2, Ep2. done.
Qed.

Section Recycled.
Context (w : World) (r : nat) (x : ReturnCommandHandler).
Context (Hi : dev_inv w) (Hr : r ∈ queued w) (Hx : rchs w !! r = Some x).

Let w' := recycled r x w.

Lemma queued_facts : queued_ok w r x.
Proof. destruct (di_queued _ Hi r Hr) as (x0 & ? & ?). by simplify_eq. Qed.

Local Lemma Hp : is_Some (rpath x).
Proof. destruct queued_facts as [_ _ (p & ? & _) _ _]. by exists p. Qed.

Lemma recycle_queued : i2o_recycleRch r w = Done tt w'.
Proof. destruct queued_facts. by apply recycle_eq. Qed.

Lemma recycled_queued r' : r' ∈ queued w' <-> r' ∈ queued w /\ r' <> r.
Proof.
  subst w'. destruct (recycled_facts r x w Hp) as (-> & _).
  destruct (decide (r' = r)) as [->|Hne].
  - pose proof (remove_one_elem_self r (queued w) (di_nodup _ Hi)). naive_solver.
  - rewrite remove_one_elem_ne by done. naive_solver.
Qed.

Lemma recycled_rchs r' : r' <> r -> rchs w' !! r' = rchs w !! r'.
Proof.
  intros Hne. subst w'. destruct (recycled_facts r x w Hp) as (_ & -> & _).
  cbn. by rewrite list_lookup_alter_ne.
Qed.

Lemma recycled_rch : rchs w' !! r =
  Some (x <| rlink := LinkPoison |> <| rpath := None |> <| rhandler := HNone |>).
Proof.
  subst w'. destruct (recycled_facts r x w Hp) as (_ & -> & _).
  cbn. by rewrite list_lookup_alter_eq, Hx.
Qed.

Lemma recycled_handlers r' : is_reserved (handlers (dev w')) r' =
  if decide (r' = r) then false else is_reserved (handlers (dev w)) r'.
Proof.
  subst w'. destruct (recycled_facts r x w Hp) as (_ & _ & -> & _).
  apply is_reserved_freed, Hi.
Qed.

Lemma recycled_maps k : is_reserved (mappings (dev w')) k =
  if decide (pool_kbuf x = Some k) then false else is_reserved (mappings (dev w)) k.
Proof.
  subst w'. destruct (recycled_facts r x w Hp) as (_ & _ & _ & -> & _).
  destruct (pool_kbuf x) as [k'|]; [|done].
  rewrite is_reserved_freed by apply Hi. repeat case_decide; congruence.
Qed.

Lemma recycled_items :
  same_items (handlers (dev w)) (handlers (dev w')) /\
  same_items (mappings (dev w)) (mappings (dev w')) /\
  pool_wf (handlers (dev w')) /\ pool_wf (mappings (dev w')) /\
  cursor (handlers (dev w')) = cursor (handlers (dev w)) /\
  cursor (mappings (dev w')) = cursor (mappings (dev w)).
Proof.
  subst w'. destruct (recycled_facts r x w Hp) as (_ & _ & -> & -> & _).
  split; [apply freed_same_items|]. split; [destruct (pool_kbuf x); [apply freed_same_items|done]|].
  split; [apply freed_wf, Hi|]. split; [destruct (pool_kbuf x); [apply freed_wf|]; apply Hi|].
  split; [apply freed_cursor|]. destruct (pool_kbuf x); [apply freed_cursor|done].
Qed.

Lemma recycled_holds r' k : holds w' r' k -> holds w r' k /\ r' <> r.
Proof.
  intros [Hq (x' & Hx' & Hk)]. apply recycled_queued in Hq as [Hq Hne].
  rewrite recycled_rchs in Hx' by done. split; [|done]. split; eauto.
Qed.

Lemma recycled_inv : dev_inv w'.
Proof.
  pose proof (sr_stream _ _ (recycled_rest r x w)) as Es.
  destruct recycled_items as (Hih & Him & Hwh & Hwm & _). constructor; try done.
  - intros r' Hit. rewrite <- (proj2 Hih) in Hit. apply (di_items _ Hi) in Hit as [y Hy].
    destruct (decide (r' = r)) as [->|]; [rewrite recycled_rch|rewrite recycled_rchs by done]; eauto.
  - intros k. rewrite <- (proj2 Him). subst w'.
    rewrite (sr_maps _ _ (recycled_rest r x w)). apply Hi.
  - subst w'. destruct (recycled_facts r x w Hp) as (-> & _). apply remove_one_NoDup, Hi.
  - intros r' Hq. pose proof Hq as [Hqw Hne]%recycled_queued.
    destruct (di_queued _ Hi r' Hqw) as (y & Hy & [? ? Hpa ? Hkb]).
    exists y. rewrite recycled_rchs by done. split; [done|]. constructor; try done.
    + subst w'. destruct (recycled_facts r x w Hp) as (_ & _ & _ & _ & ->). done.
    + by rewrite recycled_handlers, decide_False.
    + intros k Hk. rewrite recycled_maps. rewrite decide_False; [by apply Hkb|].
      intros Hxk. apply Hne. eapply (di_holder _ Hi r' r k); split; eauto.
  - intros r' y Hy Hq. destruct (decide (r' = r)) as [->|Hne].
    + rewrite recycled_rch in Hy. by simplify_eq.
    + rewrite recycled_rchs in Hy by done. apply (di_unqueued _ Hi r'); [done|].
      intros Hqw. by apply Hq, recycled_queued.
  - intros r1 r2 k [H1 _]%recycled_holds [H2 _]%recycled_holds. by eapply (di_holder _ Hi).
  - subst w'. rewrite Es. apply Hi.
  - subst w'. rewrite Es. apply Hi.
Qed.

Lemma recycled_evolves : rhandler x <> i2o_handleReadMessageFile_fn -> evolves w w'.
Proof.
  intros Hnr. destruct recycled_items as (Hih & Him & _ & _ & Hch & Hcm).
  pose proof (recycled_rest r x w) as Hrest. constructor; try done.
  - apply recycled_inv.
  - intros r' ?%recycled_queued. naive_solver.
  - intros r' Hq. apply recycled_rchs. by intros ->.
  - intros r' y Hq Hy. apply recycled_queued in Hq as [_ Hne]. exists y.
    rewrite recycled_rchs by done. by split.
  - intros r' y Hq Hnq Hy. assert (r' = r) as -> by (destruct (decide (r' = r)); [done|];
      exfalso; apply Hnq; by apply recycled_queued).
    simplify_eq. rewrite recycled_handlers, decide_True by done. split; [done|].
    intros k Hk. by rewrite recycled_maps, decide_True.
  - intros r' y Hq Hnq Hy. assert (r' = r) as -> by (destruct (decide (r' = r)); [done|];
      exfalso; apply Hnq; by apply recycled_queued).
    simplify_eq. eexists. split; [apply recycled_rch|]. done.
  - intros r' y Hq Hy Hh. apply recycled_queued. split; [done|]. intros ->. by simplify_eq.
  - intros r' Hq. rewrite recycled_handlers, decide_False; [done|]. by intros ->.
  - intros k Hk. rewrite recycled_maps, decide_False; [done|]. intros Hxk.
    apply (Hk r). split; eauto.
  - intros p. subst w'. destruct (recycled_facts r x w Hp) as (_ & _ & _ & _ & ->). done.
  - subst w'. destruct Hrest. repeat split; done.
Qed.
End Recycled.

(** ** The reply handlers and the bottom half *)
Definition benign (w w' : World) : Prop := evolves w w' /\ same_rest w w'.

Lemma benign_trans w1 w2 w3 : dev_inv w1 -> benign w1 w2 -> benign w2 w3 -> benign w1 w3.
Proof. intros ? [] []. split; [by eapply evolves_trans|by etransitivity]. Qed.

Lemma reply_evolves w r f :
  dev_inv w -> r ∈ queued w -> (forall x, replied x (f x)) ->
  benign w (setf rchs (alter f r) w).
Proof.
  intros Hi Hr Hf. set (w' := setf rchs (alter f r) w).
  assert (Hl : forall r' y, rchs w !! r' = Some y ->
    exists y', rchs w' !! r' = Some y' /\ replied y y').
  { intros r' y Hy. subst w'. cbn. destruct (decide (r' = r)) as [->|].
    - rewrite list_lookup_alter_eq, Hy. by exists (f y).
    - rewrite list_lookup_alter_ne by done. exists y. split; [done|reflexivity]. }
  assert (Hh : forall r' k, holds w' r' k -> holds w r' k).
  { intros r' k [Hq (y' & Hy' & Hk)]. destruct (di_queued _ Hi r' Hq) as (y & Hy & _).
    destruct (Hl r' y Hy) as (y2 & Hy2 & Hrep). simplify_eq.
    split; [done|]. exists y. split; [done|]. by rewrite <- (replied_kbuf _ _ Hrep). }
  split; [|by constructor]. constructor; try done.
  - destruct Hi as [? ? Hit ? ? Hq Hnq Hho ? ?]. constructor; try done.
    + intros r' Hin. destruct (Hit r' Hin) as [y Hy]. destruct (Hl r' y Hy) as (y' & ? & _). by exists y'.
    + intros r' Hin. destruct (Hq r' Hin) as (y & Hy & Hok).
      destruct (Hl r' y Hy) as (y' & Hy' & Hrep). exists y'. split; [done|].
      pose proof (replied_kbuf _ _ Hrep) as Hkb. destruct Hrep as (_ & Ep & Ed & _ & El & _ & _).
      destruct Hok as [? ? ? ? ?]. constructor; rewrite ?Ep, ?Ed, ?El, ?Hkb; done.
    + intros r' y' Hy' Hin. destruct (rchs w !! r') as [y|] eqn:Hy.
      * destruct (Hl r' y Hy) as (y2 & Hy2 & Hrep). simplify_eq.
        destruct Hrep as (_ & _ & _ & _ & El & _). rewrite El. by eapply Hnq.
      * apply lookup_ge_None in Hy. apply lookup_lt_Some in Hy'. subst w'. cbn in Hy'.
        rewrite length_alter in Hy'. lia.
    + intros r1 r2 k H1%Hh H2%Hh. by eapply Hho.
  - intros r' Hin. subst w'. cbn. apply list_lookup_alter_ne. by intros <-.
  - intros r' y Hq Hy. by apply Hl.
Qed.

Definition woken_path (p : nat) (w : World) : World :=
  setf paths (alter (fun x => x <| return_waitq := true |>) p) w.

Lemma wake_path_eq p w : is_Some (paths w !! p) -> wake_path p w = Done tt (woken_path p w).
Proof. intros [x Hx]. unfold wake_path. by rewrite (path_upd_eq p x). Qed.

Lemma woken_path_benign p w : dev_inv w -> benign w (woken_path p w).
Proof.
  intros Hi. split; [|by constructor]. apply evolves_same; [done|]. constructor; try done.
  intros q. cbn. destruct (decide (q = p)) as [->|]; [|by rewrite lookup_alter_ne].
  rewrite lookup_alter_eq. by destruct (paths w !! p).
Qed.

Lemma replied_rr_set id n x : replied x (x <| rchReturn := rr_set id n (rchReturn x) |>).
Proof. unfold rr_set. repeat split; cbn; case_match; auto. Qed.

Lemma count_discarded_benign w : dev_inv w -> benign w (upd_dpd (fun d =>
  d <| i2o_packets_discarded := s32 (i2o_packets_discarded d + 1) |>) w).
Proof. intros Hi. split; [|by constructor]. apply evolves_same; [done|]. by constructor. Qed.

Lemma find_rch_spec id l w :
  (forall r, r ∈ l -> is_Some (rchs w !! r)) ->
  exists o, find_rch id l w = Done o w /\
    match o with
    | Some r => r ∈ l /\ exists x, rchs w !! r = Some x /\ command_id x = id
    | None => forall r x, r ∈ l -> rchs w !! r = Some x -> command_id x <> id
    end.
Proof.
  induction l as [|r l IH]; intros Hl; simpl.
  - exists None. split; [done|]. intros r x Hr. by apply elem_of_nil in Hr.
  - destruct (Hl r ltac:(apply list_elem_of_here)) as [x Hx].
    erewrite bind_done by (by apply rch_ref_eq).
    destruct (Z.eqb_spec (command_id x) id).
    + exists (Some r). split; [done|]. split; [apply list_elem_of_here|]. by exists x.
    + destruct IH as (o & Ho & Hpost). { intros r' Hr'. apply Hl. by right. }
      exists o. split; [done|]. destruct o as [r'|].
      * destruct Hpost. split; [by right|done].
      * intros r' y [->|Hr']%elem_of_cons Hy; [congruence|by eapply Hpost].
Qed.

Section Process.
Context (w : World) (Hi : dev_inv w).

Lemma handler_benign r x m : r ∈ queued w -> rchs w !! r = Some x -> rhandler x <> HNone ->
  total (call_handler (rhandler x) r m) (fun _ w' => benign w w') w.
Proof.
  intros Hr Hx Hh. destruct (queued_facts w r x Hi Hr Hx) as [_ _ (p & Hp & Hl) _ _].
  destruct (rhandler x) eqn:Eh; [done|..]; cbn [call_handler].
  - unfold i2o_handleReadMessageFile, rchSetSamplesAndGetPath.
    set (f := fun x => _).
    pose proof (reply_evolves w r f Hi Hr (replied_rr_set _ _)) as Hb.
    unfold total. erewrite bind_done.
    2:{ erewrite bind_done by (by apply (rch_upd_eq r x)).
        erewrite bind_done by (apply rch_ref_eq; cbn; by rewrite list_lookup_alter_eq, Hx). done. }
    replace (rpath (f x)) with (Some p) by (by rewrite <- Hp). rewrite wake_path_eq by done.
    eapply benign_trans; [done..|]. apply woken_path_benign, Hb.
  - unfold i2o_recycleRchWrapper, total. rewrite (recycle_queued w r x Hi Hr Hx).
    split; [by apply recycled_evolves; [..|rewrite Eh]|apply recycled_rest].
  - unfold i2o_handleLastMessage. set (f := fun x => _).
    assert (forall x, replied x (f x)) as Hf by (intros; repeat split; auto).
    pose proof (reply_evolves w r f Hi Hr Hf) as Hb. set (w1 := setf rchs (alter f r) w) in *.
    assert (rchs w1 !! r = Some (f x)) as Hx1 by (cbn; by rewrite list_lookup_alter_eq, Hx).
    unfold total. erewrite bind_done by (by apply (rch_upd_eq r x)).
    erewrite bind_done by (by apply rch_ref_eq).
    replace (rpath (f x)) with (Some p) by (by rewrite <- Hp).
    erewrite bind_done by done. erewrite bind_done by (by apply wake_path_eq).
    destruct (woken_path_benign p w1) as [He2 Hs2]; [apply Hb|].
    fold w1. rewrite (recycle_queued (woken_path p w1) r (f x)); [|apply He2|done|done].
    eapply benign_trans; [done|exact Hb|]. eapply benign_trans; [apply Hb|by split|].
    split; [|apply recycled_rest]. apply recycled_evolves; [apply He2|done|done|].
    change (rhandler (f x)) with (rhandler x). by rewrite Eh.
Qed.

Lemma process_benign m :
  total (acq200_processCommandMessageReturn m) (fun _ w' => benign w w') w.
Proof.
  unfold acq200_processCommandMessageReturn.
  destruct (find_rch_spec (msg_id m) (rch_list (m_dpd (dev w))) w) as (o & Ho & Hpost).
  { intros r Hr. destruct (di_queued _ Hi r Hr) as (x & ? & _). by exists x. }
  unfold total. erewrite bind_done by done. cbv beta.
  erewrite bind_done by done. destruct o as [r|].
  2:{ split; [by apply evolves_refl|reflexivity]. }
  destruct Hpost as (Hr & x & Hx & _). erewrite bind_done by (by apply rch_ref_eq).
  case_decide as Hh; [|by apply handler_benign].
  erewrite bind_done by (by apply (recycle_queued w r x)).
  eapply benign_trans; [done| |apply count_discarded_benign].
  - split; [by apply recycled_evolves; [..|rewrite Hh]|apply recycled_rest].
  - by apply recycled_inv.
Qed.
End Process.
