(* ===== verification/Frames.v ===== *)
(** * Where message frames go: the bottom half, the interrupts and all other events

    A message frame address that the driver took off the card's outbound queue is queued on the stream
    buffer, or it goes back to the card at once; the bottom half gives every queued frame back, in
    order, after it was served, but for one that an auxiliary task waits for.  No event breaks the
    ownership invariant, and none faults. *)

From S2P Require Import Prelude BusProt StreamBuf Pool Device Rch I2o Isr Kernel Owner.

Definition pending_mfas (w : World) : list Z := fq (abs 7 (streambuf (dev w))).

(** The bus write that gives a frame back to the card. *)
Definition give_back (mfa : Z) : Io := IoWr (CSR ACQ200_OQP) (u32 mfa).

(** The frames [served] went back; either that was all, or the loop stopped at a frame that it handed
    to the auxiliary task that was waiting. *)
Definition frames_post (w w' : World) : Prop :=
  exists served,
    iolog w' = iolog w ++ map give_back served /\
    ((pending_mfas w = served /\ pending_mfas w' = [] /\
      aux_task_waiting (m_dpd (dev w')) = aux_task_waiting (m_dpd (dev w))) \/
     (exists mfa, pending_mfas w = served ++ mfa :: pending_mfas w' /\
      aux_task_waiting (m_dpd (dev w)) <> 0 /\ aux_mfa (m_dpd (dev w')) = mfa /\
      aux_task_waiting (m_dpd (dev w')) = 0)).

Lemma stream_get_spec w : dev_inv w ->
  exists w1, stream_get w = Done (hd STREAM_MFA_INVALID (pending_mfas w)) w1 /\
    evolves w w1 /\ pending_mfas w1 = tl (pending_mfas w) /\ iolog w1 = iolog w /\
    aux_task_waiting (m_dpd (dev w1)) = aux_task_waiting (m_dpd (dev w)).
Proof.
  intros Hi. pose proof (get_abs 7 _ (di_stream _ Hi)) as [Hr Ha].
  pose proof (get_wf 7 _ (di_stream _ Hi)) as Hwf. pose proof (di_mfas _ Hi) as Hm.
  unfold stream_get, streamGet, pending_mfas.
  destruct (genericIntBufGet (streambuf (dev w))) as [mfa sb]. cbn [fst snd] in *.
  assert (mfa = hd STREAM_MFA_INVALID (fq (abs 7 (streambuf (dev w)))) /\
    fq (abs 7 sb) = tl (fq (abs 7 (streambuf (dev w))))) as [-> Htl].
  { rewrite Hr, Ha. unfold fifo_get. by destruct (fq (abs 7 (streambuf (dev w)))) as [|x q] eqn:E;
      cbn; rewrite ?E. }
  eexists. split; [done|]. split; [|done].
  apply evolves_stream; [done| |done|].
  - constructor; done.
  - change (Forall mfa_ok (fq (abs 7 sb))). rewrite Htl. by destruct Hm.
Qed.

Lemma return_message_spec mfa w `{Platform} : dev_inv w ->
  exists w1, i2o_return_message mfa w = Done 0 w1 /\ evolves w w1 /\
    iolog w1 = iolog w ++ [give_back mfa] /\ pending_mfas w1 = pending_mfas w /\
    aux_task_waiting (m_dpd (dev w1)) = aux_task_waiting (m_dpd (dev w)).
Proof.
  intros Hi. eexists. split; [reflexivity|]. split; [|done].
  apply evolves_same; [done|]. by constructor.
Qed.

Lemma rest_pending w w' : same_rest w w' -> iolog w' = iolog w /\
  pending_mfas w' = pending_mfas w /\ aux_task_waiting (m_dpd (dev w')) = aux_task_waiting (m_dpd (dev w)).
Proof. intros [El _ _ _ _ _ _ _ _ Es _ Ea _ _]. unfold pending_mfas. by rewrite Es. Qed.

(** One round more in front. *)
Lemma frames_post_step w w1 w' mfa :
  pending_mfas w = mfa :: pending_mfas w1 -> iolog w1 = iolog w ++ [give_back mfa] ->
  aux_task_waiting (m_dpd (dev w1)) = aux_task_waiting (m_dpd (dev w)) ->
  frames_post w1 w' -> frames_post w w'.
Proof.
  intros Hp Hl Ha (served & Hlog & Hcase). exists (mfa :: served). split.
  - rewrite Hlog, Hl, <- app_assoc. done.
  - destruct Hcase as [(Hs & Hn & Hx)|(m & Hs & Hx & ? & ?)].
    + left. split; [|split; congruence]. by rewrite Hp, Hs.
    + right. exists m. split; [|split; [congruence|done]]. by rewrite Hp, Hs.
Qed.

Section BottomHalf.
Context `{Platform}.

Lemma streaming_loop_spec fuel w :
  dev_inv w -> (length (pending_mfas w) < fuel)%nat ->
  total (streaming_loop fuel) (fun _ w' => evolves w w' /\ frames_post w w') w.
Proof.
  revert w. induction fuel as [|fuel IH]; intros w Hi Hf; [lia|].
  destruct (stream_get_spec w Hi) as (w1 & Hg & He1 & Hp1 & Hl1 & Ha1).
  cbn [streaming_loop]. unfold total. erewrite bind_done by exact Hg.
  destruct (pending_mfas w) as [|mfa q] eqn:Hq; cbn [hd tl] in *.
  { rewrite Z.eqb_refl. split; [done|]. exists []. rewrite app_nil_r. split; [done|]. left. auto. }
  assert (mfa_ok mfa) as [Hr Hne].
  { pose proof (di_mfas _ Hi) as Hm. fold (pending_mfas w) in Hm. rewrite Hq in Hm. by inversion Hm. }
  rewrite (proj2 (Z.eqb_neq _ _) Hne).
  assert (Hround : forall w2, evolves w w2 -> pending_mfas w2 = q -> iolog w2 = iolog w ->
    aux_task_waiting (m_dpd (dev w2)) = aux_task_waiting (m_dpd (dev w)) ->
    total (let* _ := i2o_return_message mfa in streaming_loop fuel)
      (fun _ w' => evolves w w' /\ frames_post w w') w2).
  { intros w2 He2 Hp2 Hl2 Ha2.
    destruct (return_message_spec mfa w2 (ev_inv _ _ He2)) as (w3 & Hr3 & He3 & Hl3 & Hp3 & Ha3).
    unfold total. erewrite bind_done by exact Hr3.
    assert (evolves w w3) as Hw3 by (by eapply evolves_trans).
    eapply total_mono; [apply IH; [apply Hw3|rewrite Hp3, Hp2; cbn in Hf; lia]|].
    intros _ w' [He' Hfp]. split; [by eapply evolves_trans|].
    apply (frames_post_step w w3 w' mfa); [by rewrite Hq, Hp3, Hp2|by rewrite Hl3, Hl2|congruence|done]. }
  erewrite bind_done by reflexivity. cbv zeta beta.
  destruct (acq200_debug (params w1) =? 7); [by apply Hround|].
  destruct (MT_ID _ =? MT_COMMAND_PACKET).
  { apply total_bind. eapply total_mono; [apply process_benign, He1|].
    intros _ w2 [He2 Hs2]. destruct (rest_pending _ _ Hs2) as (El & Ep & Ea).
    apply Hround; [by eapply evolves_trans|congruence..]. }
  destruct (istrue (aux_task_waiting (m_dpd (dev w1)))) eqn:Haux.
  - unfold istrue in Haux. apply negb_true_iff, Z.eqb_neq in Haux.
    cbn. split.
    + eapply evolves_trans; [done|exact He1|]. apply evolves_same; [apply He1|]. by constructor.
    + exists []. rewrite app_nil_r. split; [done|]. right. exists mfa. rewrite Hq.
      split; [|split; [congruence|done]]. by rewrite <- Hp1.
  - pose proof (count_discarded_benign w1 (ev_inv _ _ He1)) as [He2 Hs2].
    destruct (rest_pending _ _ Hs2) as (El & Ep & Ea).
    erewrite bind_done by reflexivity.
    apply Hround; [by eapply evolves_trans|by rewrite Ep|by rewrite El|by rewrite Ea].
Qed.

Lemma pending_fuel w : dev_inv w ->
  (length (pending_mfas w) < S (length (buffers (streambuf (dev w)))))%nat.
Proof.
  intros Hi. unfold pending_mfas. rewrite abs_length.
  pose proof (ring_dist_lt 7 (iget (streambuf (dev w))) (iput (streambuf (dev w))) ltac:(lia)).
  pose proof (wf_len _ _ (di_stream _ Hi)). lia.
Qed.

Lemma bottom_half_spec w : dev_inv w ->
  total acq200_streaming_isr_bh (fun _ w' => evolves w w' /\ frames_post w w') w.
Proof.
  intros Hi. unfold acq200_streaming_isr_bh, total. erewrite bind_done by done.
  by apply streaming_loop_spec; [|apply pending_fuel].
Qed.

(** C10: the bottom half.  It comes to an end without a fault, whatever messages the card wrote: every
    frame that was pending goes back to the card exactly once and in order, and the stream buffer
    is empty at the end; only when an auxiliary task waits may a frame be handed to it instead,
    and then the frames behind it stay pending.  The ownership invariant is kept. *)
Theorem bottom_half_returns_frames w : dev_inv w ->
  total acq200_streaming_isr_bh (fun _ w' => evolves w w' /\ frames_post w w') w.
Proof. apply bottom_half_spec. Qed.
End BottomHalf.

(** ** Taking a frame off the outbound queue *)

(** The frame is on the stream buffer and the bottom half is scheduled, or it went back. *)
Definition consumed (mfa : Z) (w w' : World) : Prop :=
  if (acq200_debug (params w) =? 8) || negb (fifo_room 127 (abs 7 (streambuf (dev w)))) then
    pending_mfas w' = pending_mfas w /\ iolog w' = iolog w ++ [give_back mfa]
  else
    pending_mfas w' = pending_mfas w ++ [mfa] /\ iolog w' = iolog w /\
    tasklet_scheduled (m_dpd (dev w')) = true.

Section Events.
Context `{Platform}.

Lemma stream_put_spec mfa w : dev_inv w -> mfa_ok mfa ->
  exists w1, evolves w w1 /\ iolog w1 = iolog w /\ params w1 = params w /\
    if fifo_room 127 (abs 7 (streambuf (dev w)))
    then stream_put mfa w = Done 0 w1 /\ pending_mfas w1 = pending_mfas w ++ [mfa]
    else stream_put mfa w = Done (-1) w1 /\ pending_mfas w1 = pending_mfas w.
Proof.
  intros Hi Hm. pose proof (put_abs 7 _ mfa (di_stream _ Hi)) as [Hr Ha].
  pose proof (put_wf 7 _ mfa (di_stream _ Hi)) as Hwf. pose proof (di_mfas _ Hi) as Hall.
  unfold stream_put, streamPut, pending_mfas.
  destruct (genericIntBufPut mfa (streambuf (dev w))) as [rc sb]. cbn [fst snd] in *.
  unfold fifo_put in Hr, Ha. change (capacity 7) with 127%nat in *.
  exists (upd_dev (fun d => d <| streambuf := sb |>) w). split; [|split; [done|split; [done|]]].
  - apply evolves_stream; [done|by constructor|done|].
    change (Forall mfa_ok (fq (abs 7 sb))). rewrite Ha. case_match; [|done].
    apply Forall_app. split; [done|by constructor].
  - change (streambuf (dev (upd_dev _ w))) with sb. rewrite Hr, Ha. by case_match.
Qed.

Lemma consume_spec mfa w : dev_inv w -> mfa_ok mfa ->
  total (acq200_consume_i2o mfa) (fun _ w' => evolves w w' /\ consumed mfa w w') w.
Proof.
  intros Hi Hm. unfold acq200_consume_i2o, total. erewrite bind_done by reflexivity.
  set (w0 := upd_dpd _ w).
  assert (evolves w w0) as He0 by (apply evolves_same; [done|by constructor]).
  erewrite bind_done by reflexivity. cbv zeta beta. unfold consumed.
  change (params w0) with (params w). destruct (acq200_debug (params w) =? 8) eqn:Hd; cbn [orb].
  - destruct (return_message_spec mfa w0 (ev_inv _ _ He0)) as (w1 & Hr & He1 & Hl & Hp & _).
    erewrite bind_done by exact Hr. split; [by eapply evolves_trans|]. by rewrite Hl, Hp.
  - destruct (stream_put_spec mfa w0 (ev_inv _ _ He0) Hm) as (w1 & He1 & Hl1 & _ & Hput).
    change (streambuf (dev w0)) with (streambuf (dev w)) in Hput.
    destruct (fifo_room 127 _); destruct Hput as [Hput Hp1]; erewrite bind_done by exact Hput; cbn [Z.ltb negb].
    + split; [|done]. eapply evolves_trans; [done|exact He0|].
      eapply evolves_trans; [apply He0|exact He1|]. apply evolves_same; [apply He1|by constructor].
    + destruct (return_message_spec mfa w1 (ev_inv _ _ He1)) as (w2 & Hr & He2 & Hl2 & Hp2 & _).
      change (total (let* _ := i2o_return_message mfa in count_discarded)
        (fun _ w' => evolves w w' /\ pending_mfas w' = pending_mfas w /\
           iolog w' = iolog w ++ [give_back mfa]) w1).
      unfold total. erewrite bind_done by exact Hr. split.
      * eapply evolves_trans; [done|exact He0|]. eapply evolves_trans; [apply He0|exact He1|].
        eapply evolves_trans; [apply He1|exact He2|]. apply count_discarded_benign, He2.
      * change (pending_mfas w2 = pending_mfas w /\ iolog w2 = iolog w ++ [give_back mfa]).
        by rewrite Hp2, Hp1, Hl2, Hl1.
Qed.

(** C19: a frame taken from the card is never lost: [acq200_consume_i2o] queues it behind the pending
    frames and schedules the bottom half, or, when the 127 places are taken (or the debug level
    says so), posts it back to the card at once. *)
Theorem consume_keeps_frame mfa w : dev_inv w -> mfa_ok mfa ->
  total (acq200_consume_i2o mfa) (fun _ w' => evolves w w' /\ consumed mfa w w') w.
Proof. apply consume_spec. Qed.

Lemma total_readl reg Q w :
  Q (u32 (card_reply (iolog w) reg))
    (w <| iolog := iolog w ++ [IoRd reg (u32 (card_reply (iolog w) reg))] |>) ->
  total (readl reg) Q w.
Proof. done. Qed.

Lemma log_evolves w l : dev_inv w -> evolves w (w <| iolog := l |>).
Proof. intros Hi. apply evolves_same; [done|by constructor]. Qed.

Lemma consume_evolves w0 w mfa : dev_inv w0 -> evolves w0 w -> 0 <= mfa < 2 ^ 32 ->
  (mfa =? 0xffffffff) || (mfa =? 0) = false ->
  total (acq200_consume_i2o mfa) (fun _ w' => evolves w0 w') w.
Proof.
  intros Hi He Hr Hne. apply orb_false_iff in Hne as [Hne%Z.eqb_neq _].
  eapply total_mono; [apply consume_spec; [apply He|by split]|].
  intros _ w' [He' _]. by eapply evolves_trans.
Qed.
End Events.

(** A state change that does not touch the ownership state. *)
Ltac own_same := eapply evolves_trans; [eassumption|eassumption|];
  apply evolves_same; [eapply ev_inv; eassumption|by constructor].

Section EventSafety.
Context `{Platform}.

Lemma message_isr_evolves w0 w : dev_inv w0 -> evolves w0 w ->
  total acq200_incoming_message_isr (fun _ w' => evolves w0 w') w.
Proof.
  intros Hi He. unfold acq200_incoming_message_isr. run. apply total_readl.
  set (mfa := u32 _). destruct ((mfa =? _) || _) eqn:Hb.
  - unfold total. erewrite bind_done by reflexivity. cbv zeta beta.
    destruct (BAD_MFA_THRESHOLD <? _); cbn [when]; simpl; own_same.
  - apply total_bind. unfold total at 1. simpl. apply total_bind.
    eapply total_mono; [apply (consume_evolves w0)|]; [done| |apply u32_range|done|done]. own_same.
Qed.

Lemma isr_evolves w : dev_inv w -> total acq200_isr (fun _ w' => evolves w w') w.
Proof.
  intros Hi. unfold acq200_isr. run. apply total_readl. set (status := u32 _).
  set (w1 := w <| iolog := _ |>). assert (evolves w w1) as He1 by by apply log_evolves.
  destruct (Z.land status (u32 _) =? 0).
  { destruct (negb _); simpl; [own_same|done]. }
  destruct (istrue (Z.land status ACQ200_OISR_OPQI)).
  { apply total_bind. simpl. apply total_bind. simpl.
    apply message_isr_evolves; [done|]. own_same. }
  destruct (istrue (Z.land status ACQ200_OISR_ODI)); simpl; own_same.
Qed.

Lemma poll_evolves w : dev_inv w ->
  total acq200_handle_incoming_message (fun _ w' => evolves w w') w.
Proof.
  intros Hi. unfold acq200_handle_incoming_message. run. apply total_readl. set (mfa := u32 _).
  set (w1 := w <| iolog := _ |>). assert (evolves w w1) as He1 by by apply log_evolves.
  destruct ((mfa =? _) || _) eqn:Hb; [done|].
  apply total_bind. simpl. apply total_bind.
  eapply total_mono; [apply (consume_evolves w)|]; [done| |apply u32_range|done|done]. own_same.
Qed.

Lemma tasklet_evolves w : dev_inv w -> total run_tasklet (fun _ w' => evolves w w') w.
Proof.
  intros Hi. pose proof (evolves_refl w Hi) as He. unfold run_tasklet, total.
  erewrite bind_done by reflexivity. destruct (tasklet_scheduled _); cbn [when]; [|done].
  erewrite bind_done by reflexivity. set (w1 := upd_dpd _ w).
  assert (evolves w w1) as He1 by own_same.
  eapply total_mono; [apply bottom_half_spec, He1|].
  intros _ w' [He' _]. by eapply evolves_trans.
Qed.

Lemma run_event_spec e w : dev_inv w -> total (run_event e) (fun _ w' => evolves w w') w.
Proof.
  intros Hi. pose proof (evolves_refl w Hi) as He. destruct e as [| | |n dma|s| |]; cbn [run_event].
  - run. eapply total_mono; [by apply isr_evolves|]. intros ? ? ?. by run.
  - by apply tasklet_evolves.
  - unfold total. erewrite bind_done by reflexivity. destruct (bool_decide _); cbn [when]; [|done].
    apply (total_bind acq200_handle_incoming_message).
    eapply total_mono; [by apply poll_evolves|]. intros ? ? ?. by run.
  - simpl. own_same.
  - destruct s; simpl; own_same.
  - simpl. own_same.
  - simpl. own_same.
Qed.

(** C1: no event faults and none breaks the ownership of handlers and mappings: whatever the card
    answers to a register read, whatever it writes to host memory, and whichever of the interrupt
    handler, the tasklet, the backstop poll, another process or a signal comes. *)
Theorem events_safe e w : dev_inv w -> total (run_event e) (fun _ w' => evolves w w') w.
Proof. apply run_event_spec. Qed.
End EventSafety.
