(* ===== verification/Sleep.v ===== *)
(** * What a sleep guarantees

    While the driver sleeps the device only [evolves]; so the sleeps keep the ownership invariant, and
    the two pools satisfy the interface of Pool.v. *)

From S2P Require Import Prelude BusProt StreamBuf Pool Device Rch I2o Isr Kernel Owner Frames.

Section Sleep.
Context `{Platform}.

(** One event of a sleep. *)
Lemma event_step {A} e evs (k : MW A) Q w0 w : dev_inv w0 -> evolves w0 w ->
  (forall w', evolves w0 w' -> sched w' = evs -> safe k Q w') ->
  safe (run_event e >> set_sched' evs >> k) Q w.
Proof.
  intros Hi He Hk. apply safe_bind, total_safe. eapply total_mono; [apply run_event_spec, He|].
  intros [] w1 He1. cbv beta in He1. assert (evolves w0 w1) as He2 by (by eapply evolves_trans).
  change (safe k Q (w1 <| sched := evs |>)). apply Hk; [|done]. own_same.
Qed.

Lemma event_step_total {A} e evs (k : MW A) Q w0 w : dev_inv w0 -> evolves w0 w ->
  (forall w', evolves w0 w' -> sched w' = evs -> total k Q w') ->
  total (run_event e >> set_sched' evs >> k) Q w.
Proof.
  intros Hi He Hk. apply total_bind. eapply total_mono; [apply run_event_spec, He|].
  intros [] w1 He1. cbv beta in He1. assert (evolves w0 w1) as He2 by (by eapply evolves_trans).
  change (total k Q (w1 <| sched := evs |>)). apply Hk; [|done]. own_same.
Qed.

(** Going on a wait queue is harmless. *)
Definition queue_ok (q : WaitQ) (w0 : World) : Prop :=
  forall w, evolves w0 w -> total (enqueue q) (fun _ w' => evolves w0 w' /\ sched w' = sched w) w.

Lemma path_queue_ok p w0 : dev_inv w0 -> is_Some (paths w0 !! p) -> queue_ok (path_waitq p) w0.
Proof.
  intros Hi Hp w He. pose proof (same_path_is_Some _ _ (ev_paths _ _ He p) Hp) as [x Hx].
  unfold total. cbn [enqueue path_waitq]. rewrite (path_upd_eq p x) by done. split; [|done].
  eapply evolves_trans; [done|exact He|]. apply evolves_same; [apply He|]. constructor; try done.
  intros r. cbn. destruct (decide (r = p)) as [->|]; [|by rewrite lookup_alter_ne].
  rewrite lookup_alter_eq, Hx. done.
Qed.

Lemma mbox_queue_ok w0 : dev_inv w0 -> queue_ok mbox_wq w0.
Proof. intros Hi w He. split; [|done]. own_same. Qed.

Lemma pool_queue_ok w0 : dev_inv w0 -> queue_ok pool_sleepq w0.
Proof. intros Hi w He. split; [|done]. own_same. Qed.

Lemma private_queue_ok w0 : queue_ok private_wq w0.
Proof. intros w He. by split. Qed.

Section Wait.
Context (q : WaitQ) (cond : World -> bool) (w0 : World) (Hi : dev_inv w0) (Hq : queue_ok q w0).

(** A wait that ends because of its condition ends with the condition true. *)
Definition wait_post (rc : Z) (w' : World) : Prop :=
  evolves w0 w' /\
  ((rc = 0 /\ cond w' = true) \/
   (rc = - ERESTARTSYS /\ sigpending w' = true /\ cond w' = false)).

Lemma wait_from_spec evs w : evolves w0 w -> safe (wait_from q cond evs) wait_post w.
Proof.
  revert w. induction evs as [|e evs IH]; intros w He; [done|]. cbn [wait_from].
  apply (event_step _ _ _ _ w0); [done..|]. intros w1 He1 _.
  change (safe (if woken q w1 || sigpending w1 then
    if cond w1 then ret 0 else if sigpending w1 then ret (- ERESTARTSYS)
    else enqueue q >> wait_from q cond evs else wait_from q cond evs) wait_post w1).
  destruct (woken q w1 || sigpending w1); [|by apply IH].
  destruct (cond w1) eqn:Hc; [by apply safe_ret; split; auto|].
  destruct (sigpending w1) eqn:Hs; [by apply safe_ret; split; auto|].
  apply safe_bind, total_safe. eapply total_mono; [by apply Hq|].
  intros [] w2 [He2 _]. by apply IH.
Qed.

Lemma wait_event_spec w : evolves w0 w -> safe (wait_event_interruptible q cond) wait_post w.
Proof.
  intros He. change (safe (if cond w then ret 0 else if sigpending w then ret (- ERESTARTSYS)
    else enqueue q >> wait_from q cond (sched w)) wait_post w).
  destruct (cond w) eqn:Hc; [by apply safe_ret; split; auto|].
  destruct (sigpending w) eqn:Hs; [by apply safe_ret; split; auto|].
  apply safe_bind, total_safe. eapply total_mono; [by apply Hq|].
  intros [] w2 [He2 _]. by apply wait_from_spec.
Qed.

(** With a timeout it always comes back: ticks are left and the condition holds, or the time is
    over, or there is a signal. *)
Definition wait_timeout_post (timeout : Z) (rc : Z) (w' : World) : Prop :=
  evolves w0 w' /\ ((rc = timeout /\ cond w' = true) \/ (0 < rc <= timeout /\ cond w' = true) \/ rc = 0 \/
   (rc = - ERESTARTSYS /\ sigpending w' = true /\ cond w' = false)).

Lemma wait_timeout_from_spec t evs left w : evolves w0 w -> left <= t ->
  total (wait_timeout_from q cond evs left) (wait_timeout_post t) w.
Proof.
  unfold wait_timeout_post.
  revert left w. induction evs as [|e evs IH]; intros left w He Ht; cbn [wait_timeout_from];
    (destruct (Z.leb_spec left 0); [by apply total_ret; auto|]); [by apply total_ret; auto|].
  set (left' := if is_tick e then left - 1 else left).
  assert (left' <= t) by (subst left'; destruct (is_tick e); lia). cbv zeta.
  apply (event_step_total _ _ _ _ w0); [done..|]. intros w1 He1 _.
  apply total_bind. change (total (if left' <=? 0 then ret 0 else
    if woken q w1 || sigpending w1 then
    if cond w1 then ret left' else if sigpending w1 then ret (- ERESTARTSYS)
    else enqueue q >> wait_timeout_from q cond evs left'
    else wait_timeout_from q cond evs left') (wait_timeout_post t) w1).
  destruct (Z.leb_spec left' 0); [by apply total_ret; split; auto|].
  destruct (woken q w1 || sigpending w1); [|by apply IH].
  destruct (cond w1) eqn:Hc; [by apply total_ret; split; auto 6 with lia|].
  destruct (sigpending w1) eqn:Hs; [by apply total_ret; split; auto 6|].
  apply total_bind. eapply total_mono; [by apply Hq|].
  intros [] w2 [He2 _]. by apply IH.
Qed.

Lemma wait_timeout_spec t w : evolves w0 w ->
  total (wait_event_interruptible_timeout q cond t) (wait_timeout_post t) w.
Proof.
  intros He. apply total_bind. change (total (if cond w then ret t else
    if sigpending w then ret (- ERESTARTSYS)
    else enqueue q >> wait_timeout_from q cond (sched w) t) (wait_timeout_post t) w).
  unfold wait_timeout_post.
  destruct (cond w) eqn:Hc; [by apply total_ret; split; auto|].
  destruct (sigpending w) eqn:Hs; [by apply total_ret; split; auto 6|].
  apply total_bind. eapply total_mono; [by apply Hq|].
  intros [] w2 [He2 _]. by apply wait_timeout_from_spec.
Qed.

(** A sleep uses up an event if there is one, and it does if it ends before its timeout. *)
Definition sleep_post (n : nat) (left : Z) (w' : World) : Prop :=
  evolves w0 w' /\ (left <> 0 -> (length (sched w') < n)%nat) /\ (length (sched w') <= pred n)%nat.

Lemma sleep_from_spec evs left w : evolves w0 w -> sched w = evs -> 0 < left ->
  total (sleep_from q evs left) (sleep_post (length evs)) w.
Proof.
  unfold sleep_post.
  revert left w. induction evs as [|e evs IH]; intros left w He Hs Hl; cbn [sleep_from];
    rewrite (proj2 (Z.leb_gt left 0) Hl); [by apply total_ret; rewrite Hs|].
  set (left' := if is_tick e then left - 1 else left). cbv zeta.
  apply (event_step_total _ _ _ _ w0); [done..|]. intros w1 He1 Hsch.
  apply total_bind. change (total (if left' <=? 0 then ret 0 else
    if woken q w1 || sigpending w1 then ret left' else sleep_from q evs left')
    (sleep_post (S (length evs))) w1). unfold sleep_post.
  destruct (Z.leb_spec left' 0); [apply total_ret; by rewrite Hsch|].
  destruct (woken q w1 || sigpending w1).
  - apply total_ret. split; [done|]. rewrite Hsch. simpl. lia.
  - eapply total_mono; [by apply IH|]. intros l w' (? & Hn & ?). split; [done|]. simpl. lia.
Qed.

Lemma sleep_on_timeout_spec t w : 0 < t -> evolves w0 w ->
  total (interruptible_sleep_on_timeout q t) (fun left w' => evolves w0 w' /\
    (sigpending w && bool_decide (sched w = []) = false -> sleep_post (length (sched w)) left w')) w.
Proof.
  intros Ht He. apply total_bind. change (total (if sigpending w then
    match sched w with
    | [] => ret t
    | e :: evs => run_event e >> set_sched' evs >> ret t
    end else enqueue q >> sleep_from q (sched w) t) (fun left w' => evolves w0 w' /\
    (sigpending w && bool_decide (sched w = []) = false -> sleep_post (length (sched w)) left w')) w).
  destruct (sigpending w); cbn [andb].
  - destruct (sched w) as [|e evs]; [by apply total_ret|]. apply (event_step_total _ _ _ _ w0); [done..|].
    intros w1 He1 Hs. apply total_ret. split; [done|]. intros _. split; [done|]. rewrite Hs. simpl. lia.
  - apply total_bind. eapply total_mono; [by apply Hq|].
    intros [] w2 [He2 Hs2]. eapply total_mono; [by apply sleep_from_spec|].
    intros left w' Hp. split; [apply Hp|done].
Qed.
End Wait.

(** A semaphore is taken, or a signal came first. *)
Definition down_post (s : Sem) (w0 : World) (rc : Z) (w' : World) : Prop :=
  evolves w0 w' /\ ((rc = 0 /\ 0 <= sem_get s w') \/ (rc = - EINTR /\ sigpending w' = true)).

Lemma sem_upd_evolves s f w0 w : dev_inv w0 -> evolves w0 w -> evolves w0 (sem_upd s f w).
Proof. intros Hi He. destruct s; own_same. Qed.

Lemma take_sem_safe s w0 w (k : MW Z) : dev_inv w0 -> evolves w0 w ->
  safe k (down_post s w0) w ->
  safe (if 0 <? sem_get s w then modify (sem_upd s (fun n => n - 1)) >> ret 0
        else if sigpending w then ret (- EINTR) else k) (down_post s w0) w.
Proof.
  intros Hi He Hk. destruct (Z.ltb_spec 0 (sem_get s w)).
  - run. split; [by apply sem_upd_evolves|]. left. split; [done|]. destruct s; cbn in *; lia.
  - destruct (sigpending w) eqn:Hs; [|done]. apply safe_ret. split; auto.
Qed.

Lemma down_from_spec s evs w0 w : dev_inv w0 -> evolves w0 w ->
  safe (down_from s evs) (down_post s w0) w.
Proof.
  intros Hi. revert w. induction evs as [|e evs IH]; intros w He; [done|]. cbn [down_from].
  apply (event_step _ _ _ _ w0); [done..|]. intros w1 He1 _.
  apply safe_bind. by apply (take_sem_safe s w0 w1); [..|apply IH].
Qed.

Lemma down_spec s w0 w : dev_inv w0 -> evolves w0 w ->
  safe (down_interruptible s) (down_post s w0) w.
Proof.
  intros Hi He. apply safe_bind. apply (take_sem_safe s w0 w); [done..|]. by apply down_from_spec.
Qed.

Lemma pool_sleep_total w0 w : dev_inv w0 -> evolves w0 w -> sigpending w && bool_decide (sched w = []) = false ->
  total (interruptible_sleep_on_timeout pool_sleepq 1000) (sleep_post w0 (length (sched w))) w.
Proof.
  intros Hi He Hs. eapply total_mono; [by apply (sleep_on_timeout_spec pool_sleepq w0); [|apply pool_queue_ok| |]|].
  intros left w' [_ Hp]. by apply Hp.
Qed.

Lemma pool_sleep_spec w0 w : dev_inv w0 -> evolves w0 w ->
  safe pool_sleep (sleep_post w0 (length (sched w))) w.
Proof.
  intros Hi He. apply safe_bind. change (safe (if sigpending w && bool_decide (sched w = []) then block
    else interruptible_sleep_on_timeout pool_sleepq 1000) (sleep_post w0 (length (sched w))) w).
  destruct (sigpending w && bool_decide (sched w = [])) eqn:Hs; [done|].
  apply total_safe. by apply pool_sleep_total.
Qed.

(** ** The pools' interface

    While an allocation sleeps the device evolves and the other contexts use up their events. *)
Definition ages (w0 w : World) : Prop := evolves w0 w /\ (length (sched w) <= length (sched w0))%nat.

Section PoolLaws.
Context (w0 : World) (Hi : dev_inv w0).

Lemma pool_law w : ages w0 w -> safe pool_sleep (fun left w' =>
  ages w0 w' /\ (same_items (handlers (dev w)) (handlers (dev w')) /\
    same_items (mappings (dev w)) (mappings (dev w'))) /\
  (cursor (handlers (dev w')) = cursor (handlers (dev w)) /\
    cursor (mappings (dev w')) = cursor (mappings (dev w))) /\
  (left <> 0 -> (length (sched w') < length (sched w))%nat)) w.
Proof.
  intros [He Hl]. eapply safe_mono.
  { apply (pool_sleep_spec w); [apply He|]. apply evolves_refl, He. }
  intros left w' (He' & Hn & Hp). split; [split; [by eapply evolves_trans|lia]|].
  split; [apply He'|]. split; [apply He'|done].
Qed.

#[export] Instance mappings_laws : PoolHostLaws World Kbuf (ages w0).
Proof.
  split; try done; cbn [host_pool mappings_host host_sleep mappings_sleeper].
  - intros w [He _]. apply He.
  - intros w He. eapply safe_mono; [by apply pool_law|]. intros left w' (? & [] & [] & ?). done.
Qed.

#[export] Instance handlers_laws : PoolHostLaws World nat (ages w0).
Proof.
  split; try done; cbn [host_pool handlers_host host_sleep handlers_sleeper].
  - intros w [He _]. apply He.
  - intros w He. eapply safe_mono; [by apply pool_law|]. intros left w' (? & [] & [] & ?). done.
Qed.
End PoolLaws.
End Sleep.
