(* ===== verification/Mask.v ===== *)
(** * acq200_utils.c: interrupt lines masked by user request

    The mask iterator visits the set bits of a word, the two ioctls disable and enable the lines it
    finds; [acq200_intsMask] follows a string of hex digits of which the last one stands for lines
    0..3, and enables what it disabled before.  Interrupt calls are recorded in [irqops]. *)

From S2P Require Import Prelude BusProt StreamBuf Pool Device.

(** ** The mask iterator *)
Inductive mi_state := MI_IDLE | MI_STARTED | MI_FINISHED.

Record MASK_ITERATOR := mkMaskIterator {
  mi_mask : Z;      (* unsigned *)
  icursor : Z;      (* unsigned *)
  istate : mi_state
}.

(** [1 << n] on an [int]: x86 takes the count modulo 32. *)
Definition shl1 (n : Z) : Z := s32 (Z.shiftl 1 (n mod 32)).

(** [for (; next_cursor != 0; next_cursor >>= 1)], 32 turns at most. *)
Fixpoint has_scan (fuel : nat) (mask next_cursor : Z) : bool :=
  match fuel with
  | O => false
  | S fuel =>
      if next_cursor =? 0 then false
      else if istrue (Z.land mask next_cursor) then true
      else has_scan fuel mask (Z.shiftr next_cursor 1)
  end.

Definition hasNext (it : MASK_ITERATOR) : bool * MASK_ITERATOR :=
  match istate it with
  | MI_IDLE =>
      (has_scan 32 (mi_mask it) 0x80000000, mkMaskIterator (mi_mask it) 31 MI_IDLE)
  | MI_STARTED => (has_scan 32 (mi_mask it) (u32 (Z.shiftr (shl1 (icursor it)) 1)), it)
  | MI_FINISHED => (false, it)
  end.

Fixpoint get_scan (fuel : nat) (it : MASK_ITERATOR) (next_cursor : Z) : Z * MASK_ITERATOR :=
  match fuel with
  | O => (-1, it)
  | S fuel =>
      if next_cursor =? 0 then (-1, mkMaskIterator (mi_mask it) (icursor it) MI_FINISHED)
      else if istrue (Z.land (mi_mask it) next_cursor) then (s32 (icursor it), it)
      else get_scan fuel (mkMaskIterator (mi_mask it) (u32 (icursor it - 1)) (istate it))
             (Z.shiftr next_cursor 1)
  end.

Definition getNext (it : MASK_ITERATOR) : Z * MASK_ITERATOR :=
  match istate it with
  | MI_IDLE => get_scan 33 (mkMaskIterator (mi_mask it) 31 MI_STARTED) 0x80000000
  | MI_STARTED =>
      let ic := u32 (icursor it - 1) in
      get_scan 33 (mkMaskIterator (mi_mask it) ic MI_STARTED) (u32 (shl1 ic))
  | MI_FINISHED => (-1, it)
  end.

(** [while (hasNext(&it)) f(getNext(&it))]; [None] when the fuel is out. *)
Fixpoint while_next (fuel : nat) (f : Z -> IrqOp) (it : MASK_ITERATOR) : option (list IrqOp) :=
  match fuel with
  | O => None
  | S fuel =>
      let (b, it) := hasNext it in
      if b then let (n, it) := getNext it in (fun l => f (u32 n) :: l) <$> while_next fuel f it
      else Some []
  end.

Definition log_irqops (o : option (list IrqOp)) : MW Z :=
  match o with
  | None => nofuel
  | Some l => modify (setf irqops (fun ops => ops ++ l)) >> ret 0
  end.

Definition acq200_intsDisable (irqs : Z) : MW Z :=
  log_irqops (while_next 34 disable_irq_nosync (mkMaskIterator (u32 irqs) 0 MI_IDLE)).
Definition acq200_intsEnable (irqs : Z) : MW Z :=
  log_irqops (while_next 34 enable_irq (mkMaskIterator (u32 irqs) 0 MI_IDLE)).

(** ** The reference: the set bits below [n], the highest first *)
Fixpoint bits_below (mask : Z) (n : nat) : list Z :=
  match n with
  | O => []
  | S n => if Z.testbit mask (Z.of_nat n) then Z.of_nat n :: bits_below mask n else bits_below mask n
  end.

Lemma pow2_half i : 0 < i -> Z.shiftr (2 ^ i) 1 = 2 ^ (i - 1).
Proof.
  intros. rewrite shiftr_div by lia. replace i with (i - 1 + 1) at 1 by lia.
  rewrite Z.pow_add_r by lia. apply Z.div_mul. lia.
Qed.

(** The cursor word after bit [n - 1] downwards: bit [n - 1], or none. *)
Definition cursor_word (n : nat) : Z := match n with O => 0 | S n => 2 ^ Z.of_nat n end.

Lemma cursor_word_half n : Z.shiftr (cursor_word (S n)) 1 = cursor_word n.
Proof.
  destruct n as [|n]; [done|]. cbn [cursor_word]. rewrite pow2_half by lia. f_equal. lia.
Qed.

Lemma cursor_word_nonzero n : cursor_word (S n) =? 0 = false.
Proof. apply Z.eqb_neq. cbn. pose proof (Z.pow_pos_nonneg 2 (Z.of_nat n)). lia. Qed.

Lemma has_scan_spec mask n fuel : (n <= fuel)%nat ->
  has_scan fuel mask (cursor_word n) = negb (bool_decide (bits_below mask n = [])).
Proof.
  revert fuel. induction n as [|n IH]; intros fuel Hf; [by destruct fuel|].
  destruct fuel as [|fuel]; [lia|]. cbn [has_scan]. rewrite cursor_word_nonzero.
  cbn [cursor_word bits_below]. rewrite land_pow2 by lia.
  destruct (Z.testbit mask (Z.of_nat n)); [done|].
  change (2 ^ Z.of_nat n) with (cursor_word (S n)). rewrite cursor_word_half. apply IH. lia.
Qed.

Lemma get_scan_spec mask n fuel st : (n < fuel)%nat -> (n <= 32)%nat ->
  get_scan fuel (mkMaskIterator mask (u32 (Z.of_nat n - 1)) st) (cursor_word n) =
    match bits_below mask n with
    | [] => (-1, mkMaskIterator mask (u32 (-1)) MI_FINISHED)
    | j :: _ => (j, mkMaskIterator mask j st)
    end.
Proof.
  revert fuel. induction n as [|n IH]; intros fuel Hf Hn.
  - destruct fuel as [|fuel]; [lia|done].
  - destruct fuel as [|fuel]; [lia|]. cbn [get_scan]. rewrite cursor_word_nonzero.
    cbn [cursor_word bits_below mi_mask icursor istate]. rewrite land_pow2 by lia.
    replace (Z.of_nat (S n) - 1) with (Z.of_nat n) by lia. rewrite (u32_id (Z.of_nat n)) by lia.
    destruct (Z.testbit mask (Z.of_nat n)); [by rewrite s32_id by lia|].
    change (2 ^ Z.of_nat n) with (cursor_word (S n)). rewrite cursor_word_half. apply IH; lia.
Qed.

Lemma bits_below_head mask n j l : bits_below mask n = j :: l ->
  exists m, (m < n)%nat /\ j = Z.of_nat m /\ l = bits_below mask m /\ Z.testbit mask j = true.
Proof.
  induction n as [|n IH]; [done|]. cbn [bits_below]. destruct (Z.testbit mask (Z.of_nat n)) eqn:Ht.
  - intros E. simplify_eq. exists n. split; [lia|done].
  - intros (m & ? & ? & ? & ?)%IH. exists m. split; [lia|done].
Qed.

Lemma shl1_pow2 n : 0 <= n <= 30 -> shl1 n = 2 ^ n.
Proof.
  intros. unfold shl1. rewrite Z.mod_small, Z.shiftl_mul_pow2, Z.mul_1_l by lia.
  pose proof (Z.pow_le_mono_r 2 n 30 ltac:(lia) ltac:(lia)).
  pose proof (Z.pow_pos_nonneg 2 n ltac:(lia) ltac:(lia)). apply s32_id. lia.
Qed.

Lemma getNext_started mask n : (1 <= n <= 31)%nat ->
  getNext (mkMaskIterator mask (Z.of_nat n) MI_STARTED) =
    match bits_below mask n with
    | [] => (-1, mkMaskIterator mask (u32 (-1)) MI_FINISHED)
    | j :: _ => (j, mkMaskIterator mask j MI_STARTED)
    end.
Proof.
  intros Hn. destruct n as [|n]; [lia|]. rewrite <- (get_scan_spec mask (S n) 33) by lia.
  unfold getNext. cbn [istate icursor mi_mask cursor_word].
  replace (Z.of_nat (S n) - 1) with (Z.of_nat n) by lia. rewrite (u32_id (Z.of_nat n)) by lia.
  rewrite shl1_pow2 by lia. rewrite u32_id; [done|].
  pose proof (Z.pow_le_mono_r 2 (Z.of_nat n) 30). pose proof (Z.pow_pos_nonneg 2 (Z.of_nat n)). lia.
Qed.

(** From a started iterator at bit [n <= 30], the loop visits the set bits below it. *)
Lemma while_next_started f mask n fuel : (n <= 30)%nat -> (n < fuel)%nat ->
  while_next fuel f (mkMaskIterator mask (Z.of_nat n) MI_STARTED) = Some (f <$> bits_below mask n).
Proof.
  revert fuel. induction n as [n IH] using lt_wf_ind. intros fuel Hn Hf.
  destruct fuel as [|fuel]; [lia|]. cbn [while_next hasNext istate icursor mi_mask].
  rewrite shl1_pow2 by lia. change (2 ^ Z.of_nat n) with (cursor_word (S n)).
  rewrite cursor_word_half, u32_id.
  2:{ destruct n; cbn; [lia|]. pose proof (Z.pow_le_mono_r 2 (Z.of_nat n) 31).
      pose proof (Z.pow_pos_nonneg 2 (Z.of_nat n)). lia. }
  rewrite has_scan_spec by lia. destruct (bits_below mask n) as [|j l] eqn:Hb; [done|].
  rewrite bool_decide_eq_false_2 by done. cbn [negb].
  destruct (bits_below_head _ _ _ _ Hb) as (m & Hm & -> & -> & _).
  rewrite getNext_started by lia. rewrite Hb, IH by lia. cbn. by rewrite u32_id by lia.
Qed.

Lemma while_next_idle f mask fuel : 0 <= mask < 2 ^ 32 -> mask <> 2 ^ 31 -> (32 <= fuel)%nat ->
  while_next (S (S fuel)) f (mkMaskIterator mask 0 MI_IDLE) = Some (f <$> bits_below mask 32).
Proof.
  intros Hr Hne Hf. remember (S fuel) as fuel1 eqn:Ef1. cbn [while_next hasNext istate mi_mask].
  change 0x80000000 with (cursor_word 32). rewrite has_scan_spec by lia.
  destruct (bits_below mask 32) as [|j l] eqn:Hb; [done|].
  rewrite bool_decide_eq_false_2 by done. cbn [negb getNext istate mi_mask].
  pose proof (get_scan_spec mask 32 33 MI_STARTED ltac:(lia) ltac:(lia)) as Hg.
  change (u32 (Z.of_nat 32 - 1)) with 31 in Hg. change 0x80000000 with (cursor_word 32).
  rewrite Hg, Hb. destruct (bits_below_head _ _ _ _ Hb) as (m & Hm & -> & -> & Htop).
  destruct (decide (m = 31%nat)) as [->|].
  2:{ rewrite while_next_started by lia. cbn. by rewrite u32_id by lia. }
  (* bit 31 is set, and so is another one *)
  change (Z.of_nat 31) with 31 in *.
  assert (exists j l, bits_below mask 31 = j :: l) as (j & l & Hb').
  { destruct (bits_below mask 31) as [|j l] eqn:E; [|eauto]. exfalso. apply Hne.
    assert (forall n i, bits_below mask n = [] -> 0 <= i < Z.of_nat n -> Z.testbit mask i = false) as Hz.
    { induction n as [|n IH]; intros i Hn Hi; [lia|]. cbn [bits_below] in Hn.
      destruct (Z.testbit mask (Z.of_nat n)) eqn:Et; [done|].
      destruct (decide (i = Z.of_nat n)) as [->|]; [done|]. apply IH; [done|lia]. }
    apply Z.bits_inj'. intros i Hi. rewrite Z.pow2_bits_eqb by lia.
    destruct (Z.eqb_spec 31 i) as [<-|].
    - exact Htop.
    - destruct (Z.lt_ge_cases i 31); [apply (Hz 31%nat); [done|lia]|].
      apply (testbit_above mask 32); lia. }
  subst fuel1. cbn [while_next hasNext istate icursor mi_mask].
  assert (has_scan 32 mask (u32 (Z.shiftr (shl1 31) 1)) = true) as ->.
  { change (u32 (Z.shiftr (shl1 31) 1)) with 0xC0000000. cbn [has_scan].
    assert (istrue (Z.land mask 0xC0000000) = true) as ->; [|done].
    unfold istrue. apply negb_true_iff, Z.eqb_neq. intros E0.
    assert (Z.testbit (Z.land mask 0xC0000000) 31 = true) as Ht by (by rewrite Z.land_spec, Htop).
    by rewrite E0, Z.bits_0 in Ht. }
  pose proof (getNext_started mask 31 ltac:(lia)) as Hg2. change (Z.of_nat 31) with 31 in Hg2.
  rewrite Hg2, Hb'.
  destruct (bits_below_head _ _ _ _ Hb') as (m & Hm' & -> & -> & _).
  rewrite while_next_started by lia. cbn. by rewrite !u32_id by lia.
Qed.

(** The ioctls that disable and enable interrupt lines by mask call the kernel exactly once for each
    set bit, from the highest line to the lowest, and for no other line.  The one exception is the
    mask [0x80000000], see [ints_mask_top_bit]. *)
Theorem ints_mask_visits irqs w : 0 <= irqs < 2 ^ 32 -> irqs <> 2 ^ 31 ->
  acq200_intsDisable irqs w =
    Done 0 (w <| irqops := irqops w ++ (disable_irq_nosync <$> bits_below irqs 32) |>) /\
  acq200_intsEnable irqs w =
    Done 0 (w <| irqops := irqops w ++ (enable_irq <$> bits_below irqs 32) |>).
Proof.
  intros Hr Hne. unfold acq200_intsDisable, acq200_intsEnable.
  rewrite u32_id, !while_next_idle by (done || lia). done.
Qed.

(** Whatever the mask, the loop comes to an end. *)
Lemma ints_mask_ends f irqs : is_Some (while_next 34 f (mkMaskIterator (u32 irqs) 0 MI_IDLE)).
Proof.
  destruct (decide (u32 irqs = 2 ^ 31)) as [->|Hne]; [by eexists|].
  rewrite while_next_idle; [by eexists|apply u32_range|done|lia].
Qed.

(** With line 31 alone in the mask, the shift by the cursor is done on an [int] and is
    sign-extended, so the iterator believes that a bit is left and hands out -1: line 0xffffffff is
    disabled (or enabled) too. *)
Theorem ints_mask_top_bit w :
  acq200_intsEnable (2 ^ 31) w =
    Done 0 (w <| irqops := irqops w ++ [enable_irq 31; enable_irq 0xffffffff] |>).
Proof. done. Qed.

(** ** The mask string *)
Definition ch (a : Z) (lo hi : Z) : bool := (lo <=? a) && (a <=? hi).
Definition isxdigit (c : Z) : bool := ch c 48 57 || ch c 65 70 || ch c 97 102.

(** [simple_strtoul] of one character, base 16: a character that is no digit gives 0. *)
Definition get_mask (mdef : Z) : Z :=
  if ch mdef 48 57 then mdef - 48
  else if ch mdef 65 70 then mdef - 55
  else if ch mdef 97 102 then mdef - 87
  else 0.

(** The inner loop: the four bits of a digit, from line [irq] on. *)
Fixpoint mask_bits (debug new_mask : Z) (bits : list Z) (irq active_mask : Z) : Z * list IrqOp :=
  match bits with
  | [] => (active_mask, [])
  | bit :: bits =>
      let '(am, ops) :=
        if 2 <? debug then (active_mask, [])
        else if istrue (Z.land new_mask bit) then (Z.lor active_mask bit, [disable_irq_nosync irq])
        else if istrue (Z.land active_mask bit) then (Z.land active_mask (Z.lnot bit), [enable_irq irq])
        else (active_mask, []) in
      let '(am, ops') := mask_bits debug new_mask bits (irq + 1) am in
      (am, ops ++ ops')
  end.

(** The outer loop, for [ia] from [n - 1] down to 0. *)
Fixpoint mask_digits (debug : Z) (imask : list Z) (n : nat) (inew irq : Z) (imask_a : list Z)
    : list Z * list IrqOp :=
  match n with
  | O => (imask_a, [])
  | S ia =>
      let new_mask := if 0 <=? inew then get_mask (nth (Z.to_nat inew) imask 0) else 0 in
      let '(am, ops) := mask_bits debug new_mask [1; 2; 4; 8] irq (nth ia imask_a 0) in
      let '(imask_a, ops') :=
        mask_digits debug imask ia (inew - 1) (irq + 4) (<[ia := wrap 8 am]> imask_a) in
      (imask_a, ops ++ ops')
  end.

Definition acq200_intsMask `{Platform} : MW Z :=
  let* w := get_world in
  let '(ia, ops) :=
    mask_digits (acq200_debug (params w)) (imask (dev w)) (Z.to_nat (NR_IRQS / 4))
      (Z.of_nat (length (imask (dev w))) - 1) 0 (imask_a (dev w)) in
  modify (upd_dev (fun d => d <| imask_a := ia |>)) >>
  modify (setf irqops (fun l => l ++ ops)) >>
  ret 0.

(** ** The big lock *)
Definition BKL_LOCK : Z := 1.
Definition BKL_UNLOCK : Z := 0.
Definition BKL_QUERY : Z := -1.

Definition log_irqop (o : IrqOp) : MW unit := modify (setf irqops (fun l => l ++ [o])).

Definition acq200_bkl (bkl_action : Z) : MW Z :=
  (if bkl_action =? BKL_LOCK then
     log_irqop spin_lock_irqsave >> modify (upd_dev (fun d => d <| bkl_is_locked := 1 |>))
   else if bkl_action =? BKL_UNLOCK then
     log_irqop spin_unlock_irqrestore >> modify (upd_dev (fun d => d <| bkl_is_locked := 0 |>))
   else ret tt) >>
  gets (fun w => bkl_is_locked (dev w)).

(** ** What the mask string asks for, line by line *)

(** The digit of a string that is [k] places from its end. *)
Definition digit_from_end (s : list Z) (k : nat) : Z :=
  if (k <? length s)%nat then get_mask (nth (length s - 1 - k) s 0) else 0.

Definition line_ops (new_mask active irq : Z) : list IrqOp :=
  flat_map (fun k =>
    if Z.testbit new_mask k then [disable_irq_nosync (irq + k)]
    else if Z.testbit active k then [enable_irq (irq + k)] else []) [0; 1; 2; 3].

Lemma get_mask_range c : 0 <= get_mask c < 16.
Proof. unfold get_mask, ch. repeat case_match; lia. Qed.

Lemma digits_cases (P : Z -> Prop) : (forall n, (n < 16)%nat -> P (Z.of_nat n)) ->
  forall d, 0 <= d < 16 -> P d.
Proof. intros HP d Hd. rewrite <- (Z2Nat.id d) by lia. apply HP. lia. Qed.

Lemma mask_bits_spec debug new active irq : debug <= 2 -> 0 <= new < 16 -> 0 <= active < 16 ->
  mask_bits debug new [1; 2; 4; 8] irq active = (new, line_ops new active irq).
Proof.
  intros Hd Hn Ha. cbn [mask_bits]. rewrite (proj2 (Z.ltb_ge 2 debug) Hd).
  unfold line_ops. cbn [flat_map]. rewrite Z.add_0_r.
  replace (irq + 1 + 1 + 1) with (irq + 3) by lia. replace (irq + 1 + 1) with (irq + 2) by lia.
  revert new Hn. apply digits_cases. intros n Hn.
  revert active Ha. apply digits_cases. intros a Ha.
  do 16 (destruct n as [|n]; [do 16 (destruct a as [|a];
    [reflexivity|]); lia|]). lia.
Qed.

Lemma mask_digits_spec debug s n irq arr : debug <= 2 -> (n <= length arr)%nat ->
  (forall i, (i < n)%nat -> 0 <= nth i arr 0 < 16) ->
  forall k, let '(arr', ops) := mask_digits debug s n (Z.of_nat (length s) - 1 - Z.of_nat k) irq arr in
  length arr' = length arr /\
  (forall i, (i < n)%nat -> nth i arr' 0 = digit_from_end s (k + (n - 1 - i))) /\
  (forall i, (n <= i)%nat -> nth i arr' 0 = nth i arr 0) /\
  ops = flat_map (fun j => line_ops (digit_from_end s (k + j)) (nth (n - 1 - j) arr 0)
                             (irq + 4 * Z.of_nat j)) (seq 0 n).
Proof.
  intros Hd. revert irq arr. induction n as [|n IH]; intros irq arr Hl Ha k; cbn [mask_digits].
  { split; [done|]. split; [lia|]. done. }
  assert ((if 0 <=? Z.of_nat (length s) - 1 - Z.of_nat k
     then get_mask (nth (Z.to_nat (Z.of_nat (length s) - 1 - Z.of_nat k)) s 0) else 0)
    = digit_from_end s k) as ->.
  { unfold digit_from_end. destruct (Z.leb_spec 0 (Z.of_nat (length s) - 1 - Z.of_nat k)),
      (Nat.ltb_spec k (length s)); try lia. do 2 f_equal. lia. }
  assert (0 <= digit_from_end s k < 16) as Hdig.
  { unfold digit_from_end. case_match; [apply get_mask_range|lia]. }
  rewrite mask_bits_spec by (auto with lia). rewrite wrap_id by (cbn; lia).
  specialize (IH (irq + 4) (<[n := digit_from_end s k]> arr)).
  rewrite length_insert in IH. specialize (IH ltac:(lia)).
  assert (Hnth : forall i v, i <> n -> nth i (<[n := v]> arr) 0 = nth i arr 0).
  { intros i v Hi. rewrite !nth_lookup. by rewrite list_lookup_insert_ne. }
  assert (forall i, (i < n)%nat -> 0 <= nth i (<[n := digit_from_end s k]> arr) 0 < 16) as Ha'.
  { intros i Hi. rewrite Hnth by lia. apply Ha. lia. }
  specialize (IH Ha' (S k)).
  replace (Z.of_nat (length s) - 1 - Z.of_nat (S k)) with (Z.of_nat (length s) - 1 - Z.of_nat k - 1) in IH by lia.
  destruct (mask_digits debug s n _ (irq + 4) _) as [arr' ops'].
  destruct IH as (Hl' & Hi' & Ho' & ->). split; [done|]. split; [|split].
  - intros i Hi. destruct (decide (i = n)) as [->|].
    + rewrite Ho' by lia. rewrite nth_lookup, list_lookup_insert_eq by lia. cbn. f_equal. lia.
    + rewrite Hi' by lia. f_equal. lia.
  - intros i Hi. rewrite Ho' by lia. apply Hnth. lia.
  - cbn [seq flat_map]. f_equal.
    + f_equal; [f_equal; lia|f_equal; lia|lia].
    + rewrite <- seq_shift, flat_map_concat_map, flat_map_concat_map, map_map. f_equal.
      apply map_ext_in. intros j Hj%in_seq. rewrite Hnth by lia. f_equal; [f_equal; lia|f_equal; lia|lia].
Qed.

Section Mask.
Context `{Platform}.

Lemma ints_mask_facts w n :
  acq200_debug (params w) <= 2 -> NR_IRQS = 4 * Z.of_nat n -> (n <= length (imask_a (dev w)))%nat ->
  (forall i, (i < n)%nat -> 0 <= nth i (imask_a (dev w)) 0 < 16) ->
  exists arr, acq200_intsMask w =
    Done 0 (upd_dev (fun d => d <| imask_a := arr |>) w <| irqops := irqops w ++
      flat_map (fun k => line_ops (digit_from_end (imask (dev w)) k)
                           (nth (n - 1 - k) (imask_a (dev w)) 0) (4 * Z.of_nat k)) (seq 0 n) |>) /\
    length arr = length (imask_a (dev w)) /\
    forall k, (k < n)%nat -> nth (n - 1 - k) arr 0 = digit_from_end (imask (dev w)) k.
Proof.
  intros Hd Hn Hl Ha.
  pose proof (mask_digits_spec _ (imask (dev w)) n 0 _ Hd Hl Ha 0%nat) as Hs.
  rewrite Z.sub_0_r in Hs. unfold acq200_intsMask, bind, get_world, modify, ret.
  replace (Z.to_nat (NR_IRQS / 4)) with n
    by (rewrite Hn, Z.mul_comm, Z.div_mul by lia; lia).
  destruct (mask_digits _ _ _ _ _ _) as [arr ops]. destruct Hs as (Hl' & Hi & _ & ->).
  exists arr. split; [done|]. split; [done|]. intros k Hk. rewrite Hi by lia. f_equal. lia.
Qed.

(** C33: setting the mask string, with [acq200_debug] at most 2 (above that no line is touched): line
    [4 * k + b] is disabled when bit [b] of the digit [k] places from the end of the string is set (the
    comment in the source says: when it is clear), whether or not it is disabled already; else it is
    enabled, once, when its bit was set in the mask before; no other line is touched; and the digits of
    the string are kept as the mask before of the next time. *)
Theorem ints_mask_string w n :
  acq200_debug (params w) <= 2 -> NR_IRQS = 4 * Z.of_nat n -> (n <= length (imask_a (dev w)))%nat ->
  (forall i, (i < n)%nat -> 0 <= nth i (imask_a (dev w)) 0 < 16) ->
  exists arr, acq200_intsMask w =
    Done 0 (upd_dev (fun d => d <| imask_a := arr |>) w <| irqops := irqops w ++
      flat_map (fun k => line_ops (digit_from_end (imask (dev w)) k)
                           (nth (n - 1 - k) (imask_a (dev w)) 0) (4 * Z.of_nat k)) (seq 0 n) |>) /\
    length arr = length (imask_a (dev w)) /\
    forall k, (k < n)%nat -> nth (n - 1 - k) arr 0 = digit_from_end (imask (dev w)) k.
Proof. apply ints_mask_facts. Qed.
End Mask.
