(* ===== verification/Mailbox.v ===== *)
(** * acq200.c: mailbox commands

    A request writes some of the four mailboxes, waits until the card acknowledges the command
    mailbox (by polling it, or for a doorbell interrupt), and reads some mailboxes back. *)

From Stdlib Require Import Btauto.
From S2P Require Import Prelude BusProt StreamBuf Pool Device Rch I2o Isr Kernel Outer Owner Frames.
From S2P Require Import Sleep Mask.

(** ** A [struct MailboxControl] in the user's memory: nine words *)
Definition MBC_SZ : Z := 36.
Definition words_bytes (l : list Z) : list Z := flat_map (le_bytes 4) l.
Definition mbc_bytes (m : MailboxControl) : list Z :=
  le_bytes 4 (mbc_flags m) ++ words_bytes (mbxw m) ++ words_bytes (mbxr m).
Definition word_at (mem : gmap Z Z) (a : Z) : Z := le_value (mem_read mem a 4).
Definition mbc_at (mem : gmap Z Z) (a : Z) : MailboxControl :=
  mkMbc (word_at mem a)
    [word_at mem (a + 4); word_at mem (a + 8); word_at mem (a + 12); word_at mem (a + 16)]
    [word_at mem (a + 20); word_at mem (a + 24); word_at mem (a + 28); word_at mem (a + 32)].

Section Mailbox.
Context `{Platform}.

(** [copy_to_user] from a variable of the driver; what a fault leaves out is the end. *)
Definition put_to_user (ubuf : Z) (bytes : list Z) : MW Z := fun w =>
  let count := Z.of_nat (length bytes) in
  Done (copy_fault ubuf count)
    (w <| umem := mem_write (umem w) ubuf (firstn (user_copied ubuf count) bytes) |>).

Definition MBOX_READ (ibox : Z) : MW Z := readl (MBOX ibox).
Definition MBOX_WRITE (ibox value : Z) : MW unit := writel value (MBOX ibox).

(** The loops run over [ibox] from [n - 1] down to 0. *)
Fixpoint read_boxes (n : nat) (read_mask : Z) (mbc : MailboxControl) : MW MailboxControl :=
  match n with
  | O => ret mbc
  | S ibox =>
      let* mbc :=
        if istrue (Z.land (Z.shiftl 1 (Z.of_nat ibox)) read_mask) then
          let* v := MBOX_READ (Z.of_nat ibox) in
          ret (mbc <| mbxr := <[ibox := v]> (mbxr mbc) |>)
        else ret mbc in
      read_boxes ibox read_mask mbc
  end.

Definition acq200_ioctl_read_mbox (mbc : MailboxControl) : MW (Z * MailboxControl) :=
  let* mbc := read_boxes MBOX_NUM (MBC_FROM_MBXR mbc) mbc in
  ret (0, mbc).

Fixpoint write_boxes (n : nat) (write_mask : Z) (mbc : MailboxControl) : MW unit :=
  match n with
  | O => ret tt
  | S ibox =>
      when (istrue (Z.land (Z.shiftl 1 (Z.of_nat ibox)) write_mask))
        (MBOX_WRITE (Z.of_nat ibox) (nth ibox (mbxw mbc) 0)) >>
      write_boxes ibox write_mask mbc
  end.

Definition _acq200_ioctl_write_mbox (mbc : MailboxControl) : MW Z :=
  modify (upd_mbox (fun m => m <| response_received := 0 |>)) >>
  write_boxes MBOX_NUM (MBC_FROM_MBXW mbc) mbc >>
  ret 0.

(** ** Polling *)
Definition BIGTIME : Z := 0x7fffffff.
Definition time_after (a b : Z) : bool := s32 (b - a) <? 0.

(** Other contexts run for a while; at least, time passes. *)
Definition schedule : MW unit :=
  let* w := get_world in
  match sched w with
  | [] => run_event EvTick
  | e :: evs => run_event e >> set_sched' evs
  end.

Fixpoint poll_loop (fuel : nat) (itimeout end_ : Z) : MW Z :=
  match fuel with
  | O => nofuel
  | S fuel =>
      if itimeout =? BIGTIME then ret (- ETIMEDOUT)
      else
        let* ucommand := readl (MBOX BP_MB_COMMAND) in
        if istrue (Z.land ucommand BP_CI_ACK) then ret 0
        else
          when (4 <=? itimeout) schedule >>
          let* w := get_world in
          if time_after (jiffies w) end_ then ret (- ETIMEDOUT)
          else poll_loop fuel (itimeout + 1) end_
  end.

Definition acq200_poll_response (timeout : Z) : MW Z :=
  let* w := get_world in
  poll_loop (6 + length (sched w) + Z.to_nat timeout) 0 (u32 (jiffies w + timeout)).

(** ** Write, block, read *)
Definition acq200_ioctl_wbr_mbox (mbc : MailboxControl) : MW (Z * MailboxControl) :=
  let timeout := Z.land (mbc_flags mbc) MBC_FLAGS_TO in
  let* rc := down_interruptible mbox_sem in
  if istrue rc then ret (- ERESTARTSYS, mbc)
  else
    _acq200_ioctl_write_mbox mbc >>
    let* w := get_world in
    let* rc :=
      if istrue (using_interrupt (mbox_sync (dev w))) then
        if timeout =? MBC_FLAGS_TO_FOREVER then
          wait_event_interruptible mbox_wq RESPONSE_RECEIVED
        else
          let* rc := wait_event_interruptible_timeout mbox_wq RESPONSE_RECEIVED timeout in
          ret (if rc =? 0 then - ETIMEDOUT else if 0 <? rc then 0 else rc)
      else acq200_poll_response timeout in
    let* r := acq200_ioctl_read_mbox mbc in
    up mbox_sem >>
    ret (rc, snd r).

Definition acq200_mbox_ioctl (filp : File) (arg : Z)
    (action : MailboxControl -> MW (Z * MailboxControl)) : MW Z :=
  let path := PD filp in
  let* _ := path_ref path in
  let* w := get_world in
  let kmbc := mbc_at (umem w) arg in
  if istrue (copy_fault arg MBC_SZ) then ret (- EFAULT)
  else if istrue (Z.land (mbc_flags kmbc) MBC_FLAGS_ONRELEASE) then
    path_upd path (fun p => p <| mbc_on_release := kmbc |>) >> ret 0
  else
    let* r := action kmbc in
    let* rc := put_to_user arg (mbc_bytes (snd r)) in
    if istrue rc then ret (- EFAULT) else ret rc.

(** ** The ioctl entry point *)
Definition _IOC (dir type nr size : Z) : Z :=
  Z.lor (Z.lor (Z.shiftl dir 30) (Z.shiftl size 16)) (Z.lor (Z.shiftl type 8) nr).
Definition DMAGIC : Z := 0xDA.
Definition ACQ200_MBOX_IOR : Z := _IOC 2 DMAGIC 1 MBC_SZ.
Definition ACQ200_MBOX_IOWR : Z := _IOC 3 DMAGIC 3 MBC_SZ.
Definition ACQ32_IOC_MAGIC : Z := 97.
Definition ACQ32_IOG_PCIREGS_OFFSET : Z := _IOC 2 ACQ32_IOC_MAGIC 19 4.
Definition ACQ32_IOS_INTS_ENABLE : Z := _IOC 1 ACQ32_IOC_MAGIC 25 4.
Definition ACQ32_IOS_INTS_DISABLE : Z := _IOC 1 ACQ32_IOC_MAGIC 26 4.

Definition acq200_ioctl (filp : File) (cmd arg : Z) : MW Z :=
  if cmd =? ACQ200_MBOX_IOR then acq200_mbox_ioctl filp arg acq200_ioctl_read_mbox
  else if cmd =? ACQ200_MBOX_IOWR then acq200_mbox_ioctl filp arg acq200_ioctl_wbr_mbox
  else if cmd =? ACQ32_IOG_PCIREGS_OFFSET then
    let* _ := path_ref (PD filp) in
    let* w := get_world in
    let ba := u32 (Z.land (csr_pa (dev w)) (PAGE_SIZE - 1) + 0x10) in
    put_to_user arg (le_bytes 4 ba) >> ret 0
  else if cmd =? ACQ32_IOS_INTS_DISABLE then acq200_intsDisable arg
  else if cmd =? ACQ32_IOS_INTS_ENABLE then acq200_intsEnable arg
  else ret (- ENOTTY).

(** ** Commands and queries *)
Definition DEFTO : Z := HZ.

Definition acq200_sendCommand (command : Z) : MW Z :=
  let flags := Z.lor (Z.lor DEFTO (MBC_TO_MBXW (Z.shiftl 1 BP_MB_COMMAND))) (MBC_TO_MBXR 0xf) in
  let word := Z.lor (Z.lor command BP_CI_DONE) BP_CI_COMMAND in
  let* r := acq200_ioctl_wbr_mbox (mkMbc flags [word; 0; 0; 0] [0; 0; 0; 0]) in
  ret (fst r).

(** The word of [acq200_sendCommandA3A4]: the macros named are the mailbox numbers. *)
Definition A3A4_word (command : Z) : Z :=
  Z.lor (Z.lor (Z.lor (Z.lor command BP_CI_DONE) BP_CI_COMMAND) BP_MB_A3) BP_MB_A4.

Definition acq200_sendCommandA3A4 (command a3 a4 : Z) : MW Z :=
  let flags := Z.lor (Z.lor DEFTO (MBC_TO_MBXW (Z.lor (Z.lor (Z.shiftl 1 BP_MB_COMMAND)
                 (Z.shiftl 1 BP_MB_A3)) (Z.shiftl 1 BP_MB_A4)))) (MBC_TO_MBXR 0xf) in
  let* r := acq200_ioctl_wbr_mbox (mkMbc flags [A3A4_word command; a3; a4; 0] [0; 0; 0; 0]) in
  ret (fst r).

(** The result pointers [a3] and [a4] may be null; the answers, when the request succeeded. *)
Definition acq200_sendQuery (command : Z) (a3 a4 : bool) : MW (Z * option (Z * Z * Z * Z)) :=
  let flags := Z.lor (Z.lor DEFTO (MBC_TO_MBXW (Z.shiftl 1 BP_MB_COMMAND)))
                 (MBC_TO_MBXR (Z.shiftl 1 BP_MB_COMMAND)) in
  let flags := if a3 then Z.lor flags (MBC_TO_MBXR (Z.shiftl 1 BP_MB_A3)) else flags in
  let flags := if a4 then Z.lor flags (MBC_TO_MBXR (Z.shiftl 1 BP_MB_A4)) else flags in
  let word := Z.lor (Z.lor command BP_CI_QUERY) BP_CI_DONE in
  let* r := acq200_ioctl_wbr_mbox (mkMbc flags [word; 0; 0; 0] [0; 0; 0; 0]) in
  let m := mbxr (snd r) in
  ret (fst r,
    if fst r =? 0 then Some (BP_GET_A1 (nth 0 m 0), BP_GET_A2 (nth 0 m 0), nth 1 m 0, nth 2 m 0)
    else None).

(** ** acq200_core.c *)
Definition acq200_getAvailableChannels : MW Z :=
  let* r := acq200_sendQuery (BP_SET_FUNCODE BPFC_GET_NCHANNELS) false false in
  (match snd r with
   | Some (a1, a2, _, _) =>
       modify (upd_dev (fun d => d <| input_nchannels := a1 |> <| output_nchannels := a2 |>))
   | None => ret tt
   end) >>
  ret (fst r).

Definition _getHeartbeat : MW Z :=
  let* v := MBOX_READ BP_MB_STATUS in
  ret (BP_GET_HEARTBEAT v).

Definition set_heartbeat' (v : Z) : MW Z :=
  modify (upd_dev (fun d => d <| heartbeat_detected := s32 v |>)) >> ret (s32 v).

Definition acq200_getHeartbeat : MW Z :=
  let* v1 := _getHeartbeat in
  let* _ := interruptible_sleep_on_timeout private_wq (HZ / 10) in
  let* v2 := _getHeartbeat in
  if negb (v2 =? v1) then
    if v1 <? v2 then set_heartbeat' (v2 - v1)
    else
      let* _ := interruptible_sleep_on_timeout private_wq (HZ / 10) in
      let* v1 := _getHeartbeat in
      set_heartbeat' (u32 (v1 - v2))
  else
    let* _ := MBOX_READ 0 in
    let* _ := MBOX_READ 1 in
    let* _ := MBOX_READ 2 in
    let* _ := MBOX_READ 3 in
    set_heartbeat' 0.
End Mailbox.

(** ** The boxes on the bus *)

(** The selected boxes below [n], the highest first. *)
Fixpoint selected (n : nat) (mask : Z) : list nat :=
  match n with
  | O => []
  | S i => if istrue (Z.land (Z.shiftl 1 (Z.of_nat i)) mask) then i :: selected i mask else selected i mask
  end.

Definition box_writes (mbc : MailboxControl) : list Io :=
  (fun i => IoWr (MBOX (Z.of_nat i)) (u32 (nth i (mbxw mbc) 0))) <$> selected MBOX_NUM (MBC_FROM_MBXW mbc).

(** What reading the boxes left in [mbxr]. *)
Definition box_reads (mask : Z) (mbc : MailboxControl) : list Io :=
  (fun i => IoRd (MBOX (Z.of_nat i)) (nth i (mbxr mbc) 0)) <$> selected MBOX_NUM mask.

Lemma selected_lt n mask i : i ∈ selected n mask -> (i < n)%nat.
Proof.
  induction n as [|n IH]; cbn [selected]; [by intros ?%elem_of_nil|].
  case_match; rewrite ?elem_of_cons; [intros [->|?%IH]|intros ?%IH]; lia.
Qed.

(** How other contexts may have moved on: the log grows, semaphores only go up. *)
Record onward (w w' : World) : Prop := {
  on_log : iolog w `prefix_of` iolog w';
  on_sems : forall s, sem_get s w <= sem_get s w';
  on_irq : using_interrupt (mbox_sync (dev w')) = using_interrupt (mbox_sync (dev w));
  on_card : card w' = card w
}.

#[export] Instance onward_preorder : PreOrder onward.
Proof.
  split; [intros w; constructor; [done|intros; lia|done|done]|].
  intros w1 w2 w3 [? Ha ? ?] [? Hb ? ?]. constructor; [by etransitivity| |congruence..].
  intros s. specialize (Ha s). specialize (Hb s). lia.
Qed.

Section MailboxProofs.
Context `{Platform}.

Lemma write_boxes_eq n mask mbc w :
  write_boxes n mask mbc w = Done tt (w <| iolog := iolog w ++
    ((fun i => IoWr (MBOX (Z.of_nat i)) (u32 (nth i (mbxw mbc) 0))) <$> selected n mask) |>).
Proof.
  revert w. induction n as [|n IH]; intros w; cbn [write_boxes selected].
  - rewrite app_nil_r. by destruct w.
  - destruct (istrue _); cbn [when].
    + erewrite bind_done by reflexivity. rewrite IH. cbn [fmap list_fmap]. cbn.
      by rewrite <- app_assoc.
    + erewrite bind_done by reflexivity. apply IH.
Qed.

Lemma read_boxes_spec n mask mbc w : (n <= length (mbxr mbc))%nat ->
  exists mbc', read_boxes n mask mbc w = Done mbc' (w <| iolog := iolog w ++
    ((fun i => IoRd (MBOX (Z.of_nat i)) (nth i (mbxr mbc') 0)) <$> selected n mask) |>) /\
    mbc_flags mbc' = mbc_flags mbc /\ mbxw mbc' = mbxw mbc /\
    length (mbxr mbc') = length (mbxr mbc) /\
    forall i, i ∉ selected n mask -> nth i (mbxr mbc') 0 = nth i (mbxr mbc) 0.
Proof.
  revert mbc w. induction n as [|n IH]; intros mbc w Hn; cbn [read_boxes selected].
  - exists mbc. rewrite app_nil_r. split; [by destruct w|done].
  - destruct (istrue _).
    + set (v := u32 (card_reply (iolog w) (MBOX (Z.of_nat n)))).
      set (m1 := mbc <| mbxr := <[n := v]> (mbxr mbc) |>).
      set (w1 := w <| iolog := iolog w ++ [IoRd (MBOX (Z.of_nat n)) v] |>).
      assert (length (mbxr m1) = length (mbxr mbc)) as Hl1 by apply length_insert.
      destruct (IH m1 w1) as (m & Hm & Hf & Hw & Hl & Ho); [lia|].
      assert (nth n (mbxr m) 0 = v) as Hv.
      { rewrite Ho by (intros ?%selected_lt; lia). cbn.
        rewrite nth_lookup, list_lookup_insert_eq by lia. done. }
      exists m. split; [|split; [done|split; [done|split; [lia|]]]].
      * transitivity (read_boxes n mask m1 w1); [done|]. rewrite Hm. cbn [fmap list_fmap].
        rewrite Hv. cbn. by rewrite <- app_assoc.
      * intros i Hi. apply not_elem_of_cons in Hi as [Hne Hi]. rewrite Ho by done. cbn.
        rewrite !nth_lookup. by rewrite list_lookup_insert_ne.
    + erewrite bind_done by reflexivity. apply IH. lia.
Qed.

Lemma write_mbox_spec mbc w :
  _acq200_ioctl_write_mbox mbc w = Done 0
    (upd_mbox (fun m => m <| response_received := 0 |>) w <| iolog := iolog w ++ box_writes mbc |>) /\
  (Z.testbit (MBC_FROM_MBXW mbc) 0 = true ->
   last (box_writes mbc) = Some (IoWr (MBOX BP_MB_COMMAND) (u32 (nth 0 (mbxw mbc) 0)))) /\
  Forall (fun i => (i < MBOX_NUM)%nat) (selected MBOX_NUM (MBC_FROM_MBXW mbc)).
Proof.
  split; [|split].
  - unfold _acq200_ioctl_write_mbox. erewrite bind_done by reflexivity.
    erewrite bind_done by apply write_boxes_eq. done.
  - intros H0. unfold box_writes. cbn [MBOX_NUM selected].
    assert (istrue (Z.land (Z.shiftl 1 (Z.of_nat 0)) (MBC_FROM_MBXW mbc)) = true) as Hb.
    { change (Z.shiftl 1 (Z.of_nat 0)) with (2 ^ 0). rewrite Z.land_comm, land_pow2 by lia. done. }
    rewrite Hb. repeat case_match; done.
  - apply Forall_forall. intros i. apply selected_lt.
Qed.

(** C31: a mailbox request is written from the highest selected box down, so that the command box,
    when it is selected, is the last one written: the card never sees a command before its
    arguments.  The pending response flag is cleared first. *)
Theorem mailbox_command_last mbc w :
  _acq200_ioctl_write_mbox mbc w = Done 0
    (upd_mbox (fun m => m <| response_received := 0 |>) w <| iolog := iolog w ++ box_writes mbc |>) /\
  (Z.testbit (MBC_FROM_MBXW mbc) 0 = true ->
   last (box_writes mbc) = Some (IoWr (MBOX BP_MB_COMMAND) (u32 (nth 0 (mbxw mbc) 0)))) /\
  Forall (fun i => (i < MBOX_NUM)%nat) (selected MBOX_NUM (MBC_FROM_MBXW mbc)).
Proof. apply write_mbox_spec. Qed.

(** ** Time and events *)
Lemma event_onward e w w' : run_event e w = Done tt w' ->
  onward w w' /\ jiffies w' = if is_tick e then u32 (jiffies w + 1) else jiffies w.
Proof.
  intros [He Hl]%run_event_outer.
  destruct e as [| | |n dma|[]| |]; cbn [event_outer is_tick] in *; unfold outer in He;
    cbn in He; simplify_eq; (split; [constructor; [done|intros []; cbn; lia|done|unfold card in *; cbn in *; congruence]|done]).
Qed.

Lemma s32_of_mod z d : z mod 2 ^ 32 = d -> s32 z = if d <? 2 ^ 31 then d else d - 2 ^ 32.
Proof.
  intros Hd. unfold s32, swrap. change (32 - 1) with 31.
  pose proof (Z.mod_pos_bound z (2 ^ 32) ltac:(lia)) as Hr. rewrite Hd in Hr.
  rewrite <- Z.add_mod_idemp_l, Hd by lia. destruct (Z.ltb_spec d (2 ^ 31)).
  - rewrite Z.mod_small by lia. lia.
  - rewrite <- (Z.mod_unique (d + 2 ^ 31) (2 ^ 32) 1 (d - 2 ^ 31)) by lia. lia.
Qed.

(** Not yet after [end_], while at most 65535 ticks are missing; and one tick more is after. *)
Lemma time_after_before j end_ : (end_ - j) mod 2 ^ 32 <= 0xffff -> time_after j end_ = false.
Proof.
  intros Hd. unfold time_after. rewrite (s32_of_mod _ _ eq_refl).
  pose proof (Z.mod_pos_bound (end_ - j) (2 ^ 32) ltac:(lia)).
  apply Z.ltb_ge. case_match; rewrite ?Z.ltb_lt, ?Z.ltb_ge in *; lia.
Qed.

Lemma tick_left j end_ : (end_ - j) mod 2 ^ 32 <= 0xffff ->
  if (end_ - j) mod 2 ^ 32 =? 0 then time_after (u32 (j + 1)) end_ = true
  else (end_ - u32 (j + 1)) mod 2 ^ 32 = (end_ - j) mod 2 ^ 32 - 1.
Proof.
  intros Hd. pose proof (Z.mod_pos_bound (end_ - j) (2 ^ 32) ltac:(lia)).
  assert ((end_ - u32 (j + 1)) mod 2 ^ 32 = ((end_ - j) mod 2 ^ 32 - 1) mod 2 ^ 32) as Hm.
  { unfold u32, wrap. rewrite Zminus_mod_idemp_r, Zminus_mod_idemp_l. f_equal. lia. }
  destruct (Z.eqb_spec ((end_ - j) mod 2 ^ 32) 0) as [E|E].
  - unfold time_after. rewrite (s32_of_mod _ _ eq_refl), Hm, E. done.
  - rewrite Hm. apply Z.mod_small. lia.
Qed.

(** The last thing that happened was that the card acknowledged. *)
Definition acked (w : World) : Prop :=
  exists l v, iolog w = l ++ [IoRd (MBOX BP_MB_COMMAND) v] /\ Z.testbit v BP_CI_ACK_BIT = true.

Definition poll_post (w0 w : World) (rc : Z) (w' : World) : Prop :=
  evolves w0 w' /\ onward w w' /\ ((rc = 0 /\ acked w') \/ rc = - ETIMEDOUT).

Lemma schedule_spec w0 w : dev_inv w0 -> evolves w0 w ->
  total schedule (fun _ w' => evolves w0 w' /\ onward w w' /\
    ((sched w' = tl (sched w) /\ (length (sched w') < length (sched w))%nat /\
      jiffies w' = jiffies w) \/
     (sched w' = tl (sched w) /\ jiffies w' = u32 (jiffies w + 1)))) w.
Proof.
  intros Hi He. unfold schedule, total. erewrite bind_done by reflexivity.
  destruct (sched w) as [|e evs] eqn:Hs.
  - split; [own_same|]. split; [constructor; try done; intros []; cbn; lia|]. right. by split; [exact Hs|].
  - pose proof (run_event_spec e w (ev_inv _ _ He)) as Hev. unfold total in Hev.
    destruct (run_event e w) as [[] w1| | |] eqn:Er; try done.
    erewrite bind_done by exact Er. destruct (event_onward e w w1 Er) as [Ho Hj].
    assert (evolves w0 w1) as He1 by (by eapply evolves_trans).
    split; [own_same|]. split; [destruct Ho as [? Hos ? ?]; constructor; [done|intros s; specialize (Hos s); by destruct s|done|done]|].
    cbn. rewrite Hj. destruct (is_tick e); [right; done|left]. split; [done|]. split; [lia|done].
Qed.

Lemma poll_loop_spec fuel it end_ w0 w : dev_inv w0 -> evolves w0 w -> 0 <= it ->
  (end_ - jiffies w) mod 2 ^ 32 <= 0xffff ->
  (Z.to_nat (4 - it) + length (sched w) + Z.to_nat ((end_ - jiffies w) mod 2 ^ 32) < fuel)%nat ->
  total (poll_loop fuel it end_) (poll_post w0 w) w.
Proof.
  intros Hi. revert it w. induction fuel as [|fuel IH]; intros it w He Hit Hd Hf; [lia|].
  cbn [poll_loop]. destruct (it =? BIGTIME); [split; [done|]; split; [done|by right]|].
  run. apply total_readl. set (v := u32 _). set (w1 := w <| iolog := _ |>).
  assert (evolves w0 w1) as He1 by (subst w1; own_same).
  assert (onward w w1) as Ho1 by (constructor; [by eexists|by intros []|done|done]).
  destruct (istrue (Z.land v BP_CI_ACK)) eqn:Hack.
  { split; [done|]. split; [done|]. left. split; [done|]. exists (iolog w), v. split; [done|].
    change BP_CI_ACK with (2 ^ 31) in Hack. by rewrite land_pow2 in Hack by lia. }
  apply total_bind. unfold when. destruct (Z.leb_spec 4 it).
  - eapply total_mono; [by apply (schedule_spec w0)|]. intros [] w2 (He2 & Ho2 & Hcase).
    assert (onward w w2) as Ho by (by etransitivity).
    change (total (if time_after (jiffies w2) end_ then ret (- ETIMEDOUT)
      else poll_loop fuel (it + 1) end_) (poll_post w0 w) w2).
    change (jiffies w1) with (jiffies w) in Hcase. change (sched w1) with (sched w) in Hcase.
    assert (Hrec : (end_ - jiffies w2) mod 2 ^ 32 <= 0xffff ->
      (length (sched w2) + Z.to_nat ((end_ - jiffies w2) mod 2 ^ 32) < fuel)%nat ->
      total (poll_loop fuel (it + 1) end_) (poll_post w0 w) w2).
    { intros Hd2 Hf2. eapply total_mono; [apply IH; [done|lia|done|lia]|].
      intros rc w' (? & Ho' & ?). split; [done|]. split; [|done]. by etransitivity. }
    pose proof (tick_left (jiffies w) end_ Hd) as Ht.
    assert (length (tl (sched w)) <= length (sched w))%nat by (destruct (sched w); simpl; lia).
    pose proof (Z.mod_pos_bound (end_ - jiffies w) (2 ^ 32) ltac:(lia)).
    destruct Hcase as [(Hs & Hl & Hj)|(Hs & Hj)]; rewrite Hj in *.
    + rewrite time_after_before by done. apply Hrec; [done|lia].
    + rewrite Hs in *. destruct (Z.eqb_spec ((end_ - jiffies w) mod 2 ^ 32) 0) as [E|E].
      * rewrite Ht. split; [done|]. split; [done|by right].
      * rewrite time_after_before by lia. apply Hrec; lia.
  - apply total_ret. change (total (if time_after (jiffies w) end_ then ret (- ETIMEDOUT)
      else poll_loop fuel (it + 1) end_) (poll_post w0 w) w1).
    rewrite time_after_before by done.
    eapply total_mono; [apply IH; [done|lia|done|]|].
    { change (jiffies w1) with (jiffies w). change (sched w1) with (sched w). lia. }
    intros rc w' (? & Ho' & ?). split; [done|]. split; [|done]. by etransitivity.
Qed.

Lemma poll_response_spec timeout w0 w : dev_inv w0 -> evolves w0 w -> 0 <= timeout <= 0xffff ->
  total (acq200_poll_response timeout) (poll_post w0 w) w.
Proof.
  intros Hi He Ht. unfold acq200_poll_response, total. erewrite bind_done by reflexivity.
  assert ((u32 (jiffies w + timeout) - jiffies w) mod 2 ^ 32 = timeout) as E.
  { unfold u32, wrap. rewrite Zminus_mod_idemp_l. replace (jiffies w + timeout - jiffies w) with timeout by lia.
    apply Z.mod_small. lia. }
  apply poll_loop_spec; [done|done|lia|rewrite E; lia|rewrite E; lia].
Qed.

(** A polled request that can take its semaphore. *)
Definition mbox_ready (w : World) : Prop :=
  dev_inv w /\ using_interrupt (mbox_sync (dev w)) = 0 /\ 0 < mbox_mutex (mbox_sync (dev w)).

Definition wbr_post (mbc : MailboxControl) (w : World) (r : Z * MailboxControl) (w' : World) : Prop :=
  sem_get mbox_sem w <= sem_get mbox_sem w' /\ (fst r = 0 \/ fst r = - ETIMEDOUT) /\
  exists polls, iolog w' = iolog w ++ box_writes mbc ++ polls ++ box_reads (MBC_FROM_MBXR mbc) (snd r) /\
    (fst r = 0 -> exists l v, iolog w ++ box_writes mbc ++ polls = l ++ [IoRd (MBOX BP_MB_COMMAND) v] /\
      Z.testbit v BP_CI_ACK_BIT = true).

Lemma wbr_mbox_spec mbc w : mbox_ready w -> length (mbxr mbc) = MBOX_NUM ->
  total (acq200_ioctl_wbr_mbox mbc) (fun r w' => mbox_ready w' /\ card w' = card w /\ wbr_post mbc w r w') w.
Proof.
  intros (Hi & Hu & Hm) Hl. unfold acq200_ioctl_wbr_mbox, total. cbv zeta.
  erewrite bind_done.
  2:{ unfold down_interruptible. erewrite bind_done by reflexivity. cbn [sem_get].
      rewrite (proj2 (Z.ltb_lt _ _) Hm). reflexivity. }
  cbn [istrue Z.eqb negb]. set (w1 := sem_upd mbox_sem _ w).
  erewrite bind_done by apply (proj1 (write_mbox_spec mbc w1)).
  set (w2 := upd_mbox _ w1 <| iolog := _ |>). erewrite bind_done by reflexivity.
  change (using_interrupt (mbox_sync (dev w2))) with (using_interrupt (mbox_sync (dev w))).
  rewrite Hu. change (istrue 0) with false. cbv iota.
  assert (evolves w w2) as He by (apply evolves_same; [done|by constructor]).
  assert (0 <= Z.land (mbc_flags mbc) MBC_FLAGS_TO <= 0xffff) as Ht.
  { pose proof (land_mask_range (mbc_flags mbc) 16 ltac:(lia)). change MBC_FLAGS_TO with (2 ^ 16 - 1). lia. }
  apply (total_bind (acq200_poll_response _)).
  eapply total_mono; [by apply (poll_response_spec _ w w2)|].
  intros rc w3 (He3 & [[polls Hlog] Hsem Hirq Hcard] & Hrc). cbv beta in Hlog.
  destruct (read_boxes_spec MBOX_NUM (MBC_FROM_MBXR mbc) mbc w3) as (m & Hread & _ & _ & _ & _);
    [by rewrite Hl|].
  unfold total, acq200_ioctl_read_mbox. erewrite bind_done by (erewrite bind_done by exact Hread; reflexivity).
  erewrite bind_done by reflexivity. cbn [ret snd fst].
  set (w4 := sem_upd _ _ _). assert (evolves w w4) as He4 by (subst w4; own_same).
  assert (sem_get mbox_sem w <= sem_get mbox_sem w4) as Hge.
  { specialize (Hsem mbox_sem). cbn in *. lia. }
  split. { split; [apply He4|]. cbn in *. split; [congruence|lia]. }
  split; [exact Hcard|].
  unfold wbr_post. cbn [fst snd]. split; [done|].
  split; [destruct Hrc as [[-> _]| ->]; auto|].
  exists polls. split.
  - change (iolog w4) with (iolog w3 ++ box_reads (MBC_FROM_MBXR mbc) m). rewrite Hlog.
    change (iolog w2) with (iolog w ++ box_writes mbc). by rewrite <- !app_assoc.
  - intros ->. destruct Hrc as [[_ (l & v & Ha & Hb)]|]; [|done]. exists l, v. split; [|done].
    rewrite <- Ha, Hlog. change (iolog w2) with (iolog w ++ box_writes mbc). by rewrite <- app_assoc.
Qed.

(** C17: a mailbox request with polling always comes back, whatever other contexts do meanwhile: it
    writes the selected boxes, then succeeds, right after the card acknowledged the command box, or
    reports a timeout; then it reads the selected boxes back, and it releases the mailbox
    semaphore it took. *)
Theorem wbr_mbox_polling mbc w :
  dev_inv w -> using_interrupt (mbox_sync (dev w)) = 0 -> 0 < mbox_mutex (mbox_sync (dev w)) ->
  length (mbxr mbc) = MBOX_NUM ->
  total (acq200_ioctl_wbr_mbox mbc) (fun '(rc, mbc') w' =>
    dev_inv w' /\ sem_get mbox_sem w <= sem_get mbox_sem w' /\ (rc = 0 \/ rc = - ETIMEDOUT) /\
    exists polls, iolog w' = iolog w ++ box_writes mbc ++ polls ++ box_reads (MBC_FROM_MBXR mbc) mbc' /\
      (rc = 0 -> exists l v, iolog w ++ box_writes mbc ++ polls = l ++ [IoRd (MBOX BP_MB_COMMAND) v] /\
        Z.testbit v BP_CI_ACK_BIT = true)) w.
Proof.
  intros Hi Hu Hm Hl. eapply total_mono; [by apply wbr_mbox_spec|].
  intros [rc m] w' [[? _] [_ [? [? ?]]]]. done.
Qed.

(** Commands and queries always come back, and leave the mailboxes ready for the next one. *)
Lemma sendCommand_total command w : mbox_ready w ->
  total (acq200_sendCommand command) (fun rc w' => mbox_ready w' /\ card w' = card w /\ (rc = 0 \/ rc = - ETIMEDOUT)) w.
Proof.
  intros Hr. apply total_bind. eapply total_mono; [by apply wbr_mbox_spec|]. intros r w' (? & ? & _ & ? & _). done.
Qed.

Lemma sendCommandA3A4_total command a3 a4 w : mbox_ready w ->
  total (acq200_sendCommandA3A4 command a3 a4) (fun rc w' => mbox_ready w' /\ card w' = card w /\ (rc = 0 \/ rc = - ETIMEDOUT)) w.
Proof.
  intros Hr. apply total_bind. eapply total_mono; [by apply wbr_mbox_spec|]. intros r w' (? & ? & _ & ? & _). done.
Qed.

Lemma getAvailableChannels_total w : mbox_ready w ->
  total acq200_getAvailableChannels (fun rc w' => mbox_ready w' /\ card w' = card w /\ (rc = 0 \/ rc = - ETIMEDOUT)) w.
Proof.
  intros Hr. apply total_bind. unfold acq200_sendQuery. cbv zeta. apply total_bind.
  eapply total_mono; [by apply wbr_mbox_spec|]. intros r w' ((Hi & Hu & Hm) & Hc & _ & Hrc & _).
  apply total_ret. cbn [fst snd]. apply total_bind. destruct (fst r =? 0); cbn.
  - split; [|done]. split; [|done]. eapply ev_inv, (evolves_same w'); [done|]. by constructor.
  - done.
Qed.
End MailboxProofs.

(** ** What the ioctl reports *)
Section MailboxIoctl.
Context `{Platform}.

(** The ioctl overwrites the result of the mailbox request with that of the copy to the user:
    when both copies succeed the ioctl returns 0, whatever the request returned, a timeout or an
    interruption included; the user gets the boxes as the request left them. *)
Theorem mbox_ioctl_hides_error filp arg action w p rc m w1 :
  paths w !! PD filp = Some p ->
  copy_fault arg MBC_SZ = 0 -> Z.land (mbc_flags (mbc_at (umem w) arg)) MBC_FLAGS_ONRELEASE = 0 ->
  action (mbc_at (umem w) arg) w = Done (rc, m) w1 -> length (mbc_bytes m) = 36%nat ->
  acq200_mbox_ioctl filp arg action w =
    Done 0 (w1 <| umem := mem_write (umem w1) arg (mbc_bytes m) |>).
Proof.
  intros Hp Hf Ho Ha Hl. unfold acq200_mbox_ioctl.
  erewrite bind_done by (by apply path_ref_eq). erewrite bind_done by reflexivity. cbv zeta.
  rewrite Hf, Ho. change (istrue 0) with false. cbv iota.
  erewrite bind_done by exact Ha. cbn [snd].
  assert (put_to_user arg (mbc_bytes m) w1 =
    Done 0 (w1 <| umem := mem_write (umem w1) arg (mbc_bytes m) |>)) as Hput.
  { unfold put_to_user, user_copied. rewrite Hl. change (Z.of_nat 36) with MBC_SZ. rewrite Hf.
    rewrite firstn_all2; [done|]. rewrite Hl. unfold MBC_SZ. lia. }
  by erewrite bind_done by exact Hput.
Qed.

(** [acq200_sendCommandA3A4] names the mailbox numbers 1 and 2 where the flags for the boxes A3
    and A4 belong: the command word does not say that A3 and A4 are there, and its argument A2 is 3. *)
Theorem sendCommandA3A4_flags fc a1 : 0 <= fc < 256 -> 0 <= a1 < 256 ->
  let word := A3A4_word (Z.lor (BP_SET_FUNCODE fc) (BP_SET_A1 a1)) in
  Z.testbit word BP_CI_A3_BIT = false /\ Z.testbit word BP_CI_A4_BIT = false /\
  BP_GET_A2 word = 3 /\ BP_GET_FUNCODE word = fc /\ BP_GET_A1 word = a1.
Proof.
  intros Hf Ha. cbv zeta.
  assert (A3A4_word (Z.lor (BP_SET_FUNCODE fc) (BP_SET_A1 a1)) = command_word 0x60 fc a1 3) as ->.
  { unfold A3A4_word, command_word, BP_SET_A2.
    change BP_CI_DONE with (Z.shiftl 0x40 24). change BP_CI_COMMAND with (Z.shiftl 0x20 24).
    change (Z.shiftl 0x60 24) with (Z.lor (Z.shiftl 0x40 24) (Z.shiftl 0x20 24)).
    change 3 with (Z.lor BP_MB_A3 BP_MB_A4).
    apply Z.bits_inj'. intros i Hi. rewrite !Z.lor_spec. btauto. }
  rewrite command_word_sum by lia. unfold BP_GET_A2, BP_GET_FUNCODE, BP_GET_A1.
  rewrite !Z.testbit_odd. change BP_CI_A3_BIT with 27. change BP_CI_A4_BIT with 26.
  split; [|split; [|split; [|split; bitfield]]; [|bitfield]].
  - rewrite shiftr_div by lia.
    replace ((3 + a1 * 2 ^ 8 + fc * 2 ^ 16 + 96 * 2 ^ 24) / 2 ^ 27) with 12; [done|].
    apply Z.div_unique with (3 + a1 * 2 ^ 8 + fc * 2 ^ 16); lia.
  - rewrite shiftr_div by lia.
    replace ((3 + a1 * 2 ^ 8 + fc * 2 ^ 16 + 96 * 2 ^ 24) / 2 ^ 26) with 24; [done|].
    apply Z.div_unique with (3 + a1 * 2 ^ 8 + fc * 2 ^ 16); lia.
Qed.
End MailboxIoctl.
