(* ===== verification/Waits.v ===== *)
(** * What a wait is made of

    The functions that sleep do two things: they let the events happen that are next in [sched], and they
    make updates of their own, which concern no handler.  So a relation that holds of each event, taken
    off [sched], and of each such update holds between the states before and after every wait. *)

From S2P Require Import Prelude BusProt StreamBuf Pool Device Rch I2o Isr Kernel Outer Owner Frames Sleep Mask Mailbox.

(** An update that concerns neither the handlers, nor the events to come, nor pending signals, nor the backstop
    thread. *)
Definition minor_update (w w' : World) : Prop :=
  (sched w', rchs w', queued w', sigpending w', i2o_backstop (dev w')) =
  (sched w, rchs w, queued w, sigpending w, i2o_backstop (dev w)).

#[export] Instance minor_update_preorder : PreOrder minor_update.
Proof. split; [done|]. unfold minor_update. congruence. Qed.

(** Takes a computation apart as [within] does, the known parts first. *)
Ltac waits step := repeat
  first [ step | apply within_bind; [typeclasses eauto| |intros ?]
        | apply within_when; [typeclasses eauto|] | apply within_if
        | solve [auto with c_keeps typeclass_instances]
        | match goal with |- within _ (match ?x with _ => _ end) => destruct x end ].

Section Waits.
Context `{Platform}.
Context (R : World -> World -> Prop) `{!PreOrder R}.
Context (R_event : forall e evs w w1, sched w = e :: evs -> run_event e w = Done tt w1 -> R w (w1 <| sched := evs |>)).
Context (R_minor : forall w w', minor_update w w' -> R w w').

Lemma within_minor {A} (m : MW A) : within minor_update m -> within R m.
Proof. by apply within_mono. Qed.

(** The rest of a sleep after its first event. *)
Definition ends_in {A} (w : World) (o : Outcome World A) : Prop :=
  match o with Done _ w' => R w w' | _ => True end.

Lemma after_event {A} e evs (k : MW A) w : sched w = e :: evs ->
  (forall w1, sched w1 = evs -> ends_in w1 (k w1)) -> ends_in w ((run_event e >> set_sched' evs >> k) w).
Proof.
  intros Hs Hk. unfold ends_in, bind. destruct (run_event e w) as [[] w1| | |] eqn:E; try done. cbn [set_sched' modify].
  pose proof (Hk (w1 <| sched := evs |>) eq_refl) as Hr. unfold ends_in in Hr.
  destruct (k _) as [a w2| | |]; try done. etransitivity; [by eapply R_event|done].
Qed.

Lemma ends_in_trans {A} w w1 (o : Outcome World A) : R w w1 -> ends_in w1 o -> ends_in w o.
Proof. unfold ends_in. destruct o; try done. by transitivity w1. Qed.

Lemma ends_minor {A} w w1 (o : Outcome World A) : minor_update w w1 -> ends_in w1 o -> ends_in w o.
Proof. intros Hm. by apply ends_in_trans, R_minor. Qed.

(** Going on a queue is a minor update. *)
Definition queue_minor (q : WaitQ) : Prop := within minor_update (enqueue q).

Lemma ends_enqueue {A} q (k : MW A) w : queue_minor q ->
  (forall w1, sched w1 = sched w -> ends_in w1 (k w1)) -> ends_in w ((enqueue q >> k) w).
Proof.
  intros Hq Hk. specialize (Hq w). unfold bind. destruct (enqueue q w) as [[] w1| | |]; try exact I.
  apply (ends_minor w w1); [done|]. apply Hk. unfold minor_update in Hq. congruence.
Qed.

Lemma wait_from_ends q cond evs w : queue_minor q -> sched w = evs -> ends_in w (wait_from q cond evs w).
Proof.
  intros Hq. revert w. induction evs as [|e evs IH]; intros w Hs; cbn [wait_from]; [done|].
  apply after_event; [done|]. intros w1 Hs1. unfold bind at 1, get_world at 1. destruct (_ || _); [|by apply IH].
  destruct (cond w1); [unfold ends_in; cbn; reflexivity|]. destruct (sigpending w1); [unfold ends_in; cbn; reflexivity|].
  apply ends_enqueue; [done|]. intros w2 Hs2. apply IH. congruence.
Qed.

Lemma wait_within q cond : queue_minor q -> within R (wait_event_interruptible q cond).
Proof.
  intros Hq w. unfold wait_event_interruptible. unfold bind at 1, get_world at 1.
  destruct (cond w); [cbn; reflexivity|]. destruct (sigpending w); [cbn; reflexivity|].
  apply (ends_enqueue q); [done|]. intros w1 Hs. by apply wait_from_ends.
Qed.

Lemma wait_timeout_from_ends q cond evs left w : queue_minor q -> sched w = evs ->
  ends_in w (wait_timeout_from q cond evs left w).
Proof.
  intros Hq. revert left w. induction evs as [|e evs IH]; intros left w Hs; cbn [wait_timeout_from];
    destruct (left <=? 0); try (unfold ends_in; cbn; reflexivity). cbv zeta.
  apply after_event; [done|]. intros w1 Hs1. unfold bind at 1, get_world at 1.
  destruct (_ <=? 0); [unfold ends_in; cbn; reflexivity|]. destruct (_ || _); [|by apply IH].
  destruct (cond w1); [unfold ends_in; cbn; reflexivity|]. destruct (sigpending w1); [unfold ends_in; cbn; reflexivity|].
  apply ends_enqueue; [done|]. intros w2 Hs2. apply IH. congruence.
Qed.

Lemma wait_timeout_within q cond t : queue_minor q -> within R (wait_event_interruptible_timeout q cond t).
Proof.
  intros Hq w. unfold wait_event_interruptible_timeout. unfold bind at 1, get_world at 1.
  destruct (cond w); [cbn; reflexivity|]. destruct (sigpending w); [cbn; reflexivity|].
  apply (ends_enqueue q); [done|]. intros w1 Hs. by apply wait_timeout_from_ends.
Qed.

Lemma sleep_from_ends q evs left w : sched w = evs -> ends_in w (sleep_from q evs left w).
Proof.
  revert left w. induction evs as [|e evs IH]; intros left w Hs; cbn [sleep_from];
    destruct (left <=? 0); try (unfold ends_in; cbn; reflexivity). cbv zeta.
  apply after_event; [done|]. intros w1 Hs1. unfold bind at 1, get_world at 1.
  destruct (_ <=? 0); [unfold ends_in; cbn; reflexivity|]. destruct (_ || _); [unfold ends_in; cbn; reflexivity|by apply IH].
Qed.

Lemma pool_sleep_within : within R pool_sleep.
Proof.
  intros w. unfold pool_sleep. unfold bind at 1, get_world at 1. destruct (_ && _); [done|].
  unfold interruptible_sleep_on_timeout. unfold bind at 1, get_world at 1. destruct (sigpending w).
  - destruct (sched w) as [|e evs] eqn:Hs; [cbn; reflexivity|]. apply (after_event e evs (ret 1000)); [done|].
    intros w1 _. unfold ends_in. cbn. reflexivity.
  - apply (ends_enqueue pool_sleepq); [intros v; reflexivity|]. intros w1 Hs. by apply sleep_from_ends.
Qed.

Lemma down_from_ends s evs w : sched w = evs -> ends_in w (down_from s evs w).
Proof.
  revert w. induction evs as [|e evs IH]; intros w Hs; cbn [down_from]; [done|].
  apply after_event; [done|]. intros w1 Hs1. unfold bind at 1, get_world at 1. destruct (0 <? _).
  - apply R_minor. by destruct s.
  - destruct (sigpending w1); [unfold ends_in; cbn; reflexivity|by apply IH].
Qed.

Lemma down_within s : within R (down_interruptible s).
Proof.
  intros w. unfold down_interruptible. unfold bind at 1, get_world at 1. destruct (0 <? _).
  - apply R_minor. by destruct s.
  - destruct (sigpending w); [cbn; reflexivity|by apply down_from_ends].
Qed.

(** ** The allocator *)
Lemma alloc_within {A} `{PoolSleeper World A} : (forall f, within minor_update (modify (host_set_pool (A := A) f))) ->
  within R (host_sleep (A := A)) -> within R (_alloc (A := A)).
Proof.
  intros Hset Hsleep. unfold _alloc. apply within_bind; [done|intros w; cbn; reflexivity|]. intros fuel.
  apply within_bind; [done|intros w; cbn; reflexivity|]. intros p0. generalize (INCR p0 (cursor p0)). clear p0.
  induction fuel as [|fuel IH]; intros i; cbn [_alloc_loop]; [done|].
  within ltac:(first [apply within_minor, Hset | apply Hsleep | apply IH]).
Qed.

Lemma alloc_rch_within : within R acq200_pool_alloc_rch.
Proof. apply alloc_within; [intros f w; reflexivity|apply pool_sleep_within]. Qed.
Lemma alloc_mapping_within d : within R (acq200_pool_alloc_mapping d).
Proof. apply alloc_within; [intros f w; reflexivity|apply pool_sleep_within]. Qed.

(** ** Mailbox requests *)
Lemma readl_within reg : within R (readl reg).
Proof. apply within_minor. intros w. reflexivity. Qed.
Lemma writel_within v reg : within R (writel v reg).
Proof. apply within_minor. intros w. reflexivity. Qed.

Lemma schedule_within : within R schedule.
Proof.
  intros w. unfold schedule. unfold bind at 1, get_world at 1. destruct (sched w) as [|e evs] eqn:Hs.
  - apply R_minor. reflexivity.
  - pose proof (after_event e evs (ret tt) w Hs) as Ha. unfold ends_in, bind in *.
    destruct (run_event e w) as [[] w1| | |] eqn:E; [|done..]. cbn [set_sched' modify] in *. apply Ha.
    intros w2 _. cbn. reflexivity.
Qed.

Lemma poll_loop_within fuel i e : within R (poll_loop fuel i e).
Proof.
  revert i. induction fuel as [|fuel IH]; intros i; cbn [poll_loop]; [done|].
  waits ltac:(first [apply readl_within | apply schedule_within | apply IH]).
Qed.

Lemma read_boxes_within n mask mbc : within R (read_boxes n mask mbc).
Proof.
  revert mbc. induction n as [|n IH]; intros mbc; cbn [read_boxes]; unfold MBOX_READ;
    waits ltac:(first [apply readl_within | apply IH]).
Qed.

Lemma write_boxes_within n mask mbc : within R (write_boxes n mask mbc).
Proof.
  induction n as [|n IH]; cbn [write_boxes]; unfold MBOX_WRITE; waits ltac:(first [apply writel_within | apply IH]).
Qed.

Lemma wbr_within mbc : within R (acq200_ioctl_wbr_mbox mbc).
Proof.
  unfold acq200_ioctl_wbr_mbox, _acq200_ioctl_write_mbox, acq200_ioctl_read_mbox, acq200_poll_response, up. cbv zeta.
  waits ltac:(first [apply down_within | apply wait_within | apply wait_timeout_within | apply poll_loop_within
    | apply read_boxes_within | apply write_boxes_within | apply within_minor, within_modify; intros ?; reflexivity
    | intros ?; reflexivity]).
Qed.
End Waits.

(** A computation that ends well and stays within a relation. *)
Lemma safe_within (R : World -> World -> Prop) {A} (m : MW A) Q w : within R m -> safe m Q w ->
  safe m (fun a w' => Q a w' /\ R w w') w.
Proof. intros Hr. specialize (Hr w). unfold safe. by destruct (m w). Qed.

Lemma total_within (R : World -> World -> Prop) {A} (m : MW A) Q w : within R m -> total m Q w ->
  total m (fun a w' => Q a w' /\ R w w') w.
Proof. intros Hr. specialize (Hr w). unfold total. by destruct (m w). Qed.

(** ** A pool's allocator comes to an end *)
(** No signal is pending, and none comes. *)
Definition calm (w : World) : Prop := sigpending w = false /\ EvSignal ∉ sched w.

Definition stays_calm (w w' : World) : Prop := calm w -> calm w'.
#[export] Instance stays_calm_preorder : PreOrder stays_calm.
Proof. split; unfold stays_calm; [by intros w|intros w1 w2 w3; auto]. Qed.

Section Calm.
Context `{Platform}.

Lemma calm_event e evs w w1 : sched w = e :: evs -> run_event e w = Done tt w1 -> calm w -> calm (w1 <| sched := evs |>).
Proof.
  intros Hs E [Hc Hn]. rewrite Hs in Hn. apply not_elem_of_cons in Hn as [Hne Hn].
  apply run_event_quiet in E as [Ho _]. split; [|done]. unfold event_outer, outer in Ho. cbn.
  destruct e as [| | | |s| |]; try done; cbn in Ho; try congruence. destruct s; cbn in Ho; congruence.
Qed.

Lemma calm_sleep w0 w : dev_inv w0 -> evolves w0 w -> calm w -> total pool_sleep (fun _ w' => calm w') w.
Proof.
  intros Hi He Hc. assert (total pool_sleep (sleep_post w0 (length (sched w))) w) as Ht.
  { unfold pool_sleep, total. erewrite bind_done by reflexivity. destruct Hc as [Hs _].
    rewrite Hs. apply pool_sleep_total; [done..|]. by rewrite Hs. }
  eapply total_mono; [apply (total_within stays_calm); [|exact Ht]|by intros ? ? [_ ?]; auto].
  apply (pool_sleep_within _).
  - unfold stays_calm. intros. by eapply calm_event.
  - unfold minor_update, stays_calm, calm. intros v v' Hm. injection Hm as -> _ _ -> _. done.
Qed.

#[export] Instance handlers_calm w0 (Hi : dev_inv w0) : PoolHostCalm World nat (ages w0) calm.
Proof. split. intros w [He _]. by apply (calm_sleep w0). Qed.
#[export] Instance mappings_calm w0 (Hi : dev_inv w0) : PoolHostCalm World Kbuf (ages w0) calm.
Proof. split. intros w [He _]. by apply (calm_sleep w0). Qed.
End Calm.

(** ** The requests of the other paths *)
(** Handler [r] waits for a reply, and not for path [p]. *)
Definition foreign (p : nat) (w : World) (r : nat) (x : ReturnCommandHandler) : Prop :=
  r ∈ queued w /\ rchs w !! r = Some x /\ rpath x <> Some p.

(** No request of another path appears, changes or goes. *)
Definition untouched (p : nat) (w w' : World) : Prop :=
  sched w' = sched w /\ forall r x, foreign p w' r x <-> foreign p w r x.

(** One step of a call for path [p]: an event, the next in turn, or an update that leaves the requests of
    the other paths as they are. *)
Inductive own_step `{Platform} (p : nat) (w : World) : World -> Prop :=
  | own_event e evs w1 : sched w = e :: evs -> run_event e w = Done tt w1 -> own_step p w (w1 <| sched := evs |>)
  | own_update w' : untouched p w w' -> own_step p w w'.

(** Whatever became of the requests of the other paths, the events did: a reply that was delivered, by the
    interrupt or the bottom half, frees its handler. *)
Definition spared `{Platform} (p : nat) : World -> World -> Prop := rtc (own_step p).

Section Spared.
Context `{Platform} (p : nat).

#[export] Instance spared_preorder : PreOrder (spared p).
Proof. unfold spared. split; apply _. Qed.

Lemma spared_untouched w w' : untouched p w w' -> spared p w w'.
Proof. intros Hu. by apply rtc_once, own_update. Qed.

Lemma spared_event e evs w w1 : sched w = e :: evs -> run_event e w = Done tt w1 -> spared p w (w1 <| sched := evs |>).
Proof. intros. by eapply rtc_once, own_event. Qed.

Lemma spared_same w w' : sched w' = sched w -> rchs w' = rchs w -> queued w' = queued w -> spared p w w'.
Proof. intros Hs Hr Hq. apply spared_untouched. split; [done|]. intros r x. unfold foreign. by rewrite Hr, Hq. Qed.

Lemma spared_minor w w' : minor_update w w' -> spared p w w'.
Proof. unfold minor_update. intros Hm. apply spared_same; congruence. Qed.

(** Changes to the own handlers do not count. *)
Lemma spared_own w w' r : sched w' = sched w ->
  (forall r', r' <> r -> rchs w' !! r' = rchs w !! r' /\ (r' ∈ queued w' <-> r' ∈ queued w)) ->
  (forall x, ~ foreign p w r x) -> (forall x, ~ foreign p w' r x) -> spared p w w'.
Proof.
  intros Hs Ho Hn Hn'. apply spared_untouched. split; [done|]. intros r' x.
  destruct (decide (r' = r)) as [->|Hne]; [by split; intros []%Hn' || intros []%Hn|].
  destruct (Ho r' Hne) as [Hr Hq]. unfold foreign. by rewrite Hr, Hq.
Qed.

(** What a call that sleeps may do to others. *)
Lemma spared_waits {A} (m : MW A) : (forall R, PreOrder R ->
    (forall e evs w w1, sched w = e :: evs -> run_event e w = Done tt w1 -> R w (w1 <| sched := evs |>)) ->
    (forall w w', minor_update w w' -> R w w') -> within R m) -> within (spared p) m.
Proof. intros Hm. apply Hm; [apply _|apply spared_event|apply spared_minor]. Qed.
End Spared.
