(* ===== verification/Exclusion.v ===== *)
(** * acq200.c: the mailboxes, used by several processes

    A mailbox request takes the semaphore, writes the mailboxes, waits for the card's answer, reads the
    mailboxes, and releases the semaphore.  Here the requests of several processes are cut at their
    sleeps and interleaved, with each other and with whatever else the driver does: [elsewhere] is
    what the requests rely on, that nobody else touches the semaphore and writes a mailbox.  Every
    event keeps to it, but for the release of the semaphore by a process that is not in the model.

    So a request is a transaction on the bus: between its writes and its reads no mailbox is written. *)

From S2P Require Import Prelude BusProt StreamBuf Pool Device Rch I2o Isr Kernel Outer Mask Mailbox.

Inductive MboxPc : Type :=
| Mbox_wants (mbc : MailboxControl)
| Mbox_polls (mbc : MailboxControl) (itimeout end_ : Z)
| Mbox_scheduled (mbc : MailboxControl) (itimeout end_ : Z)
| Mbox_waits (mbc : MailboxControl)
| Mbox_done (rc : Z) (mbc : MailboxControl).

#[export] Instance MailboxControl_eq_dec : EqDecision MailboxControl.
Proof. solve_decision. Defined.
#[export] Instance MboxPc_eq_dec : EqDecision MboxPc.
Proof. solve_decision. Defined.

(** What ends a sleep, or lets a poll go on. *)
Inductive MboxTurn : Type := Goes_on | Gets_signal | Gets_answer | Expires.

Section Segments.
Context `{Platform}.

(** The end of [acq200_ioctl_wbr_mbox]. *)
Definition mbox_ends (mbc : MailboxControl) (rc : Z) : MW MboxPc :=
  let* r := acq200_ioctl_read_mbox mbc in
  up mbox_sem >>
  ret (Mbox_done rc (snd r)).

(** Its beginning, once it has the semaphore. *)
Definition mbox_begins (mbc : MailboxControl) : MW MboxPc :=
  _acq200_ioctl_write_mbox mbc >>
  let* w := get_world in
  if istrue (using_interrupt (mbox_sync (dev w))) then ret (Mbox_waits mbc)
  else ret (Mbox_polls mbc 0 (u32 (jiffies w + Z.land (mbc_flags mbc) MBC_FLAGS_TO))).

(** A turn of the loop of [acq200_poll_response], up to [schedule] and from there. *)
Definition poll_after (mbc : MailboxControl) (itimeout end_ : Z) : MW MboxPc :=
  let* w := get_world in
  if time_after (jiffies w) end_ then mbox_ends mbc (- ETIMEDOUT)
  else ret (Mbox_polls mbc (itimeout + 1) end_).

Definition poll_once (mbc : MailboxControl) (itimeout end_ : Z) : MW MboxPc :=
  if itimeout =? BIGTIME then mbox_ends mbc (- ETIMEDOUT)
  else
    let* ucommand := readl (MBOX BP_MB_COMMAND) in
    if istrue (Z.land ucommand BP_CI_ACK) then mbox_ends mbc 0
    else if 4 <=? itimeout then ret (Mbox_scheduled mbc itimeout end_)
    else poll_after mbc itimeout end_.

Definition mbox_resume (pc : MboxPc) (t : MboxTurn) : MW MboxPc :=
  let* w := get_world in
  match pc, t with
  | Mbox_wants mbc, Goes_on =>
      if 0 <? sem_get mbox_sem w then modify (sem_upd mbox_sem (fun n => n - 1)) >> mbox_begins mbc
      else block
  | Mbox_wants mbc, Gets_signal => if sigpending w then ret (Mbox_done (- ERESTARTSYS) mbc) else block
  | Mbox_polls mbc i e, Goes_on => poll_once mbc i e
  | Mbox_scheduled mbc i e, Goes_on => poll_after mbc i e
  | Mbox_waits mbc, Gets_answer => if RESPONSE_RECEIVED w then mbox_ends mbc 0 else block
  | Mbox_waits mbc, Gets_signal => if sigpending w then mbox_ends mbc (- ERESTARTSYS) else block
  | Mbox_waits mbc, Expires =>
      if Z.land (mbc_flags mbc) MBC_FLAGS_TO =? MBC_FLAGS_TO_FOREVER then block
      else mbox_ends mbc (- ETIMEDOUT)
  | _, _ => block
  end.

(** ** The machine *)
Definition elsewhere (w w' : World) : Prop :=
  sem_get mbox_sem w' = sem_get mbox_sem w /\ box_quiet w w'.

#[export] Instance elsewhere_preorder : PreOrder elsewhere.
Proof. split; [by split|]. intros w1 w2 w3 [] []. split; [congruence|by etransitivity]. Qed.

(** The request a process has under way. *)
Definition inside (pc : MboxPc) : option MailboxControl :=
  match pc with
  | Mbox_polls mbc _ _ | Mbox_scheduled mbc _ _ | Mbox_waits mbc => Some mbc
  | _ => None
  end.

Record MboxMachine := mkMboxMachine { mworld : World; mprocs : gmap nat MboxPc }.

Inductive mbox_step (m : MboxMachine) : MboxMachine -> Prop :=
| mbox_turn i pc t pc' w' :
    mprocs m !! i = Some pc -> mbox_resume pc t (mworld m) = Done pc' w' ->
    mbox_step m (mkMboxMachine w' (<[i := pc']> (mprocs m)))
| mbox_elsewhere w' : elsewhere (mworld m) w' -> mbox_step m (mkMboxMachine w' (mprocs m))
| mbox_call i mbc :
    (forall pc, mprocs m !! i = Some pc -> inside pc = None) -> length (mbxr mbc) = MBOX_NUM ->
    mbox_step m (mkMboxMachine (mworld m) (<[i := Mbox_wants mbc]> (mprocs m))).

(** Events are something else, unless another process releases the semaphore. *)
Lemma event_elsewhere e w w' : run_event e w = Done tt w' -> e <> EvUp mbox_sem -> elsewhere w w' /\ sched w' = sched w.
Proof.
  intros [He Hl]%run_event_quiet Hne. unfold elsewhere.
  destruct e as [| | |n dma|[]| |]; try done; cbn [event_outer] in He; unfold outer in He; cbn in He |- *; simplify_eq;
    (split; [split|]; done).
Qed.

(** ** The invariant: the semaphore counts the processes inside, and the last writes are those of the one *)
Definition request_out (w : World) (mbc : MailboxControl) : Prop :=
  exists l0 l, iolog w = l0 ++ box_writes mbc ++ l /\ Forall (fun io => writes_box io = false) l.

Definition pc_mbc (pc : MboxPc) : MailboxControl :=
  match pc with
  | Mbox_wants mbc | Mbox_polls mbc _ _ | Mbox_scheduled mbc _ _ | Mbox_waits mbc | Mbox_done _ mbc => mbc
  end.

Record exclusive (m : MboxMachine) : Prop := {
  ex_free : sem_get mbox_sem (mworld m) = 1 /\ (forall i pc, mprocs m !! i = Some pc -> inside pc = None) \/
            sem_get mbox_sem (mworld m) = 0 /\ exists i pc, mprocs m !! i = Some pc /\ is_Some (inside pc);
  ex_one i j pc pc' : mprocs m !! i = Some pc -> mprocs m !! j = Some pc' ->
    is_Some (inside pc) -> is_Some (inside pc') -> i = j;
  ex_last i pc mbc : mprocs m !! i = Some pc -> inside pc = Some mbc -> request_out (mworld m) mbc;
  ex_boxes i pc : mprocs m !! i = Some pc -> length (mbxr (pc_mbc pc)) = MBOX_NUM
}.

Lemma request_out_quiet w w' mbc : request_out w mbc -> box_quiet w w' -> request_out w' mbc.
Proof.
  intros (l0 & l & E & Hl) (k & Ek & Hk). exists l0, (l ++ k). rewrite Ek, E, <- !app_assoc. split; [done|].
  by apply Forall_app.
Qed.

(** How a request comes back: the card saw its writes, no other write to a mailbox, and then its reads. *)
Definition transaction (w : World) (mbc mbc' : MailboxControl) : Prop :=
  exists l0 l, iolog w = l0 ++ box_writes mbc ++ l ++ box_reads (MBC_FROM_MBXR mbc) mbc' /\
    Forall (fun io => writes_box io = false) l.

(** What a turn of a process does: it stays inside or outside; it takes the semaphore and sends its request;
    or it comes back with its answer and releases the semaphore. *)
Inductive turned (w : World) (pc : MboxPc) (pc' : MboxPc) (w' : World) : Prop :=
| turned_on : inside pc' = inside pc -> pc_mbc pc' = pc_mbc pc -> elsewhere w w' -> turned w pc pc' w'
| turned_in mbc : pc = Mbox_wants mbc -> inside pc' = Some mbc -> 0 < sem_get mbox_sem w ->
    sem_get mbox_sem w' = sem_get mbox_sem w - 1 -> iolog w' = iolog w ++ box_writes mbc -> turned w pc pc' w'
| turned_out mbc mbc' rc : inside pc = Some mbc -> pc' = Mbox_done rc mbc' -> length (mbxr mbc') = MBOX_NUM ->
    sem_get mbox_sem w' = sem_get mbox_sem w + 1 -> (request_out w mbc -> transaction w' mbc mbc') ->
    turned w pc pc' w'.

Lemma elsewhere_refl w : elsewhere w w. Proof. reflexivity. Qed.

Lemma ends_spec w0 w pc mbc rc : inside pc = Some mbc -> length (mbxr mbc) = MBOX_NUM -> elsewhere w0 w ->
  total (mbox_ends mbc rc) (turned w0 pc) w.
Proof.
  intros Hin Hlen [Hs Hq]. unfold mbox_ends, acq200_ioctl_read_mbox, total.
  destruct (read_boxes_spec MBOX_NUM (MBC_FROM_MBXR mbc) mbc w) as (mbc' & E & _ & _ & Hl & _); [lia|].
  erewrite bind_done by (erewrite bind_done by exact E; reflexivity).
  erewrite bind_done by reflexivity. cbn [ret snd].
  apply (turned_out _ _ _ _ mbc mbc' rc); [done|done|lia| |].
  - rewrite <- Hs. reflexivity.
  - intros Ho. destruct (request_out_quiet _ _ _ Ho Hq) as (l0 & l & El & Hl'). exists l0, l. split; [|done].
    change (iolog (sem_upd mbox_sem (fun n => n + 1) (w <| iolog := iolog w ++ box_reads (MBC_FROM_MBXR mbc) mbc' |>)))
      with (iolog w ++ box_reads (MBC_FROM_MBXR mbc) mbc').
    by rewrite El, <- !app_assoc.
Qed.

Lemma begins_spec w mbc : 0 < sem_get mbox_sem w ->
  total (mbox_begins mbc) (turned w (Mbox_wants mbc)) (sem_upd mbox_sem (fun n => n - 1) w).
Proof.
  intros Hs. set (w1 := sem_upd mbox_sem (fun n => n - 1) w).
  assert (sem_get mbox_sem w1 = sem_get mbox_sem w - 1 /\ iolog w1 = iolog w) as [Es El] by done.
  clearbody w1. unfold mbox_begins, total. erewrite bind_done by exact (proj1 (write_mbox_spec mbc w1)).
  set (w2 := upd_mbox _ w1 <| iolog := _ |>).
  assert (sem_get mbox_sem w2 = sem_get mbox_sem w1 /\ iolog w2 = iolog w1 ++ box_writes mbc) as [Es2 El2] by done.
  clearbody w2. erewrite bind_done by reflexivity. rewrite Es in Es2. rewrite El in El2.
  destruct (istrue _); unfold ret; cbv beta iota; 
    (eapply (fun pc' Hp => turned_in w (Mbox_wants mbc) pc' w2 mbc eq_refl Hp Hs Es2 El2); reflexivity).
Qed.

Lemma poll_after_spec w0 w pc mbc i e : inside pc = Some mbc -> pc_mbc pc = mbc -> length (mbxr mbc) = MBOX_NUM ->
  elsewhere w0 w -> total (poll_after mbc i e) (turned w0 pc) w.
Proof.
  intros Hin Hpc Hl He. unfold poll_after, total. erewrite bind_done by reflexivity. destruct (time_after _ _).
  - by apply (ends_spec w0 w pc).
  - by apply turned_on.
Qed.

Lemma resume_turns pc t w : length (mbxr (pc_mbc pc)) = MBOX_NUM -> safe (mbox_resume pc t) (turned w pc) w.
Proof.
  intros Hl. unfold safe, mbox_resume. erewrite bind_done by reflexivity.
  assert (forall mbc rc, inside pc = Some mbc -> pc_mbc pc = mbc -> safe (mbox_ends mbc rc) (turned w pc) w) as Hends.
  { intros mbc rc Hin <-. by apply total_safe, ends_spec. }
  destruct pc as [mbc|mbc i e|mbc i e|mbc|rc mbc], t; try exact I; cbn [pc_mbc] in Hl.
  - destruct (Z.ltb_spec 0 (sem_get mbox_sem w)); [|done]. erewrite bind_done by reflexivity.
    by apply total_safe, begins_spec.
  - destruct (sigpending w); [|done]. by apply turned_on.
  - unfold poll_once. destruct (i =? BIGTIME); [by apply Hends|]. erewrite bind_done by reflexivity.
    set (w1 := w <| iolog := _ |>). assert (elsewhere w w1) as He by (split; [done|by eapply box_quiet_one]).
    destruct (istrue _); [by apply total_safe, (ends_spec w w1 (Mbox_polls mbc i e))|].
    destruct (4 <=? i); [by apply turned_on|]. by apply total_safe, (poll_after_spec w w1 (Mbox_polls mbc i e)).
  - by apply total_safe, (poll_after_spec w w (Mbox_scheduled mbc i e)).
  - destruct (sigpending w); [|done]. by apply Hends.
  - destruct (RESPONSE_RECEIVED w); [|done]. by apply Hends.
  - destruct (_ =? MBC_FLAGS_TO_FOREVER); [done|]. by apply Hends.
Qed.

(** ** Mutual exclusion *)
Lemma elsewhere_exclusive m w' : exclusive m -> elsewhere (mworld m) w' -> exclusive (mkMboxMachine w' (mprocs m)).
Proof.
  intros [Hf Ho Hl Hb] [Es Hq]. constructor; cbn [mworld mprocs]; [by rewrite Es|done| |done].
  intros i pc mbc Hp Hin. eapply request_out_quiet; [by eapply Hl|done].
Qed.

(** Process [i] comes to [pc'], in or out as the semaphore says; if it is in, the last writes are its own. *)
Lemma moved_exclusive m i pc' w' : exclusive m -> length (mbxr (pc_mbc pc')) = MBOX_NUM ->
  (sem_get mbox_sem w' = 1 /\ inside pc' = None /\ (forall j pc, j <> i -> mprocs m !! j = Some pc -> inside pc = None) \/
   sem_get mbox_sem w' = 0 /\ is_Some (inside pc') /\ (forall j pc, j <> i -> mprocs m !! j = Some pc -> inside pc = None) \/
   inside pc' = None /\ sem_get mbox_sem w' = sem_get mbox_sem (mworld m) /\
     (forall pc, mprocs m !! i = Some pc -> inside pc = None)) ->
  (forall mbc, inside pc' = Some mbc -> request_out w' mbc) ->
  box_quiet (mworld m) w' \/ (forall j pc, j <> i -> mprocs m !! j = Some pc -> inside pc = None) ->
  exclusive (mkMboxMachine w' (<[i := pc']> (mprocs m))).
Proof.
  intros [Hf Ho Hl Hb] Hlen Hcase Hout Hq.
  assert (forall j pc, <[i := pc']> (mprocs m) !! j = Some pc ->
    (j = i /\ pc = pc') \/ (j <> i /\ mprocs m !! j = Some pc)) as Hlk.
  { intros j pc. destruct (decide (j = i)) as [->|Hne].
    - rewrite lookup_insert_eq. intros [= <-]. by left.
    - rewrite lookup_insert_ne by done. by right. }
  constructor; cbn [mworld mprocs].
  - destruct Hcase as [(Es & Hn & Hall)|[(Es & Hn & Hall)|(Hn & Es & Hi)]].
    + left. split; [done|]. by intros j pc [[-> ->]|[? ?]]%Hlk; [|eapply Hall].
    + right. split; [done|]. exists i, pc'. by rewrite lookup_insert_eq.
    + rewrite Es. destruct Hf as [[E Hall]|(E & j & pc & Hj & Hin)].
      * left. split; [done|]. by intros j pc [[-> ->]|[? ?]]%Hlk; [|eapply Hall].
      * right. split; [done|]. exists j, pc. split; [|done]. rewrite lookup_insert_ne; [done|].
        intros <-. rewrite (Hi _ Hj) in Hin. by destruct Hin.
  - intros j k pc pck [[-> ->]|[Hnj Hj]]%Hlk [[-> ->]|[Hnk Hk]]%Hlk Hi1 Hi2; [done| | |by eapply Ho].
    + destruct Hcase as [(_ & E & _)|[(_ & _ & Hall)|(E & _)]]; [by rewrite E in Hi1; destruct Hi1| |by rewrite E in Hi1; destruct Hi1].
      rewrite (Hall k pck Hnk Hk) in Hi2. by destruct Hi2.
    + destruct Hcase as [(_ & E & _)|[(_ & _ & Hall)|(E & _)]]; [by rewrite E in Hi2; destruct Hi2| |by rewrite E in Hi2; destruct Hi2].
      rewrite (Hall j pc Hnj Hj) in Hi1. by destruct Hi1.
  - intros j pc mbc [[-> ->]|[Hnj Hj]]%Hlk Hin; [by apply Hout|]. destruct Hq as [Hq|Hall].
    + eapply request_out_quiet; [by eapply Hl|done].
    + rewrite (Hall j pc Hnj Hj) in Hin. done.
  - by intros j pc [[-> ->]|[? ?]]%Hlk; [|eapply Hb].
Qed.

Lemma turned_exclusive m i pc pc' w' : exclusive m -> mprocs m !! i = Some pc -> turned (mworld m) pc pc' w' ->
  exclusive (mkMboxMachine w' (<[i := pc']> (mprocs m))).
Proof.
  intros Hm Hp Ht. pose proof Hm as [Hf Ho Hl Hb].
  assert (is_Some (inside pc) -> forall j pcj, j <> i -> mprocs m !! j = Some pcj -> inside pcj = None) as Hothers.
  { intros Hin j pcj Hne Hj. destruct (inside pcj) as [mb|] eqn:E; [|done].
    exfalso. apply Hne, (Ho j i pcj pc); try done. }
  destruct Ht as [Ei Em [Es Hq]|mbc -> Hin Hs Es El|mbc mbc' rc Hin -> Hlen Es _].
  - apply moved_exclusive; [done|rewrite Em; by eapply Hb| |intros mbc Hin; eapply request_out_quiet; [|exact Hq]; eapply Hl; [exact Hp|congruence]|by left].
    destruct (inside pc) as [mb|] eqn:E.
    + right. left. rewrite Ei, Es. split_and!; [|by eexists|by apply Hothers; eexists].
      destruct Hf as [[_ Hn]|[E0 _]]; [|done]. by rewrite (Hn i pc Hp) in E.
    + right. right. split; [done|]. split; [done|]. intros pc0 Hp0. congruence.
  - destruct Hf as [[E1 Hn]|[E0 _]]; [|lia].
    apply moved_exclusive; [done| | | |right; intros j pcj _; apply Hn].
    + assert (pc_mbc pc' = mbc) as -> by (destruct pc'; cbn in Hin; by simplify_eq). by apply (Hb i (Mbox_wants mbc)).
    + right. left. split_and!; [lia|by eexists|intros j pcj _; apply Hn].
    + intros mbc0 Hin0. exists (iolog (mworld m)), []. rewrite app_nil_r, El. split; [congruence|constructor].
  - assert (is_Some (inside pc)) as Hsome by by eexists.
    apply moved_exclusive; [done|done| |done|right; by apply Hothers].
    left. split_and!; [|done|by apply Hothers].
    destruct Hf as [[_ Hn]|[E0 _]]; [by rewrite (Hn i pc Hp) in Hin|lia].
Qed.

Lemma mbox_step_exclusive m m' : exclusive m -> mbox_step m m' -> exclusive m'.
Proof.
  intros Hm [i pc t pc' w' Hp E|w' He|i mbc Hi Hlen].
  - eapply turned_exclusive; [done|exact Hp|]. pose proof (resume_turns pc t (mworld m) (ex_boxes _ Hm _ _ Hp)) as Ht.
    unfold safe in Ht. by rewrite E in Ht.
  - by apply elsewhere_exclusive.
  - apply moved_exclusive; [done|done|right; right; split; [done|by split]|done|by left].
Qed.

Lemma mbox_reached m m' : exclusive m -> rtc mbox_step m m' -> exclusive m'.
Proof. intros Hm Hr. induction Hr; [done|]. by apply IHHr, (mbox_step_exclusive x). Qed.

(** The next turn of a process, and what the bus has seen when its request comes back. *)
Definition turn_exclusive (m : MboxMachine) (i : nat) (pc pc' : MboxPc) (w' : World) : Prop :=
  exclusive (mkMboxMachine w' (<[i := pc']> (mprocs m))) /\
  forall mbc, inside pc = Some mbc -> inside pc' = None -> exists rc mbc', pc' = Mbox_done rc mbc' /\ transaction w' mbc mbc'.

Lemma resume_exclusive m i pc t : exclusive m -> mprocs m !! i = Some pc ->
  safe (mbox_resume pc t) (turn_exclusive m i pc) (mworld m).
Proof.
  intros Hm Hp. eapply safe_mono; [by apply (resume_turns pc t (mworld m)), (ex_boxes _ Hm i)|]. intros pc' w' Ht.
  split; [by eapply turned_exclusive|]. intros mbc Hin Hout.
  destruct Ht as [Ei _ _|mbc0 -> _ _ _ _|mbc0 mbc' rc Hin' -> _ _ Htr]; [congruence|done|].
  exists rc, mbc'. split; [done|]. assert (mbc0 = mbc) as -> by congruence. apply Htr. by eapply (ex_last _ Hm).
Qed.

(** ** A request as Mailbox.v has it is a run *)

(** No process outside of the model is inside. *)
Definition nobody_else (evs : list Event) : Prop := Forall (fun e => e <> EvUp mbox_sem) evs.

Lemma sleep_event {A} e evs (k : MW A) w a w' : (run_event e >> set_sched' evs >> k) w = Done a w' ->
  nobody_else (e :: evs) ->
  exists w1, elsewhere w w1 /\ sched w1 = evs /\ nobody_else evs /\ k w1 = Done a w'.
Proof.
  intros ([] & w1 & E & ([] & w2 & [= <-] & Hk)%bind_inv)%bind_inv [Hne Hevs]%Forall_cons.
  destruct (event_elsewhere e w w1 E Hne) as [He _]. exists (w1 <| sched := evs |>).
  split; [|split; [done|split; [done|exact Hk]]]. etransitivity; [exact He|]. split; [done|by apply box_quiet_same].
Qed.

Lemma down_elsewhere w rc w' : nobody_else (sched w) -> down_interruptible mbox_sem w = Done rc w' ->
  exists w1, elsewhere w w1 /\ nobody_else (sched w1) /\
    ((rc = 0 /\ 0 < sem_get mbox_sem w1 /\ w' = sem_upd mbox_sem (fun n => n - 1) w1) \/
     (rc = - EINTR /\ sigpending w1 = true /\ w' = w1)).
Proof.
  intros Hs (? & ? & [= <- <-] & E)%bind_inv.
  assert (forall evs w0, nobody_else evs -> down_from mbox_sem evs w0 = Done rc w' ->
    exists w1, elsewhere w0 w1 /\ nobody_else (sched w1) /\
    ((rc = 0 /\ 0 < sem_get mbox_sem w1 /\ w' = sem_upd mbox_sem (fun n => n - 1) w1) \/
     (rc = - EINTR /\ sigpending w1 = true /\ w' = w1))) as Hfrom.
  { clear Hs E. intros evs. induction evs as [|e evs IH]; intros w0 Hevs; cbn [down_from]; [done|].
    intros (w1 & He & Es & Hn & (? & ? & [= <- <-] & E)%bind_inv)%sleep_event; [|done]. subst evs.
    destruct (Z.ltb_spec 0 (sem_get mbox_sem w1)).
    - apply bind_inv in E as ([] & w2 & [= <-] & [= <- <-]). exists w1. auto 7.
    - destruct (sigpending w1) eqn:Hsig; [injection E as <- <-; exists w1; auto 7|].
      apply IH in E as (w2 & He2 & ?); [|done]. exists w2. split; [by transitivity w1|done]. }
  destruct (Z.ltb_spec 0 (sem_get mbox_sem w)).
  - apply bind_inv in E as ([] & w2 & [= <-] & [= <- <-]). exists w. split; [done|]. auto 7.
  - destruct (sigpending w) eqn:Hsig; [injection E as <- <-; exists w; split; [done|]; auto 7|].
    exact (Hfrom _ _ Hs E).
Qed.

Lemma mbox_queue_elsewhere {A} (k : MW A) w a w' : (enqueue mbox_wq >> k) w = Done a w' ->
  exists w1, elsewhere w w1 /\ sched w1 = sched w /\ k w1 = Done a w'.
Proof. intros ([] & w1 & [= <-] & Hk)%bind_inv. eexists. split; [|split; [|exact Hk]]; [by split; [|apply box_quiet_same]|done]. Qed.

Section Waits.
Context (cond : World -> bool).

Definition wait_ends (w : World) (rc : Z) (w' : World) : Prop :=
  elsewhere w w' /\ ((rc = 0 /\ cond w' = true) \/ (rc = - ERESTARTSYS /\ sigpending w' = true)).

Lemma wait_from_elsewhere evs w rc w' : nobody_else evs -> wait_from mbox_wq cond evs w = Done rc w' -> wait_ends w rc w'.
Proof.
  revert w. induction evs as [|e evs IH]; intros w Hevs; cbn [wait_from]; [done|].
  intros (w1 & He & _ & Hn & (? & ? & [= <- <-] & E)%bind_inv)%sleep_event; [|done].
  assert (forall w2, elsewhere w w2 -> wait_from mbox_wq cond evs w2 = Done rc w' -> wait_ends w rc w') as Hgo.
  { intros w2 He2 [He3 ?]%IH; [|done]. split; [by transitivity w2|done]. }
  destruct (_ || _); [|by apply (Hgo w1)]. destruct (cond w1) eqn:Hc; [injection E as <- <-; split; auto|].
  destruct (sigpending w1) eqn:Hs; [injection E as <- <-; split; auto|].
  apply mbox_queue_elsewhere in E as (w2 & He2 & _ & E). apply (Hgo w2); [by transitivity w1|done].
Qed.

Lemma wait_elsewhere w rc w' : nobody_else (sched w) -> wait_event_interruptible mbox_wq cond w = Done rc w' ->
  wait_ends w rc w'.
Proof.
  intros Hn (? & ? & [= <- <-] & E)%bind_inv.
  destruct (cond w) eqn:Hc; [injection E as <- <-; split; [done|auto]|].
  destruct (sigpending w) eqn:Hs; [injection E as <- <-; split; [done|auto]|].
  apply mbox_queue_elsewhere in E as (w2 & He2 & Es & [He3 ?]%wait_from_elsewhere); [|done].
  split; [by transitivity w2|done].
Qed.

Definition wait_timeout_ends (w : World) (rc : Z) (w' : World) : Prop :=
  elsewhere w w' /\ (rc = 0 \/ (0 < rc /\ cond w' = true) \/ (rc = - ERESTARTSYS /\ sigpending w' = true)).

Lemma wait_timeout_from_elsewhere evs left w rc w' : nobody_else evs ->
  wait_timeout_from mbox_wq cond evs left w = Done rc w' -> wait_timeout_ends w rc w'.
Proof.
  revert left w. induction evs as [|e evs IH]; intros left w Hevs; cbn [wait_timeout_from];
    (destruct (left <=? 0) eqn:Hl; [intros [= <- <-]; split; [done|auto]|]); [intros [= <- <-]; split; [done|auto]|].
  cbv zeta. set (left' := if is_tick e then left - 1 else left).
  intros (w1 & He & _ & Hn & (? & ? & [= <- <-] & E)%bind_inv)%sleep_event; [|done].
  assert (forall w2, elsewhere w w2 -> wait_timeout_from mbox_wq cond evs left' w2 = Done rc w' -> wait_timeout_ends w rc w') as Hgo.
  { intros w2 He2 [He3 ?]%IH; [|done]. split; [by transitivity w2|done]. }
  destruct (Z.leb_spec left' 0); [injection E as <- <-; split; auto|].
  destruct (_ || _); [|by apply (Hgo w1)]. destruct (cond w1) eqn:Hc; [injection E as <- <-; split; auto 6 with lia|].
  destruct (sigpending w1) eqn:Hs; [injection E as <- <-; split; auto|].
  apply mbox_queue_elsewhere in E as (w2 & He2 & _ & E). apply (Hgo w2); [by transitivity w1|done].
Qed.

Lemma wait_timeout_elsewhere t w rc w' : nobody_else (sched w) -> 0 <= t ->
  wait_event_interruptible_timeout mbox_wq cond t w = Done rc w' -> wait_timeout_ends w rc w'.
Proof.
  intros Hn Ht (? & ? & [= <- <-] & E)%bind_inv.
  destruct (cond w) eqn:Hc.
  { injection E as <- <-. split; [done|]. destruct (Z.eq_dec t 0); auto 6 with lia. }
  destruct (sigpending w) eqn:Hs; [injection E as <- <-; split; [done|auto]|].
  apply mbox_queue_elsewhere in E as (w2 & He2 & Es & [He3 ?]%wait_timeout_from_elsewhere); [|done].
  split; [by transitivity w2|done].
Qed.
End Waits.

Section Request.
Context (i : nat) (P : gmap nat MboxPc).

Definition mbox_at (w : World) (pc : MboxPc) : MboxMachine := mkMboxMachine w (<[i := pc]> P).
Definition mbox_runs : MboxMachine -> MboxMachine -> Prop := rtc mbox_step.

Lemma turn_run w w1 pc t pc' w' : elsewhere w w1 -> mbox_resume pc t w1 = Done pc' w' ->
  mbox_runs (mbox_at w pc) (mbox_at w' pc').
Proof.
  intros He E. eapply rtc_l; [by apply (mbox_elsewhere (mbox_at w pc) w1)|]. apply rtc_once.
  replace (mbox_at w' pc') with (mkMboxMachine w' (<[i := pc']> (mprocs (mbox_at w1 pc)))).
  - by apply (mbox_turn (mbox_at w1 pc) i pc t); [apply lookup_insert_eq|].
  - unfold mbox_at. cbn [mprocs]. by rewrite insert_insert_eq.
Qed.

(** The polls, up to the end of the request. *)
Lemma poll_run fuel mbc it e w w0 rc w1 pc' w' : elsewhere w0 w -> nobody_else (sched w) ->
  poll_loop fuel it e w = Done rc w1 -> mbox_ends mbc rc w1 = Done pc' w' ->
  mbox_runs (mbox_at w0 (Mbox_polls mbc it e)) (mbox_at w' pc').
Proof.
  revert it w w0. induction fuel as [|fuel IH]; intros it w w0 Hw Hn; cbn [poll_loop]; [done|].
  intros E Hend.
  assert (forall pc2 w2, poll_once mbc it e w = Done pc2 w2 ->
    mbox_runs (mbox_at w0 (Mbox_polls mbc it e)) (mbox_at w2 pc2)) as Hturn.
  { intros pc2 w2 Hp. apply (turn_run w0 w _ Goes_on); [done|]. exact Hp. }
  unfold poll_once in Hturn. destruct (it =? BIGTIME); [injection E as <- <-; by apply Hturn|].
  apply bind_inv in E as (u & w2 & Er & E).
  assert (elsewhere w0 w2 /\ nobody_else (sched w2)) as [Hw2 Hn2].
  { injection Er as _ <-. split; [|done]. transitivity w; [done|]. split; [done|by eapply box_quiet_one]. }
  erewrite bind_done in Hturn by exact Er. destruct (istrue (Z.land u BP_CI_ACK)); [injection E as <- <-; by apply Hturn|].
  assert (forall w3, elsewhere w2 w3 -> nobody_else (sched w3) ->
    (let* w := get_world in if time_after (jiffies w) e then ret (- ETIMEDOUT) else poll_loop fuel (it + 1) e) w3 = Done rc w1 ->
    exists pc3 w4, poll_after mbc it e w3 = Done pc3 w4 /\ mbox_runs (mbox_at w4 pc3) (mbox_at w' pc')) as Hafter.
  { intros w3 He3 Hn3 (? & ? & [= <- <-] & Ea)%bind_inv. unfold poll_after.
    destruct (time_after (jiffies w3) e) eqn:Ht; unfold bind, get_world; cbn beta iota; rewrite Ht.
    - injection Ea as <- <-. exists pc', w'. split; [done|]. unfold mbox_runs. reflexivity.
    - eexists _, w3. split; [reflexivity|]. by eapply IH. }
  destruct (4 <=? it); cbn [when] in E.
  - etransitivity; [by apply Hturn|]. apply bind_inv in E as ([] & w3 & Es & E).
    assert (elsewhere w2 w3 /\ nobody_else (sched w3)) as [He3 Hn3].
    { apply bind_inv in Es as (? & ? & [= <- <-] & Es). destruct (sched w2) as [|ev evs] eqn:Esch.
      - destruct (event_elsewhere EvTick w2 w3 Es) as [He Es3]; [done|]. split; [done|]. by rewrite Es3, Esch.
      - pose proof (sleep_event ev evs (ret tt) w2 tt w3) as Hse. rewrite <- bind_assoc in Hse.
        apply Forall_cons in Hn2 as [Hne Hn2]. apply bind_inv in Es as ([] & w4 & Ee & [= <-]).
        destruct (event_elsewhere ev w2 w4 Ee Hne) as [He _]. split; [|done].
        transitivity w4; [done|]. split; [done|by apply box_quiet_same]. }
    destruct (Hafter w3 He3 Hn3 E) as (pc3 & w4 & Ha & Hrun). etransitivity; [|exact Hrun].
    by apply (turn_run w2 w3 _ Goes_on).
  - apply bind_inv in E as ([] & w3 & [= <-] & E).
    destruct (Hafter w2 (elsewhere_refl _) Hn2 E) as (pc3 & w4 & Ha & Hrun). etransitivity; [|exact Hrun]. by apply Hturn.
Qed.
(** A process that waits for the interrupt: the answer, the signal or the time. *)
Lemma waits_run mbc w rc w1 rc' mbc' w' : nobody_else (sched w) ->
  (if Z.land (mbc_flags mbc) MBC_FLAGS_TO =? MBC_FLAGS_TO_FOREVER then
     wait_event_interruptible mbox_wq RESPONSE_RECEIVED
   else
     let* rc := wait_event_interruptible_timeout mbox_wq RESPONSE_RECEIVED (Z.land (mbc_flags mbc) MBC_FLAGS_TO) in
     ret (if rc =? 0 then - ETIMEDOUT else if 0 <? rc then 0 else rc)) w = Done rc w1 ->
  mbox_ends mbc rc w1 = Done (Mbox_done rc' mbc') w' ->
  mbox_runs (mbox_at w (Mbox_waits mbc)) (mbox_at w' (Mbox_done rc' mbc')).
Proof.
  intros Hn E Hend.
  assert (forall t, elsewhere w w1 -> mbox_resume (Mbox_waits mbc) t w1 = mbox_ends mbc rc w1 ->
    mbox_runs (mbox_at w (Mbox_waits mbc)) (mbox_at w' (Mbox_done rc' mbc'))) as Hgo.
  { intros t He Et. apply (turn_run w w1 _ t); [done|congruence]. }
  unfold mbox_resume, bind, get_world, gets in Hgo. destruct (_ =? MBC_FLAGS_TO_FOREVER) eqn:Hf.
  - apply wait_elsewhere in E as [He [[-> Hc]|[-> Hs]]]; [| |done].
    + apply (Hgo Gets_answer He). by rewrite Hc.
    + apply (Hgo Gets_signal He). by rewrite Hs.
  - apply bind_inv in E as (left & w2 & E & [= <- <-]).
    apply wait_timeout_elsewhere in E as [He [->|[[Hl Hc]|[-> Hs]]]]; [| | |done|by apply Z.land_nonneg; right].
    + by apply (Hgo Expires He).
    + apply (Hgo Gets_answer He). rewrite Hc. destruct (Z.eqb_spec left 0); [lia|].
      by destruct (Z.ltb_spec 0 left); [|lia].
    + apply (Hgo Gets_signal He). by rewrite Hs.
Qed.

(** A call of [acq200_ioctl_wbr_mbox] is a run of the machine, to the same result, whatever the other
    processes are at. *)
Lemma wbr_run mbc w rc mbc' w' : nobody_else (sched w) -> acq200_ioctl_wbr_mbox mbc w = Done (rc, mbc') w' ->
  mbox_runs (mbox_at w (Mbox_wants mbc)) (mbox_at w' (Mbox_done rc mbc')).
Proof.
  intros Hn (rcd & w1 & (w0 & He & Hn0 & [(-> & Hs & ->)|(-> & Hs & ->)])%down_elsewhere & E)%bind_inv; [| |done]; cbn [istrue] in E.
  2:{ injection E as <- <- <-. apply (turn_run w w0 _ Gets_signal); [done|].
      unfold mbox_resume. erewrite bind_done by reflexivity. by rewrite Hs. }
  set (w1 := sem_upd _ _ w0) in E.
  apply bind_inv in E as (u & w2 & Ew & (? & ? & [= <- <-] & (rc0 & w3 & E & (r & w4 & Er & ([] & w5 & Eu & [= <- <- <-])%bind_inv)%bind_inv)%bind_inv)%bind_inv).
  assert (nobody_else (sched w2)) as Hn2.
  { rewrite (proj1 (write_mbox_spec mbc w1)) in Ew. by injection Ew as _ <-. }
  assert (mbox_ends mbc rc0 w3 = Done (Mbox_done rc0 (snd r)) w5) as Hend.
  { unfold mbox_ends. erewrite bind_done by exact Er. by erewrite bind_done by exact Eu. }
  assert (forall pc2, mbox_begins mbc w1 = Done pc2 w2 -> mbox_runs (mbox_at w (Mbox_wants mbc)) (mbox_at w2 pc2)) as Hin.
  { intros pc2 Hb. apply (turn_run w w0 _ Goes_on); [done|]. unfold mbox_resume. erewrite bind_done by reflexivity.
    destruct (Z.ltb_spec 0 (sem_get mbox_sem w0)); [|lia]. exact Hb. }
  unfold mbox_begins in Hin. erewrite bind_done in Hin by exact Ew. unfold bind, get_world, gets in Hin.
  destruct (istrue (using_interrupt _)).
  - etransitivity; [by apply Hin|]. by eapply waits_run.
  - etransitivity; [by apply Hin|]. apply bind_inv in E as (? & ? & [= <- <-] & E).
    eapply poll_run; [done|exact Hn2|exact E|exact Hend].
Qed.
End Request.

(** C16: however many processes use the mailboxes, and whatever the card and the rest of the driver do in
    between: at most one has a request under way, and the last mailbox writes on the bus are those of
    that request.  Every turn of a process keeps it so, and faults never.  When a request comes back,
    with its answer, in time or too late, or by a signal, the bus has seen its writes and then the reads of
    its answer, and in between no mailbox was written.  And the requests are the driver's: a call of
    [acq200_ioctl_wbr_mbox], with its sleeps and what happens in them, is a run of the machine, to the same
    state and result. *)
Theorem mailbox_exclusive m m' : exclusive m -> rtc mbox_step m m' ->
  exclusive m' /\
  (forall i pc t, mprocs m' !! i = Some pc -> safe (mbox_resume pc t) (turn_exclusive m' i pc) (mworld m')) /\
  (forall i mbc rc mbc' w', mprocs m' !! i = Some (Mbox_wants mbc) -> nobody_else (sched (mworld m')) ->
    acq200_ioctl_wbr_mbox mbc (mworld m') = Done (rc, mbc') w' ->
    rtc mbox_step m' (mkMboxMachine w' (<[i := Mbox_done rc mbc']> (mprocs m')))).
Proof.
  intros Hm Hr. pose proof (mbox_reached m m' Hm Hr) as Hm'. split; [done|]. split.
  - intros i pc t Hp. by apply resume_exclusive.
  - intros i mbc rc mbc' w' Hp Hn E. pose proof (wbr_run i (mprocs m') mbc _ rc mbc' w' Hn E) as Hrun.
    unfold mbox_runs, mbox_at in Hrun. rewrite (insert_id _ _ _ Hp) in Hrun. by destruct m'.
Qed.
End Segments.
