(* ===== verification/Ioctl.v ===== *)
(** * acq32ioctl.h: the requests of the older cards

    The header numbers the requests that the driver of the ACQ32 answers.  [acq200_ioctl] still
    answers three of them (in [Mailbox]) and refuses the others.  [_IO], [_IOR] and [_IOW] are the
    kernel's macros, of which [_IOC] takes the direction 0, 2 and 1; a pointer is four bytes. *)

From S2P Require Import Prelude BusProt StreamBuf Pool Device Rch I2o Isr Kernel Mask Mailbox.

(** ** The codes *)
Definition SEEK_TRIG : Z := 2 + 1.  (* SEEK_END + 1 *)

Definition _IO (type nr : Z) : Z := _IOC 0 type nr 0.
Definition _IOR (type nr size : Z) : Z := _IOC 2 type nr size.
Definition _IOW (type nr size : Z) : Z := _IOC 1 type nr size.

Definition ACQ32_IOCRESET : Z := _IO ACQ32_IOC_MAGIC 0.
Definition ACQ32_IOCGMEM : Z := _IOR ACQ32_IOC_MAGIC 1 4.
Definition ACQ32_IOSLIMIT : Z := _IO ACQ32_IOC_MAGIC 2.
Definition ACQ32_IOSFORMAT : Z := _IO ACQ32_IOC_MAGIC 3.
Definition ACQ32_IOARMSPIN : Z := _IO ACQ32_IOC_MAGIC 4.
Definition ACQ32_IOARMRESET : Z := _IO ACQ32_IOC_MAGIC 5.
Definition ACQ32_IOSDEBUG : Z := _IOW ACQ32_IOC_MAGIC 6 4.

Inductive ChannelMode : Type :=
  | CM_BINARY | CM_HEX | CM_DEC | CM_VOLTS | CM_BIGEND | CM_EXCLUSIVE_OPTS | CM_LINENUMS
  | CM_DOS_LINES.
Definition channel_mode_value (m : ChannelMode) : Z :=
  match m with
  | CM_BINARY => 0 | CM_HEX => 1 | CM_DEC => 2 | CM_VOLTS => 3 | CM_BIGEND => 4
  | CM_EXCLUSIVE_OPTS => 0xf | CM_LINENUMS => 0x40 | CM_DOS_LINES => 0x80
  end.

Definition ACQ32_IO_MBX_NR : Z := 10.
Definition ACQ32_IOSMBX (ix : Z) : Z := _IO ACQ32_IOC_MAGIC (ACQ32_IO_MBX_NR + ix).
Definition ACQ32_IOGMBX (ix : Z) : Z := _IOR ACQ32_IOC_MAGIC (ACQ32_IO_MBX_NR + ix) 4.

Definition ACQ32_IOSROM_WORD_A01 : Z := _IO ACQ32_IOC_MAGIC 14.
Definition ACQ32_IOCHARDRESET : Z := _IO ACQ32_IOC_MAGIC 15.
Definition ACQ32_IOSENDI2O : Z := _IO ACQ32_IOC_MAGIC 16.
Definition ACQ32_IOREAD_LOCALBUF : Z := _IO ACQ32_IOC_MAGIC 17.
Definition ACQ32_IOREAD_GETPHYSICAL : Z := _IO ACQ32_IOC_MAGIC 18.

(** Reading and writing the card's memory: [data] is a union, of which [w] is the low half. *)
Record ACQ32_RW_DEF := mkRwDef { rw_offset : Z; rw_l : Z }.
Definition rw_w (d : ACQ32_RW_DEF) : Z := u16 (rw_l d).

Definition ACQ32_IOG_READ32 : Z := _IO ACQ32_IOC_MAGIC 20.
Definition ACQ32_IOS_WRITE32 : Z := _IO ACQ32_IOC_MAGIC 21.
Definition ACQ32_IOG_READ16 : Z := _IO ACQ32_IOC_MAGIC 22.
Definition ACQ32_IOS_WRITE16 : Z := _IO ACQ32_IOC_MAGIC 23.

Record ACQ32_WAIT_DEF := mkWaitDef { event_mask : Z; wait_timeout : Z }.

Definition ACQ32_IOS_WAIT_EVENT : Z := _IO ACQ32_IOC_MAGIC 24.
Definition ACQ32_IOS_SWALLOW_KMEM : Z := _IOW ACQ32_IOC_MAGIC 27 4.
Definition ACQ32_IOS_VALIDATE_BIGBUF : Z := _IOW ACQ32_IOC_MAGIC 28 4.
Definition ACQ32_IOC_MAXNR : Z := 29.

(** ** The requests and the driver's dispatch *)
Definition acq32_requests : list Z :=
  [ACQ32_IOCRESET; ACQ32_IOCGMEM; ACQ32_IOSLIMIT; ACQ32_IOSFORMAT; ACQ32_IOARMSPIN;
   ACQ32_IOARMRESET; ACQ32_IOSDEBUG] ++
  map ACQ32_IOSMBX (seqZ 0 4) ++ map ACQ32_IOGMBX (seqZ 0 4) ++
  [ACQ32_IOSROM_WORD_A01; ACQ32_IOCHARDRESET; ACQ32_IOSENDI2O; ACQ32_IOREAD_LOCALBUF;
   ACQ32_IOREAD_GETPHYSICAL; ACQ32_IOG_PCIREGS_OFFSET; ACQ32_IOG_READ32; ACQ32_IOS_WRITE32;
   ACQ32_IOG_READ16; ACQ32_IOS_WRITE16; ACQ32_IOS_WAIT_EVENT; ACQ32_IOS_INTS_ENABLE;
   ACQ32_IOS_INTS_DISABLE; ACQ32_IOS_SWALLOW_KMEM; ACQ32_IOS_VALIDATE_BIGBUF].

(** The cases of [acq200_ioctl]. *)
Definition driver_requests : list Z :=
  [ACQ200_MBOX_IOR; ACQ200_MBOX_IOWR; ACQ32_IOG_PCIREGS_OFFSET; ACQ32_IOS_INTS_DISABLE;
   ACQ32_IOS_INTS_ENABLE].

Definition _IOC_NR (code : Z) : Z := Z.land code 0xff.
Definition _IOC_TYPE (code : Z) : Z := Z.land (Z.shiftr code 8) 0xff.

(** The requests of the header are pairwise different, of its magic and below its largest number; the
    driver's cases are pairwise different, so that the order of the switch does not matter. *)
Theorem acq32_requests_distinct :
  NoDup acq32_requests /\ NoDup driver_requests /\
  Forall (fun c => _IOC_TYPE c = ACQ32_IOC_MAGIC /\ 0 <= _IOC_NR c < ACQ32_IOC_MAXNR) acq32_requests.
Proof. split; [|split]; apply (bool_decide_unpack _); by vm_compute. Qed.

(** A mailbox number past the four runs into the next request of the header. *)
Theorem mailbox_codes_end :
  ACQ32_IOSMBX 4 = ACQ32_IOSROM_WORD_A01 /\ ACQ32_IOGMBX 9 = ACQ32_IOG_PCIREGS_OFFSET.
Proof. split; reflexivity. Qed.

Section Refused.
Context `{Platform}.

(** C32: a request of the older cards, whatever its argument, is refused with [-ENOTTY] and nothing is
    done, unless it is the register offset or one of the interrupt masks. *)
Theorem older_requests_refused filp cmd arg w :
  cmd ∈ acq32_requests ->
  cmd ∉ [ACQ32_IOG_PCIREGS_OFFSET; ACQ32_IOS_INTS_DISABLE; ACQ32_IOS_INTS_ENABLE] ->
  acq200_ioctl filp cmd arg w = Done (- ENOTTY) w.
Proof.
  intros Hin Hne. assert (cmd ∉ driver_requests) as Hd.
  { assert (forallb (fun c => bool_decide (c ∉ [ACQ200_MBOX_IOR; ACQ200_MBOX_IOWR]))
      acq32_requests = true) as F by (by vm_compute).
    rewrite forallb_forall in F. specialize (F cmd). rewrite <- list_elem_of_In in F.
    specialize (F Hin). apply bool_decide_eq_true in F. revert F Hne. unfold driver_requests.
    rewrite !not_elem_of_cons. tauto. }
  unfold driver_requests in Hd. rewrite !not_elem_of_cons in Hd. destruct Hd as (E1 & E2 & E3 & E4 & E5 & _).
  unfold acq200_ioctl. apply Z.eqb_neq in E1, E2, E3, E4, E5. by rewrite E1, E2, E3, E4, E5.
Qed.
End Refused.
