(* ===== verification/Path.v ===== *)
(** * acq200.c: opening and closing a device node

    The minor number selects the file operations; the path descriptor is created on open and deleted
    on release.  Channel nodes up to 96, files and shells hold the buffer A/B semaphore while they
    are open; the nodes above 96 are the buffers A and B themselves, whose first open allocates them
    and whose opens are counted.

    What the kernel's page allocator and DMA mapping return is a parameter. *)

From S2P Require Import Prelude BusProt StreamBuf Pool Device Rch I2o Isr Kernel Outer Owner Frames.
From S2P Require Import Sleep Mask Mailbox.

(** ** acq200_minors.h *)
Definition MINOR (dev : Z) : Z := Z.land dev 0xfffff.
Definition MAJOR (dev : Z) : Z := Z.shiftr dev 20.

Definition _SPECIAL (dev : Z) : bool := Z.land (MINOR dev) 0xe0 =? 0xc0.
Definition _CHANNEL (dev : Z) : bool := Z.land (MINOR dev) 0x80 =? 0x00.
Definition _FILE (dev : Z) : bool := Z.land (MINOR dev) 0xf0 =? 0x80.
Definition _RSH (dev : Z) : bool :=
  (MINOR dev =? 227) || (MINOR dev =? 228) || (MINOR dev =? 229) || (MINOR dev =? 237).
Definition IS_CHANNEL_DEV (dev : Z) : bool := _CHANNEL dev.
Definition CHANNEL (dev : Z) : Z := if _CHANNEL dev then Z.land (MINOR dev) 0x7f else -1.
Definition SPECIAL_FLAGS (dev : Z) : Z := if _SPECIAL dev then Z.land (MINOR dev) 0x1f else 0.
Definition IS_FILE (dev : Z) : bool := _FILE dev.
Definition IS_RSH (dev : Z) : bool := _RSH dev.
Definition IS_ROM (dev : Z) : bool := _SPECIAL dev && (SPECIAL_FLAGS dev =? 0).
Definition ROWDEV (dev : Z) : bool := _SPECIAL dev && (SPECIAL_FLAGS dev =? 0x1f).
Definition DEVRAW (dev : Z) : bool := _SPECIAL dev && (SPECIAL_FLAGS dev =? 1).
Definition DEVDMABUF (dev : Z) : bool := _SPECIAL dev && (SPECIAL_FLAGS dev =? 2).
Definition BIGDUMPDEV (dev : Z) : bool := _SPECIAL dev && (SPECIAL_FLAGS dev =? 3).
Definition AOIDEV (dev : Z) : bool := _SPECIAL dev && (SPECIAL_FLAGS dev =? 4).
Definition AOFDEV (dev : Z) : bool := _SPECIAL dev && (SPECIAL_FLAGS dev =? 5).
Definition DOIDEV (dev : Z) : bool := _SPECIAL dev && (SPECIAL_FLAGS dev =? 6).
Definition DOFDEV (dev : Z) : bool := _SPECIAL dev && (SPECIAL_FLAGS dev =? 7).
Definition AOFRDEV (dev : Z) : bool := _SPECIAL dev && (SPECIAL_FLAGS dev =? 8).
Definition DOFRDEV (dev : Z) : bool := _SPECIAL dev && (SPECIAL_FLAGS dev =? 9).
Definition STATDEV (dev : Z) : bool := _SPECIAL dev && (SPECIAL_FLAGS dev =? 10).
Definition LLHOSTDEV (dev : Z) : bool := _SPECIAL dev && (SPECIAL_FLAGS dev =? 11).
Definition TESTDEV (dev : Z) : bool := _SPECIAL dev && (SPECIAL_FLAGS dev =? 15).
Definition TFTPDEV (dev : Z) : bool := _SPECIAL dev && istrue (Z.land (SPECIAL_FLAGS dev) 0x10).

(** ** The file operations tables of [acq200_open], and whether each takes the busy semaphore *)
Inductive file_operations :=
| acq200_fops | acq200_llhost_fops | acq200_mbox_fops | acq200_bridge_fops | acq200_bridge_AB_fops.

#[export] Instance file_operations_eq_dec : EqDecision file_operations.
Proof. solve_decision. Defined.

Definition newfops (minor : Z) : file_operations * bool :=
  if DEVRAW minor then (acq200_mbox_fops, false)
  else if BIGDUMPDEV minor then (acq200_fops, false)
  else if LLHOSTDEV minor then (acq200_llhost_fops, false)
  else if IS_CHANNEL_DEV minor then
    if 96 <? minor then (acq200_bridge_AB_fops, false) else (acq200_bridge_fops, true)
  else if IS_FILE minor then (acq200_bridge_fops, true)
  else if IS_RSH minor then (acq200_bridge_fops, true)
  else (acq200_fops, true).

Section Path.
Context `{Platform}.
(** [__get_free_pages]: the address of the pages, 0 when there are none; [dma_map_single]. *)
Context (get_free_pages : World -> Z -> Z) (dma_map_single : World -> Z -> Z).

(** ** Buffers *)

(** The loop runs for [order = n - 1] down to 0. *)
Fixpoint get_max_buf (n : nat) : MW (Z * Z) :=
  match n with
  | O => crash KernelBug      (* assert(0) *)
  | S order =>
      let* w := get_world in
      let buf := get_free_pages w (Z.of_nat order) in
      if negb (buf =? 0) then ret (buf, Z.of_nat order) else get_max_buf order
  end.

Definition alloc_max_buf (set_buf : DmaBuf -> Acq200Device -> Acq200Device) (max_order : Z)
    : MW unit :=
  let* vo := get_max_buf (Z.to_nat (max_order + 1)) in
  let* w := get_world in
  modify (upd_dev (set_buf (mkDmaBuf (snd vo) (fst vo) (u32 (dma_map_single w (fst vo)))))).

(** ** Paths *)

(** The path [kmalloc] gives, [None] when there is no memory: [memset] then writes to null. *)
Definition acq200_createPath (i_rdev : Z) (kmalloc : option nat) : MW nat :=
  match kmalloc with
  | None => crash NullDeref
  | Some p =>
      let* w := get_world in
      modify (setf paths (insert p
        (mkPath (MINOR i_rdev) (dma_buf (dev w)) (llhost_dma_buf (dev w)) 0 false (None, None)
           (mkIoMapping 0 0 0, mkIoMapping 0 0 0) 0 0 0 zero_mbc zero_message))) >>
      ret p
  end.

Definition acq200_deletePath (p : nat) : MW unit := modify (setf paths (delete p)).

(** One device only: [devices] has one entry. *)
Definition acq200_lookup_device (i_rdev : Z) : MW unit :=
  let* w := get_world in
  if major (dev w) =? MAJOR i_rdev then ret tt else crash KernelBug.

(** ** Clients of buffers A and B: the backstop thread lives from the first open to the last close.
    [kthread_run] starts the thread ([i2o_missed_int_checker] in BufferAB.v, whose polls are the
    events [EvBackstop]), or returns an error code, which the driver takes for the thread;
    [kthread_stop] follows the pointer, and returns when the thread has ended.  (That of a thread which
    had ended before is not followed while the count does not overflow: [clients_backstop].) *)
Definition kthread_run : MW Task :=
  let* w := get_world in ret (if kthread_starts (iolog w) then task_runs else task_error).

Definition kthread_stop (t : Task) : MW unit :=
  match t with
  | task_error => crash BadPointer
  | _ => modify (upd_dev (setf i2o_backstop (fun _ => no_task)))
  end.

Definition acq200_onFirstClientOpenAB : MW Z :=
  let* t := kthread_run in
  modify (upd_dev (setf i2o_backstop (fun _ => t))) >> ret 0.

Definition acq200_onLastClientReleaseAB : MW Z :=
  let* w := get_world in
  kthread_stop (i2o_backstop (dev w)) >> ret 0.

Definition onOpen (p : nat) : MW Z :=
  let* rc := down_interruptible clients_sem in
  if istrue rc then ret (- ERESTARTSYS)
  else
    modify (upd_dev (setf clients_count (fun n => s32 (n + 1)))) >>
    let* w := get_world in
    let* rc := if clients_count (dev w) =? 1 then acq200_onFirstClientOpenAB else ret 0 in
    up clients_sem >>
    ret rc.

Definition onRelease (p : nat) : MW Z :=
  let* _ := down_interruptible clients_sem in
  let* w := get_world in
  let* rc := if clients_count (dev w) =? 1 then acq200_onLastClientReleaseAB else ret 0 in
  modify (upd_dev (setf clients_count (fun n => s32 (n - 1)))) >>
  up clients_sem >>
  ret rc.

Definition acq200_bridge_openAB (file : File) : MW Z :=
  let* _ := path_ref (PD file) in
  let* w := get_world in
  when (buf_va (fst (AB (dev w))) =? 0)
    (alloc_max_buf (fun b => setf AB (fun ab => (b, snd ab))) (acq200_AB_dmabuf_max_order (params w)) >>
     alloc_max_buf (fun b => setf AB (fun ab => (fst ab, b))) (acq200_AB_dmabuf_max_order (params w))) >>
  let* w := get_world in
  path_upd (PD file) (fun p => p <| bufferMappings :=
    (copyDmaBuf2IoMapping (fst (AB (dev w))), copyDmaBuf2IoMapping (snd (AB (dev w)))) |>) >>
  let* _ := onOpen (PD file) in
  ret 0.

(** ** Open and release *)

(** The result, and the file with its operations when it was set up. *)
Definition acq200_open (i_rdev : Z) (kmalloc : option nat) : MW (Z * option (File * file_operations)) :=
  acq200_lookup_device i_rdev >>
  let* p := acq200_createPath i_rdev kmalloc in
  let file := mkFile p i_rdev in
  let* x := path_ref p in
  let '(fops, busy) := newfops (minor x) in
  let* rc :=
    if busy then
      let* rc := down_interruptible AB_busy_sem in
      if istrue rc then ret (- ERESTARTSYS)
      else path_upd p (fun x => x <| has_AB_busy_mutex := 1 |>) >> ret 0
    else ret 0 in
  if istrue rc then ret (rc, Some (file, fops))
  else
    let* rc := if decide (fops = acq200_bridge_AB_fops) then acq200_bridge_openAB file else ret 0 in
    ret (rc, Some (file, fops)).

Definition acq200_release (file : File) : MW Z :=
  let* x := path_ref (PD file) in
  when (istrue (has_AB_busy_mutex x)) (up AB_busy_sem) >>
  when (istrue (Z.land (mbc_flags (mbc_on_release x)) MBC_FLAGS_ONRELEASE))
    (let m := setf mbc_flags (fun f => Z.land f (u32 (Z.lnot MBC_FLAGS_ONRELEASE))) (mbc_on_release x) in
     path_upd (PD file) (fun x => x <| mbc_on_release := m |>) >>
     let* r := acq200_ioctl_wbr_mbox m in
     path_upd (PD file) (fun x => x <| mbc_on_release := snd r |>)) >>
  acq200_deletePath (PD file) >>
  ret 0.
End Path.

(** ** Which operations a node has *)

(** The table of acq200_minors.h: channels, buffers A and B, files, special nodes, shells. *)
Definition minor_table : list (Z * Z * (file_operations * bool)) :=
  [(0, 96, (acq200_bridge_fops, true));        (* channels *)
   (97, 127, (acq200_bridge_AB_fops, false));  (* buffers A and B *)
   (128, 143, (acq200_bridge_fops, true));     (* files *)
   (193, 193, (acq200_mbox_fops, false));      (* the raw device *)
   (195, 195, (acq200_fops, false));           (* the big dump *)
   (203, 203, (acq200_llhost_fops, false));    (* the low latency buffer *)
   (227, 229, (acq200_bridge_fops, true));     (* shells *)
   (237, 237, (acq200_bridge_fops, true))].    (* acqcmd *)

Fixpoint table_fops (t : list (Z * Z * (file_operations * bool))) (m : Z) : file_operations * bool :=
  match t with
  | [] => (acq200_fops, true)
  | (lo, hi, r) :: t => if (lo <=? m) && (m <=? hi) then r else table_fops t m
  end.

(** The tests of the minor number's bits give each of the 256 nodes the operations the table of
    minor numbers says, and the busy semaphore to all but the buffers and the raw nodes. *)
Theorem newfops_table m : 0 <= m < 256 -> newfops m = table_fops minor_table m.
Proof.
  intros Hm.
  assert (Forall (fun i => newfops (Z.of_nat i) = table_fops minor_table (Z.of_nat i)) (seq 0 256)) as Hf
    by (apply (bool_decide_unpack _); vm_compute; exact I).
  rewrite Forall_forall in Hf. specialize (Hf (Z.to_nat m)). rewrite Z2Nat.id in Hf by lia.
  apply Hf, elem_of_seq. lia.
Qed.

(** ** Opening and closing *)
Lemma delete_alter_insert {A} (f : A -> A) p x (m : gmap nat A) : m !! p = None ->
  delete p (alter f p (insert p x m)) = m.
Proof.
  intros Hp. apply map_eq. intros q. destruct (decide (q = p)) as [->|].
  - by rewrite lookup_delete_eq, Hp.
  - by rewrite lookup_delete_ne, lookup_alter_ne, lookup_insert_ne by done.
Qed.

(** Updates of a semaphore and of the paths: they commute, compose and can be without effect. *)
Lemma sem_paths_comm s f g w : sem_upd s f (setf paths g w) = setf paths g (sem_upd s f w).
Proof. by destruct s. Qed.
Lemma sem_sem s f g w : sem_upd s g (sem_upd s f w) = sem_upd s (fun n => g (f n)) w.
Proof. by destruct s. Qed.
Lemma paths_paths f g w : setf paths g (setf paths f w) = setf paths (fun m => g (f m)) w.
Proof. done. Qed.
Lemma sem_upd_id s f w : f (sem_get s w) = sem_get s w -> sem_upd s f w = w.
Proof.
  destruct w as [? ? ? ? d]; destruct d as [? ? ? ? ? ? ? ? ? ? ? ? ? ? ? ? ms]; destruct ms; destruct s; cbn;
    intros E; unfold upd_mbox, upd_dev, setf, set_dev, set_mbox_sync, set_mbox_mutex,
      set_buffer_AB_busy_mutex, set_clients_mutex; cbn; by rewrite E.
Qed.
Lemma paths_id f w : f (paths w) = paths w -> setf paths f w = w.
Proof. intros E. destruct w. unfold setf, set_paths. cbn in *. by rewrite E. Qed.

Section OpenClose.
Context `{Platform}.
Context (get_free_pages : World -> Z -> Z) (dma_map_single : World -> Z -> Z).

(** A close without a mailbox request of its own gives the semaphore back if it was taken, and the path. *)
Lemma release_eq file x w : paths w !! PD file = Some x ->
  Z.land (mbc_flags (mbc_on_release x)) MBC_FLAGS_ONRELEASE = 0 ->
  acq200_release file w = Done 0 (setf paths (delete (PD file))
    (if istrue (has_AB_busy_mutex x) then sem_upd AB_busy_sem (fun n => n + 1) w else w)).
Proof.
  intros Hx Hm. unfold acq200_release. erewrite bind_done by by apply path_ref_eq. rewrite Hm.
  change (istrue 0) with false.
  destruct (istrue (has_AB_busy_mutex x)); unfold when; erewrite bind_done by reflexivity;
    by do 2 (erewrite bind_done by reflexivity).
Qed.

(** Opening a node and giving its path back.  (The close of the nodes that the bridge serves does more before
    that: [System.open_close_restores].) *)
Lemma open_then_release i_rdev p w :
  major (dev w) = MAJOR i_rdev -> paths w !! p = None ->
  fst (newfops (MINOR i_rdev)) <> acq200_bridge_AB_fops ->
  (snd (newfops (MINOR i_rdev)) = true -> 0 < sem_get AB_busy_sem w) ->
  exists w1 x, acq200_open get_free_pages dma_map_single i_rdev (Some p) w =
      Done (0, Some (mkFile p i_rdev, fst (newfops (MINOR i_rdev)))) w1 /\
    sem_get AB_busy_sem w1 = sem_get AB_busy_sem w - Zbool (snd (newfops (MINOR i_rdev))) /\
    paths w1 !! p = Some x /\ minor x = MINOR i_rdev /\ last_direction_hack x = 0 /\
    queued w1 = queued w /\ rchs w1 = rchs w /\
    acq200_release (mkFile p i_rdev) w1 = Done 0 w.
Proof.
  intros Hmaj Hp Hab Hsem. unfold acq200_open.
  erewrite bind_done.
  2:{ unfold acq200_lookup_device. erewrite bind_done by reflexivity.
      rewrite Hmaj, Z.eqb_refl. reflexivity. }
  erewrite bind_done.
  2:{ unfold acq200_createPath. erewrite bind_done by reflexivity. erewrite bind_done by reflexivity.
      reflexivity. }
  cbv zeta. set (x := mkPath _ _ _ _ _ _ _ _ _ _ _ _). set (w0 := setf paths (insert p x) w).
  erewrite bind_done by (apply path_ref_eq; cbn; apply lookup_insert_eq).
  change (minor x) with (MINOR i_rdev).
  destruct (newfops (MINOR i_rdev)) as [fops busy]. cbn [fst snd] in *.
  destruct busy.
  - specialize (Hsem eq_refl).
    erewrite bind_done.
    2:{ erewrite bind_done.
        2:{ unfold down_interruptible. erewrite bind_done by reflexivity.
            change (sem_get AB_busy_sem w0) with (sem_get AB_busy_sem w).
            rewrite (proj2 (Z.ltb_lt _ _) Hsem). reflexivity. }
        change (istrue 0) with false. cbv iota.
        erewrite bind_done by (apply (path_upd_eq p x); cbn; apply lookup_insert_eq). reflexivity. }
    change (istrue 0) with false. cbv iota. rewrite decide_False by done.
    erewrite bind_done by reflexivity. eexists _, (x <| has_AB_busy_mutex := 1 |>).
    split; [reflexivity|]. split; [cbn; lia|].
    split; [cbn -[alter insert]; by rewrite lookup_alter_eq, lookup_insert_eq|]. do 4 (split; [done|]).
    erewrite release_eq; [|cbn -[alter insert]; by rewrite lookup_alter_eq, lookup_insert_eq|reflexivity].
    f_equal. unfold w0. change (istrue _) with true. cbv iota.
    rewrite !sem_paths_comm, sem_sem, !paths_paths, sem_upd_id by (cbn; lia).
    apply paths_id. by apply delete_alter_insert.
  - erewrite bind_done by reflexivity. change (istrue 0) with false. cbv iota. rewrite decide_False by done.
    erewrite bind_done by reflexivity. eexists _, x. split; [reflexivity|]. split; [cbn; lia|].
    split; [apply lookup_insert_eq|]. do 4 (split; [done|]).
    erewrite release_eq; [|cbn; apply lookup_insert_eq|reflexivity].
    change (istrue (has_AB_busy_mutex x)) with false. cbv iota. f_equal. unfold w0. rewrite paths_paths. apply paths_id. by apply delete_insert_id.
Qed.
End OpenClose.
