(* ===== verification/Clients.v ===== *)
(** * acq200.c: the clients of buffers A and B and the backstop thread

    The first client starts the thread that polls for missed interrupts, the last one stops it.  A wait
    for the clients' semaphore leaves the count and the thread alone, whatever comes in the meantime,
    so there is a thread exactly while the count is positive; but one that could not be started is
    an error code, which nobody looks at until the last close follows it. *)

From S2P Require Import Prelude BusProt StreamBuf Pool Device Rch I2o Isr Kernel Outer Owner Frames.
From S2P Require Import Sleep Mask Mailbox Path.

Section Clients.
Context `{Platform}.

Definition clients (w : World) : Z * Task := (clients_count (dev w), i2o_backstop (dev w)).
(** A thread was started, or was to be, exactly while clients are counted. *)
Definition backstop_ok (w : World) : Prop := i2o_backstop (dev w) = no_task <-> clients_count (dev w) <= 0.

Lemma outer_clients w w' : outer w' = outer w -> clients w' = clients w.
Proof. unfold outer, clients. congruence. Qed.

Lemma sem_upd_clients s f w : clients (sem_upd s f w) = clients w.
Proof. by destruct s. Qed.

Lemma run_event_clients e w w' : run_event e w = Done tt w' -> clients w' = clients w.
Proof.
  intros [Ho _]%run_event_outer. destruct e; cbn [event_outer] in Ho; apply outer_clients in Ho; try done.
  by rewrite sem_upd_clients in Ho.
Qed.

Lemma down_from_clients s evs w rc w' : down_from s evs w = Done rc w' -> clients w' = clients w.
Proof.
  revert w. induction evs as [|e evs IH]; intros w E; [done|]. cbn [down_from] in E. unfold bind in E.
  destruct (run_event e w) as [[] w1| | |] eqn:Ee; try done. apply run_event_clients in Ee.
  cbn [set_sched' modify get_world gets] in E. destruct (0 <? _).
  - injection E as <- <-. by rewrite sem_upd_clients.
  - destruct (sigpending _); [by injection E as <- <-|]. by apply IH in E as ->.
Qed.

Lemma down_clients s w rc w' : down_interruptible s w = Done rc w' -> clients w' = clients w.
Proof.
  unfold down_interruptible, bind. cbn [get_world gets]. destruct (0 <? _).
  - intros [= <- <-]. apply sem_upd_clients.
  - destruct (sigpending w); [by intros [= <- <-]|]. apply down_from_clients.
Qed.

(** A wait for the semaphore ends, or sleeps for ever, with the clients as they were. *)
Lemma down_keeps s w : dev_inv w -> safe (down_interruptible s) (fun _ w' => clients w' = clients w) w.
Proof.
  intros Hi. pose proof (down_spec s w w Hi (evolves_refl w Hi)) as Hd. unfold safe in *.
  destruct (down_interruptible s w) as [rc w'| | |] eqn:E; try done. by apply down_clients in E.
Qed.

(** C36: opening the buffers counts a client, unless a signal interrupts the wait; closing counts one off,
    even then.  The first client starts the thread and the others leave it; the last close stops it; so there
    is a thread exactly while the count is positive, if there was before, and it runs if it could be
    started; a close whose open was interrupted stops it under the feet of the client that is left.  When
    it could not be started the open succeeds all the same, and the last close faults on the error code,
    which is the only fault. *)
Theorem clients_backstop p w : dev_inv w -> backstop_ok w -> - 2 ^ 31 < clients_count (dev w) < 2 ^ 31 - 1 ->
  safe (onOpen p) (fun rc w' => backstop_ok w' /\
    (rc = 0 /\ clients_count (dev w') = clients_count (dev w) + 1 /\
       i2o_backstop (dev w') = (if clients_count (dev w) =? 0 then
           if kthread_starts (iolog w') then task_runs else task_error else i2o_backstop (dev w)) \/
     rc = - ERESTARTSYS /\ clients w' = clients w)) w /\
  outcome (onRelease p) (fun rc w' => rc = 0 /\ backstop_ok w' /\
      clients_count (dev w') = clients_count (dev w) - 1 /\
      i2o_backstop (dev w') = if clients_count (dev w) =? 1 then no_task else i2o_backstop (dev w))
    (fun f w' => f = BadPointer /\ clients_count (dev w) = 1 /\ i2o_backstop (dev w) = task_error) w.
Proof.
  intros Hi Hok Hc. unfold backstop_ok in *. split.
  - unfold onOpen. apply safe_bind. eapply safe_mono; [by apply down_keeps|]. intros rc w1 Ecl. pose proof Ecl as [= Ec Eb].
    destruct (istrue rc); [split; [rewrite Eb, Ec; exact Hok|by right]|].
    unfold safe. erewrite bind_done by reflexivity. erewrite bind_done by reflexivity. cbn.
    rewrite Ec, s32_id by lia. destruct (Z.eqb_spec (clients_count (dev w) + 1) 1) as [E|E]; cbn.
    + rewrite Ec, s32_id by lia. split.
      * destruct (kthread_starts _); (split; [discriminate|lia]).
      * left. split; [done|]. split; [done|]. by rewrite (proj2 (Z.eqb_eq (clients_count (dev w)) 0)) by lia.
    + rewrite Ec, s32_id, Eb by lia. split; [rewrite Hok; lia|]. left. split; [done|]. split; [done|].
      by rewrite (proj2 (Z.eqb_neq (clients_count (dev w)) 0)) by lia.
  - unfold onRelease. eapply outcome_then; [by apply safe_outcome, down_keeps|]. intros rc w1 [= Ec Eb].
    unfold outcome. erewrite bind_done by reflexivity. cbv beta. rewrite Ec.
    destruct (Z.eqb_spec (clients_count (dev w)) 1) as [E|E].
    + unfold acq200_onLastClientReleaseAB. rewrite !bind_assoc. erewrite bind_done by reflexivity. cbv beta. rewrite Eb.
      destruct (i2o_backstop (dev w)) eqn:Et; cbn [kthread_stop]; [by apply proj1 in Hok; specialize (Hok eq_refl); lia| |done].
      cbn. rewrite Ec, s32_id by lia. split; [done|]. split; [split; [lia|done]|done].
    + cbn. rewrite Ec, Eb, s32_id by lia. split; [done|]. split; [rewrite Hok; lia|done].
Qed.

(** What goes wrong when the thread cannot be started: the first open succeeds, and its close faults. *)
Theorem failed_thread_faults p w : 0 < sem_get clients_sem w -> clients_count (dev w) = 0 -> kthread_starts (iolog w) = false ->
  exists w1 w2, onOpen p w = Done 0 w1 /\ onRelease p w1 = Crash BadPointer w2.
Proof.
  intros Hs Hc Hk. set (w0 := sem_upd clients_sem (fun n => n - 1) w).
  set (w2 := upd_dev (setf clients_count (fun n => s32 (n + 1))) w0).
  assert (clients_count (dev w2) = 1) as Hc2 by (cbn; by rewrite Hc).
  assert (kthread_starts (iolog w2) = false) as Hk2 by exact Hk.
  set (w3 := sem_upd clients_sem (fun n => n + 1) (upd_dev (setf i2o_backstop (fun _ => task_error)) w2)).
  assert (0 < sem_get clients_sem w3 /\ clients_count (dev w3) = 1 /\ i2o_backstop (dev w3) = task_error) as (Hs3 & Hc3 & Ht3).
  { split; [cbn in Hs |- *; lia|by split]. }
  assert (forall w, 0 < sem_get clients_sem w -> down_interruptible clients_sem w = Done 0 (sem_upd clients_sem (fun n => n - 1) w)) as Hdown.
  { intros v Hv. unfold down_interruptible. erewrite bind_done by reflexivity. by rewrite (proj2 (Z.ltb_lt _ _) Hv). }
  exists w3, (sem_upd clients_sem (fun n => n - 1) w3). split.
  - unfold onOpen. erewrite bind_done by by apply Hdown. cbn [istrue Z.eqb negb]. fold w0.
    erewrite bind_done by reflexivity. fold w2. erewrite bind_done by reflexivity. rewrite Hc2. cbn [Z.eqb Pos.eqb].
    unfold acq200_onFirstClientOpenAB, kthread_run. rewrite !bind_assoc. erewrite bind_done by reflexivity. cbv beta. by rewrite Hk2.
  - unfold onRelease. erewrite bind_done by by apply Hdown. erewrite bind_done by reflexivity. cbv beta.
    change (clients_count (dev (sem_upd clients_sem (fun n => n - 1) w3))) with (clients_count (dev w3)). by rewrite Hc3.
Qed.

(** Without a client the thread does not poll. *)
Lemma no_client_no_poll w : backstop_ok w -> clients_count (dev w) <= 0 -> run_event EvBackstop w = Done tt w.
Proof.
  intros Hok Hc. cbn [run_event]. unfold bind. cbn. by rewrite (proj2 Hok Hc).
Qed.
End Clients.
