(* ===== verification/Bridge.v ===== *)
(** * acq200_i2o.c: reading and writing through the bridge

    A read posts a request for data to the card, waits for the reply, which the bottom half records in
    the handler, and copies the data the card put in a host buffer to the user.  A write copies the
    user's data to a host buffer and posts a request; the reply recycles the buffer.  Closing sends an
    end-of-file message and recycles whatever is still queued for the path. *)

From S2P Require Import Prelude BusProt StreamBuf Pool Device Rch I2o Isr Kernel Outer Owner Frames.
From S2P Require Import Sleep Mask Mailbox Path.

Definition DMA_BIDIRECTIONAL : Z := 0.
Definition DMA_TO_DEVICE : Z := 1.
Definition DMA_FROM_DEVICE : Z := 2.
Definition DMA_NONE : Z := 3.

(** [min] of two [size_t]. *)
Definition umin (a b : Z) : Z := if a <? b then a else b.

Section Bridge.
Context `{Platform}.

Definition acq200_copy_from_io_to_user (file : File) (ubuf iobuf count : Z) : MW Z :=
  let* w := get_world in
  if istrue (acq200_stub_copy_to_user (params w)) then ret 0
  else copy_to_user ubuf iobuf count.

Definition acq200_copy_from_user_to_io (file : File) (iobuf ubuf count : Z) : MW Z :=
  copy_from_user iobuf ubuf count.

(** Dereference a [struct IoMapping *]. *)
Definition kbuf_ref (k : Kbuf) : MW IoMapping :=
  match k with
  | KNull => crash NullDeref
  | KPool i => let* m := gets maps in deref OutOfBounds (m !! i)
  | KPath p b => let* x := path_ref p in ret (ab_get (bufferMappings x) b)
  | KStack m => ret m
  end.

(** The condition a reader waits for. *)
Definition rch_valid (r : nat) (w : World) : bool :=
  match rchs w !! r with Some x => istrue (valid (rchReturn x)) | None => false end.

(** After the wait: deliver the data, if there is a reply. *)
Definition read_end (file : File) (ubuf pos : Z) (rch : nat) : MW (Z * Z) :=
  let* v := rchRemoveIfNotValid rch in
  if v =? 1 then
    let* x := rch_ref rch in
    let count := u32 (nbytes (rchReturn x)) in
    let* m := kbuf_ref (kbuf (rchReturn x)) in
    let* _ := acq200_copy_from_io_to_user file ubuf (map_va m) count in
    i2o_recycleRch rch >>
    ret (s32 count, pos + count)
  else if v =? 0 then ret (- EINTR, pos)
  else i2o_recycleRch rch >> ret (- EFAULT, pos).

(** After the request was sent: wait for the reply and deliver the data. *)
Definition read_reply (file : File) (ubuf pos : Z) (rch : nat) : MW (Z * Z) :=
  let* _ := wait_event_interruptible (path_waitq (PD file)) (rch_valid rch) in
  read_end file ubuf pos rch.

(** The result, and the new file position. *)
Definition acq200_bridge_read_generic (file : File) (ubuf count pos hrd_code : Z) (kb : Kbuf)
    : MW (Z * Z) :=
  let* _ := path_ref (PD file) in
  let* o := acq200_pool_alloc_rch in
  match o with
  | None => ret (- ETIMEDOUT, pos)
  | Some rch =>
      let pool := bool_decide (kb = KNull) in
      let* ok := if pool then acq200_pool_alloc_mapping DMA_FROM_DEVICE else ret (Some kb) in
      match ok with
      | None => i2o_recycleRch rch >> ret (- ETIMEDOUT, pos)
      | Some kb =>
          let* m := kbuf_ref kb in
          let* w := get_world in
          let pam := if pool then MK_DMABUF_OFFSET m (dma_buf (dev w)) else u32 (map_pa m) in
          let rch_flags := if pool then RCH_KB_POOL else 0 in
          if map_len m =? 0 then
            i2o_recycleRch rch >> acq200_pool_free_mapping kb >> ret (- ENOMEM, pos)
          else
            let count := umin count (u32 (map_len m)) in
            let* message := build_incoming_raw_message file pam pos count hrd_code in
            buildRch rch i2o_handleReadMessageFile_fn (PD file) kb rch_flags >>
            rchAppend rch >>
            let* _ := acq200_sendI2O_kbuf (PD file) message in
            read_reply file ubuf pos rch
      end
  end.

Definition acq200_bridge_write_generic (file : File) (ubuf count pos hrd_code : Z) : MW (Z * Z) :=
  let* _ := path_ref (PD file) in
  let* o := acq200_pool_alloc_rch in
  match o with
  | None => ret (- ETIMEDOUT, pos)
  | Some rch =>
      let* ok := acq200_pool_alloc_mapping DMA_TO_DEVICE in
      match ok with
      | None => i2o_recycleRch rch >> ret (- ETIMEDOUT, pos)
      | Some kb =>
          let* m := kbuf_ref kb in
          let* w := get_world in
          let pam := MK_DMABUF_OFFSET m (dma_buf (dev w)) in
          let count := umin count (u32 (map_len m)) in
          if count =? 0 then ret (- ENOMEM, pos)
          else
            let* _ := acq200_copy_from_user_to_io file (map_va m) ubuf count in
            let* message := build_outgoing_raw_message file pam pos count hrd_code in
            buildRch rch i2o_recycleRchWrapper_fn (PD file) kb RCH_KB_POOL >>
            rchAppend rch >>
            let* _ := acq200_sendI2O_kbuf (PD file) message in
            ret (s32 count, pos + count)
      end
  end.

Definition USE_POOL : Kbuf := KNull.

Definition acq200_bridge_write (file : File) (ubuf count pos : Z) : MW (Z * Z) :=
  acq200_bridge_write_generic file ubuf count pos HRD_CHAN_IS_FILE.

Definition acq200_bridge_read (file : File) (ubuf count pos : Z) : MW (Z * Z) :=
  acq200_bridge_read_generic file ubuf count pos HRD_CHAN_IS_FILE USE_POOL.

(** The mapping of buffer A or B a request names. *)
Definition AB_mapping (w : World) (buffer : Z) : IoMapping :=
  let b := ab_get (AB (dev w)) buffer in
  mkIoMapping (buf_va b) (buf_pa b) (Z.min (dma_buf_len b) (user_max_buf (params w))).

Definition acq200_bridge_readAB (file : File) (ubuf count pos : Z) : MW (Z * Z) :=
  let* _ := path_ref (PD file) in
  let* w := get_world in
  acq200_bridge_read_generic file ubuf count pos (Z.lor HRD_CHAN_IS_FILE HRD_ABS_PCI)
    (KStack (AB_mapping w 0)).

(** ** Closing *)

(** [list_for_each_entry] up to the first handler of the path. *)
Fixpoint find_path (path : nat) (l : list nat) : MW (option nat) :=
  match l with
  | [] => ret None
  | r :: l =>
      let* x := rch_ref r in
      if decide (rpath x = Some path) then ret (Some r) else find_path path l
  end.

Fixpoint cleanup_loop (fuel : nat) (path : nat) : MW unit :=
  match fuel with
  | O => nofuel
  | S fuel =>
      let* l := gets queued in
      let* o := find_path path l in
      match o with
      | None => ret tt
      | Some r => i2o_recycleRch r >> cleanup_loop fuel path
      end
  end.

Definition _cleanup_on_bridge_release (path : nat) : MW unit :=
  let* l := gets queued in
  cleanup_loop (S (length l)) path.

(** [while (my_rch == 0)]: an allocation that times out when nobody is left to free a handler is
    tried for ever. *)
Fixpoint alloc_rch_retry (fuel : nat) : MW nat :=
  match fuel with
  | O => nofuel
  | S fuel =>
      let* w := get_world in
      let* o := acq200_pool_alloc_rch in
      match o with
      | Some r => ret r
      | None => if decide (sched w = []) then block else alloc_rch_retry fuel
      end
  end.

(** After the wait for the answer to the last message. *)
Definition release_end (file : File) (my_rch : nat) : MW Z :=
  let* x := rch_ref my_rch in
  when (valid (rchReturn x) =? 1) (i2o_recycleRch my_rch) >>
  _cleanup_on_bridge_release (PD file) >>
  acq200_release file.

Definition acq200_bridge_release_message (file : File) (message : Message) : MW Z :=
  let path := PD file in
  let* _ := path_ref path in
  let* w := get_world in
  let* my_rch := alloc_rch_retry (S (S (length (sched w)))) in
  buildRch my_rch i2o_handleLastMessage_fn path KNull RCH_KB_POOL >>
  rchAppend my_rch >>
  let* _ := acq200_sendI2O_kbuf path message in
  let* _ := wait_event_interruptible (path_waitq path) (rch_valid my_rch) in
  release_end file my_rch.

Definition acq200_bridge_release_generic (file : File) (hrd_code : Z) : MW Z :=
  let* x := path_ref (PD file) in
  let ldh := last_direction_hack x in
  if ldh =? LDH_OUTBOUND then
    let* m := build_outgoing_raw_message file 0 0 0 (Z.lor hrd_code HRD_CHAN_EOF) in
    acq200_bridge_release_message file m
  else if ldh =? LDH_INBOUND then
    let* m := build_incoming_raw_message file 0 0 0 (Z.lor hrd_code HRD_CHAN_EOF) in
    acq200_bridge_release_message file m
  else
    _cleanup_on_bridge_release (PD file) >> acq200_release file.

Definition acq200_bridge_release (file : File) : MW Z :=
  acq200_bridge_release_generic file HRD_CHAN_IS_FILE.

Definition acq200_bridge_releaseAB (file : File) : MW Z :=
  let* _ := onRelease (PD file) in
  acq200_bridge_release file.
End Bridge.
