(* ===== verification/Acquire.v ===== *)
(** * What a process does to the device, step by step

    Steps that keep the ownership invariant; taking a handler and a mapping from the pools, which may
    be exhausted: then the process sleeps, other contexts run, and the allocation succeeds or times
    out.  What was acquired is accounted for against the state before the call. *)

From S2P Require Import Prelude BusProt StreamBuf Pool Device Rch I2o Isr Kernel Outer Owner Frames.
From S2P Require Import Sleep Mask Mailbox Path Bridge.

(** ** Steps of a process that keep the invariant *)

(** Entries may become reserved, paths may change but stay. *)
Lemma inv_mono w w' :
  dev_inv w -> queued w' = queued w -> rchs w' = rchs w -> maps w' = maps w ->
  streambuf (dev w') = streambuf (dev w) ->
  (forall p, is_Some (paths w !! p) -> is_Some (paths w' !! p)) ->
  pool_wf (handlers (dev w')) -> same_items (handlers (dev w)) (handlers (dev w')) ->
  pool_wf (mappings (dev w')) -> same_items (mappings (dev w)) (mappings (dev w')) ->
  (forall r, is_reserved (handlers (dev w)) r = true -> is_reserved (handlers (dev w')) r = true) ->
  (forall k, is_reserved (mappings (dev w)) k = true -> is_reserved (mappings (dev w')) k = true) ->
  dev_inv w'.
Proof.
  intros Hi Eq Er Em Es Hp Hwh Hsh Hwm Hsm Hh Hm.
  destruct Hi as [? ? Hit Hmi ? Hq Hnq Hho ? ?].
  assert (forall r k, holds w' r k <-> holds w r k) as Hhold by (intros; unfold holds; by rewrite Eq, Er).
  constructor; rewrite ?Eq, ?Er, ?Em, ?Es; try done.
  - intros r. rewrite <- (proj2 Hsh). apply Hit.
  - intros k. rewrite <- (proj2 Hsm). apply Hmi.
  - intros r Hr. destruct (Hq r Hr) as (x & Hx & [? ? (p & ? & ?) ? ?]). exists x.
    split; [done|]. constructor; auto. exists p. auto.
  - intros r r' k. rewrite !Hhold. apply Hho.
Qed.

(** Nothing of the ownership state changed, but paths may have. *)
Lemma inv_same w w' :
  dev_inv w -> queued w' = queued w -> rchs w' = rchs w -> maps w' = maps w ->
  streambuf (dev w') = streambuf (dev w) ->
  (forall p, is_Some (paths w !! p) -> is_Some (paths w' !! p)) ->
  handlers (dev w') = handlers (dev w) -> mappings (dev w') = mappings (dev w) -> dev_inv w'.
Proof. intros Hi ? ? ? ? ? Eh Em. apply (inv_mono w); rewrite ?Eh, ?Em; try done; apply Hi. Qed.

Lemma alter_is_Some {A} (f : A -> A) p q (m : gmap nat A) : is_Some (m !! q) -> is_Some (alter f p m !! q).
Proof. intros Hq. by apply lookup_alter_is_Some. Qed.

(** A handler that is not queued may be rewritten, but for its link. *)
Lemma inv_upd_unqueued w r f :
  dev_inv w -> r ∉ queued w -> (forall x, rlink (f x) = rlink x) -> dev_inv (setf rchs (alter f r) w).
Proof.
  intros Hi Hr Hf. set (w' := setf rchs (alter f r) w).
  assert (Hne : forall r', r' ∈ queued w -> rchs w' !! r' = rchs w !! r').
  { intros r' Hr'. cbn. apply list_lookup_alter_ne. by intros ->. }
  assert (forall r' k, holds w' r' k -> holds w r' k) as Hh.
  { intros r' k [Hq (x & Hx & Hk)]. rewrite Hne in Hx by done. split; eauto. }
  destruct Hi as [? ? Hit ? ? Hq Hnq Hho ? ?]. constructor; try done.
  - intros r' Hin. apply Hit in Hin. apply lookup_lt_is_Some. apply lookup_lt_is_Some in Hin. cbn. by rewrite length_alter.
  - intros r' Hin. destruct (Hq r' Hin) as (x & Hx & [? ? ? ? ?]). exists x.
    rewrite Hne by done. by split; [|constructor].
  - intros r' x Hx Hin. cbn in Hx. destruct (decide (r' = r)) as [->|].
    + rewrite list_lookup_alter_eq in Hx. destruct (rchs w !! r) as [y|] eqn:Hy; [|done].
      simplify_eq/=. rewrite Hf. by eapply Hnq.
    + rewrite list_lookup_alter_ne in Hx by done. by eapply Hnq.
  - intros r1 r2 k H1%Hh H2%Hh. by eapply Hho.
Qed.

(** A queued handler may be rewritten as long as what it owns and where it is stay. *)
Lemma inv_upd_queued w r f :
  dev_inv w -> r ∈ queued w ->
  (forall x, rlink (f x) = rlink x /\ rpath (f x) = rpath x /\ rdevice (f x) = rdevice x /\
             pool_kbuf (f x) = pool_kbuf x) ->
  dev_inv (setf rchs (alter f r) w).
Proof.
  intros Hi Hr Hf. set (w' := setf rchs (alter f r) w).
  assert (Hl : forall r' y, rchs w !! r' = Some y -> exists y', rchs w' !! r' = Some y' /\
    rlink y' = rlink y /\ rpath y' = rpath y /\ rdevice y' = rdevice y /\ pool_kbuf y' = pool_kbuf y).
  { intros r' y Hy. cbn. destruct (decide (r' = r)) as [->|].
    - rewrite list_lookup_alter_eq, Hy. by exists (f y).
    - rewrite list_lookup_alter_ne by done. by exists y. }
  assert (forall r' k, holds w' r' k -> holds w r' k) as Hh.
  { intros r' k [Hq (y' & Hy' & Hk)]. destruct (di_queued _ Hi r' Hq) as (y & Hy & _).
    destruct (Hl r' y Hy) as (y2 & Hy2 & _ & _ & _ & E). simplify_eq.
    split; [done|]. exists y. by rewrite <- E. }
  destruct Hi as [? ? Hit ? ? Hq Hnq Hho ? ?]. constructor; try done.
  - intros r' Hin. destruct (Hit r' Hin) as [y Hy]. destruct (Hl r' y Hy) as (y' & ? & _). by exists y'.
  - intros r' Hin. destruct (Hq r' Hin) as (y & Hy & [? ? ? ? ?]).
    destruct (Hl r' y Hy) as (y' & Hy' & E1 & E2 & E3 & E4). exists y'.
    split; [done|]. constructor; rewrite ?E1, ?E2, ?E3, ?E4; done.
  - intros r' y' Hy' Hin. cbn in Hy'. destruct (decide (r' = r)) as [->|]; [done|].
    rewrite list_lookup_alter_ne in Hy' by done. by eapply Hnq.
  - intros r1 r2 k H1%Hh H2%Hh. by eapply Hho.
Qed.

(** A handler that was built is queued. *)
Lemma inv_enqueue w r x :
  dev_inv w -> r ∉ queued w -> rchs w !! r = Some x -> is_Some (rdevice x) ->
  (exists p, rpath x = Some p /\ is_Some (paths w !! p)) ->
  is_reserved (handlers (dev w)) r = true ->
  (forall k, pool_kbuf x = Some k -> is_reserved (mappings (dev w)) k = true /\ forall r', ~ holds w r' k) ->
  dev_inv (linked r (fun l => l ++ [r]) LinkIn w).
Proof.
  intros Hi Hr Hx Hd Hp Hres Hk. set (w' := linked r _ LinkIn w).
  assert (Hq' : queued w' = queued w ++ [r]) by done.
  assert (Hx' : rchs w' !! r = Some (x <| rlink := LinkIn |>)) by (cbn; by rewrite list_lookup_alter_eq, Hx).
  assert (Hne : forall r', r' <> r -> rchs w' !! r' = rchs w !! r').
  { intros r' Hne. cbn. by apply list_lookup_alter_ne. }
  assert (Hin : forall r', r' ∈ queued w' -> r' <> r -> r' ∈ queued w).
  { intros r'. rewrite Hq'. set_solver. }
  assert (Hh : forall r' k, holds w' r' k -> (r' = r /\ pool_kbuf x = Some k) \/ (r' <> r /\ holds w r' k)).
  { intros r' k [Hq (y & Hy & Hyk)]. destruct (decide (r' = r)) as [->|Hn].
    - left. rewrite Hx' in Hy. by simplify_eq.
    - right. split; [done|]. rewrite Hne in Hy by done. split; eauto. }
  pose proof Hi as [? ? Hit ? ? Hq Hnq Hho ? ?]. constructor; try done.
  - intros r' Hi'. destruct (decide (r' = r)) as [->|]; [by eexists|]. rewrite Hne by done. by apply Hit.
  - rewrite Hq'. apply NoDup_app. split; [done|]. split; [|apply NoDup_singleton]. set_solver.
  - intros r' Hr'. destruct (decide (r' = r)) as [->|Hn].
    + eexists. split; [done|]. constructor; try done. intros k Hkk. by apply Hk.
    + destruct (Hq r' (Hin r' Hr' Hn)) as (y & Hy & [? ? ? ? ?]). exists y.
      rewrite Hne by done. by split; [|constructor].
  - intros r' y Hy Hr'. destruct (decide (r' = r)) as [->|Hn]; [exfalso; apply Hr'; rewrite Hq'; set_solver|].
    rewrite Hne in Hy by done. apply (Hnq r' y Hy). intros ?. apply Hr'. rewrite Hq'. set_solver.
  - intros r1 r2 k [[-> E1]|[N1 H1]]%Hh [[-> E2]|[N2 H2]]%Hh; try done.
    + by destruct (proj2 (Hk k E1) r2).
    + by destruct (proj2 (Hk k E2) r1).
    + by eapply Hho.
Qed.

(** ** Taking a handler and a mapping while there are free ones *)
Definition has_free {A} (p : Pool A) : Prop := exists i e, entries p !! i = Some e /\ reserved e = false.

Definition taken_rch (i : nat) (w : World) : World :=
  upd_dev (fun d => d <| handlers := reserve i (handlers (dev w)) |>) w.
Definition taken_map (i : nat) (w : World) : World :=
  upd_dev (fun d => d <| mappings := reserve i (mappings (dev w)) |>) w.

Section Take.
Context `{Platform}.

Lemma taken_rch_inv w i e : dev_inv w -> entries (handlers (dev w)) !! i = Some e -> dev_inv (taken_rch i w).
Proof.
  intros Hi Hl. assert (i < max_entries (handlers (dev w)))%nat as Hlt
    by (rewrite <- (pw_len _ (di_handlers _ Hi)); by eapply lookup_lt_Some).
  apply (inv_mono w); try done; cbn.
  - by apply reserve_wf; [apply Hi|].
  - apply reserve_same_items.
  - apply Hi.
  - intros r Hr. rewrite (is_reserved_reserve _ _ _ _ (di_handlers _ Hi) Hl). by case_decide.
Qed.

Lemma taken_map_inv w i e : dev_inv w -> entries (mappings (dev w)) !! i = Some e -> dev_inv (taken_map i w).
Proof.
  intros Hi Hl. assert (i < max_entries (mappings (dev w)))%nat as Hlt
    by (rewrite <- (pw_len _ (di_maps _ Hi)); by eapply lookup_lt_Some).
  apply (inv_mono w); try done; cbn.
  - apply Hi.
  - by apply reserve_wf; [apply Hi|].
  - apply reserve_same_items.
  - intros k Hk. rewrite (is_reserved_reserve _ _ _ _ (di_maps _ Hi) Hl). by case_decide.
Qed.

Lemma take_rch w : dev_inv w -> has_free (handlers (dev w)) ->
  exists i e, entries (handlers (dev w)) !! i = Some e /\ reserved e = false /\
    acq200_pool_alloc_rch w = Done (Some (item e)) (taken_rch i w) /\ dev_inv (taken_rch i w).
Proof.
  intros Hi (i0 & e0 & Hi0 & He0).
  pose proof (alloc_first_free (W := World) (A := nat) w i0 e0) as Hal.
  destruct (Hal (di_handlers _ Hi) Hi0 He0) as (i & e & (Hl & Hf & _) & Ha).
  exists i, e. split; [done|]. split; [done|]. split; [exact Ha|]. by eapply taken_rch_inv.
Qed.

Lemma take_map dir w : dev_inv w -> has_free (mappings (dev w)) ->
  exists i e, next_free (mappings (dev w)) i e /\
    acq200_pool_alloc_mapping dir w = Done (Some (item e)) (taken_map i w) /\ dev_inv (taken_map i w).
Proof.
  intros Hi (i0 & e0 & Hi0 & He0).
  pose proof (alloc_first_free (W := World) (A := Kbuf) w i0 e0) as Hal.
  destruct (Hal (di_maps _ Hi) Hi0 He0) as (i & e & Hnf & Ha). pose proof Hnf as (Hl & Hf & _).
  exists i, e. split; [done|]. split; [exact Ha|]. by eapply taken_map_inv.
Qed.
End Take.

(** A free handler is not queued, a free mapping is held by nobody. *)
Lemma free_not_queued w i e : dev_inv w -> entries (handlers (dev w)) !! i = Some e ->
  reserved e = false -> item e ∉ queued w /\ is_reserved (handlers (dev w)) (item e) = false /\
  exists x, rchs w !! item e = Some x.
Proof.
  intros Hi Hl He.
  assert (is_reserved (handlers (dev w)) (item e) = false) as Hr.
  { rewrite <- He. eapply is_reserved_lookup; [apply di_handlers, Hi|done]. }
  split; [|split; [done|]].
  - intros Hq. destruct (di_queued _ Hi _ Hq) as (x & _ & [? ? ? Hres ?]). congruence.
  - apply (di_items _ Hi). apply list_elem_of_fmap. exists e. split; [done|].
    by eapply list_elem_of_lookup_2.
Qed.

Lemma free_not_held w i e : dev_inv w -> entries (mappings (dev w)) !! i = Some e ->
  reserved e = false -> (forall r, ~ holds w r (item e)) /\
  is_reserved (mappings (dev w)) (item e) = false /\
  exists j m, item e = KPool j /\ maps w !! j = Some m /\ 0 < map_len m < 2 ^ 31.
Proof.
  intros Hi Hl He.
  assert (is_reserved (mappings (dev w)) (item e) = false) as Hr.
  { rewrite <- He. eapply is_reserved_lookup; [apply di_maps, Hi|done]. }
  split; [|split; [done|]].
  - intros r [Hq (x & Hx & Hk)]. destruct (di_queued _ Hi _ Hq) as (x0 & Hx0 & [? ? ? ? Hres]).
    simplify_eq. specialize (Hres _ Hk). congruence.
  - apply (di_map_items _ Hi). apply list_elem_of_fmap. exists e. split; [done|].
    by eapply list_elem_of_lookup_2.
Qed.


(** ** What messages and sleeps leave of a path: its node, its buffers, and whose turn it is *)
Definition node (x : Acq200Path) := (minor x, rchAB x, bufferMappings x, ab_next x).
Definition kept (x x' : Acq200Path) : Prop := node x' = node x.

Definition paths_kept (w w' : World) : Prop := forall p, node <$> paths w !! p = node <$> paths w' !! p.

#[export] Instance paths_kept_equiv : Equivalence paths_kept.
Proof.
  split; [done|intros w w' E p; by rewrite E|]. intros w1 w2 w3 H12 H23 p. by rewrite H12.
Qed.

(** Nodes that are equal: a path in the one place is one in the other. *)
Lemma node_lookup (m m' : gmap nat Acq200Path) p x : node <$> m !! p = node <$> m' !! p -> m !! p = Some x ->
  exists x', m' !! p = Some x' /\ kept x x'.
Proof. intros E Hx. rewrite Hx in E. destruct (m' !! p) as [x'|]; [|done]. exists x'. split; [done|]. unfold kept. cbn in E. congruence. Qed.

Lemma paths_kept_is_Some w w' p : paths_kept w w' -> is_Some (paths w !! p) -> is_Some (paths w' !! p).
Proof. intros Hk [x Hx]. destruct (node_lookup _ _ p x (Hk p) Hx) as (y & ? & _). by exists y. Qed.

Lemma paths_kept_same w w' : (forall p, same_path (paths w !! p) (paths w' !! p)) -> paths_kept w w'.
Proof.
  intros Hs p. specialize (Hs p). unfold same_path in Hs.
  destruct (paths w !! p) as [x|], (paths w' !! p) as [x'|]; try done.
  destruct x, x'. unfold setf, set_return_waitq in Hs. cbn in Hs. injection Hs as -> -> -> -> -> -> -> -> -> -> ->. done.
Qed.

Lemma evolves_kept w w' : evolves w w' -> paths_kept w w'.
Proof. intros He. by apply paths_kept_same, He. Qed.

Lemma paths_kept_alter f p w w' : paths w' = alter f p (paths w) -> (forall x, kept x (f x)) -> paths_kept w w'.
Proof.
  intros E Hf q. rewrite E. destruct (decide (q = p)) as [->|].
  - rewrite lookup_alter_eq. destruct (paths w !! p) as [x|]; cbn; [|done]. by rewrite Hf.
  - by rewrite lookup_alter_ne.
Qed.

(** ** Acquiring a handler and a mapping, whether there are free ones or not *)

(** A handler that is not queued knows no path. *)
Definition idle (w : World) : Prop := forall r x, rchs w !! r = Some x -> r ∉ queued w -> rpath x = None.

Lemma evolves_idle w w' : dev_inv w -> evolves w w' -> idle w -> idle w'.
Proof.
  intros Hi He Hd r x' Hx' Hr. destruct (decide (r ∈ queued w)) as [Hq|Hq].
  - destruct (di_queued _ Hi r Hq) as (x & Hx & _).
    destruct (ev_gone _ _ He r x Hq Hr Hx) as (y & Hy & Hp & _). congruence.
  - rewrite (ev_unqueued _ _ He r Hq) in Hx'. by apply (Hd r).
Qed.

(** What a process has that acquired handler [r], and mapping [k] if it says so, from the state [w]:
    other contexts may have run before, in between and since. *)
Record acquired (w w' : World) (r : nat) (k : option nat) : Prop := {
  aq_start : dev_inv w;
  aq_inv : dev_inv w';
  aq_unqueued : r ∉ queued w';
  aq_rch : is_Some (rchs w' !! r);
  aq_reserved : is_reserved (handlers (dev w')) r = true;
  aq_free : r ∉ queued w -> is_reserved (handlers (dev w)) r = false;
  aq_queue r' : r' ∈ queued w' -> r' ∈ queued w;
  aq_others r' x : r' ∈ queued w' -> rchs w !! r' = Some x ->
    exists x', rchs w' !! r' = Some x' /\ replied x x';
  aq_readers r' x : r' ∈ queued w -> rchs w !! r' = Some x ->
    rhandler x = i2o_handleReadMessageFile_fn -> r' ∈ queued w';
  aq_handlers r' : r' ∉ queued w -> is_reserved (handlers (dev w')) r' =
    if decide (r' = r) then true else is_reserved (handlers (dev w)) r';
  aq_maps k' : (forall r', ~ holds w r' k') -> is_reserved (mappings (dev w')) k' =
    if decide (Some k' = KPool <$> k) then true else is_reserved (mappings (dev w)) k';
  aq_mfree n : k = Some n -> (forall r', ~ holds w r' (KPool n)) -> is_reserved (mappings (dev w)) (KPool n) = false;
  aq_paths p : same_path (paths w !! p) (paths w' !! p);
  aq_const : umem w' = umem w /\ maps w' = maps w /\ params w' = params w /\ dma_buf (dev w') = dma_buf (dev w) /\
             AB (dev w') = AB (dev w) /\ i2o_last_id_out (m_dpd (dev w')) = i2o_last_id_out (m_dpd (dev w));
  aq_items : same_items (handlers (dev w)) (handlers (dev w')) /\ same_items (mappings (dev w)) (mappings (dev w'));
  aq_idle : idle w -> idle w';
  aq_map n : k = Some n -> is_reserved (mappings (dev w')) (KPool n) = true /\
    (forall r', ~ holds w' r' (KPool n)) /\ exists m, maps w' !! n = Some m /\ 0 < map_len m < 2 ^ 31
}.

(** What such a process can count on: handler [r], and mapping [k] if it says so, are reserved for it and
    nobody waits with them. *)
Record in_hand (w : World) (r : nat) (k : option nat) : Prop := {
  ih_inv : dev_inv w;
  ih_unqueued : r ∉ queued w;
  ih_rch : is_Some (rchs w !! r);
  ih_reserved : is_reserved (handlers (dev w)) r = true;
  ih_map n : k = Some n -> is_reserved (mappings (dev w)) (KPool n) = true /\
    (forall r', ~ holds w r' (KPool n)) /\ exists m, maps w !! n = Some m /\ 0 < map_len m < 2 ^ 31
}.

Lemma acquired_in_hand w w' r k : acquired w w' r k -> in_hand w' r k.
Proof. intros []. by constructor. Qed.

Lemma in_hand_evolves w w' r k : in_hand w r k -> evolves w w' -> in_hand w' r k.
Proof.
  intros [Hi Hq Hx Hr Hm] He. constructor.
  - apply He.
  - intros Hq2. by apply Hq, He.
  - by rewrite (ev_unqueued _ _ He).
  - by rewrite (ev_handlers _ _ He).
  - intros n E. destruct (Hm n E) as (Hmr & Hmh & m & Hmm & Hl). destruct (ev_const _ _ He) as (_ & Em & _).
    split; [by rewrite (ev_maps _ _ He)|]. split; [|exists m; by rewrite Em].
    intros r' Hh. by apply (Hmh r'), (evolves_holds _ _ _ _ He Hi).
Qed.

Lemma acquired_holds w w' r k r' k' : acquired w w' r k -> holds w' r' k' -> holds w r' k'.
Proof.
  intros Ha [Hq (x' & Hx' & Hk)]. pose proof (aq_queue _ _ _ _ Ha r' Hq) as Hqw.
  destruct (di_queued _ (aq_start _ _ _ _ Ha) r' Hqw) as (x & Hx & _).
  destruct (aq_others _ _ _ _ Ha r' x Hq Hx) as (x2 & Hx2 & Hrep). simplify_eq.
  split; [done|]. exists x. split; [done|]. by rewrite <- (replied_kbuf _ _ Hrep).
Qed.

Lemma acquired_rch w w1 i e : dev_inv w -> evolves w w1 -> entries (handlers (dev w1)) !! i = Some e ->
  reserved e = false -> acquired w (taken_rch i w1) (item e) None.
Proof.
  intros Hi He Hl Hf. pose proof (ev_inv _ _ He) as Hi1.
  destruct (free_not_queued w1 i e Hi1 Hl Hf) as (Hnq & Hnr & y & Hy).
  constructor; try done; try (by apply He).
  - by eapply taken_rch_inv.
  - change (is_reserved (reserve i (handlers (dev w1))) (item e) = true).
    rewrite (is_reserved_reserve _ _ e) by (done || apply Hi1). by rewrite decide_True.
  - intros Hr. by rewrite <- (ev_handlers _ _ He _ Hr).
  - intros r' Hr'. change (is_reserved (reserve i (handlers (dev w1))) r' = if decide (r' = item e) then true else
      is_reserved (handlers (dev w)) r').
    rewrite (is_reserved_reserve _ _ e) by (done || apply Hi1). by rewrite (ev_handlers _ _ He _ Hr').
  - split; [|apply He]. transitivity (handlers (dev w1)); [apply He|]. apply reserve_same_items.
  - exact (evolves_idle w w1 Hi He).
Qed.

Lemma acquired_evolves w w1 w2 r k : acquired w w1 r k -> evolves w1 w2 -> acquired w w2 r k.
Proof.
  intros Ha He. pose proof Ha as [Hi Hi1 Hq Hx Hr Hf Hqu Hot Hre Hha Hma Hmf Hpa Hco Hit Hid Hm].
  constructor; try done.
  - apply He.
  - intros Hq2. by apply Hq, He.
  - by rewrite (ev_unqueued _ _ He).
  - by rewrite (ev_handlers _ _ He).
  - intros r' Hr'. apply Hqu. by apply (ev_queue _ _ He).
  - intros r' x Hr' Hx'. pose proof (ev_queue _ _ He r' Hr') as Hr1.
    destruct (Hot r' x Hr1 Hx') as (x1 & Hx1 & ?). destruct (ev_queued _ _ He r' x1 Hr' Hx1) as (x2 & ? & ?).
    exists x2. split; [done|]. by transitivity x1.
  - intros r' x Hr' Hx' Hh. pose proof (Hre r' x Hr' Hx' Hh) as Hr1.
    destruct (Hot r' x Hr1 Hx') as (x1 & Hx1 & Hh1 & _). apply (ev_reader _ _ He r' x1); congruence.
  - intros r' Hr'. rewrite (ev_handlers _ _ He) by auto. by apply Hha.
  - intros k' Hk'. rewrite (ev_maps _ _ He); [by apply Hma|].
    intros r' Hh. by apply (Hk' r'), (acquired_holds w w1 r k).
  - intros p. transitivity (paths w1 !! p); [done|]. apply He.
  - destruct (ev_const _ _ He) as (?&?&?&?&?&?), Hco as (?&?&?&?&?&?). repeat split; congruence.
  - destruct Hit, (ev_items _ _ He). split; etransitivity; eauto.
  - intros ?. apply (evolves_idle w1); auto.
  - intros n E. destruct (Hm n E) as (Hmr & Hmh & m & Hmm & Hl). destruct (ev_const _ _ He) as (_ & Em & _).
    split; [by rewrite (ev_maps _ _ He)|]. split; [|exists m; by rewrite Em].
    intros r' Hh. by apply (Hmh r'), (evolves_holds _ _ _ _ He Hi1).
Qed.

Lemma acquired_map w w1 r j f : acquired w w1 r None -> entries (mappings (dev w1)) !! j = Some f ->
  reserved f = false -> exists n, item f = KPool n /\ acquired w (taken_map j w1) r (Some n).
Proof.
  intros [Hi Hi1 Hq Hx Hr Hf Hqu Hot Hre Hha Hma _ Hpa Hco Hit Hid _] Hl Hfree.
  destruct (free_not_held w1 j f Hi1 Hl Hfree) as (Hnh & Hnm & n & m & Hk & Hm & Hlen).
  exists n. split; [done|]. rewrite Hk in *. constructor; try done.
  - by eapply taken_map_inv.
  - intros k' Hk'. change (is_reserved (reserve j (mappings (dev w1))) k' =
      if decide (Some k' = Some (KPool n)) then true else is_reserved (mappings (dev w)) k').
    rewrite (is_reserved_reserve _ _ f) by (done || apply Hi1). rewrite Hk.
    repeat case_decide; try congruence. by rewrite Hma.
  - intros n' [= <-] Hh. pose proof (Hma _ Hh) as E. rewrite decide_False in E by done. congruence.
  - destruct Hit as [? Hit]. split; [done|]. transitivity (mappings (dev w1)); [done|]. apply reserve_same_items.
  - intros n' [= <-]. split; [|split; [|by exists m]].
    + change (is_reserved (reserve j (mappings (dev w1))) (KPool n) = true).
      rewrite (is_reserved_reserve _ _ f) by (done || apply Hi1). by rewrite Hk, decide_True.
    + exact Hnh.
Qed.

(** A free mapping stays free while other contexts run, so an allocation finds it. *)
Lemma same_items_free (p q : Pool Kbuf) j f : pool_wf q -> same_items p q -> entries p !! j = Some f ->
  is_reserved q (item f) = false -> has_free q.
Proof.
  intros Hwf [_ Hit] Hl Hr. assert ((item <$> entries q) !! j = Some (item f)) as Hj
    by (rewrite <- Hit, list_lookup_fmap, Hl; done).
  rewrite list_lookup_fmap in Hj. destruct (entries q !! j) as [g|] eqn:Hg; [|done].
  simplify_eq/=. exists j, g. split; [done|]. rewrite <- Hr, <- Hj. symmetry.
  eapply is_reserved_lookup; [apply pw_items, Hwf|done].
Qed.

Lemma acquired_has_free w w' r : acquired w w' r None -> has_free (mappings (dev w)) -> has_free (mappings (dev w')).
Proof.
  intros Ha (j & f & Hl & Hf). destruct (free_not_held w j f (aq_start _ _ _ _ Ha) Hl Hf) as (Hnh & Hnm & _).
  apply (same_items_free (mappings (dev w)) _ j f); [apply di_maps, Ha|apply Ha|done|].
  by rewrite (aq_maps _ _ _ _ Ha _ Hnh).
Qed.

(** What was acquired after other contexts ran was acquired from the state before. *)
Lemma evolves_acquired w w0 w' r k : dev_inv w -> evolves w w0 -> acquired w0 w' r k -> acquired w w' r k.
Proof.
  intros Hi He Ha. pose proof Ha as [_ Hi' Hq Hx Hr Hf Hqu Hot Hre Hha Hma Hmf Hpa Hco Hit Hid Hm].
  assert (forall k', (forall r', ~ holds w r' k') -> forall r', ~ holds w0 r' k') as Hun.
  { intros k' Hk' r' Hh. by apply (Hk' r'), (evolves_holds _ _ _ _ He Hi). }
  constructor; try done.
  - intros Hr0. rewrite <- (ev_handlers _ _ He r Hr0). apply Hf. by intros ?%(ev_queue _ _ He).
  - intros r' Hr'. by apply (ev_queue _ _ He), Hqu.
  - intros r' x Hr' Hx'. destruct (ev_queued _ _ He r' x (Hqu r' Hr') Hx') as (x1 & Hx1 & ?).
    destruct (Hot r' x1 Hr' Hx1) as (x2 & ? & ?). exists x2. split; [done|]. by transitivity x1.
  - intros r' x Hr' Hx' Hh. pose proof (ev_reader _ _ He r' x Hr' Hx' Hh) as Hr1.
    destruct (ev_queued _ _ He r' x Hr1 Hx') as (x1 & Hx1 & Hh1 & _). apply (Hre r' x1); congruence.
  - intros r' Hr'. rewrite Hha by (by intros ?%(ev_queue _ _ He)). case_decide; [done|]. by apply He.
  - intros k' Hk'. rewrite Hma by auto. case_decide; [done|]. by apply He.
  - intros n E Hk'. rewrite <- (ev_maps _ _ He) by done. auto.
  - intros p. etransitivity; [apply He|done].
  - destruct (ev_const _ _ He) as (?&?&?&?&?&?), Hco as (?&?&?&?&?&?). repeat split; congruence.
  - destruct Hit, (ev_items _ _ He). split; etransitivity; eauto.
  - intros ?. apply Hid. by apply (evolves_idle w).
Qed.

Section Alloc.
Context `{Platform}.

(** The result of the allocation of a handler: a sleep timed out, or it was acquired. *)
Definition rch_alloc_post (w : World) (o : option nat) (w' : World) : Prop :=
  match o with
  | None => evolves w w' /\ ~ has_free (handlers (dev w)) /\ (length (sched w') <= pred (length (sched w)))%nat
  | Some r => acquired w w' r None
  end.

Lemma alloc_rch_spec w : dev_inv w -> safe acq200_pool_alloc_rch (rch_alloc_post w) w.
Proof.
  intros Hi. pose proof (alloc_spec (PHL := handlers_laws w Hi) w (conj (evolves_refl w Hi) (le_n _))) as Hs.
  change (safe acq200_pool_alloc_rch (alloc_post (A := nat) (inv := ages w) (handlers (dev w))) w) in Hs.
  unfold safe in *. destruct (acq200_pool_alloc_rch w) as [[r|] w'| | |] eqn:E; try done; cbn [alloc_post rch_alloc_post] in *.
  - destruct Hs as (w0 & i & e & [He _] & _ & Hl & Hf & <- & ->). by apply acquired_rch.
  - destruct Hs as ([He _] & _ & w1 & [He1 Hl1] & Es). split; [done|]. split.
    + intros Hfree. destruct (take_rch w Hi Hfree) as (i & e & _ & _ & E' & _). congruence.
    + change (pool_sleep w1 = Done 0 w') in Es.
      pose proof (pool_sleep_spec w w1 Hi He1) as Hp. unfold safe in Hp. rewrite Es in Hp.
      destruct Hp as (_ & _ & ?). lia.
Qed.

Definition map_alloc_post (w w1 : World) (r : nat) (o : option Kbuf) (w' : World) : Prop :=
  match o with
  | None => acquired w w' r None /\ ~ has_free (mappings (dev w))
  | Some k => exists n, k = KPool n /\ acquired w w' r (Some n)
  end.

Lemma alloc_map_spec dir w w1 r : acquired w w1 r None ->
  safe (acq200_pool_alloc_mapping dir) (map_alloc_post w w1 r) w1.
Proof.
  intros Ha. pose proof (aq_inv _ _ _ _ Ha) as Hi.
  pose proof (alloc_spec (PHL := mappings_laws w1 Hi) w1 (conj (evolves_refl w1 Hi) (le_n _))) as Hs.
  change (safe (acq200_pool_alloc_mapping dir) (alloc_post (A := Kbuf) (inv := ages w1) (mappings (dev w1))) w1) in Hs.
  unfold safe in *. destruct (acq200_pool_alloc_mapping dir w1) as [[k|] w'| | |] eqn:E; try done;
    cbn [alloc_post map_alloc_post] in *.
  - destruct Hs as (w0 & j & f & [He _] & _ & Hl & Hf & <- & ->). by apply acquired_map; [eapply acquired_evolves|..].
  - destruct Hs as ([He _] & _ & _). split; [by eapply acquired_evolves|]. intros Hfree.
    destruct (take_map dir w1 Hi (acquired_has_free w w1 r Ha Hfree)) as (i & e & _ & E' & _). congruence.
Qed.
End Alloc.

(** ** What the calls on a path leave of the others

    Of the handlers queued afterwards those of other paths were queued before; a request for buffer A
    or B of any path stays queued; the paths stay. *)
Record others_kept (p : nat) (w w' : World) : Prop := {
  ok_queue r x' : r ∈ queued w' -> rchs w' !! r = Some x' ->
    rpath x' = Some p \/ exists x, r ∈ queued w /\ rchs w !! r = Some x /\ rpath x = rpath x';
  ok_ab r x q b : r ∈ queued w -> rchs w !! r = Some x -> rhandler x = i2o_handleReadMessageFile_fn ->
    kbuf (rchReturn x) = KPath q b -> r ∈ queued w' /\ exists x', rchs w' !! r = Some x' /\ replied x x';
  ok_paths : paths_kept w w'
}.

#[export] Instance others_kept_preorder p : PreOrder (others_kept p).
Proof.
  split.
  - intros w. constructor; [|intros r x q b Hr Hx _ _; split; [done|]; by exists x|done].
    intros r x Hr Hx. right. by exists x.
  - intros w1 w2 w3 [Q12 A12 P12] [Q23 A23 P23]. constructor; [| |by transitivity w2].
    + intros r x3 Hr Hx3. destruct (Q23 r x3 Hr Hx3) as [?|(x2 & Hr2 & Hx2 & <-)]; [by left|].
      by apply Q12.
    + intros r x q b Hr Hx Hh Hk. destruct (A12 r x q b Hr Hx Hh Hk) as (Hr2 & x2 & Hx2 & Hrep).
      pose proof Hrep as (Hh2 & _ & _ & _ & _ & Hk2 & _).
      destruct (A23 r x2 q b Hr2 Hx2) as (Hr3 & x3 & Hx3 & ?); [congruence..|].
      split; [done|]. exists x3. split; [done|]. by transitivity x2.
Qed.

Lemma others_kept_evolves p w w' : dev_inv w -> evolves w w' -> others_kept p w w'.
Proof.
  intros Hi He. constructor; [| |by apply evolves_kept].
  - intros r x' Hr Hx'. right. pose proof (ev_queue _ _ He r Hr) as Hq. destruct (di_queued _ Hi r Hq) as (x & Hx & _).
    exists x. split; [done|]. split; [done|]. destruct (ev_queued _ _ He r x Hr Hx) as (y & Hy & _ & Hp & _). congruence.
  - intros r x q b Hr Hx Hh _. pose proof (ev_reader _ _ He r x Hr Hx Hh) as Hr'. split; [done|].
    by apply (ev_queued _ _ He).
Qed.

Lemma others_kept_acquired p w w' r k : acquired w w' r k -> others_kept p w w'.
Proof.
  intros Ha. constructor; [| |apply paths_kept_same, Ha].
  - intros r' x' Hr Hx'. right. pose proof (aq_queue _ _ _ _ Ha r' Hr) as Hq.
    destruct (di_queued _ (aq_start _ _ _ _ Ha) r' Hq) as (x & Hx & _).
    exists x. split; [done|]. split; [done|]. destruct (aq_others _ _ _ _ Ha r' x Hr Hx) as (y & Hy & _ & Hp & _). congruence.
  - intros r' x q b Hr Hx Hh _. pose proof (aq_readers _ _ _ _ Ha r' x Hr Hx Hh) as Hr'. split; [done|].
    by apply (aq_others _ _ _ _ Ha).
Qed.

(** What the close of path [p] leaves of the other paths. *)
Record aside (p : nat) (w w' : World) : Prop := {
  as_queue r x' : r ∈ queued w' -> rchs w' !! r = Some x' ->
    rpath x' = Some p \/ exists x, r ∈ queued w /\ rchs w !! r = Some x /\ rpath x = rpath x';
  as_ab r x q b : q <> p -> r ∈ queued w -> rchs w !! r = Some x -> rpath x = Some q ->
    rhandler x = i2o_handleReadMessageFile_fn -> kbuf (rchReturn x) = KPath q b ->
    r ∈ queued w' /\ exists x', rchs w' !! r = Some x' /\ replied x x';
  as_paths q : q <> p -> node <$> paths w !! q = node <$> paths w' !! q
}.

#[export] Instance aside_preorder p : PreOrder (aside p).
Proof.
  split.
  - intros w. constructor; [|intros r x q b _ Hr Hx _ _ _; split; [done|]; by exists x|done].
    intros r x Hr Hx. right. by exists x.
  - intros w1 w2 w3 [Q12 A12 P12] [Q23 A23 P23]. constructor.
    + intros r x3 Hr Hx3. destruct (Q23 r x3 Hr Hx3) as [?|(x2 & Hr2 & Hx2 & <-)]; [by left|]. by apply Q12.
    + intros r x q b Hne Hr Hx Hp Hh Hk. destruct (A12 r x q b Hne Hr Hx Hp Hh Hk) as (Hr2 & x2 & Hx2 & Hrep).
      pose proof Hrep as (Hh2 & Hp2 & _ & _ & _ & Hk2 & _).
      destruct (A23 r x2 q b Hne Hr2 Hx2) as (Hr3 & x3 & Hx3 & ?); [congruence..|].
      split; [done|]. exists x3. split; [done|]. by transitivity x2.
    + intros q Hne. by rewrite P12, P23.
Qed.

Lemma others_kept_aside p w w' : others_kept p w w' -> aside p w w'.
Proof. intros [Hq Ha Hp]. constructor; [done| |by intros q _; apply Hp]. intros r x q b _ Hr Hx _. by apply (Ha r x q b). Qed.

Lemma aside_evolves p w w' : dev_inv w -> evolves w w' -> aside p w w'.
Proof. intros. by apply others_kept_aside, others_kept_evolves. Qed.

(** A handler that is no request for buffer A or B is recycled. *)
Lemma others_kept_recycled p w r x : dev_inv w -> r ∈ queued w -> rchs w !! r = Some x ->
  (forall q b, kbuf (rchReturn x) <> KPath q b) -> others_kept p w (recycled r x w).
Proof.
  intros Hi Hr Hx Hk. constructor.
  - intros r' x' [Hq Hne]%(recycled_queued w r x Hi Hr Hx). rewrite (recycled_rchs w r x) by done.
    intros Hx'. right. by exists x'.
  - intros r' y q b Hq Hy _ Hky. assert (r' <> r) as Hne by (intros ->; simplify_eq; by apply (Hk q b)).
    split; [by apply (recycled_queued w r x)|]. exists y. by rewrite (recycled_rchs w r x).
  - destruct (queued_facts w r x Hi Hr Hx) as [_ _ (q & Hq & _) _ _].
    apply paths_kept_same. intros q'. by destruct (recycled_facts r x w) as (_ & _ & _ & _ & ->); [exists q|].
Qed.

Lemma aside_recycled p w r x : dev_inv w -> r ∈ queued w -> rchs w !! r = Some x -> rpath x = Some p ->
  aside p w (recycled r x w).
Proof.
  intros Hi Hr Hx Hp. constructor.
  - intros r' x' [Hq' Hne]%(recycled_queued w r x Hi Hr Hx). rewrite (recycled_rchs w r x) by done.
    intros Hx'. right. by exists x'.
  - intros r' y q b Hne' Hq' Hy Hpy _ _. assert (r' <> r) as Hne by (intros ->; congruence).
    split; [by apply (recycled_queued w r x)|]. exists y. by rewrite (recycled_rchs w r x).
  - intros q _. destruct (recycled_facts r x w) as (_ & _ & _ & _ & ->); [by rewrite Hp; exists p|done].
Qed.

(** ** A handler that was not built again is dropped

    When no mapping can be had, the handler that was taken is recycled as its last use left it. *)

Lemma recycle_idle r x w : rchs w !! r = Some x -> rpath x = None ->
  i2o_recycleRch r w = match rdevice x with Some _ => Done tt (recycled r x w) | None => Crash NullDeref w end.
Proof.
  intros Hx Hp. destruct (rdevice x) as [d|] eqn:Hd.
  - apply recycle_eq; [done|by exists d|rewrite Hp; by intros []].
  - unfold i2o_recycleRch. erewrite bind_done by (by apply rch_ref_eq). rewrite Hp. cbn [when].
    erewrite bind_done by reflexivity. erewrite bind_done by (by apply rch_ref_eq). cbv zeta. rewrite Hd.
    by destruct (negb _ && _).
Qed.

Lemma map_freed_inv k w : dev_inv w -> (forall r, ~ holds w r k) -> dev_inv (map_freed k w).
Proof.
  intros Hi Hk. destruct (map_freed_facts k w) as (Em & Eh & Eq & Er & Ep & Es & _).
  pose proof (sr_maps _ _ (map_freed_rest k w)) as Ema.
  assert (forall r' k', holds (map_freed k w) r' k' <-> holds w r' k') as Hhold
    by (intros; unfold holds; by rewrite Eq, Er).
  pose proof Hi as [Hwm ? Hit Hmi ? Hq Hnq Hho ? ?].
  constructor; rewrite ?Eh, ?Em, ?Eq, ?Er, ?Es, ?Ema; try done.
  - by apply freed_wf.
  - intros k'. rewrite <- (proj2 (freed_same_items k (mappings (dev w)))). apply Hmi.
  - intros r' Hr'. destruct (Hq r' Hr') as (x & Hx & [? ? ? Hres Hkx]). exists x. split; [done|].
    constructor; rewrite ?Eh, ?Ep; try done. intros k' Hk'.
    rewrite Em, is_reserved_freed by done. rewrite decide_False; [by apply Hkx|]. intros ->.
    apply (Hk r'). split; [done|]. by exists x.
  - intros r1 r2 k'. rewrite !Hhold. apply Hho.
Qed.

Lemma rch_freed_inv r w : dev_inv w -> r ∉ queued w -> dev_inv (rch_freed r w).
Proof.
  intros Hi Hr. destruct (rch_freed_facts r w) as (Eh & Em & Eq & Er & Ep & Es & _).
  pose proof (sr_maps _ _ (rch_freed_rest r w)) as Ema.
  destruct Hi as [? Hwh Hit Hmi ? Hq Hnq Hho ? ?].
  assert (forall r' k, holds (rch_freed r w) r' k <-> holds w r' k) as Hhold
    by (intros; unfold holds; by rewrite Eq, Er).
  constructor; rewrite ?Eh, ?Em, ?Eq, ?Er, ?Es, ?Ema; try done.
  - by apply freed_wf.
  - intros r'. rewrite <- (proj2 (freed_same_items r (handlers (dev w)))). apply Hit.
  - intros r' Hr'. destruct (Hq r' Hr') as (x & Hx & [? ? ? Hres Hk]). exists x. split; [done|].
    constructor; rewrite ?Em, ?Ep; try done.
    rewrite Eh, is_reserved_freed by done. rewrite decide_False; [done|]. by intros ->.
  - intros r1 r2 k. rewrite !Hhold. apply Hho.
Qed.

(** The dropped handler frees the mapping of its last use: no harm is done only if nobody else holds it
    by now. *)
Lemma dropped_inv w r x : dev_inv w -> r ∉ queued w -> rpath x = None ->
  (forall k, pool_kbuf x = Some k -> forall r', ~ holds w r' k) -> dev_inv (recycled r x w).
Proof.
  intros Hi Hr Hp Hk. unfold recycled. rewrite Hp. cbv zeta. apply rch_freed_inv.
  - destruct (pool_kbuf x) as [k|]; [|done]. apply map_freed_inv; auto.
  - destruct (pool_kbuf x) as [k|]; [|done]. by destruct (map_freed_facts k w) as (_ & _ & -> & _).
Qed.
