(* ===== verification/Requests.v ===== *)
(** * What reads and writes do to the device

    What posting a request changes, for reads and writes alike.  A read that is answered gives back the
    handler and the mapping it took; one that is interrupted leaves both to its reply; one that finds
    the pools exhausted times out.  Its faults are the double unlink of a handler whose reply reports
    an error, and the recycling of a handler that was never built. *)

From S2P Require Import Prelude BusProt StreamBuf Pool Device Rch I2o Isr Kernel Outer Owner Frames.
From S2P Require Import Sleep Mask Mailbox Path Bridge Acquire.

(** ** Posting a request *)

(** The parts of the world that building and sending a message leave alone. *)
Definition own (w : World) :=
  (queued w, rchs w, maps w, params w, handlers (dev w), mappings (dev w), streambuf (dev w), umem w,
   dma_buf (dev w), sched w, sigpending w).

Definition same_own_paths (w w' : World) : Prop :=
  own w' = own w /\ paths_kept w w'.

Lemma inv_own w w' : dev_inv w -> same_own_paths w w' -> dev_inv w'.
Proof.
  intros Hi [Ho Hp]. unfold own in Ho. simplify_eq. apply (inv_same w); try done.
  intros p. by apply paths_kept_is_Some.
Qed.

#[export] Instance same_own_paths_preorder : PreOrder same_own_paths.
Proof. split; [by split|]. intros w1 w2 w3 [E1 H1] [E2 H2]. split; [congruence|by transitivity w2]. Qed.

Definition with_id (id : Z) (m : Message) : Message :=
  mkMessage id (msg_length m) (msg_type m) (hrdr0 m) (hrdr1 m).

Lemma make_id_s16 n : u16 (MAKE_ID_DTACQ (s16 n)) = MAKE_ID_DTACQ n.
Proof.
  rewrite !make_id_sum. assert (s16 n mod 128 = n mod 128) as ->.
  { unfold s16, swrap. change (2 ^ (16 - 1)) with 32768. change (2 ^ 16) with 65536.
    Z.to_euclidean_division_equations. lia. }
  apply u16_id. pose proof (Z.mod_pos_bound n 128 ltac:(lia)). lia.
Qed.

(** A request for data, as the card reads it. *)
Definition hrd_message (id : Z) (file : File) (pa start len stride outbound cflags : Z) : Message :=
  mkMessage id (2 * HRDR_SZ)
    (if (outbound =? 1) || (outbound =? -1)
     then MAKE_MT_COMMAND (mtc_value (if 0 <? outbound then MTC_HOST_REQUEST_DATA_ACQBOUND
            else MTC_HOST_REQUEST_DATA_HOSTBOUND)) else u32 outbound)
    (mkHrdr (u32 pa) (u32 start) (u32 len) (u16 (Z.lor (CHAN file) (u16 cflags))) (u16 stride)) zero_hrdr.

Section Post.
Context `{Platform}.

(** The answer of the inbound queue port: the address of an empty frame, or no frame. *)
Definition next_frame (w : World) : Z := u32 (card_reply (iolog w) (CSR ACQ200_IQP)).

(** What the card sees when a message is sent: the port is read; when there is a frame the message is
    stored in it, with the next identifier, and then the frame is posted. *)
Definition sent (w : World) (m : Message) : list Io :=
  IoRd (CSR ACQ200_IQP) (next_frame w) ::
  if next_frame w =? PCI_I2O_INVALID_MFA then []
  else
    let mfa := Z.land (next_frame w) MFA_MASK in
    let m := with_id (MAKE_ID_DTACQ (i2o_last_id_out (m_dpd (dev w)) + 1)) m in
    [IoMem (frame_va w mfa) (firstn (Z.to_nat (MESSAGE_ACTUAL_LEN m)) (message_bytes m));
     IoWr (CSR ACQ200_IQP) mfa].

Lemma sent_same w w' m m' : iolog w = iolog w' -> dma_buf (dev w) = dma_buf (dev w') ->
  i2o_last_id_out (m_dpd (dev w)) = i2o_last_id_out (m_dpd (dev w')) ->
  (forall id, with_id id m = with_id id m') -> sent w m = sent w' m'.
Proof. intros El Ed Ei Em. unfold sent, next_frame, frame_va. by rewrite El, Ed, Ei, Em. Qed.

Lemma mfa_u32 v : u32 (Z.land v MFA_MASK) = Z.land v MFA_MASK.
Proof.
  apply u32_id. pose proof (land_mask_range v 24 ltac:(lia)).
  change MFA_MASK with (2 ^ 24 - 1). lia.
Qed.

Lemma path_upd_own p f w : is_Some (paths w !! p) -> (forall x, kept x (f x)) ->
  exists w', path_upd p f w = Done tt w' /\ same_own_paths w w' /\ paths w' = alter f p (paths w).
Proof.
  intros [x Hx] Hf. eexists. split; [by apply (path_upd_eq p x)|]. split; [|done].
  split; [done|]. by eapply paths_kept_alter.
Qed.

Lemma send_own p m w : is_Some (paths w !! p) ->
  exists rc w', acq200_sendI2O_kbuf p m w = Done rc w' /\ same_own_paths w w' /\
    iolog w' = iolog w ++ sent w m.
Proof.
  intros [x Hx]. unfold acq200_sendI2O_kbuf, sent. erewrite bind_done by (by apply path_ref_eq).
  erewrite bind_done by reflexivity. fold (next_frame w). case_match.
  { eexists _, _. split; [reflexivity|]. split; [split|]; [done|by apply paths_kept_same|done]. }
  cbv zeta. erewrite bind_done by reflexivity. erewrite bind_done by reflexivity.
  erewrite bind_done by (by apply (path_upd_eq p x)).
  eexists _, _. split; [reflexivity|]. split; [split; [done|by eapply paths_kept_alter; [reflexivity|]]|].
  cbn -[MESSAGE_ACTUAL_LEN message_bytes]. rewrite make_id_s16, mfa_u32, <- !app_assoc. done.
Qed.

Lemma build_message_own file pa start len stride outb cf w : is_Some (paths w !! PD file) ->
  exists m w', build_hrd_message file pa start len stride outb cf w = Done m w' /\
    same_own_paths w w' /\ iolog w' = iolog w /\ dev w' = dev w /\
    forall id, with_id id m = hrd_message id file pa start len stride outb cf.
Proof.
  intros [x Hx]. unfold build_hrd_message. cbv zeta.
  erewrite bind_done by (by apply (path_upd_eq (PD file) x)).
  erewrite bind_done by (apply path_ref_eq; cbn; by rewrite lookup_alter_eq, Hx).
  eexists _, _. split; [reflexivity|]. split; [split; [done|by eapply paths_kept_alter; [reflexivity|]]|].
  done.
Qed.

(** The mapping that a handler built with these gives back to the pool. *)
Definition from_pool (k : Kbuf) (fl : Z) : option Kbuf :=
  if negb (bool_decide (k = KNull)) && istrue (Z.land fl RCH_KB_POOL) then Some k else None.

(** A request was posted: handler [r] is the last in the queue, was built for the path and holds the
    mapping; nothing else changed, but for what the card saw. *)
Record posted (w w' : World) (r p : nat) (k : Kbuf) (fl : Z) (h : Handler) (m : Message)
    (x : ReturnCommandHandler) : Prop := {
  po_inv : dev_inv w';
  po_queued : queued w' = queued w ++ [r];
  po_rch : rchs w' !! r = Some x;
  po_others r' : r' <> r -> rchs w' !! r' = rchs w !! r';
  po_pools : handlers (dev w') = handlers (dev w) /\ mappings (dev w') = mappings (dev w);
  po_same : (maps w', params w', umem w', dma_buf (dev w'), streambuf (dev w'), sched w', sigpending w') =
            (maps w, params w, umem w, dma_buf (dev w), streambuf (dev w), sched w, sigpending w);
  po_paths : paths_kept w w';
  po_handler : rhandler x = h;
  po_path : rpath x = Some p;
  po_id : command_id x = MAKE_ID_DTACQ (i2o_last_id_out (m_dpd (dev w)) + 1);
  po_valid : valid (rchReturn x) = 0;
  po_kbuf : kbuf (rchReturn x) = k;
  po_pool_kbuf : pool_kbuf x = from_pool k fl;
  po_log : iolog w' = iolog w ++ sent w m
}.

(** A reserved handler, free of the queue, takes a reserved mapping along, or none. *)
Lemma post_request w r y k fl h p m :
  dev_inv w -> r ∉ queued w -> rchs w !! r = Some y -> is_Some (paths w !! p) ->
  is_reserved (handlers (dev w)) r = true ->
  (forall k', from_pool k fl = Some k' -> is_reserved (mappings (dev w)) k' = true /\ forall r', ~ holds w r' k') ->
  exists rc w' x,
    (buildRch r h p k fl >> rchAppend r >> acq200_sendI2O_kbuf p m) w = Done rc w' /\
    posted w w' r p k fl h m x.
Proof.
  intros Hi Hq Hy [z Hz] Hres Hk. unfold buildRch.
  rewrite bind_assoc. erewrite bind_done by (by apply path_ref_eq). cbv beta.
  rewrite bind_assoc. erewrite bind_done by reflexivity. cbv beta.
  match goal with |- context [rch_upd r ?g] => set (f := g) end. erewrite bind_done by (by apply (rch_upd_eq r y)).
  set (w1 := setf rchs (alter f r) w).
  assert (rchs w1 !! r = Some (f y)) as Hx1 by (cbn; by rewrite list_lookup_alter_eq, Hy).
  assert (dev_inv w1) as Hi1 by (by apply inv_upd_unqueued).
  assert (rlink (f y) <> LinkIn) as Hlink by exact (di_unqueued _ Hi r y Hy Hq).
  assert (pool_kbuf (f y) = from_pool k fl) as Hpk by done.
  erewrite bind_done by (by apply (list_add_tail_eq r (f y))).
  set (w2 := linked r _ LinkIn w1).
  assert (forall r', r' <> r -> rchs w1 !! r' = rchs w !! r') as Hne1.
  { intros r' Hn. cbn. by apply list_lookup_alter_ne. }
  assert (dev_inv w2) as Hi2.
  { apply (inv_enqueue w1 r (f y)); [done|done|done|by eexists|by exists p; split; [|exists z]|done|].
    intros k' Hk'. destruct (Hk k' ltac:(congruence)) as [Hkres Hkh]. split; [done|].
    intros r' [Hq' (x' & Hx' & Hkx)]. apply (Hkh r'). split; [done|].
    rewrite Hne1 in Hx' by (intros ->; done). by exists x'. }
  destruct (send_own p m w2) as (rc & w3 & Hs & Ho3 & Hlog); [by eexists|].
  exists rc, w3, ((f y) <| rlink := LinkIn |>). split; [exact Hs|].
  pose proof (inv_own w2 w3 Hi2 Ho3) as Hi3. destruct Ho3 as [Ho3 Hp3]. unfold own in Ho3.
  injection Ho3 as Eq Er Em Ep Eh Emp Es Eu Ed Esc Esi.
  constructor; rewrite ?Eq, ?Er, ?Em, ?Ep, ?Eh, ?Emp, ?Es, ?Eu, ?Ed, ?Esc, ?Esi; try done.
  - cbn. by rewrite list_lookup_alter_eq, list_lookup_alter_eq, Hy.
  - intros r' Hn. cbn. by rewrite !list_lookup_alter_ne.
Qed.

(** The same, with the message built first. *)
Lemma message_sent {B} (K : MW B) file pa start len outb cf h w r k fl :
  dev_inv w -> r ∉ queued w -> is_Some (rchs w !! r) -> is_Some (paths w !! PD file) ->
  is_reserved (handlers (dev w)) r = true ->
  (forall k', from_pool k fl = Some k' -> is_reserved (mappings (dev w)) k' = true /\ forall r', ~ holds w r' k') ->
  exists w' x,
    (let* msg := build_hrd_message file pa start len 1 outb cf in
     buildRch r h (PD file) k fl >> rchAppend r >>
     let* _ := acq200_sendI2O_kbuf (PD file) msg in K) w = K w' /\
    posted w w' r (PD file) k fl h (hrd_message 0 file pa start len 1 outb cf) x.
Proof.
  intros Hi Hq [y Hy] Hp Hr Hk.
  destruct (build_message_own file pa start len 1 outb cf w Hp)
    as (msg & w3 & Hb & Ho3 & Hl3 & Hd3 & Hmsg).
  pose proof (inv_own _ _ Hi Ho3) as Hi3. destruct Ho3 as [Ho3 Hp3]. unfold own in Ho3.
  injection Ho3 as Eq3 Er3 Em3 Ep3 Eh3 Emp3 Es3 Eu3 Ed3 Esc3 Esi3.
  destruct (post_request w3 r y k fl h (PD file) msg Hi3) as (rc & w4 & x & Hpost & Hpo);
    try congruence.
  { by eapply paths_kept_is_Some. }
  { intros k' Hk'. destruct (Hk k' Hk') as [Hm Hnh]. split; [congruence|].
    intros r' [Hq' (x' & Hx' & Hkx')]. apply (Hnh r'). split; [congruence|].
    exists x'. by split; [congruence|]. }
  exists w4, x. split. { erewrite bind_done by exact Hb. by erewrite bind_three by exact Hpost. }
  assert (sent w3 msg = sent w (hrd_message 0 file pa start len 1 outb cf)) as Hsent.
  { apply sent_same; [done|by rewrite Hd3..|done]. }
  destruct Hpo as [? Pq ? Po [] Ps ? ? ? Pid ? ? ? Pl]. constructor; try done; try congruence.
  - intros r' Hne. rewrite Po by done. congruence.
  - split; congruence.
Qed.

(** What a process has once it took handler [r] and mapping [n]: they were free, and nothing else
    changed, but for the user's data that may be in the mapping. *)
Record both_taken (w w2 : World) (r n : nat) (m : IoMapping) : Prop := {
  bt_inv : dev_inv w2;
  bt_unqueued : r ∉ queued w;
  bt_rch : is_Some (rchs w !! r);
  bt_map : maps w !! n = Some m;
  bt_len : 0 < map_len m < 2 ^ 31;
  bt_free : is_reserved (handlers (dev w)) r = false;
  bt_mfree : is_reserved (mappings (dev w)) (KPool n) = false;
  bt_unheld r' : ~ holds w r' (KPool n);
  bt_handlers r' : is_reserved (handlers (dev w2)) r' =
    if decide (r' = r) then true else is_reserved (handlers (dev w)) r';
  bt_maps k : is_reserved (mappings (dev w2)) k =
    if decide (k = KPool n) then true else is_reserved (mappings (dev w)) k;
  bt_same : (queued w2, rchs w2, maps w2, params w2, umem w2, paths w2, dma_buf (dev w2),
             i2o_last_id_out (m_dpd (dev w2)), streambuf (dev w2), sched w2, sigpending w2) =
            (queued w, rchs w, maps w, params w, umem w, paths w, dma_buf (dev w),
             i2o_last_id_out (m_dpd (dev w)), streambuf (dev w), sched w, sigpending w);
  bt_acquired : acquired w w2 r (Some n)
}.

Lemma take_both dir w : dev_inv w -> has_free (handlers (dev w)) -> has_free (mappings (dev w)) ->
  exists r n m w1 w2, acq200_pool_alloc_rch w = Done (Some r) w1 /\
    acq200_pool_alloc_mapping dir w1 = Done (Some (KPool n)) w2 /\
    both_taken w w2 r n m /\ iolog w2 = iolog w /\
    exists j f, next_free (mappings (dev w)) j f /\ item f = KPool n.
Proof.
  intros Hi Hfh Hfm.
  destruct (take_rch w Hi Hfh) as (i & e & Hl & He & Ha & Hi1).
  destruct (take_map dir (taken_rch i w) Hi1 Hfm) as (j & f & Hnf & Ham & Hi2).
  pose proof Hnf as (Hlm & Hf & _).
  destruct (free_not_queued w i e Hi Hl He) as (Hnq & Hnr & y & Hy).
  destruct (free_not_held w j f Hi Hlm Hf) as (Hnh & Hnm & n & m & Hk & Hm & Hlen).
  pose proof (acquired_rch w w i e Hi (evolves_refl w Hi) Hl He) as Haq.
  destruct (acquired_map w _ _ j f Haq Hlm Hf) as (n' & Hn' & Hac).
  rewrite Hk in *. injection Hn' as <-. exists (item e), n, m, (taken_rch i w), (taken_map j (taken_rch i w)).
  split; [done|]. split; [done|]. split; [|split; [done|by exists j, f]]. constructor; try done.
  - intros r'. apply (is_reserved_reserve _ _ _ _ (di_handlers _ Hi) Hl).
  - intros k. rewrite <- Hk. apply (is_reserved_reserve _ _ _ _ (di_maps _ Hi1) Hlm).
Qed.

Lemma request_sent {B} (K : MW B) file pa start len outb cf h w2 r n :
  in_hand w2 r (Some n) -> is_Some (paths w2 !! PD file) ->
  exists w4 x,
    (let* msg := build_hrd_message file pa start len 1 outb cf in
     buildRch r h (PD file) (KPool n) RCH_KB_POOL >> rchAppend r >>
     let* _ := acq200_sendI2O_kbuf (PD file) msg in K) w2 = K w4 /\
    posted w2 w4 r (PD file) (KPool n) RCH_KB_POOL h (hrd_message 0 file pa start len 1 outb cf) x.
Proof.
  intros [Hi Hq Hx Hr Hm] Hp. destruct (Hm n eq_refl) as (Hmr & Hmh & _).
  apply message_sent; try done. by intros k' [= <-].
Qed.
End Post.

(** ** Reads *)

(** The buffer a read's data comes by: a mapping of the pool, or the caller's own. *)
Definition backs (w : World) (k : Kbuf) (m : IoMapping) : Prop :=
  match k with KPool i => maps w !! i = Some m | KStack m' => m' = m | _ => False end.
Definition pool_index (k : Kbuf) : option nat := match k with KPool i => Some i | _ => None end.
Definition read_flags (k : Kbuf) : Z := match k with KPool _ => RCH_KB_POOL | _ => 0 end.

Lemma kbuf_ref_backs `{Platform} w k m : backs w k m -> kbuf_ref k w = Done m w.
Proof.
  destruct k as [|i| |m']; cbn [backs kbuf_ref]; try done.
  - intros Hm. erewrite bind_done by reflexivity. by rewrite Hm.
  - by intros ->.
Qed.

Lemma from_pool_flags k : from_pool k (read_flags k) = KPool <$> pool_index k.
Proof. by destruct k. Qed.

(** A call on path [p] left the device in order. *)
Record served (p : nat) (w w' : World) : Prop := {
  sv_inv : dev_inv w';
  sv_idle : idle w';
  sv_others : others_kept p w w'
}.

Lemma posted_idle `{Platform} w w' r p k fl h m x : idle w -> posted w w' r p k fl h m x -> idle w'.
Proof.
  intros Hd [_ Pq _ Po _ _ _ _ _ _ _ _ _ _] r' x' Hx' Hr'. rewrite Pq in Hr'.
  rewrite Po in Hx' by (intros ->; set_solver). apply (Hd r' x' Hx'). set_solver.
Qed.

Lemma posted_served `{Platform} w w' r p k fl h m x : dev_inv w -> idle w -> r ∉ queued w ->
  posted w w' r p k fl h m x -> served p w w'.
Proof.
  intros Hi Hd Hr Hpo. pose proof (posted_idle _ _ _ _ _ _ _ _ _ Hd Hpo) as Hd'.
  destruct Hpo as [Pi Pq Px Po _ _ Pp _ Ppath _ _ _ _ _]. constructor; [done..|]. constructor; [| |done].
  - intros r' x' Hq Hx'. destruct (decide (r' = r)) as [->|Hne]; [left; congruence|]. right.
    rewrite Po in Hx' by done. exists x'. rewrite Pq in Hq. split; [set_solver|done].
  - intros r' y q b Hq Hy _ _. rewrite Pq. split; [set_solver|]. exists y. rewrite Po by (by intros ->). by split.
Qed.

Lemma recycled_idle w r x : dev_inv w -> idle w -> r ∈ queued w -> rchs w !! r = Some x -> idle (recycled r x w).
Proof.
  intros Hi Hd Hr Hx r' x' Hx' Hr'. destruct (decide (r' = r)) as [->|Hne].
  - rewrite (recycled_rch w r x) in Hx' by done. by simplify_eq.
  - rewrite (recycled_rchs w r x) in Hx' by done. apply (Hd r' x' Hx'). intros Hq. apply Hr'.
    by apply (recycled_queued w r x).
Qed.

Lemma recycled_served p w r x : dev_inv w -> idle w -> r ∈ queued w -> rchs w !! r = Some x ->
  (forall q b, kbuf (rchReturn x) <> KPath q b) -> served p w (recycled r x w).
Proof.
  intros Hi Hd Hr Hx Hk. constructor; [by apply recycled_inv|by apply recycled_idle|by apply others_kept_recycled].
Qed.

(** A queued handler of the path that is no request for buffer A or B loses its function. *)
Lemma unhandled_served p w r x f : dev_inv w -> idle w -> r ∈ queued w -> rchs w !! r = Some x ->
  (forall q b, kbuf (rchReturn x) <> KPath q b) ->
  (forall x, rlink (f x) = rlink x /\ rpath (f x) = rpath x /\ rdevice (f x) = rdevice x /\ pool_kbuf (f x) = pool_kbuf x) ->
  served p w (setf rchs (alter f r) w).
Proof.
  intros Hi Hd Hr Hx Hk Hf. set (w' := setf rchs (alter f r) w).
  assert (forall r' y, rchs w' !! r' = Some y -> exists x', rchs w !! r' = Some x' /\ rpath x' = rpath y) as Hback.
  { intros r' y. cbn. destruct (decide (r' = r)) as [->|]; [|rewrite list_lookup_alter_ne by done; by exists y].
    rewrite list_lookup_alter_eq, Hx. intros [= <-]. exists x. split; [done|]. symmetry. apply Hf. }
  constructor; [by apply inv_upd_queued| |constructor; [| |by apply paths_kept_same]].
  - intros r' y Hy Hq. destruct (Hback r' y Hy) as (x' & Hx' & <-). by apply (Hd r').
  - intros r' y Hq Hy. right. destruct (Hback r' y Hy) as (x' & Hx' & E). by exists x'.
  - intros r' y q b Hq Hy _ Hky. assert (r' <> r) as Hne by (intros ->; simplify_eq; by apply (Hk q b)).
    split; [done|]. exists y. cbn. by rewrite list_lookup_alter_ne.
Qed.

Lemma acquired_served p w w' r k : idle w -> acquired w w' r k -> served p w w'.
Proof. intros Hd Ha. constructor; [apply Ha|by apply (aq_idle _ _ _ _ Ha)|by eapply others_kept_acquired]. Qed.

Lemma evolves_served p w w' : dev_inv w -> idle w -> evolves w w' -> served p w w'.
Proof. intros Hi Hd He. constructor; [apply He|by apply (evolves_idle w)|by apply others_kept_evolves]. Qed.

Lemma served_trans p w1 w2 w3 : served p w1 w2 -> served p w2 w3 -> served p w1 w3.
Proof. intros [_ _ H12] [Hi Hd H23]. constructor; [done..|by transitivity w2]. Qed.

Section Read.
Context `{Platform}.
Context (file : File) (ubuf pos : Z).

(** Handler [r] and mapping [k] are free again; of the others, none was touched that was not queued
    for a reply. *)
Record given_back (w w' : World) (r : nat) (k : Kbuf) : Prop := {
  gb_queue : forall r', r' ∈ queued w' -> r' ∈ queued w /\ r' <> r;
  gb_rch : is_reserved (handlers (dev w')) r = false;
  gb_map : forall i, k = KPool i -> is_reserved (mappings (dev w')) k = false;
  gb_handlers : forall r', r' ∉ queued w ->
    is_reserved (handlers (dev w')) r' = is_reserved (handlers (dev w)) r';
  gb_maps : forall k', (forall r', ~ holds w r' k') ->
    is_reserved (mappings (dev w')) k' = is_reserved (mappings (dev w)) k'
}.

(** The user's memory after [n] bytes were delivered. *)
Definition delivered (m : IoMapping) (n : Z) (w w' : World) : Prop :=
  umem w' = if istrue (acq200_stub_copy_to_user (params w)) then umem w
            else mem_write (umem w) ubuf (mem_read (mem w') (map_va m) (user_copied ubuf n)).

(** The reply that the bottom half recorded in a handler: it came, for buffer [k], and says that [n] bytes
    were transferred.  (A handler is built without a reply, and recycling one keeps its record.) *)
Definition reply_is (k : Kbuf) (n : Z) (x : ReturnCommandHandler) : Prop :=
  valid (rchReturn x) = 1 /\ n = u32 (nbytes (rchReturn x)) /\ kbuf (rchReturn x) = k.

(** How the wait for the reply ends. *)
Inductive read_result (w : World) (r : nat) (k : Kbuf) (m : IoMapping) : Z * Z -> World -> Prop :=
| result_interrupted w' x :
    served (PD file) w w' -> sigpending w' = true -> r ∈ queued w' ->
    rchs w' !! r = Some x -> rhandler x = HNone -> pool_kbuf x = KPool <$> pool_index k ->
    read_result w r k m (- EINTR, pos) w'
| result_read w' n x :
    served (PD file) w w' -> rchs w' !! r = Some x -> reply_is k n x -> 0 <= n < 2 ^ 32 -> delivered m n w w' -> given_back w w' r k ->
    read_result w r k m (s32 n, pos + n) w'.

(** The one fault of the wait: a reply that reports an error. *)
Definition reply_fault (f : Fault) (w' : World) : Prop :=
  f = ListCorruption /\ exists r x, rchs w' !! r = Some x /\ valid (rchReturn x) = -1.

Lemma copy_out_spec va n w :
  exists rc, acq200_copy_from_io_to_user file ubuf va n w = Done rc (w <| umem :=
    (if istrue (acq200_stub_copy_to_user (params w)) then umem w
     else mem_write (umem w) ubuf (mem_read (mem w) va (user_copied ubuf n))) |>).
Proof.
  unfold acq200_copy_from_io_to_user, copy_to_user, bind, get_world.
  case_match; [|by eexists]. eexists. by destruct w.
Qed.

(** The data of a reply was delivered. *)
Definition copied_out (m : IoMapping) (n : Z) (w : World) : World :=
  w <| umem := (if istrue (acq200_stub_copy_to_user (params w)) then umem w
                else mem_write (umem w) ubuf (mem_read (mem w) (map_va m) (user_copied ubuf n))) |>.

(** How a read ends once the wait is over: with a reply, or without one. *)
Inductive read_ends (w : World) (r : nat) (x : ReturnCommandHandler) (m : IoMapping) : Z * Z -> World -> Prop :=
| ends_unanswered :
    valid (rchReturn x) = 0 ->
    read_ends w r x m (- EINTR, pos) (setf rchs (alter (fun y => y <| rhandler := HNone |>) r) w)
| ends_answered n :
    valid (rchReturn x) = 1 -> n = u32 (nbytes (rchReturn x)) ->
    read_ends w r x m (s32 n, pos + n) (recycled r x (copied_out m n w)).

Lemma copied_out_inv m n w : dev_inv w -> dev_inv (copied_out m n w).
Proof. intros. by apply (inv_same w). Qed.

(** A reply is there: the data is delivered and the request is over. *)
Lemma read_end_taken w r x k m :
  dev_inv w -> r ∈ queued w -> rchs w !! r = Some x -> valid (rchReturn x) = 1 ->
  kbuf (rchReturn x) = k -> backs w k m ->
  let n := u32 (nbytes (rchReturn x)) in
  read_end file ubuf pos r w = Done (s32 n, pos + n) (recycled r x (copied_out m n w)).
Proof.
  intros Hi Hr Hx Hv Hk Hm n. unfold read_end, rchRemoveIfNotValid.
  rewrite bind_assoc. erewrite bind_done by (by apply rch_ref_eq).
  cbv beta zeta. rewrite Hv. cbn [Z.eqb negb when Pos.eqb].
  rewrite bind_assoc. erewrite bind_done by reflexivity. cbv beta.
  erewrite bind_done by reflexivity. cbv beta. cbn [Z.eqb Pos.eqb].
  erewrite bind_done by (by apply rch_ref_eq). cbv beta zeta. rewrite Hk. fold n.
  erewrite bind_done by (by apply kbuf_ref_backs).
  destruct (copy_out_spec (map_va m) n w) as (rc' & Hc). erewrite bind_done by exact Hc.
  fold (copied_out m n w). pose proof (copied_out_inv m n w Hi) as Hi2.
  by erewrite bind_done by (by apply (recycle_queued (copied_out m n w) r x)).
Qed.

Lemma reply_taken w rc w1 r x k m :
  wait_event_interruptible (path_waitq (PD file)) (rch_valid r) w = Done rc w1 ->
  dev_inv w1 -> r ∈ queued w1 -> rchs w1 !! r = Some x -> valid (rchReturn x) = 1 ->
  kbuf (rchReturn x) = k -> backs w1 k m ->
  let n := u32 (nbytes (rchReturn x)) in
  read_reply file ubuf pos r w = Done (s32 n, pos + n) (recycled r x (copied_out m n w1)).
Proof. intros Hw ? ? ? ? ? ? n. unfold read_reply. erewrite bind_done by exact Hw. by apply (read_end_taken w1 r x k m). Qed.

(** There is none: the handler stays queued, without its function. *)
Lemma read_end_unanswered w r x : rchs w !! r = Some x -> valid (rchReturn x) = 0 ->
  read_end file ubuf pos r w = Done (- EINTR, pos) (setf rchs (alter (fun y => y <| rhandler := HNone |>) r) w).
Proof.
  intros Hx Hv. unfold read_end, rchRemoveIfNotValid.
  rewrite bind_assoc. erewrite bind_done by (by apply rch_ref_eq). cbv beta zeta.
  rewrite Hv. cbn [Z.eqb negb when Z.ltb].
  rewrite !bind_assoc. erewrite bind_done by reflexivity. cbv beta.
  erewrite bind_done by (by apply (rch_upd_eq r x)). by erewrite bind_done by reflexivity.
Qed.

(** The reply reports an error: the handler is unlinked, and recycling it unlinks it again. *)
Lemma read_end_error w r x : dev_inv w -> r ∈ queued w -> rchs w !! r = Some x -> valid (rchReturn x) = -1 ->
  exists w', read_end file ubuf pos r w = Crash ListCorruption w' /\ reply_fault ListCorruption w'.
Proof.
  intros Hi Hr Hx Hv. destruct (queued_facts w r x Hi Hr Hx) as [Hl _ (q & Hq & _) _ _].
  unfold read_end, rchRemoveIfNotValid.
  rewrite bind_assoc. erewrite bind_done by (by apply rch_ref_eq). cbv beta zeta.
  rewrite Hv. cbn [Z.eqb negb when Z.ltb].
  rewrite !bind_assoc. erewrite bind_done by (by apply (list_del_eq r x)). cbv beta.
  set (w2 := linked r _ LinkPoison w). set (y := x <| rlink := LinkPoison |> <| rhandler := HNone |>).
  assert (rchs w2 !! r = Some (x <| rlink := LinkPoison |>)) as Hx2 by (cbn; by rewrite list_lookup_alter_eq, Hx).
  erewrite bind_done by (by eapply rch_upd_eq). erewrite bind_done by reflexivity.
  cbv beta. cbn [Z.eqb]. set (w3 := setf rchs _ w2).
  assert (rchs w3 !! r = Some y) as Hx3.
  { change (rchs w3) with (alter (fun y => y <| rhandler := HNone |>) r (rchs w2)). by rewrite list_lookup_alter_eq, Hx2. }
  unfold i2o_recycleRch. rewrite bind_assoc. erewrite bind_done by (by apply rch_ref_eq).
  cbv beta. replace (rpath y) with (Some q) by done.
  cbn [when]. unfold rchRemove, list_del. rewrite !bind_assoc.
  erewrite (bind_done (rch_ref r)) by (by apply rch_ref_eq). cbv beta.
  change (rlink y) with LinkPoison.
  unfold bind, crash. eexists. split; [done|]. split; [done|]. exists r, y. split; [exact Hx3|]. exact Hv.
Qed.

Lemma read_end_spec w r x k m :
  dev_inv w -> r ∈ queued w -> rchs w !! r = Some x -> kbuf (rchReturn x) = k -> backs w k m ->
  valid (rchReturn x) = 0 \/ valid (rchReturn x) = 1 \/ valid (rchReturn x) = -1 ->
  outcome (read_end file ubuf pos r) (read_ends w r x m) reply_fault w.
Proof.
  intros Hi Hr Hx Hk Hm [Hv|[Hv|Hv]]; unfold outcome.
  - rewrite (read_end_unanswered w r x) by done. by apply ends_unanswered.
  - rewrite (read_end_taken w r x k m) by done. by apply ends_answered.
  - by destruct (read_end_error w r x Hi Hr Hx Hv) as (w' & -> & ?).
Qed.

(** What recycling a request gives back, of what was there before the wait. *)
Lemma recycled_gives_back w w1 r x x1 k u :
  dev_inv w -> r ∈ queued w -> rchs w !! r = Some x -> pool_kbuf x = KPool <$> pool_index k ->
  evolves w w1 -> r ∈ queued w1 -> rchs w1 !! r = Some x1 -> pool_kbuf x1 = KPool <$> pool_index k ->
  given_back w (recycled r x1 (w1 <| umem := u |>)) r k.
Proof.
  intros Hi Hr Hx Hpk He Hr1 Hx1 Hpk1. set (w2 := w1 <| umem := u |>).
  assert (dev_inv w2) as Hi2 by (apply (inv_same w1); try done; apply He).
  constructor.
  - intros r' Hr'. apply (recycled_queued w2 r x1) in Hr' as [? ?]; [|done..].
    split; [|done]. by apply (ev_queue _ _ He).
  - by rewrite recycled_handlers, decide_True.
  - intros i ->. by rewrite recycled_maps, decide_True.
  - intros r' Hr'. rewrite recycled_handlers, decide_False by (done || by intros ->).
    by apply (ev_handlers _ _ He).
  - intros k' Hk'. rewrite recycled_maps by done.
    rewrite decide_False; [by apply (ev_maps _ _ He)|].
    intros E. apply (Hk' r). split; [done|]. exists x. split; [done|]. congruence.
Qed.

Lemma read_reply_spec w r x k m :
  dev_inv w -> idle w -> r ∈ queued w -> rchs w !! r = Some x ->
  rhandler x = i2o_handleReadMessageFile_fn -> is_Some (paths w !! PD file) ->
  valid (rchReturn x) = 0 -> kbuf (rchReturn x) = k -> pool_kbuf x = KPool <$> pool_index k -> backs w k m ->
  outcome (read_reply file ubuf pos r) (read_result w r k m) reply_fault w.
Proof.
  intros Hi Hd Hr Hx Hh Hp Hv Hk Hpk Hm.
  pose proof (wait_event_spec (path_waitq (PD file)) (rch_valid r) w Hi
    (path_queue_ok _ _ Hi Hp) w (evolves_refl w Hi)) as Hws.
  apply (outcome_bind _ _ _ _ _ _ Hws). intros rc w1 [He Hrc].
  pose proof (ev_inv _ _ He) as Hi1. pose proof (evolves_idle w w1 Hi He Hd) as Hd1.
  pose proof (ev_reader _ _ He r x Hr Hx Hh) as Hr1.
  destruct (ev_queued _ _ He r x Hr1 Hx) as (x1 & Hx1 & Hrep).
  pose proof (replied_kbuf _ _ Hrep) as Hpk1. rewrite Hpk in Hpk1.
  destruct Hrep as (_ & _ & _ & _ & _ & Hk1 & _ & Hv1). rewrite Hv in Hv1. rewrite Hk in Hk1.
  destruct (ev_const _ _ He) as (Hu & Hmaps & Hpar & _).
  assert (backs w1 k m) as Hm1 by (destruct k; cbn [backs] in *; congruence).
  assert (forall q b, kbuf (rchReturn x1) <> KPath q b) as Hnab by (intros ? ?; rewrite Hk1; by intros ->).
  eapply outcome_mono; [by apply (read_end_spec w1 r x1 k m)| |done].
  intros res w' [Hv0|n Hv0 ->].
  - apply (result_interrupted w r k m _ (x1 <| rhandler := HNone |>)); try done.
    + eapply served_trans; [by apply evolves_served|]. by apply (unhandled_served _ _ _ x1).
    + destruct Hrc as [[_ Hc]|(_ & Hs & _)]; [|exact Hs]. unfold rch_valid in Hc. by rewrite Hx1, Hv0 in Hc.
    + cbn. by rewrite list_lookup_alter_eq, Hx1.
  - set (n := u32 _). pose proof (copied_out_inv m n w1 Hi1) as Hi2.
    eapply result_read; [|by apply recycled_rch|by split_and!|apply u32_range| |by eapply recycled_gives_back].
    + eapply served_trans; [by apply evolves_served|]. eapply (served_trans _ _ (copied_out m n w1)); [|by apply recycled_served].
      constructor; [done..|]. constructor; [|by intros r' y ? ? ? ? _ _; split; [|exists y]|by apply paths_kept_same].
      intros r' y ? ?. right. by exists y.
    + unfold delivered. rewrite (sr_umem _ _ (recycled_rest r x1 _)), (sr_mem _ _ (recycled_rest r x1 _)).
      cbn. by rewrite Hu, Hpar.
Qed.

(** How a read ends: it timed out waiting for a handler, or for a mapping, and then the handler it took
    is recycled as its last use left it; or a signal interrupted it and its handler [r], with what it
    holds, stays queued for the reply; or it delivered [n] bytes of mapping [m]. *)
Inductive read_post (w : World) : Z * Z -> World -> Prop :=
| read_no_handler w' :
    ~ has_free (handlers (dev w)) -> evolves w w' -> read_post w (- ETIMEDOUT, pos) w'
| read_no_mapping r x w1 :
    ~ has_free (mappings (dev w)) -> acquired w w1 r None -> rchs w1 !! r = Some x -> is_Some (rdevice x) ->
    read_post w (- ETIMEDOUT, pos) (recycled r x w1)
| read_interrupted r k x w' :
    served (PD file) w w' -> sigpending w' = true -> r ∈ queued w' ->
    rchs w' !! r = Some x -> rhandler x = HNone -> pool_kbuf x = KPool <$> pool_index k ->
    read_post w (- EINTR, pos) w'
| read_done r k m n x w' :
    served (PD file) w w' -> rchs w' !! r = Some x -> reply_is k n x -> 0 <= n < 2 ^ 32 -> backs w k m -> delivered m n w w' -> given_back w w' r k ->
    read_post w (s32 n, pos + n) w'.

(** The faults of a read: its reply reports an error, and the handler is unlinked twice; or no mapping
    could be had, and the handler that is recycled was never built and has no device. *)
Inductive read_fault (w : World) : Fault -> World -> Prop :=
| fault_error_reply r x w' :
    rchs w' !! r = Some x -> valid (rchReturn x) = -1 -> read_fault w ListCorruption w'
| fault_never_built r x w' :
    ~ has_free (mappings (dev w)) -> acquired w w' r None -> rchs w' !! r = Some x -> rdevice x = None ->
    read_fault w NullDeref w'.

(** What is given back of what was acquired: the state before is restored. *)
Lemma given_back_since w w2 w4 w5 r k p fl h msg x :
  acquired w w2 r (pool_index k) -> posted w2 w4 r p k fl h msg x -> pool_kbuf x = KPool <$> pool_index k ->
  given_back w4 w5 r k -> given_back w w5 r k.
Proof.
  intros Ha [_ Pq Px Po [Eh Em] _ _ _ _ _ _ _ _ _] Hk [Gq Gr Gm Gh Gk]. constructor; [|done|done|..].
  - intros r' Hr'. destruct (Gq r' Hr') as [Hq' Hner]. split; [|done]. apply (aq_queue _ _ _ _ Ha).
    rewrite Pq in Hq'. set_solver.
  - intros r' Hr'. destruct (decide (r' = r)) as [->|Hner]; [by rewrite Gr, (aq_free _ _ _ _ Ha)|].
    rewrite Gh, Eh, (aq_handlers _ _ _ _ Ha), decide_False; [done..|].
    rewrite Pq. intros [Hq| ->%list_elem_of_singleton]%elem_of_app; [|done]. by apply Hr', (aq_queue _ _ _ _ Ha).
  - intros k' Hk'. destruct (decide (Some k' = KPool <$> pool_index k)) as [E|Hnek].
    { destruct k as [|n| |]; try done. injection E as ->. by rewrite (Gm n), (aq_mfree _ _ _ _ Ha). }
    rewrite Gk, Em, (aq_maps _ _ _ _ Ha), decide_False; [done..|].
    intros r' [Hq' (x' & Hx' & Hkx')]. destruct (decide (r' = r)) as [->|Hner]; [congruence|].
    apply (Hk' r'), (acquired_holds w w2 r (pool_index k)); [done|]. split; [rewrite Pq in Hq'; set_solver|].
    exists x'. rewrite <- Po; done.
Qed.

(** The request and the wait, once the handler and the buffer are there. *)
Lemma read_request_spec w w2 r k m pa start len hrd_code :
  acquired w w2 r (pool_index k) -> idle w -> is_Some (paths w !! PD file) -> backs w k m ->
  outcome (let* msg := build_hrd_message file pa start len 1 LDH_INBOUND hrd_code in
    buildRch r i2o_handleReadMessageFile_fn (PD file) k (read_flags k) >> rchAppend r >>
    let* _ := acq200_sendI2O_kbuf (PD file) msg in read_reply file ubuf pos r)
    (fun res w' => read_post w res w' /\ served (PD file) w w') reply_fault w2.
Proof.
  intros Ha Hd Hp Hm. pose proof Ha as [_ Hi2 Hq2 Hx2 Hr2 _ _ _ _ _ _ _ Hpa Hco _ Hdd Hmm].
  assert (is_Some (paths w2 !! PD file)) as Hp2 by exact (same_path_is_Some _ _ (Hpa _) Hp).
  destruct (message_sent (read_reply file ubuf pos r) file pa start len LDH_INBOUND hrd_code
    i2o_handleReadMessageFile_fn w2 r k (read_flags k)) as (w4 & x & E & Hpo); try done.
  { rewrite from_pool_flags. intros k' Hk'. destruct k as [|n| |]; try done. injection Hk' as <-.
    by destruct (Hmm n eq_refl) as (? & ? & _). }
  unfold outcome. rewrite E. pose proof (posted_served _ _ _ _ _ _ _ _ _ Hi2 (Hdd Hd) Hq2 Hpo) as Hsv.
  pose proof Hpo as [Hi4 Eq4 Hx4 _ _ Es4 Hp4 Hxh _ _ Hxv Hxk Hxpk _]. rewrite from_pool_flags in Hxpk.
  destruct Hco as (Hu2 & Hma2 & Hpar2 & _). injection Es4 as Em4 Epar4 Eu4 _ _ _ _.
  pose proof (read_reply_spec w4 r x k m Hi4 (sv_idle _ _ _ Hsv)) as Hrr. unfold outcome in Hrr.
  specialize (Hrr ltac:(rewrite Eq4; set_solver) Hx4 Hxh (paths_kept_is_Some _ _ _ Hp4 Hp2) Hxv Hxk Hxpk
    ltac:(destruct k; cbn [backs] in *; congruence)).
  assert (forall w', served (PD file) w4 w' -> served (PD file) w w') as Htr.
  { intros w' Hs. eapply served_trans; [by eapply acquired_served|]. by eapply served_trans. }
  destruct (read_reply file ubuf pos r w4) as [res w5|flt w5| |]; try done.
  - destruct Hrr as [w5 x5 Hs Hsig Hq5 Hx5 Hh5 Hk5|w5 n x5 Hs Hx5 Hrep Hn Hdel Hg].
    + split; [apply (read_interrupted w r k x5)|]; auto.
    + split; [|by auto]. apply (read_done w r k m n x5); auto.
      * unfold delivered in *. by rewrite Hdel, Epar4, Eu4, Hpar2, Hu2.
      * by eapply given_back_since.
Qed.

Lemma read_generic_spec w count hrd_code :
  dev_inv w -> idle w -> is_Some (paths w !! PD file) ->
  outcome (acq200_bridge_read_generic file ubuf count pos hrd_code KNull)
    (fun res w' => read_post w res w' /\ (has_free (mappings (dev w)) -> served (PD file) w w')) (read_fault w) w.
Proof.
  intros Hi Hd Hp. unfold acq200_bridge_read_generic. destruct Hp as [pp Hp].
  unfold outcome. erewrite bind_done by (by apply path_ref_eq).
  apply (outcome_bind _ _ _ _ _ _ (alloc_rch_spec w Hi)). intros [r|] w1; cbn [rch_alloc_post].
  2:{ intros (He & Hf & _). split; [by apply read_no_handler|]. intros _. by apply evolves_served. }
  intros Ha. cbv zeta. rewrite bool_decide_eq_true_2 by done.
  apply (outcome_bind _ _ _ _ _ _ (alloc_map_spec _ _ _ _ Ha)). intros [k|] w2; cbn [map_alloc_post].
  - intros (n & -> & Ha2). destruct (aq_map _ _ _ _ Ha2 n eq_refl) as (_ & _ & m & Hm & Hlen).
    unfold outcome. erewrite bind_done by (by apply (kbuf_ref_backs _ (KPool n) m)).
    erewrite bind_done by reflexivity. cbv beta. rewrite (proj2 (Z.eqb_neq (map_len m) 0)) by lia.
    eapply outcome_mono; [apply (read_request_spec w w2 r (KPool n) m); [done|done|by exists pp|]| |].
    + cbn [backs]. destruct (aq_const _ _ _ _ Ha2) as (_ & <- & _). done.
    + by intros res w' [? ?].
    + intros f w' (-> & r' & x' & ? & ?). by apply (fault_error_reply w r' x').
  - intros (Ha2 & Hf). destruct (aq_rch _ _ _ _ Ha2) as [x Hx].
    assert (rpath x = None) as Hpn by (apply (aq_idle _ _ _ _ Ha2 Hd r x Hx), Ha2).
    unfold outcome, bind. rewrite (recycle_idle r x) by done.
    destruct (rdevice x) as [d|] eqn:Hdev.
    + split; [by apply (read_no_mapping w r x w2); [..|rewrite Hdev]|done].
    + by apply (fault_never_built w r x).
Qed.

(** A read into the caller's own mapping needs no mapping of the pool. *)
Lemma read_own_spec w count hrd_code m :
  dev_inv w -> idle w -> is_Some (paths w !! PD file) -> map_len m <> 0 ->
  outcome (acq200_bridge_read_generic file ubuf count pos hrd_code (KStack m))
    (fun res w' => read_post w res w' /\ served (PD file) w w') reply_fault w.
Proof.
  intros Hi Hd Hp Hlen. unfold acq200_bridge_read_generic. pose proof Hp as [pp Hpp].
  unfold outcome. erewrite bind_done by (by apply path_ref_eq).
  apply (outcome_bind _ _ _ _ _ _ (alloc_rch_spec w Hi)). intros [r|] w1; cbn [rch_alloc_post].
  2:{ intros (He & Hf & _). split; [by apply read_no_handler|by apply evolves_served]. }
  intros Ha. cbv zeta. rewrite bool_decide_eq_false_2 by done. unfold outcome.
  erewrite bind_done by reflexivity. cbv beta iota. erewrite bind_done by reflexivity.
  erewrite bind_done by reflexivity. cbv beta. rewrite (proj2 (Z.eqb_neq (map_len m) 0)) by done.
  by apply (read_request_spec w w1 r (KStack m) m).
Qed.

(** C9: a read through the bridge, whatever other contexts do until its reply, and whether the pools
    have a handler and a mapping left or not.  It copies [n] bytes, the length in the reply that its
    handler recorded, from the mapping to the user, moves the position on by [n], returns [n], and gives back the handler and
    the mapping; or it was interrupted by a signal, returns [-EINTR], and leaves both to the reply,
    queued without a handler function; or it timed out and returns [-ETIMEDOUT], which happens only
    if a pool had nothing free.  The only faults are that of a reply which reports an error (the
    handler is then unlinked twice), and that of a handler which was never built and is recycled
    because no mapping could be had. *)
Theorem bridge_read_outcome w count :
  dev_inv w -> idle w -> is_Some (paths w !! PD file) ->
  outcome (acq200_bridge_read file ubuf count pos) (read_post w) (read_fault w) w.
Proof. intros. eapply outcome_mono; [by apply read_generic_spec| |done]. by intros ? ? [? _]. Qed.
End Read.
