(* ===== verification/Completes.v ===== *)
(** * A request from end to end

    The parts of the driver together: a process reads through the bridge and sleeps; the card answers;
    the interrupt handler takes the frame of the answer, the bottom half gives the message to the
    handler that waits for it and wakes the process, which delivers the data.  When the card does its
    part, the read ends with exactly the card's data in the user's memory, and the bus history is
    that of one request and its answer. *)

From S2P Require Import Prelude BusProt StreamBuf Pool Device Rch I2o Isr Kernel Outer Owner Frames.
From S2P Require Import Sleep Mask Mailbox Path Bridge Acquire Requests.

(** What the interrupt handler leaves alone on its way to the stream buffer. *)
Definition scene (w : World) :=
  (mem w, umem w, rchs w, paths w, sched w, sigpending w, params w, maps w, queued w, dma_buf (dev w),
   handlers (dev w), mappings (dev w)).

Lemma stream_get_scene w a w' : stream_get w = Done a w' -> scene w' = scene w.
Proof. unfold stream_get. destruct (streamGet _). by intros [= _ <-]. Qed.

Lemma mem_read_write_take m a bs k : (k <= length bs)%nat ->
  mem_read (mem_write m a bs) a k = take k bs.
Proof.
  intros Hk. pose proof (mem_read_write m a bs) as E.
  replace (length bs) with (k + (length bs - k))%nat in E by lia. rewrite mem_read_app in E.
  rewrite <- E at 2. by rewrite take_app_length' by (by rewrite mem_read_length).
Qed.

Section Completes.
Context `{Platform}.

Lemma consume_scene mfa w a w' : acq200_consume_i2o mfa w = Done a w' -> scene w' = scene w.
Proof.
  unfold acq200_consume_i2o, bind, modify, get_world, stream_put.
  destruct (acq200_debug _ =? 8); [by intros [= _ <-]|].
  destruct (streamPut _ _) as [rc sb]. destruct (rc <? 0); by intros [= _ <-].
Qed.

(** ** The message *)

Lemma hrd_message_ok id file pa start len stride outb cf : 0 <= id < 2 ^ 16 ->
  message_ok (hrd_message id file pa start len stride outb cf).
Proof.
  intros Hid. constructor; try done; cbn [hrd_message msg_id msg_type msg_length hrdr0].
  - case_match; [|apply u32_range]. destruct (0 <? outb); vm_compute; by split.
  - constructor; (apply u32_range || apply u16_range).
Qed.

(** C28: whatever the arguments of a request, its message is well typed on the bus: every field that the
    code computes is cut to the width of its type, the length in the header covers both records, and
    so the card reads from the frame, once it is posted, exactly the fields that the code set. *)
Theorem sent_message_typed file pa start len stride outb cf w :
  is_Some (paths w !! PD file) -> next_frame w <> PCI_I2O_INVALID_MFA ->
  let id := MAKE_ID_DTACQ (i2o_last_id_out (m_dpd (dev w)) + 1) in
  let sent := hrd_message id file pa start len stride outb cf in
  total (let* m := build_hrd_message file pa start len stride outb cf in
         acq200_sendI2O_kbuf (PD file) m)
    (fun rc w' => rc = 0 /\ message_ok sent /\ MESSAGE_ACTUAL_LEN sent = Z.of_nat (length (message_bytes sent)) /\
       message_at (mem w') (frame_va w (Z.land (next_frame w) MFA_MASK)) = sent) w.
Proof.
  intros Hp Hf id sent. apply total_bind. unfold total at 1.
  destruct (build_message_own file pa start len stride outb cf w Hp) as (m & w1 & -> & [_ Hp1] & Hl1 & Hd1 & Hm).
  destruct (paths_kept_is_Some _ _ _ Hp1 Hp) as [x Hx]. unfold total, acq200_sendI2O_kbuf.
  erewrite bind_done by (by apply path_ref_eq). erewrite bind_done by reflexivity.
  change (u32 (card_reply (iolog w1) (CSR ACQ200_IQP))) with (next_frame w1).
  assert (next_frame w1 = next_frame w) as -> by (unfold next_frame; by rewrite Hl1).
  rewrite (proj2 (Z.eqb_neq _ _) Hf). cbv zeta. erewrite bind_done by reflexivity.
  erewrite bind_done by reflexivity. erewrite bind_done by (by apply (path_upd_eq _ x)).
  assert (message_ok sent) as Hok.
  { apply hrd_message_ok. unfold id. rewrite make_id_sum.
    pose proof (Z.mod_pos_bound (i2o_last_id_out (m_dpd (dev w)) + 1) 128 ltac:(lia)). lia. }
  split; [done|]. split; [done|]. split; [by rewrite length_message_bytes|].
  set (va := frame_va w _). assert (msg_length m = 32) as Hlen by exact (f_equal msg_length (Hm 0)).
  transitivity (message_at (mem_write (mem w1) va (firstn 40 (message_bytes sent))) va).
  2:{ rewrite firstn_all2 by by rewrite length_message_bytes. by apply message_roundtrip. }
  unfold sent. rewrite <- Hm. change 40%nat with (Z.to_nat (8 + 32)). rewrite <- Hlen.
  unfold id, va, frame_va. rewrite <- Hd1, <- (make_id_s16 (i2o_last_id_out (m_dpd (dev w1)) + 1)). reflexivity.
Qed.

(** ** The interrupt *)

(** A status that has the message cause is not one to ignore. *)
Lemma status_message status : Z.testbit status 3 = true ->
  (Z.land status (u32 (Z.lnot IRQ_IGNORE)) =? 0) = false /\ istrue (Z.land status ACQ200_OISR_OPQI) = true.
Proof.
  intros Hb. split.
  - apply Z.eqb_neq. intros E. apply (f_equal (fun z => Z.testbit z 3)) in E.
    by rewrite Z.land_spec, Hb in E.
  - change ACQ200_OISR_OPQI with (2 ^ 3). by rewrite land_pow2.
Qed.

Definition isr_log (status mfa : Z) : list Io :=
  [IoRd (CSR ACQ200_OISR) status; IoRd (CSR ACQ200_OQP) mfa].

(** A message interrupt puts the frame on the empty stream buffer and schedules the bottom half. *)
Lemma isr_takes_frame w status mfa :
  dev_inv w -> pending_mfas w = [] -> acq200_debug (params w) <> 8 ->
  u32 (card_reply (iolog w) (CSR ACQ200_OISR)) = status -> Z.testbit status 3 = true ->
  u32 (card_reply (iolog w ++ [IoRd (CSR ACQ200_OISR) status]) (CSR ACQ200_OQP)) = mfa ->
  mfa <> 0 -> mfa <> PCI_I2O_INVALID_MFA ->
  exists w', acq200_isr w = Done IRQ_HANDLED w' /\ evolves w w' /\ scene w' = scene w /\
    pending_mfas w' = [mfa] /\ tasklet_scheduled (m_dpd (dev w')) = true /\
    iolog w' = iolog w ++ isr_log status mfa.
Proof.
  intros Hi Hp Hd Hs Hb Hm H0 Hn. destruct (status_message status Hb) as [Hs1 Hs2].
  assert ((mfa =? 0xffffffff) || (mfa =? 0) = false) as Hg.
  { apply orb_false_iff. by split; apply Z.eqb_neq. }
  set (w1 := upd_dpd (fun d => d <| bad_mfa_count := 0 |>)
    (upd_dev (setf interrupt_count (fun '(a, b, c) => (s32 (a + 1), b, c)))
    (upd_dev (setf bad_report (fun _ => 0)) (w <| iolog := iolog w ++ isr_log status mfa |>)))).
  assert (acq200_isr w = (let* _ := acq200_consume_i2o mfa in ret IRQ_HANDLED) w1) as E.
  { unfold acq200_isr. erewrite bind_done by reflexivity. rewrite Hs, Hs1, Hs2.
    do 2 erewrite bind_done by reflexivity. unfold acq200_incoming_message_isr.
    erewrite bind_done by reflexivity. cbn [iolog upd_dev setf set_dev set_iolog]. rewrite Hm, Hg.
    erewrite bind_done by reflexivity. f_equal. unfold w1, isr_log. cbn. by rewrite <- app_assoc. }
  assert (dev_inv w1) as Hi1 by by apply (inv_same w).
  assert (mfa_ok mfa) as Hok. { split; [|done]. rewrite <- Hm. apply u32_range. }
  pose proof (consume_spec mfa w1 Hi1 Hok) as Hc. unfold total in Hc.
  destruct (acq200_consume_i2o mfa w1) as [[] w2| | |] eqn:Ec; try done.
  erewrite bind_done in E by exact Ec. destruct Hc as [_ Hc]. exists w2. split; [done|].
  split. { pose proof (isr_evolves w Hi) as Hev. unfold total in Hev. by rewrite E in Hev. }
  split. { by rewrite (consume_scene _ _ _ _ Ec). }
  unfold consumed in Hc. change (params w1) with (params w) in Hc.
  rewrite (proj2 (Z.eqb_neq _ _) Hd) in Hc.
  assert (fifo_room 127 (abs 7 (streambuf (dev w1))) = true) as Hr.
  { apply bool_decide_eq_true. unfold fifo_held. change (fq (abs 7 (streambuf (dev w1)))) with (pending_mfas w).
    rewrite Hp. destruct (flast _); cbn; lia. }
  rewrite Hr in Hc. cbn [orb negb] in Hc. destruct Hc as (Hpe & Hl & Ht).
  split; [by change (pending_mfas w1) with (pending_mfas w) in Hpe; rewrite Hpe, Hp|]. split; [done|].
  exact Hl.
Qed.

(** ** The bottom half *)

(** Handler [r] waits on path [p] for identifier [id], which no other handler in the queue has. *)
Record waits (w : World) (r : nat) (x : ReturnCommandHandler) (p : nat) (id : Z) : Prop := {
  ws_queued : r ∈ queued w;
  ws_rch : rchs w !! r = Some x;
  ws_path : rpath x = Some p;
  ws_id : command_id x = id;
  ws_only r' x' : r' ∈ queued w -> rchs w !! r' = Some x' -> command_id x' = id -> r' = r
}.

Lemma waits_scene w w' r x p id : scene w' = scene w -> waits w r x p id -> waits w' r x p id.
Proof.
  unfold scene. intros E [? ? ? ? Ho]. injection E as _ _ Er _ _ _ _ _ Eq _ _ _.
  constructor; rewrite ?Eq, ?Er; done.
Qed.

(** It is a reader. *)
Record awaits (w : World) (r : nat) (x : ReturnCommandHandler) (p : nat) (id : Z) : Prop := {
  aw_waits : waits w r x p id;
  aw_reader : rhandler x = i2o_handleReadMessageFile_fn
}.

(** The reply is given to the handler that waits for it. *)
Lemma process_found w r x p reply :
  dev_inv w -> waits w r x p (msg_id reply) -> rhandler x <> HNone ->
  acq200_processCommandMessageReturn reply w = call_handler (rhandler x) r reply w.
Proof.
  intros Hi [Hq Hx Hp Hid Ho] Hn. unfold acq200_processCommandMessageReturn.
  erewrite bind_done by reflexivity. change (rch_list _) with (queued w).
  destruct (find_rch_spec (msg_id reply) (queued w) w) as (o & Hf & Hpost).
  { intros r' Hr'. destruct (di_queued _ Hi r' Hr') as (y & ? & _). by exists y. }
  erewrite bind_done by exact Hf. destruct o as [r'|]; [|by destruct (Hpost r x Hq Hx)].
  destruct Hpost as (Hr' & x' & Hx' & Hid'). assert (r' = r) as -> by by eapply Ho. assert (x' = x) as -> by congruence.
  erewrite bind_done by (by apply rch_ref_eq). by rewrite decide_False.
Qed.

Definition reply_set (reply : Message) (x : ReturnCommandHandler) : ReturnCommandHandler :=
  x <| rchReturn := rr_set (hrd_start (hrdr0 reply)) (s32 (hrd_nsamples (hrdr0 reply))) (rchReturn x) |>.

(** The reply is recorded in the handler, and the reader is woken. *)
Lemma process_reply w r x p reply :
  dev_inv w -> awaits w r x p (msg_id reply) ->
  acq200_processCommandMessageReturn reply w =
    Done tt (woken_path p (setf rchs (alter (reply_set reply) r) w)).
Proof.
  intros Hi [Hw Hh]. rewrite (process_found w r x p) by (done || by rewrite Hh). destruct Hw as [Hq Hx Hp _ _]. rewrite Hh.
  cbn [call_handler]. unfold i2o_handleReadMessageFile, rchSetSamplesAndGetPath. cbv zeta.
  fold (reply_set reply). rewrite bind_assoc. erewrite bind_done by (by apply (rch_upd_eq r x)).
  set (w1 := setf rchs _ w). rewrite bind_assoc.
  erewrite bind_done by (apply rch_ref_eq; cbn; by rewrite list_lookup_alter_eq, Hx).
  erewrite bind_done by reflexivity. change (rpath (reply_set reply x)) with (rpath x). rewrite Hp.
  apply wake_path_eq. destruct (queued_facts w r x Hi Hq Hx) as [_ _ (q & Hq' & Hl) _ _].
  change (is_Some (paths w !! p)). congruence.
Qed.

(** The tasklet, when one frame is pending that holds a reply: the reply is processed, and the frame goes
    back to the card. *)
Lemma tasklet_one w mfa reply :
  dev_inv w -> tasklet_scheduled (m_dpd (dev w)) = true -> pending_mfas w = [mfa] ->
  acq200_debug (params w) <> 7 -> message_at (mem w) (acq200_dev_i2o_mfa2va w mfa) = reply ->
  MT_ID (msg_type reply) = MT_COMMAND_PACKET ->
  exists w1 w2 w', run_tasklet w = Done tt w' /\ evolves w w' /\ dev_inv w1 /\ scene w1 = scene w /\
    acq200_processCommandMessageReturn reply w1 = Done tt w2 /\ scene w' = scene w2 /\
    iolog w' = iolog w ++ [give_back mfa].
Proof.
  intros Hi Ht Hp Hd Hm Hty. pose proof (tasklet_evolves w Hi) as Hev. unfold total in Hev.
  enough (exists w1 w2 w', run_tasklet w = Done tt w' /\ dev_inv w1 /\ scene w1 = scene w /\
    acq200_processCommandMessageReturn reply w1 = Done tt w2 /\ scene w' = scene w2 /\
    iolog w' = iolog w ++ [give_back mfa]) as (w1 & w2 & w' & E & ?).
  { exists w1, w2, w'. split; [done|]. rewrite E in Hev. by split. }
  unfold run_tasklet. erewrite bind_done by reflexivity. rewrite Ht. cbn [when].
  erewrite bind_done by reflexivity. set (w0 := upd_dpd _ w).
  assert (dev_inv w0) as Hi0 by by apply (inv_same w).
  unfold acq200_streaming_isr_bh. erewrite bind_done by reflexivity. cbv beta.
  pose proof (pending_fuel w0 Hi0) as Hfuel. change (pending_mfas w0) with (pending_mfas w) in Hfuel.
  rewrite Hp in Hfuel. destruct (length (buffers (streambuf (dev w0)))) as [|k]; [cbn in Hfuel; lia|].
  destruct (stream_get_spec w0 Hi0) as (w1 & Hg & He1 & Hp1 & Hl1 & _).
  change (pending_mfas w0) with (pending_mfas w) in *. rewrite Hp in *. cbn [hd tl] in *.
  pose proof (stream_get_scene _ _ _ Hg) as Hsc. change (scene w0) with (scene w) in Hsc.
  assert (mfa_ok mfa) as [_ Hne].
  { pose proof (di_mfas _ Hi) as Hmf. fold (pending_mfas w) in Hmf. rewrite Hp in Hmf. by inversion Hmf. }
  cbn [streaming_loop]. erewrite bind_done by exact Hg. rewrite (proj2 (Z.eqb_neq _ _) Hne).
  erewrite bind_done by reflexivity. cbv beta zeta. pose proof Hsc as Hsc'.
  unfold scene in Hsc'. injection Hsc' as Em _ _ _ _ _ Epar _ _ Ed _ _.
  assert (message_at (mem w1) (acq200_dev_i2o_mfa2va w1 mfa) = reply) as ->.
  { unfold acq200_dev_i2o_mfa2va, frame_va in *. by rewrite Em, Ed. }
  rewrite Epar, (proj2 (Z.eqb_neq _ _) Hd), Hty, Z.eqb_refl.
  pose proof (process_benign w1 (ev_inv _ _ He1) reply) as Hpr. unfold total in Hpr.
  destruct (acq200_processCommandMessageReturn reply w1) as [[] w2| | |] eqn:Epr; try done.
  destruct Hpr as [He2 Hr2]. destruct (rest_pending _ _ Hr2) as (El2 & Ep2 & _).
  erewrite bind_done by exact Epr. erewrite bind_done by reflexivity.
  match goal with |- context [bind stream_get _ ?y] => set (w3 := y) end.
  assert (dev_inv w3) as Hi3 by (apply (inv_same w2); try done; apply He2).
  destruct (stream_get_spec w3 Hi3) as (w4 & Hg4 & _ & _ & Hl4 & _).
  change (pending_mfas w3) with (pending_mfas w2) in Hg4. rewrite Ep2, Hp1 in Hg4. cbn [hd] in Hg4.
  erewrite bind_done by exact Hg4. rewrite Z.eqb_refl. exists w1, w2, w4. split; [done|]. split; [apply He1|].
  split; [done|]. split; [done|]. split; [by rewrite (stream_get_scene _ _ _ Hg4)|].
  rewrite Hl4. change (iolog w3) with (iolog w2 ++ [give_back mfa]). by rewrite El2, Hl1.
Qed.

(** The state after the bottom half served the reply to [r]. *)
Record replied_to (w w' : World) (r : nat) (x : ReturnCommandHandler) (p : nat) (mfa : Z) (reply : Message) : Prop := {
  rt_evolves : evolves w w';
  rt_rch : rchs w' !! r = Some (reply_set reply x);
  rt_woken : woken (path_waitq p) w' = true;
  rt_same : (mem w', umem w', sched w', sigpending w', params w', maps w') =
            (mem w, umem w, sched w, sigpending w, params w, maps w);
  rt_log : iolog w' = iolog w ++ [give_back mfa]
}.

(** The tasklet, when the reply to a reader is in the one frame that is pending. *)
Lemma tasklet_serves w mfa r x p reply :
  dev_inv w -> tasklet_scheduled (m_dpd (dev w)) = true -> pending_mfas w = [mfa] ->
  acq200_debug (params w) <> 7 -> message_at (mem w) (acq200_dev_i2o_mfa2va w mfa) = reply ->
  MT_ID (msg_type reply) = MT_COMMAND_PACKET -> awaits w r x p (msg_id reply) ->
  exists w', run_tasklet w = Done tt w' /\ replied_to w w' r x p mfa reply.
Proof.
  intros Hi Ht Hp Hd Hm Hty [Hw Hh].
  destruct (tasklet_one w mfa reply) as (w1 & w2 & w' & E & He & Hi1 & Hs1 & Epr & Hs2 & Hl); try done.
  exists w'. split; [done|]. pose proof (waits_scene _ _ _ _ _ _ Hs1 Hw) as Hw1.
  rewrite (process_reply w1 r x p) in Epr by (done || by constructor). injection Epr as <-.
  unfold scene in Hs1, Hs2. injection Hs1 as Em1 Eu1 _ _ Es1 Esi1 Epar1 Emap1 _ _ _ _.
  injection Hs2 as Em2 Eu2 Er2 Epa2 Es2 Esi2 Epar2 Emap2 _ _ _ _.
  constructor; [done|..|done].
  - rewrite Er2. cbn. by rewrite list_lookup_alter_eq, (ws_rch _ _ _ _ _ Hw1).
  - cbn [woken path_waitq]. rewrite Epa2. cbn. rewrite lookup_alter_eq.
    destruct (queued_facts w1 r x Hi1 (ws_queued _ _ _ _ _ Hw1) (ws_rch _ _ _ _ _ Hw1)) as [_ _ (q & Hq & [y Hy]) _ _].
    rewrite (ws_path _ _ _ _ _ Hw1) in Hq. injection Hq as <-. by rewrite Hy.
  - cbn in *. congruence.
Qed.

(** ** The wait *)
Section Waiting.
Context (q : WaitQ) (cond : World -> bool).

(** An event that wakes nobody, and one that wakes the process with its condition true. *)
Lemma wait_sleeps e evs w w' :
  run_event e w = Done tt w' -> woken q (w' <| sched := evs |>) = false -> sigpending w' = false ->
  wait_from q cond (e :: evs) w = wait_from q cond evs (w' <| sched := evs |>).
Proof.
  intros E Hw Hs. cbn [wait_from]. erewrite bind_done by exact E.
  erewrite bind_done by reflexivity. erewrite bind_done by reflexivity. rewrite Hw. cbn [orb].
  change (sigpending (w' <| sched := evs |>)) with (sigpending w'). by rewrite Hs.
Qed.

Lemma wait_wakes e evs w w' :
  run_event e w = Done tt w' -> woken q (w' <| sched := evs |>) = true ->
  cond (w' <| sched := evs |>) = true ->
  wait_from q cond (e :: evs) w = Done 0 (w' <| sched := evs |>).
Proof.
  intros E Hw Hc. cbn [wait_from]. erewrite bind_done by exact E.
  erewrite bind_done by reflexivity. erewrite bind_done by reflexivity. by rewrite Hw, Hc.
Qed.
End Waiting.

(** The card answers while the process waits: it writes [dma] and interrupts with the frame of the
    reply. *)
Record answers (w : World) (a status mfa : Z) (dma : list (Z * list Z)) (reply : Message)
    (rest : list Event) : Prop := {
  an_sched : sched w = EvCard a dma :: EvIrq :: EvTasklet :: rest;
  an_quiet : sigpending w = false;
  an_empty : pending_mfas w = [];
  an_debug : acq200_debug (params w) <> 7 /\ acq200_debug (params w) <> 8;
  an_isr : u32 (card_reply (iolog w ++ [IoAct a]) (CSR ACQ200_OISR)) = status;
  an_status : Z.testbit status 3 = true;
  an_oqp : u32 (card_reply (iolog w ++ [IoAct a; IoRd (CSR ACQ200_OISR) status]) (CSR ACQ200_OQP)) = mfa;
  an_mfa : mfa <> 0 /\ mfa <> PCI_I2O_INVALID_MFA;
  an_reply : message_at (fold_left dma_write dma (mem w)) (acq200_dev_i2o_mfa2va w mfa) = reply;
  an_type : MT_ID (msg_type reply) = MT_COMMAND_PACKET
}.

Definition answer_log (a status mfa : Z) : list Io :=
  IoAct a :: isr_log status mfa ++ [give_back mfa].

Lemma wait_answered w r x p a status mfa dma reply rest :
  dev_inv w -> awaits w r x p (msg_id reply) -> valid (rchReturn x) = 0 ->
  valid (rchReturn (reply_set reply x)) = 1 -> answers w a status mfa dma reply rest ->
  exists w', wait_event_interruptible (path_waitq p) (rch_valid r) w = Done 0 w' /\ evolves w w' /\
    rchs w' !! r = Some (reply_set reply x) /\ sched w' = rest /\
    (mem w', umem w', params w', maps w') = (fold_left dma_write dma (mem w), umem w, params w, maps w) /\
    iolog w' = iolog w ++ answer_log a status mfa.
Proof.
  intros Hi Haw Hv0 Hv1 [Hs Hq Hpe [Hd7 Hd8] Hisr Hst Hoqp [Hm0 Hm1] Hre Hty].
  destruct Haw as [[Haq Hax Hap Haid Hao] Har].
  destruct (queued_facts w r x Hi Haq Hax) as [_ _ (p' & Hp' & [y Hy]) _ _].
  assert (p' = p) as -> by congruence.
  unfold wait_event_interruptible. erewrite bind_done by reflexivity.
  unfold rch_valid at 1. rewrite Hax, Hv0, Hq. change (istrue 0) with false. cbv iota.
  erewrite bind_done by (apply (path_upd_eq p y); done). set (w1 := setf paths _ w).
  assert (evolves w w1) as He1.
  { apply evolves_same; [done|]. constructor; try done. intros q'. cbn.
    destruct (decide (q' = p)) as [->|]; [by rewrite lookup_alter_eq, Hy|by rewrite lookup_alter_ne]. }
  assert (forall w', paths w' = paths w1 -> woken (path_waitq p) w' = false) as Hnw.
  { intros w' E. cbn [woken path_waitq]. rewrite E. cbn. by rewrite lookup_alter_eq, Hy. }
  rewrite Hs. set (w2 := w1 <| iolog := iolog w ++ [IoAct a] |> <| mem := fold_left dma_write dma (mem w) |>).
  rewrite (wait_sleeps _ _ (EvCard a dma) _ _ w2); [|done|by apply Hnw|done].
  set (w3 := w2 <| sched := _ |>).
  assert (evolves w w3) as He3.
  { eapply evolves_trans; [done|exact He1|]. apply evolves_same; [apply He1|]. by constructor. }
  destruct (isr_takes_frame w3 status mfa) as (w4 & E4 & He4 & Hsc4 & Hp4 & Ht4 & Hl4); try done.
  { apply He3. }
  { cbn. rewrite <- app_assoc. done. }
  unfold scene in Hsc4. injection Hsc4 as Em4 Eu4 Er4 Epa4 Es4 Esi4 Epar4 Emap4 Eq4 Ed4 _ _.
  rewrite (wait_sleeps _ _ EvIrq _ _ w4);
    [|cbn [run_event]; by erewrite bind_done by exact E4|by apply Hnw|by rewrite Esi4].
  set (w5 := w4 <| sched := _ |>).
  assert (evolves w w5) as He5.
  { eapply evolves_trans; [done|exact He3|]. eapply evolves_trans; [apply He3|exact He4|].
    apply evolves_same; [apply He4|]. by constructor. }
  destruct (tasklet_serves w5 mfa r x p reply) as (w6 & E6 & [He6 Hr6 Hw6 Hs6 Hl6]); try done.
  { apply He5. }
  { by change (params w5) with (params w4); rewrite Epar4. }
  { change (mem w5) with (mem w4). change (acq200_dev_i2o_mfa2va w5 mfa) with (acq200_dev_i2o_mfa2va w4 mfa).
    unfold acq200_dev_i2o_mfa2va, frame_va in *. rewrite Em4, Ed4. exact Hre. }
  { split; [|done]. constructor; try done; change (queued w5) with (queued w4); change (rchs w5) with (rchs w4);
      rewrite ?Eq4, ?Er4; done. }
  injection Hs6 as Em6 Eu6 Es6 Esi6 Epar6 Emap6.
  rewrite (wait_wakes _ _ EvTasklet _ _ w6); [|done|done|].
  2:{ unfold rch_valid. cbn. rewrite Hr6, Hv1. done. }
  eexists. split; [done|]. split.
  { eapply evolves_trans; [done|exact He5|]. eapply evolves_trans; [apply He5|exact He6|].
    apply evolves_same; [apply He6|]. by constructor. }
  split; [done|]. split; [done|]. cbn in *. split; [congruence|].
  rewrite Hl6, Hl4. unfold answer_log, isr_log. cbn. rewrite <- !app_assoc. done.
Qed.

(** ** A read *)
Section Read.
Context (file : File) (ubuf pos : Z).

(** The request a read posts for mapping [m]. *)
Definition read_request (w : World) (m : IoMapping) (count : Z) : Message :=
  hrd_message 0 file (MK_DMABUF_OFFSET m (dma_buf (dev w))) (u32 pos / 2)
    (u32 (umin count (u32 (map_len m))) / 2) 1 LDH_INBOUND HRD_CHAN_IS_FILE.

(** The identifier of the next request. *)
Definition next_id (w : World) : Z := MAKE_ID_DTACQ (i2o_last_id_out (m_dpd (dev w)) + 1).

(** What the card and the platform do for a read that takes mapping [m]: after it saw the request,
    the card stores the data in the mapping and a reply with the identifier of the request, a count
    of the samples and no error in a frame, posts the frame and interrupts. *)
Record card_answers (w : World) (m : IoMapping) (count a status mfa : Z) (data : list Z)
    (reply : Message) (rest : list Event) : Prop := {
  ca_sched : sched w = EvCard a [(map_va m, data); (acq200_dev_i2o_mfa2va w mfa, message_bytes reply)]
                         :: EvIrq :: EvTasklet :: rest;
  ca_isr : u32 (card_reply (iolog w ++ sent w (read_request w m count) ++ [IoAct a]) (CSR ACQ200_OISR)) = status;
  ca_status : Z.testbit status 3 = true;
  ca_oqp : u32 (card_reply (iolog w ++ sent w (read_request w m count) ++
             [IoAct a; IoRd (CSR ACQ200_OISR) status]) (CSR ACQ200_OQP)) = mfa;
  ca_mfa : mfa <> 0 /\ mfa <> PCI_I2O_INVALID_MFA;
  ca_reply : message_ok reply;
  ca_type : MT_ID (msg_type reply) = MT_COMMAND_PACKET;
  ca_id : msg_id reply = next_id w;
  ca_length : 2 * hrd_nsamples (hrdr0 reply) = Z.of_nat (length data) /\ Z.of_nat (length data) < 2 ^ 31;
  ca_apart : acq200_dev_i2o_mfa2va w mfa + 40 <= map_va m \/
             map_va m + Z.of_nat (length data) <= acq200_dev_i2o_mfa2va w mfa
}.

(** The reader: nothing is pending, and the identifier is not in use. *)
Record ready_to_read (w : World) : Prop := {
  rr_inv : dev_inv w;
  rr_path : is_Some (paths w !! PD file);
  rr_handler : has_free (handlers (dev w));
  rr_quiet : sigpending w = false;
  rr_empty : pending_mfas w = [];
  rr_params : acq200_debug (params w) <> 7 /\ acq200_debug (params w) <> 8 /\
              acq200_stub_copy_to_user (params w) = 0;
  rr_id r x : r ∈ queued w -> rchs w !! r = Some x -> command_id x <> next_id w
}.

Lemma reply_counts m ns (data : list Z) x :
  hrd_nsamples (hrdr0 m) = ns -> 0 <= ns -> 2 * ns = Z.of_nat (length data) /\ Z.of_nat (length data) < 2 ^ 31 ->
  valid (rchReturn (reply_set m x)) = 1 /\ nbytes (rchReturn (reply_set m x)) = Z.of_nat (length data).
Proof.
  intros <- H0 [El Hl]. unfold reply_set, rr_set. cbn. rewrite (s32_id (hrd_nsamples _)) by lia.
  rewrite (proj2 (Z.eqb_neq _ _)) by (rewrite u32_id; lia). cbn.
  split; [done|]. rewrite s32_id; lia.
Qed.

(** The request, as a state from which the wait begins. *)
Lemma read_begins w w2 w4 r n m msg x a status mfa data reply rest count :
  ready_to_read w -> card_answers w m count a status mfa data reply rest ->
  both_taken w w2 r n m -> iolog w2 = iolog w ->
  posted w2 w4 r (PD file) (KPool n) RCH_KB_POOL i2o_handleReadMessageFile_fn msg x ->
  sent w2 msg = sent w (read_request w m count) ->
  awaits w4 r x (PD file) (msg_id reply) /\
  answers w4 a status mfa [(map_va m, data); (acq200_dev_i2o_mfa2va w mfa, message_bytes reply)] reply rest.
Proof.
  intros [Hi Hp _ Hq He (Hd7 & Hd8 & _) Hids] [Hs Hisr Hst Hoqp Hm Hok Hty Hid Hlen Hap] Ht El Hpo Hsent.
  pose proof (bt_unqueued _ _ _ _ _ Ht) as Hnq.
  pose proof (bt_same _ _ _ _ _ Ht) as Hb. injection Hb as Bq Br _ Bpar _ _ Bd Bi Bs Bsc Bsi.
  destruct Hpo as [_ Pq Px Po _ Ps _ Ph Pp Pi _ _ _ Pl].
  injection Ps as _ Ppar _ Pd Pst Psc Psi. split.
  - split; [|done]. constructor; try done.
    + rewrite Pq. set_solver.
    + by rewrite Pi, Hid, Bi.
    + intros r' x' Hr' Hx' Hc. destruct (decide (r' = r)) as [|Hne]; [done|]. exfalso.
      rewrite Pq, Bq in Hr'. rewrite Po, Br in Hx' by done.
      apply (Hids r' x'); [set_solver|done|congruence].
  - constructor; try done; try congruence.
    + unfold pending_mfas in *. congruence.
    + split; congruence.
    + by rewrite Pl, El, Hsent, <- app_assoc.
    + by rewrite Pl, El, Hsent, <- app_assoc.
    + cbn [fold_left dma_write fst snd].
      assert (acq200_dev_i2o_mfa2va w4 mfa = acq200_dev_i2o_mfa2va w mfa) as ->.
      { unfold acq200_dev_i2o_mfa2va, frame_va. by rewrite Pd, Bd. }
      by apply message_roundtrip.
Qed.

(** The data the user gets is the data the card stored. *)
Lemma delivered_data mem0 m data reply frame k :
  frame + 40 <= map_va m \/ map_va m + Z.of_nat (length data) <= frame -> (k <= length data)%nat ->
  mem_read (fold_left dma_write [(map_va m, data); (frame, message_bytes reply)] mem0) (map_va m) k =
    take k data.
Proof.
  intros Hap Hk. unfold dma_write. cbn [fold_left fst snd].
  rewrite mem_read_write_other by (rewrite length_message_bytes; lia). by apply mem_read_write_take.
Qed.

(** The request is posted with the mapping that is next. *)
Lemma read_posted w count n m j f : ready_to_read w -> next_free (mappings (dev w)) j f -> item f = KPool n ->
  maps w !! n = Some m ->
  exists r w2 w4 x, acq200_bridge_read file ubuf count pos w = read_reply file ubuf pos r w4 /\
    both_taken w w2 r n m /\ iolog w2 = iolog w /\
    posted w2 w4 r (PD file) (KPool n) RCH_KB_POOL i2o_handleReadMessageFile_fn
      (hrd_message 0 file (MK_DMABUF_OFFSET m (dma_buf (dev w2))) (u32 pos `div` 2)
         (u32 (umin count (u32 (map_len m))) `div` 2) 1 LDH_INBOUND HRD_CHAN_IS_FILE) x.
Proof.
  intros [Hi [pp Hp] Hfh _ _ _ _] Hnf Hf Hm.
  assert (has_free (mappings (dev w))) as Hfm by (destruct Hnf as (? & ? & _); by exists j, f).
  unfold acq200_bridge_read, acq200_bridge_read_generic.
  erewrite bind_done by (by apply path_ref_eq).
  destruct (take_both DMA_FROM_DEVICE w Hi Hfh Hfm)
    as (r & n' & m' & w1 & w2 & Ha & Ham & Ht & El & j' & f' & Hnf' & Hf').
  assert (n' = n) as ->.
  { pose proof (next_free_unique _ _ _ _ _ (di_maps _ Hi) Hnf Hnf'). congruence. }
  assert (m' = m) as -> by (pose proof (bt_map _ _ _ _ _ Ht); congruence).
  erewrite bind_done by exact Ha. cbv beta iota zeta. rewrite bool_decide_eq_true_2 by done.
  erewrite bind_done by exact Ham. cbv beta iota zeta.
  pose proof (bt_same _ _ _ _ _ Ht) as Hs. injection Hs as Eq2 _ Em2 Epar2 Eu2 Ep2 Ed2 Ei2 _ _ _.
  pose proof (bt_len _ _ _ _ _ Ht) as Hlen.
  erewrite bind_done.
  2:{ cbn [kbuf_ref]. erewrite bind_done by reflexivity. by rewrite Em2, Hm. }
  erewrite bind_done by reflexivity. cbv beta. rewrite (proj2 (Z.eqb_neq (map_len m) 0)) by lia.
  unfold build_incoming_raw_message.
  match goal with |- context [build_hrd_message _ ?pa ?start ?l _ _ _] =>
    destruct (request_sent (read_reply file ubuf pos r) file pa start l LDH_INBOUND HRD_CHAN_IS_FILE
      i2o_handleReadMessageFile_fn w2 r n (acquired_in_hand _ _ _ _ (bt_acquired _ _ _ _ _ Ht))) as (w4 & x & -> & Hpo) end.
  { rewrite Ep2. by exists pp. }
  by exists r, w2, w4, x.
Qed.

(** C5: a read that the card answers comes back.  It posts its request, and when the card stores the data
    in the mapping that was named, and a reply with the identifier of the request in a frame, and
    interrupts, then the interrupt handler and the bottom half wake the reader, the read returns the
    length of the data, the user has the data, as far as it can be copied, the handler and the
    mapping are free again, and the frame went back to the card: the bus history is that of the
    request, the interrupt and the returned frame, and nothing else. *)
Theorem read_completes w count n m j f a status mfa data reply rest :
  ready_to_read w -> next_free (mappings (dev w)) j f -> item f = KPool n -> maps w !! n = Some m ->
  card_answers w m count a status mfa data reply rest ->
  let len := Z.of_nat (length data) in
  0 <= copy_fault ubuf len ->
  exists r w', acq200_bridge_read file ubuf count pos w = Done (len, pos + len) w' /\
    dev_inv w' /\ umem w' = mem_write (umem w) ubuf (take (user_copied ubuf len) data) /\
    given_back w w' r (KPool n) /\ sched w' = rest /\
    iolog w' = iolog w ++ sent w (read_request w m count) ++ answer_log a status mfa.
Proof.
  intros Hrr Hnf Hf Hm Hca len Hcf. pose proof Hrr as [_ _ _ _ _ (_ & _ & Hstub) _].
  destruct (read_posted w count n m j f Hrr Hnf Hf Hm) as (r & w2 & w4 & x & -> & Ht & El & Hpo).
  pose proof (bt_same _ _ _ _ _ Ht) as Hs. injection Hs as Eq2 _ Em2 Epar2 Eu2 Ep2 Ed2 Ei2 _ _ _.
  destruct (read_begins w w2 w4 r n m _ x a status mfa data reply rest count Hrr Hca Ht El Hpo)
    as [Haw Han].
  { apply sent_same; [done..|]. unfold read_request. by rewrite Ed2. }
  pose proof Hpo as [Hi4 Eq4 Hx4 _ _ Es4 _ _ _ _ Hxv Hxk Hxpk Hl4].
  change (pool_kbuf x = Some (KPool n)) in Hxpk. injection Es4 as Em4 Epar4 Eu4 _ _ _ _.
  pose proof Hca as [_ _ _ _ _ Hok _ _ Hln Hap].
  destruct (reply_counts reply _ data x eq_refl) as [Hv1 Hnb]; [apply Hok|done|].
  destruct (wait_answered w4 r x (PD file) a status mfa _ reply rest Hi4 Haw Hxv Hv1 Han)
    as (w5 & Hw & He & Hr5 & Hs5 & Hsame & Hl5). injection Hsame as Hme5 Hu5 Hpar5 Hm5.
  assert (r ∈ queued w5) as Hq5 by (eapply (ev_reader _ _ He); apply Haw).
  rewrite (reply_taken file ubuf pos w4 0 w5 r (reply_set reply x) (KPool n) m Hw); try done.
  2:{ apply He. }
  2:{ unfold reply_set, rr_set. cbn. by case_match. }
  2:{ cbn [backs]. congruence. }
  rewrite Hnb, u32_id, s32_id by lia. fold len. set (w6 := copied_out ubuf m len w5).
  exists r, (recycled r (reply_set reply x) w6). split; [done|].
  assert (dev_inv w6) as Hi6 by (apply copied_out_inv, He).
  pose proof (recycled_rest r (reply_set reply x) w6) as Hrest.
  split; [by apply recycled_inv|]. split; [|split; [|split]].
  - rewrite (sr_umem _ _ Hrest). unfold w6, copied_out. cbn. rewrite Hpar5, Epar4, Epar2, Hstub. cbn [istrue negb Z.eqb].
    rewrite Hu5, Eu4, Eu2, Hme5. f_equal. apply delivered_data; [done|]. unfold user_copied, len in *. lia.
  - eapply given_back_since; [apply (bt_acquired _ _ _ _ _ Ht)|done|done|]. eapply recycled_gives_back; try done.
    + rewrite Eq4. set_solver.
    + rewrite (replied_kbuf x); [done|]. apply replied_rr_set.
  - by rewrite (sr_sched _ _ Hrest).
  - rewrite (sr_log _ _ Hrest). unfold w6, copied_out. cbn [iolog setf set_umem]. rewrite Hl5, Hl4, El, <- app_assoc.
    do 2 f_equal. apply sent_same; [done..|]. unfold read_request. by rewrite Ed2.
Qed.
End Read.
End Completes.
