(* ===== verification/Writes.v ===== *)
(** * Posting messages, writes, and closing a path

    What the card finds when a message was posted; that a write leaves its buffer to the reply; that
    closing a path leaves no handler behind that refers to it. *)

From S2P Require Import Prelude BusProt StreamBuf Pool Device Rch I2o Isr Kernel Outer Owner Frames.
From S2P Require Import Sleep Mask Mailbox Path Bridge Acquire Requests.

(** ** What is posted *)
(** A message with two records is sent whole. *)
Lemma sent_whole m : msg_length m = 2 * HRDR_SZ ->
  firstn (Z.to_nat (MESSAGE_ACTUAL_LEN m)) (message_bytes m) = message_bytes m.
Proof.
  intros Hl. unfold MESSAGE_ACTUAL_LEN. rewrite Hl.
  by apply firstn_all2; rewrite length_message_bytes.
Qed.

Section Posting.
Context `{Platform}.

(** C18: a message is posted to the card: it is in the frame, complete, before the frame's address is
    written to the inbound queue port; it carries the next sequence number, which is the identifier
    that [buildRch] put in the handler, so the reply finds that handler; and the sequence number is
    used up. *)
Theorem message_posted r h p kb fl m w y z :
  rchs w !! r = Some y -> paths w !! p = Some z -> message_ok m -> msg_length m = 2 * HRDR_SZ ->
  next_frame w <> PCI_I2O_INVALID_MFA ->
  exists w' x, (buildRch r h p kb fl >> acq200_sendI2O_kbuf p m) w = Done 0 w' /\
    rchs w' !! r = Some x /\
    let mfa := Z.land (next_frame w) MFA_MASK in
    iolog w' = iolog w ++ [IoRd (CSR ACQ200_IQP) (next_frame w);
      IoMem (frame_va w mfa) (message_bytes (with_id (command_id x) m)); IoWr (CSR ACQ200_IQP) mfa] /\
    message_at (mem w') (frame_va w mfa) = with_id (command_id x) m /\
    i2o_last_id_out (m_dpd (dev w')) = s16 (i2o_last_id_out (m_dpd (dev w)) + 1).
Proof.
  intros Hy Hz Hm Hlen Hf. unfold buildRch. rewrite bind_assoc.
  erewrite bind_done by (by apply path_ref_eq). cbv beta. rewrite bind_assoc.
  erewrite bind_done by reflexivity. cbv beta.
  match goal with |- context [rch_upd r ?g] => set (f := g) end.
  erewrite bind_done by (by apply (rch_upd_eq r y)). set (w1 := setf rchs (alter f r) w).
  assert (rchs w1 !! r = Some (f y)) as Hx by (cbn; by rewrite list_lookup_alter_eq, Hy).
  unfold acq200_sendI2O_kbuf. erewrite bind_done by (by apply path_ref_eq).
  erewrite bind_done by reflexivity. change (u32 (card_reply (iolog w1) (CSR ACQ200_IQP))) with (next_frame w).
  rewrite (proj2 (Z.eqb_neq _ _) Hf). cbv zeta. set (mfa := Z.land (next_frame w) MFA_MASK).
  erewrite bind_done by reflexivity. erewrite bind_done by reflexivity. cbn beta.
  set (id := u16 (MAKE_ID_DTACQ _)). assert (id = command_id (f y)) as Hid.
  { subst id. cbn. apply make_id_s16. }
  erewrite bind_done by (by apply (path_upd_eq p z)).
  eexists _, (f y). split; [reflexivity|]. split; [exact Hx|].
  assert (0 <= mfa < 2 ^ 32) as Hmfa.
  { subst mfa. pose proof (land_mask_range (next_frame w) 24 ltac:(lia)). change MFA_MASK with (2 ^ 24 - 1). lia. }
  assert (firstn (Z.to_nat (MESSAGE_ACTUAL_LEN (with_id id m))) (message_bytes (with_id id m)) =
          message_bytes (with_id id m)) as Hsent by (by apply sent_whole).
  split; [|split].
  - cbn -[MESSAGE_ACTUAL_LEN message_bytes]. rewrite u32_id, <- !app_assoc by done.
    fold (with_id id m). by rewrite Hsent, Hid.
  - change (message_at (mem_write (mem w) (frame_va w mfa) (firstn (Z.to_nat (MESSAGE_ACTUAL_LEN (with_id id m)))
      (message_bytes (with_id id m)))) (frame_va w mfa) = with_id (command_id (f y)) m).
    rewrite <- Hid, Hsent. apply message_at_bytes.
    + destruct Hm. constructor; cbn; try done. subst id. apply u16_range.
    + rewrite <- (length_message_bytes (with_id id m)). apply mem_read_write.
  - done.
Qed.

(** When the card has no frame left, the result of the send is not looked at: the handler stays
    queued, and the next request gets the same identifier, so its reply goes to the stale handler.
    Here two requests are posted in a row, the first without success. *)
Theorem failed_send_steals_reply r1 r2 h1 h2 p k1 k2 f1 f2 m w y1 y2 z :
  r1 <> r2 -> rchs w !! r1 = Some y1 -> rchs w !! r2 = Some y2 -> paths w !! p = Some z ->
  rlink y1 <> LinkIn -> queued w = [] -> next_frame w = PCI_I2O_INVALID_MFA ->
  exists w', (buildRch r1 h1 p k1 f1 >> rchAppend r1 >> let* _ := acq200_sendI2O_kbuf p m in
              buildRch r2 h2 p k2 f2) w = Done tt w' /\
    exists x1 x2, rchs w' !! r1 = Some x1 /\ rchs w' !! r2 = Some x2 /\
      command_id x1 = command_id x2 /\
      find_rch (command_id x2) (queued w') w' = Done (Some r1) w'.
Proof.
  intros Hne Hy1 Hy2 Hz Hl Hq Hf. unfold buildRch at 1. rewrite bind_assoc.
  erewrite bind_done by (by apply path_ref_eq). cbv beta. rewrite bind_assoc.
  erewrite bind_done by reflexivity. cbv beta.
  match goal with |- context [rch_upd r1 ?g] => set (g1 := g) end.
  erewrite bind_done by (by apply (rch_upd_eq r1 y1)). set (w1 := setf rchs (alter g1 r1) w).
  assert (rchs w1 !! r1 = Some (g1 y1)) as Hx by (cbn; by rewrite list_lookup_alter_eq, Hy1).
  erewrite bind_done by (by apply (list_add_tail_eq r1 (g1 y1))). set (w2 := linked r1 _ LinkIn w1).
  unfold acq200_sendI2O_kbuf. rewrite bind_assoc. erewrite bind_done by (by apply path_ref_eq). cbv beta.
  rewrite bind_assoc. erewrite bind_done by reflexivity. cbv beta.
  change (u32 (card_reply (iolog w2) (CSR ACQ200_IQP))) with (next_frame w). rewrite Hf.
  cbn [Z.eqb]. change (PCI_I2O_INVALID_MFA =? PCI_I2O_INVALID_MFA) with true. cbv iota.
  erewrite bind_done by reflexivity. set (w3 := w2 <| iolog := _ |>).
  unfold buildRch. erewrite bind_done by (by apply path_ref_eq). erewrite bind_done by reflexivity.
  match goal with |- context [rch_upd r2 ?g] => set (g2 := g) end.
  assert (rchs w3 !! r2 = Some y2) as Hy2'.
  { cbn. rewrite !list_lookup_alter_ne by done. done. }
  assert (rchs w3 !! r1 = Some (g1 y1 <| rlink := LinkIn |>)) as Hx3.
  { cbn. by rewrite !list_lookup_alter_eq, Hy1. }
  eexists. split; [by apply (rch_upd_eq r2 y2)|]. set (w4 := setf rchs (alter g2 r2) w3).
  assert (rchs w4 !! r1 = Some (g1 y1 <| rlink := LinkIn |>)) as Hx4.
  { change (rchs w4) with (alter g2 r2 (rchs w3)). by rewrite list_lookup_alter_ne. }
  exists (g1 y1 <| rlink := LinkIn |>), (g2 y2). split; [done|]. split; [|split; [done|]].
  - change (rchs w4) with (alter g2 r2 (rchs w3)). by rewrite list_lookup_alter_eq, Hy2'.
  - change (queued w4) with (queued w ++ [r1]). rewrite Hq. cbn [app find_rch].
    erewrite bind_done by (by apply rch_ref_eq). cbv beta.
    change (command_id (g1 y1 <| rlink := LinkIn |>)) with (command_id (g2 y2)). by rewrite Z.eqb_refl.
Qed.
End Posting.

(** ** Writes *)
Section Write.
Context `{Platform}.
Context (file : File) (ubuf pos : Z).

(** The request of a write of [n] bytes from mapping [m], and what the card sees of the write: the
    user's bytes are stored in the mapping, and then the request is sent. *)
Definition write_request (w : World) (m : IoMapping) (n : Z) : Message :=
  hrd_message 0 file (MK_DMABUF_OFFSET m (dma_buf (dev w))) (u32 pos / 2) (n / 2) 1 LDH_OUTBOUND
    HRD_CHAN_IS_FILE.
Definition write_seen (w : World) (m : IoMapping) (n : Z) : list Io :=
  let data := IoMem (map_va m) (mem_read (umem w) ubuf (user_copied ubuf n)) in
  data :: sent (w <| iolog := iolog w ++ [data] |>) (write_request w m n).

(** What a write does once it has handler [r] and mapping [k]. *)
Definition write_with (r : nat) (k : Kbuf) (count : Z) : MW (Z * Z) :=
  let* m := kbuf_ref k in
  let* w := get_world in
  let pam := MK_DMABUF_OFFSET m (dma_buf (dev w)) in
  let count := umin count (u32 (map_len m)) in
  if count =? 0 then ret (- ENOMEM, pos)
  else
    let* _ := acq200_copy_from_user_to_io file (map_va m) ubuf count in
    let* message := build_outgoing_raw_message file pam pos count HRD_CHAN_IS_FILE in
    buildRch r i2o_recycleRchWrapper_fn (PD file) k RCH_KB_POOL >>
    rchAppend r >>
    let* _ := acq200_sendI2O_kbuf (PD file) message in
    ret (s32 count, pos + count).

(** The user's data is in the mapping. *)
Definition write_copied (w : World) (m : IoMapping) (n : Z) : World :=
  let data := mem_read (umem w) ubuf (user_copied ubuf n) in
  w <| mem := mem_write (mem w) (map_va m) data |> <| iolog := iolog w ++ [IoMem (map_va m) data] |>.

(** It changes nothing if there is nothing to write.  Otherwise the card sees the data, the handler is
    queued, to be recycled with the mapping when the reply comes, and the write reports success: the card
    sees the request as well if it offers a frame; if it offers none nothing is posted. *)
Inductive write_done (count : Z) (w2 : World) (r j : nat) : Z * Z -> World -> Prop :=
| write_nothing : count = 0 -> write_done count w2 r j (- ENOMEM, pos) w2
| write_queued m n msg x w' :
    count <> 0 -> maps w2 !! j = Some m -> n = umin count (map_len m) -> (idle w2 -> served (PD file) w2 w') ->
    posted (write_copied w2 m n) w' r (PD file) (KPool j) RCH_KB_POOL i2o_recycleRchWrapper_fn msg x ->
    next_frame (write_copied w2 m n) <> PCI_I2O_INVALID_MFA -> iolog w' = iolog w2 ++ write_seen w2 m n ->
    write_done count w2 r j (n, pos + n) w'
| write_unsent m n msg x w' :
    count <> 0 -> maps w2 !! j = Some m -> n = umin count (map_len m) -> (idle w2 -> served (PD file) w2 w') ->
    posted (write_copied w2 m n) w' r (PD file) (KPool j) RCH_KB_POOL i2o_recycleRchWrapper_fn msg x ->
    next_frame (write_copied w2 m n) = PCI_I2O_INVALID_MFA ->
    iolog w' = iolog w2 ++ [IoMem (map_va m) (mem_read (umem w2) ubuf (user_copied ubuf n));
                            IoRd (CSR ACQ200_IQP) PCI_I2O_INVALID_MFA] ->
    write_done count w2 r j (n, pos + n) w'.

(** Sent or not, the request is queued, and the card saw what it was shown. *)
Lemma write_done_queued count w2 r j res w' : count <> 0 -> write_done count w2 r j res w' ->
  exists m n msg x, res = (n, pos + n) /\ maps w2 !! j = Some m /\ n = umin count (map_len m) /\
    posted (write_copied w2 m n) w' r (PD file) (KPool j) RCH_KB_POOL i2o_recycleRchWrapper_fn msg x /\
    iolog w' = iolog w2 ++ write_seen w2 m n.
Proof.
  intros Hc [|m n msg x w1 _ Hm Hn _ Hpo _ Hl|m n msg x w1 _ Hm Hn _ Hpo Hf Hl]; [done|by exists m, n, msg, x|].
  exists m, n, msg, x. do 4 (split; [done|]). rewrite Hl. unfold write_seen, sent.
  change (next_frame (w2 <| iolog := _ |>)) with (next_frame (write_copied w2 m n)). by rewrite Hf, Z.eqb_refl.
Qed.

Lemma write_with_spec count w2 r j : 0 <= count < 2 ^ 32 -> in_hand w2 r (Some j) ->
  is_Some (paths w2 !! PD file) ->
  total (write_with r (KPool j) count) (write_done count w2 r j) w2.
Proof.
  intros Hcount Ha Hp2. destruct (ih_map _ _ _ Ha j eq_refl) as (_ & _ & m & Hm & Hlen).
  unfold total, write_with. erewrite bind_done by (by apply (kbuf_ref_backs _ (KPool j) m)).
  erewrite bind_done by reflexivity. cbv beta zeta. rewrite (u32_id (map_len m)) by lia.
  assert (0 <= umin count (map_len m) < 2 ^ 31) as Hn.
  { unfold umin. destruct (Z.ltb_spec count (map_len m)); lia. }
  destruct (Z.eqb_spec (umin count (map_len m)) 0) as [Hc0|Hc0].
  { apply write_nothing. unfold umin in Hc0. destruct (Z.ltb_spec count (map_len m)); lia. }
  assert (count <> 0) as Hcn by (intros ->; apply Hc0; unfold umin; destruct (Z.ltb_spec 0 (map_len m)); lia).
  unfold acq200_copy_from_user_to_io, copy_from_user. erewrite bind_done by reflexivity. cbv beta zeta.
  fold (write_copied w2 m (umin count (map_len m))). set (w3 := write_copied w2 m (umin count (map_len m))).
  assert (in_hand w3 r (Some j)) as Ha3.
  { eapply in_hand_evolves; [done|]. apply evolves_same; [apply Ha|by constructor]. }
  unfold build_outgoing_raw_message.
  match goal with |- context [build_hrd_message _ ?pa ?start ?len _ _ _] =>
    destruct (request_sent (ret (s32 (umin count (map_len m)), pos + umin count (map_len m))) file
      pa start len LDH_OUTBOUND HRD_CHAN_IS_FILE i2o_recycleRchWrapper_fn w3 r j Ha3)
      as (w4 & x & -> & Hpo) end; [done|].
  assert (idle w2 -> served (PD file) w2 w4) as Hsv.
  { intros Hd. eapply served_trans; [|by apply (posted_served w3 w4 _ _ _ _ _ _ _ (ih_inv _ _ _ Ha3) Hd (ih_unqueued _ _ _ Ha3) Hpo)].
    apply evolves_served; [apply Ha|done|]. apply evolves_same; [apply Ha|by constructor]. }
  pose proof (po_log _ _ _ _ _ _ _ _ _ Hpo) as Hl4. cbn [ret].
  rewrite s32_id by lia. destruct (decide (next_frame w3 = PCI_I2O_INVALID_MFA)) as [Hf|Hf].
  { eapply (write_unsent count w2 r j m (umin count (map_len m))); [done..|exact Hpo|done|].
    rewrite Hl4. unfold sent. rewrite Hf, Z.eqb_refl. subst w3. unfold write_copied.
    cbn. by rewrite <- app_assoc. }
  eapply (write_queued count w2 r j m (umin count (map_len m))); [done..|exact Hpo|done|].
  rewrite Hl4. change (iolog w3) with (iolog w2 ++ [hd (IoAct 0) (write_seen w2 m (umin count (map_len m)))]).
  rewrite <- app_assoc. f_equal. unfold write_seen. cbn [hd app]. f_equal.
  apply sent_same; [done|done|done|]. intros id. unfold write_request.
  by rewrite (u32_id (umin count (map_len m))) by lia.
Qed.

(** How a write ends: it timed out waiting for a handler, or for a mapping, and then the handler it took
    is recycled as its last use left it; or it did what it does with a handler and a mapping. *)
Inductive write_post (count : Z) (w : World) : Z * Z -> World -> Prop :=
| write_no_handler w' :
    ~ has_free (handlers (dev w)) -> evolves w w' -> write_post count w (- ETIMEDOUT, pos) w'
| write_no_mapping r x w1 :
    ~ has_free (mappings (dev w)) -> acquired w w1 r None -> rchs w1 !! r = Some x -> is_Some (rdevice x) ->
    write_post count w (- ETIMEDOUT, pos) (recycled r x w1)
| write_took r j w2 res w' :
    acquired w w2 r (Some j) -> write_done count w2 r j res w' -> write_post count w res w'.

(** Its one fault: no mapping could be had, and the handler that is recycled was never built. *)
Inductive write_fault (w : World) : Fault -> World -> Prop :=
| write_never_built r x w' :
    ~ has_free (mappings (dev w)) -> acquired w w' r None -> rchs w' !! r = Some x -> rdevice x = None ->
    write_fault w NullDeref w'.

Lemma write_spec w count :
  0 <= count < 2 ^ 32 -> dev_inv w -> idle w -> is_Some (paths w !! PD file) ->
  outcome (acq200_bridge_write file ubuf count pos) (write_post count w) (write_fault w) w.
Proof.
  intros Hcount Hi Hd Hp. unfold acq200_bridge_write, acq200_bridge_write_generic.
  pose proof Hp as [pp Hpp]. unfold outcome. erewrite bind_done by (by apply path_ref_eq).
  apply (outcome_bind _ _ _ _ _ _ (alloc_rch_spec w Hi)). intros [r|] w1; cbn [rch_alloc_post].
  2:{ intros (He & Hf & _). by apply write_no_handler. }
  intros Ha. apply (outcome_bind _ _ _ _ _ _ (alloc_map_spec _ _ _ _ Ha)). intros [k|] w2; cbn [map_alloc_post].
  - intros (j & -> & Ha2). fold (write_with r (KPool j) count).
    pose proof (same_path_is_Some _ _ (aq_paths _ _ _ _ Ha2 (PD file)) Hp) as Hp2.
    pose proof (write_with_spec count w2 r j Hcount (acquired_in_hand _ _ _ _ Ha2) Hp2) as Ht. unfold total in Ht. unfold outcome.
    destruct (write_with r (KPool j) count w2) as [res w'| | |]; try done. by apply (write_took count w r j w2).
  - intros (Ha2 & Hf). destruct (aq_rch _ _ _ _ Ha2) as [x Hx].
    assert (rpath x = None) as Hpn by (apply (aq_idle _ _ _ _ Ha2 Hd r x Hx), Ha2).
    unfold outcome, bind. rewrite (recycle_idle r x) by done.
    destruct (rdevice x) as [d|] eqn:Hdev.
    + by apply (write_no_mapping count w r x w2); [..|rewrite Hdev].
    + by apply (write_never_built w r x).
Qed.

(** A write that finds a free handler and a free mapping: nothing happens in between. *)
Definition write_at_once (count : Z) (w : World) (res : Z * Z) (w' : World) : Prop :=
  exists r j m w2, both_taken w w2 r j m /\ iolog w2 = iolog w /\ write_done count w2 r j res w'.

Lemma write_at_once_spec w count :
  0 <= count < 2 ^ 32 -> dev_inv w -> is_Some (paths w !! PD file) ->
  has_free (handlers (dev w)) -> has_free (mappings (dev w)) ->
  total (acq200_bridge_write file ubuf count pos) (write_at_once count w) w.
Proof.
  intros Hcount Hi Hp Hfh Hfm. unfold acq200_bridge_write, acq200_bridge_write_generic, total.
  pose proof Hp as [pp Hpp]. erewrite bind_done by (by apply path_ref_eq).
  destruct (take_both DMA_TO_DEVICE w Hi Hfh Hfm) as (r & n & m & w1 & w2 & Ha & Ham & Ht & El2 & _).
  erewrite bind_done by exact Ha. cbv beta iota zeta. erewrite bind_done by exact Ham.
  cbv beta iota zeta. fold (write_with r (KPool n) count).
  fold (total (write_with r (KPool n) count) (write_at_once count w) w2).
  pose proof (bt_acquired _ _ _ _ _ Ht) as Ha2.
  pose proof (same_path_is_Some _ _ (aq_paths _ _ _ _ Ha2 (PD file)) Hp) as Hp2.
  eapply total_mono; [by apply (write_with_spec count w2 r n); [|eapply acquired_in_hand|]|].
  intros res w' Hd. by exists r, n, m, w2.
Qed.

(** C12: a write through the bridge, whether the pools have a handler and a mapping left or not.  Once it
    has both, the card sees the user's first [n] bytes in the mapping, no more than it holds, and then, if it
    offers a frame, the request for them at the file's position; it returns [n] and moves the position on
    by [n]; both stay reserved, queued for the reply that will recycle them.  If the card offers no frame
    no request is posted, but the write returns [n] all the same, and both are queued for a reply to a
    request that was never made: the result of the send is not looked at.  A write of no bytes, however, returns
    [-ENOMEM] with both taken and neither queued: nothing will ever give them back.  It returns
    [-ETIMEDOUT] only if a pool had nothing free; and its only fault is that of a handler which was
    never built and is recycled because no mapping could be had.  While both pools have something
    free it returns at once, and never faults. *)
Theorem bridge_write_outcome w count :
  0 <= count < 2 ^ 32 -> dev_inv w -> idle w -> is_Some (paths w !! PD file) ->
  outcome (acq200_bridge_write file ubuf count pos) (write_post count w) (write_fault w) w /\
  (has_free (handlers (dev w)) -> has_free (mappings (dev w)) ->
   total (acq200_bridge_write file ubuf count pos) (write_at_once count w) w).
Proof. intros. split; [by apply write_spec|]. intros. by apply write_at_once_spec. Qed.

(** What goes wrong when no mapping could be had: the handler that was taken is recycled as its last use
    left it, and the mapping of that use is freed, although by now it is held by the request of another
    handler; the next process that takes it shares it with that request. *)
Theorem timeout_frees_foreign_mapping w w1 w2 count r x k r' :
  is_Some (paths w !! PD file) -> acq200_pool_alloc_rch w = Done (Some r) w1 ->
  acq200_pool_alloc_mapping DMA_TO_DEVICE w1 = Done None w2 ->
  dev_inv w2 -> r ∉ queued w2 -> rchs w2 !! r = Some x -> rpath x = None -> is_Some (rdevice x) ->
  pool_kbuf x = Some k -> holds w2 r' k ->
  exists w', acq200_bridge_write file ubuf count pos w = Done (- ETIMEDOUT, pos) w' /\
    holds w' r' k /\ is_reserved (mappings (dev w')) k = false /\ ~ dev_inv w'.
Proof.
  intros [pp Hp] Ea Em Hi Hr Hx Hpx [d Hd] Hk Hh. set (w' := recycled r x w2).
  assert (acq200_bridge_write file ubuf count pos w = Done (- ETIMEDOUT, pos) w') as E.
  { unfold acq200_bridge_write, acq200_bridge_write_generic. erewrite bind_done by by apply path_ref_eq.
    erewrite bind_done by exact Ea. cbv beta iota. erewrite bind_done by exact Em. cbv beta iota.
    by erewrite bind_done by (rewrite (recycle_idle r x) by done; by rewrite Hd). }
  assert (w' = rch_freed r (map_freed k w2)) as Ew by (unfold w', recycled; by rewrite Hpx, Hk).
  destruct (rch_freed_facts r (map_freed k w2)) as (_ & Fm & Fq & Fr & _).
  destruct (map_freed_facts k w2) as (Gm & _ & Gq & Gr & _).
  assert (holds w' r' k) as Hh' by (rewrite Ew; unfold holds; by rewrite Fq, Fr, Gq, Gr).
  assert (is_reserved (mappings (dev w')) k = false) as Hres.
  { rewrite Ew, Fm, Gm, is_reserved_freed by apply Hi. by rewrite decide_True. }
  exists w'. split_and!; [done..|]. intros Hi'. destruct Hh' as [Hq' (y & Hy & Hyk)].
  destruct (di_queued _ Hi' r' Hq') as (z & Hz & [_ _ _ _ Hzk]). assert (z = y) as -> by congruence.
  rewrite (Hzk k Hyk) in Hres. done.
Qed.
End Write.

(** ** Closing a path *)
Section Cleanup.
Context (path : nat).

Definition for_path (w : World) (r : nat) : Prop := exists x, rchs w !! r = Some x /\ rpath x = Some path.

Lemma find_path_spec l w :
  (forall r, r ∈ l -> is_Some (rchs w !! r)) ->
  exists o, find_path path l w = Done o w /\
    match o with
    | Some r => r ∈ l /\ for_path w r
    | None => forall r, r ∈ l -> ~ for_path w r
    end.
Proof.
  induction l as [|r l IH]; intros Hl; simpl.
  - exists None. split; [done|]. intros r Hr. by apply elem_of_nil in Hr.
  - destruct (Hl r ltac:(apply list_elem_of_here)) as [x Hx].
    erewrite bind_done by (by apply rch_ref_eq).
    case_decide as Hd.
    + exists (Some r). split; [done|]. split; [apply list_elem_of_here|]. by exists x.
    + destruct IH as (o & Ho & Hpost). { intros r' Hr'. apply Hl. by right. }
      exists o. split; [done|]. destruct o as [r'|].
      * destruct Hpost. split; [by right|done].
      * intros r' [->|Hr']%elem_of_cons; [intros (x' & ? & ?); congruence|by apply Hpost].
Qed.

(** What is queued for other paths stays as it was, what is queued for this one is freed. *)
Definition cleaned (w w' : World) : Prop :=
  dev_inv w' /\ paths w' = paths w /\
  (forall r, r ∈ queued w' <-> r ∈ queued w /\ ~ for_path w r) /\
  (forall r, r ∈ queued w' -> rchs w' !! r = rchs w !! r) /\
  (forall r, r ∈ queued w -> for_path w r -> is_reserved (handlers (dev w')) r = false /\
     forall k, holds w r k -> is_reserved (mappings (dev w')) k = false).

Lemma cleaned_step w r x w' : dev_inv w -> r ∈ queued w -> rchs w !! r = Some x ->
  rpath x = Some path -> cleaned (recycled r x w) w' ->
  (forall r', r' ∉ queued (recycled r x w) ->
     is_reserved (handlers (dev w')) r' = is_reserved (handlers (dev (recycled r x w))) r') ->
  (forall k, (forall r', ~ holds (recycled r x w) r' k) ->
     is_reserved (mappings (dev w')) k = is_reserved (mappings (dev (recycled r x w))) k) ->
  cleaned w w'.
Proof.
  intros Hi Hr Hx Hp (Hi' & Hpa & Hq & Hs & Hf) Hh Hm.
  pose proof (recycled_queued w r x Hi Hr Hx) as Hrq.
  assert (forall r', r' <> r -> (for_path (recycled r x w) r' <-> for_path w r')) as Hfp.
  { intros r' Hne. unfold for_path. by rewrite (recycled_rchs w r x Hi Hr Hx r' Hne). }
  split; [done|]. split.
  { rewrite Hpa. destruct (recycled_facts r x w) as (_ & _ & _ & _ & ->); [by exists path|done]. }
  split; [|split].
  - intros r'. rewrite Hq, Hrq. destruct (decide (r' = r)) as [->|Hne].
    + split; [naive_solver|]. intros [_ Hn]. exfalso. apply Hn. by exists x.
    + rewrite Hfp by done. naive_solver.
  - intros r' Hr'. rewrite Hs by done. apply recycled_rchs; try done.
    intros ->. apply Hq in Hr' as [Hr' _]. apply Hrq in Hr'. naive_solver.
  - intros r' Hr' Hpath. destruct (decide (r' = r)) as [->|Hne].
    + split.
      * rewrite Hh; [by rewrite recycled_handlers, decide_True|]. rewrite Hrq. naive_solver.
      * intros k [_ (x' & Hx' & Hk)]. assert (x' = x) as -> by congruence. rewrite Hm.
        -- by rewrite recycled_maps, decide_True.
        -- intros r' Hh'. destruct (recycled_holds w r x Hi Hr Hx r' k Hh') as [Hhw Hne].
           apply Hne. eapply (di_holder _ Hi); [done|]. split; eauto.
    + destruct (Hf r') as [Hf1 Hf2]; [by apply Hrq|by apply Hfp|]. split; [done|].
      intros k [_ (x' & Hx' & Hk)]. apply Hf2. split; [by apply Hrq|]. exists x'.
      by rewrite recycled_rchs.
Qed.

(** The loop touches nothing that is not queued. *)
Definition frames_others (w w' : World) : Prop :=
  (forall r, r ∉ queued w -> is_reserved (handlers (dev w')) r = is_reserved (handlers (dev w)) r) /\
  (forall k, (forall r, ~ holds w r k) ->
     is_reserved (mappings (dev w')) k = is_reserved (mappings (dev w)) k) /\
  (idle w -> idle w').

Lemma cleanup_loop_spec fuel w : dev_inv w -> (length (queued w) < fuel)%nat ->
  total (cleanup_loop fuel path) (fun _ w' => cleaned w w' /\ frames_others w w') w.
Proof.
  revert w. induction fuel as [|fuel IH]; intros w Hi Hf; [lia|].
  cbn [cleanup_loop]. unfold total. erewrite bind_done by reflexivity. cbv beta.
  destruct (find_path_spec (queued w) w) as (o & Ho & Hpost).
  { intros r Hr. destruct (di_queued _ Hi r Hr) as (x & ? & _). by exists x. }
  erewrite bind_done by exact Ho. destruct o as [r|].
  2:{ split; [|done]. split; [done|]. split; [done|]. split; [naive_solver|]. split; [done|].
      intros r Hr Hfp. by destruct (Hpost r Hr). }
  destruct Hpost as [Hr (x & Hx & Hp)].
  erewrite bind_done by (by apply (recycle_queued w r x)). set (w1 := recycled r x w).
  pose proof (recycled_inv w r x Hi Hr Hx) as Hi1.
  pose proof (recycled_queued w r x Hi Hr Hx) as Hrq.
  assert (length (queued w1) < fuel)%nat as Hf1.
  { subst w1. destruct (recycled_facts r x w) as (-> & _); [by exists path|].
    pose proof (remove_one_length r (queued w) Hr). lia. }
  eapply total_mono; [by apply IH|]. intros [] w' [Hc (Hh & Hm & Hd)]. split.
  - by apply (cleaned_step w r x).
  - split; [|split; [|by intros ?; apply Hd, recycled_idle]].
    + intros r' Hr'. rewrite Hh by (subst w1; rewrite Hrq; naive_solver).
      subst w1. rewrite recycled_handlers by done. rewrite decide_False; [done|]. by intros ->.
    + intros k Hk. rewrite Hm.
      * subst w1. rewrite recycled_maps by done. rewrite decide_False; [done|]. intros E.
        apply (Hk r). split; eauto.
      * intros r' Hh'. apply (Hk r'). by apply (recycled_holds w r x Hi Hr Hx).
Qed.

(** Nothing is queued for the path. *)
Lemma cleanup_none w : (forall r, r ∈ queued w -> exists x, rchs w !! r = Some x /\ rpath x <> Some path) ->
  _cleanup_on_bridge_release path w = Done tt w.
Proof.
  intros Hn. unfold _cleanup_on_bridge_release. erewrite bind_done by reflexivity. cbn [cleanup_loop].
  erewrite bind_done by reflexivity.
  destruct (find_path_spec (queued w) w) as (o & Ho & Hpost).
  { intros r Hr. destruct (Hn r Hr) as (x & ? & _). by exists x. }
  erewrite bind_done by exact Ho. destruct o as [r|]; [|done]. exfalso.
  destruct Hpost as (Hr & y & Hy & Hp). destruct (Hn r Hr) as (x & Hx & Hnp). congruence.
Qed.

(** C13: closing a path recycles every handler that is still queued for it, with its mapping, and
    touches nothing that is queued for another path; the scan that starts again after each removal
    comes to an end; so no queued handler refers to the path when it is deleted, and the device
    invariant survives the deletion. *)
Theorem cleanup_on_release w : dev_inv w ->
  total (_cleanup_on_bridge_release path >> acq200_deletePath path) (fun _ w' =>
    dev_inv w' /\ paths w' = delete path (paths w) /\
    exists w1, cleaned w w1 /\ w' = setf paths (delete path) w1) w.
Proof.
  intros Hi. apply total_bind. unfold _cleanup_on_bridge_release, total at 1.
  erewrite bind_done by reflexivity. cbv beta.
  pose proof (cleanup_loop_spec (S (length (queued w))) w Hi ltac:(lia)) as Hl. unfold total in Hl.
  destruct (cleanup_loop _ path w) as [[] w1| | |]; try done. destruct Hl as [Hc _].
  pose proof Hc as (Hi1 & Hpa & Hq & Hs & _).
  change (dev_inv (setf paths (delete path) w1) /\ delete path (paths w1) = delete path (paths w) /\
    exists w1', cleaned w w1' /\ setf paths (delete path) w1 = setf paths (delete path) w1').
  split; [|split; [by rewrite Hpa|by exists w1]].
  destruct Hi1 as [? ? ? ? ? Hq1 ? ? ? ?]. constructor; try done.
  intros r Hr. destruct (Hq1 r Hr) as (x & Hx & [? ? (p & Hp & Hlive) ? ?]). exists x.
  split; [done|]. constructor; try done. exists p. split; [done|]. cbn.
  rewrite lookup_delete_ne; [done|]. intros <-. apply Hq in Hr as Hr'. destruct Hr' as [_ Hn].
  apply Hn. exists x. split; [|done]. by rewrite <- Hs.
Qed.
End Cleanup.
