(* ===== verification/Answered.v ===== *)
(** * A write from end to end

    A write returns as soon as its request is posted; the handler and the mapping it took stay with the
    request until the card has fetched the data and answers.  When it does, the interrupt handler and
    the bottom half give both back, and the frame of the answer returns to the card. *)

From S2P Require Import Prelude BusProt StreamBuf Pool Device Rch I2o Isr Kernel Outer Owner Frames.
From S2P Require Import Sleep Mask Mailbox Path Bridge Acquire Requests Completes Writes.

Section Answered.
Context `{Platform}.

(** The card's part, after a request with identifier [id] was posted: it stores a reply in a frame,
    posts the frame and interrupts. *)
Record card_takes (w : World) (id a status mfa : Z) (reply : Message) : Prop := {
  kt_isr : u32 (card_reply (iolog w ++ [IoAct a]) (CSR ACQ200_OISR)) = status;
  kt_status : Z.testbit status 3 = true;
  kt_oqp : u32 (card_reply (iolog w ++ [IoAct a; IoRd (CSR ACQ200_OISR) status]) (CSR ACQ200_OQP)) = mfa;
  kt_mfa : mfa <> 0 /\ mfa <> PCI_I2O_INVALID_MFA;
  kt_reply : message_ok reply;
  kt_type : MT_ID (msg_type reply) = MT_COMMAND_PACKET;
  kt_id : msg_id reply = id
}.

Definition answer_events (w : World) (a mfa : Z) (reply : Message) : MW unit :=
  run_event (EvCard a [(acq200_dev_i2o_mfa2va w mfa, message_bytes reply)]) >>
  run_event EvIrq >> run_event EvTasklet.

(** What is given back depends on the queue, the handlers and the pools only. *)
Definition pools_of (w : World) := (queued w, rchs w, handlers (dev w), mappings (dev w)).

Lemma given_back_same w w' v v' r k : pools_of v = pools_of w -> pools_of v' = pools_of w' ->
  given_back w w' r k -> given_back v v' r k.
Proof.
  unfold pools_of. intros E E' [Gq Gr Gm Gh Gk]. injection E as Eq Er Eh Em. injection E' as Eq' Er' Eh' Em'.
  constructor; rewrite ?Eq', ?Eh', ?Em', ?Eq, ?Eh, ?Em; try done.
  intros k' Hk'. apply Gk. intros r' Hh. apply (Hk' r'). unfold holds. by rewrite Eq, Er.
Qed.

Lemma scene_pools w w' : scene w' = scene w -> pools_of w' = pools_of w.
Proof. unfold scene, pools_of. intros E. injection E. congruence. Qed.

Lemma recycled_given_back w r x k : dev_inv w -> r ∈ queued w -> rchs w !! r = Some x ->
  pool_kbuf x = KPool <$> pool_index k -> given_back w (recycled r x w) r k.
Proof.
  intros Hi Hr Hx Hk. pose proof (recycled_gives_back w w r x x k (umem w) Hi Hr Hx Hk (evolves_refl w Hi) Hr Hx Hk) as Hg.
  replace (w <| umem := umem w |>) with w in Hg by by destruct w. done.
Qed.

(** The answer to a request that is recycled when the reply comes. *)
Lemma answered_recycles w r x p k id a status mfa reply :
  dev_inv w -> waits w r x p id -> rhandler x = i2o_recycleRchWrapper_fn -> pool_kbuf x = KPool <$> pool_index k ->
  pending_mfas w = [] -> acq200_debug (params w) <> 7 -> acq200_debug (params w) <> 8 ->
  card_takes w id a status mfa reply ->
  exists w', answer_events w a mfa reply w = Done tt w' /\ evolves w w' /\ given_back w w' r k /\
    iolog w' = iolog w ++ answer_log a status mfa.
Proof.
  intros Hi Hw Hh Hk Hp Hd7 Hd8 [Hisr Hst Hoqp [Hm0 Hm1] Hok Hty Hid].
  unfold answer_events. set (dma := [(acq200_dev_i2o_mfa2va w mfa, message_bytes reply)]).
  set (w1 := w <| iolog := iolog w ++ [IoAct a] |> <| mem := fold_left dma_write dma (mem w) |>).
  erewrite bind_done by reflexivity. cbv beta. fold w1.
  assert (evolves w w1) as He1 by (apply evolves_same; [done|by constructor]).
  destruct (isr_takes_frame w1 status mfa) as (w2 & E2 & He2 & Hsc2 & Hp2 & Ht2 & Hl2); try done.
  { apply He1. }
  { cbn. by rewrite <- app_assoc. }
  erewrite bind_done by (cbn [run_event]; by erewrite bind_done by exact E2). cbv beta.
  pose proof Hsc2 as Hs. unfold scene in Hs. injection Hs as Em2 _ _ _ _ _ Epar2 _ _ Ed2 _ _.
  destruct (tasklet_one w2 mfa reply) as (w3 & w4 & w5 & E5 & He5 & Hi3 & Hs3 & Epr & Hs5 & Hl5); try done.
  { apply He2. }
  { by rewrite Epar2. }
  { unfold acq200_dev_i2o_mfa2va, frame_va. rewrite Em2, Ed2. cbn [w1 mem setf set_mem dma fold_left].
    unfold dma_write. cbn [fst snd]. by apply message_roundtrip. }
  exists w5. split; [exact E5|].
  assert (scene w3 = scene w1) as Hs31 by congruence.
  assert (waits w3 r x p (msg_id reply)) as Hw3.
  { rewrite Hid. apply (waits_scene w1); [done|]. destruct Hw. by constructor. }
  rewrite (process_found w3 r x p) in Epr by (done || by rewrite Hh). rewrite Hh in Epr.
  cbn [call_handler] in Epr. unfold i2o_recycleRchWrapper in Epr.
  pose proof (ws_queued _ _ _ _ _ Hw3) as Hq3. pose proof (ws_rch _ _ _ _ _ Hw3) as Hx3.
  rewrite (recycle_queued w3 r x) in Epr by done. injection Epr as <-.
  split; [eapply evolves_trans; [done|exact He1|]; eapply evolves_trans; [apply He1|exact He2|done]|]. split.
  - apply (given_back_same w3 (recycled r x w3)); [|by apply scene_pools|by apply recycled_given_back].
    transitivity (pools_of w1); [done|]. symmetry. by apply scene_pools.
  - rewrite Hl5, Hl2. unfold answer_log, isr_log. cbn [w1 iolog setf set_mem set_iolog]. by rewrite <- !app_assoc.
Qed.

(** ** A write *)
Section Write.
Context (file : File) (ubuf pos : Z).

(** The writer: there is a handler and a mapping, nothing is pending, the identifier is not in use. *)
Record ready_to_write (w : World) : Prop := {
  rw_inv : dev_inv w;
  rw_path : is_Some (paths w !! PD file);
  rw_handler : has_free (handlers (dev w));
  rw_mapping : has_free (mappings (dev w));
  rw_empty : pending_mfas w = [];
  rw_params : acq200_debug (params w) <> 7 /\ acq200_debug (params w) <> 8;
  rw_id r x : r ∈ queued w -> rchs w !! r = Some x -> command_id x <> next_id w
}.

(** C8: a write that the card answers is forgotten.  The write returns at once with the number of bytes
    taken; the card then sees the data in the mapping and, if it offers a frame, the request for it, and handler and mapping
    are reserved.  When the card stores a reply with the identifier of the request in a frame, posts
    the frame and interrupts, then the interrupt handler and the bottom half give back exactly the
    handler and the mapping, and the frame: after it no trace of the write is left but for the bus
    history. *)
Theorem write_completes w count :
  ready_to_write w -> 0 < count < 2 ^ 32 ->
  exists r j m w1, let n := umin count (map_len m) in
    acq200_bridge_write file ubuf count pos w = Done (n, pos + n) w1 /\
    maps w !! j = Some m /\ 0 < n <= count /\
    is_reserved (handlers (dev w1)) r = true /\ is_reserved (mappings (dev w1)) (KPool j) = true /\
    iolog w1 = iolog w ++ write_seen file ubuf pos w m n /\
    forall a status mfa reply, card_takes w1 (next_id w) a status mfa reply ->
      exists w2, answer_events w1 a mfa reply w1 = Done tt w2 /\ dev_inv w2 /\
        given_back w w2 r (KPool j) /\ umem w2 = umem w /\
        iolog w2 = iolog w ++ write_seen file ubuf pos w m n ++ answer_log a status mfa.
Proof.
  intros [Hi Hp Hfh Hfm Hpe [Hd7 Hd8] Hids] Hc.
  pose proof (write_at_once_spec file ubuf pos w count ltac:(lia) Hi Hp Hfh Hfm) as Ht. unfold total in Ht.
  destruct (acq200_bridge_write file ubuf count pos w) as [res w1| | |]; try done.
  destruct Ht as (r & j & m & w2 & Hbt & El & Hd).
  destruct (write_done_queued file ubuf pos count w2 r j res w1 ltac:(lia) Hd) as (m' & n & msg & x & -> & Hm & Hn & Hpo & Hlog).
  pose proof (bt_same _ _ _ _ _ Hbt) as Hs. injection Hs as Eq2 Er2 Em2 Epar2 Eu2 _ Ed2 Ei2 Est2 _ _.
  assert (m' = m) as -> by (pose proof (bt_map _ _ _ _ _ Hbt); congruence).
  pose proof (bt_len _ _ _ _ _ Hbt) as Hlen. exists r, j, m, w1. cbv zeta. rewrite <- Hn.
  pose proof Hpo as [Hi1 Pq Px Po [Ph Pm] Ps _ Phd Pp Pid _ _ Ppk _]. injection Ps as _ Ppar Pu Pd Pst _ _.
  assert (iolog w1 = iolog w ++ write_seen file ubuf pos w m n) as Hl1.
  { rewrite Hlog, El. f_equal. unfold write_seen. rewrite Eu2, El. f_equal. apply sent_same; [done|done|done|].
    intros id. unfold write_request. by rewrite Ed2. }
  split; [done|]. split; [by apply Hbt|]. split; [subst n; unfold umin; destruct (Z.ltb_spec count (map_len m)); lia|].
  split; [by rewrite Ph; change (handlers _) with (handlers (dev w2)); rewrite (bt_handlers _ _ _ _ _ Hbt), decide_True|].
  split; [by rewrite Pm; change (mappings _) with (mappings (dev w2)); rewrite (bt_maps _ _ _ _ _ Hbt), decide_True|].
  split; [done|]. intros a status mfa reply Hca.
  assert (waits w1 r x (PD file) (next_id w)) as Hw.
  { constructor; try done.
    - rewrite Pq. set_solver.
    - rewrite Pid. unfold next_id. by rewrite <- Ei2.
    - intros r' x' Hr' Hx' Hid. destruct (decide (r' = r)) as [|Hne]; [done|]. exfalso.
      rewrite Po in Hx' by done. change (rchs w2 !! r' = Some x') in Hx'. rewrite Er2 in Hx'.
      rewrite Pq in Hr'. change (r' ∈ queued w2 ++ [r]) in Hr'. rewrite Eq2 in Hr'.
      apply (Hids r' x'); [set_solver|done..]. }
  destruct (answered_recycles w1 r x (PD file) (KPool j) (next_id w) a status mfa reply) as (w3 & E & He & Hg & Hl3); try done.
  { unfold pending_mfas in *. rewrite Pst. change (streambuf _) with (streambuf (dev w2)). by rewrite Est2. }
  { rewrite Ppar. change (params _) with (params w2). by rewrite Epar2. }
  { rewrite Ppar. change (params _) with (params w2). by rewrite Epar2. }
  exists w3. split; [exact E|]. split; [apply He|]. split; [|split].
  - pose proof (bt_acquired _ _ _ _ _ Hbt) as Ha.
    eapply (given_back_since w (write_copied ubuf w2 m n) w1); [|exact Hpo|exact Ppk|exact Hg].
    eapply acquired_evolves; [exact Ha|]. apply evolves_same; [apply Ha|by constructor].
  - destruct (ev_const _ _ He) as (-> & _). by rewrite Pu.
  - by rewrite Hl3, Hl1, <- app_assoc.
Qed.
End Write.
End Answered.
