(* ===== verification/Release.v ===== *)
(** * acq200_i2o.c: closing a node

    A close of a node that was read or written sends a last message, waits for the card's answer,
    recycles every handler that is still queued for the path, and deletes the path.  The bottom half
    recycles the handler of the last message when the answer comes, and the close recycles it again:
    it is shown here that no close faults nevertheless, and that nothing refers to the path
    afterwards. *)

From S2P Require Import Prelude BusProt StreamBuf Pool Device Rch I2o Isr Kernel Outer.
From S2P Require Import Owner Frames Sleep Mask Mailbox Waits Path Bridge Acquire Requests Writes.

(** ** A handler that is freed once more *)
(** A handler that was recycled has no path and no mapping: to recycle it again frees it again. *)
Lemma recycle_again r x w : rchs w !! r = Some x -> is_Some (rdevice x) -> rpath x = None -> pool_kbuf x = None ->
  i2o_recycleRch r w = Done tt (rch_freed r w).
Proof.
  intros Hx Hd Hp Hk. rewrite (recycle_eq r x); [|done|done|rewrite Hp; by intros []].
  unfold recycled. by rewrite Hp, Hk.
Qed.

(** ** Mailbox requests, whatever the settings *)
Section Release.
Context `{Platform}.

Lemma read_boxes_done n mask mbc w :
  exists m l, read_boxes n mask mbc w = Done m (w <| iolog := l |>).
Proof.
  revert mbc w. induction n as [|n IH]; intros mbc w; cbn [read_boxes].
  - exists mbc, (iolog w). by destruct w.
  - destruct (istrue _).
    + erewrite bind_done by reflexivity.
      match goal with |- context [read_boxes n mask ?m ?w1] => destruct (IH m w1) as (m' & l & E) end.
      exists m', l. exact E.
    + erewrite bind_done by reflexivity. apply IH.
Qed.

Lemma mbox_timeout_range mbc : 0 <= Z.land (mbc_flags mbc) MBC_FLAGS_TO <= 0xffff.
Proof. pose proof (land_mask_range (mbc_flags mbc) 16 ltac:(lia)). change MBC_FLAGS_TO with (2 ^ 16 - 1). lia. Qed.

Lemma wbr_mbox_safe mbc w0 w : dev_inv w0 -> evolves w0 w ->
  safe (acq200_ioctl_wbr_mbox mbc) (fun _ w' => evolves w0 w') w.
Proof.
  intros Hi He. unfold acq200_ioctl_wbr_mbox. cbv zeta. apply safe_bind.
  eapply safe_mono; [by apply (down_spec mbox_sem w0)|]. intros rc w1 [He1 _]. cbv beta.
  destruct (istrue rc); [by apply safe_ret|].
  unfold safe. erewrite bind_done by apply (proj1 (write_mbox_spec mbc w1)). erewrite bind_done by reflexivity.
  cbv beta. set (w2 := upd_mbox _ w1 <| iolog := _ |>).
  assert (evolves w0 w2) as He2 by own_same.
  apply (safe_bind (if istrue _ then _ else _)). eapply (safe_mono _ (fun _ w' => evolves w0 w')).
  - destruct (istrue _).
    + destruct (_ =? MBC_FLAGS_TO_FOREVER).
      * eapply safe_mono; [by apply (wait_event_spec mbox_wq RESPONSE_RECEIVED w0 Hi (mbox_queue_ok w0 Hi))|].
        by intros ? ? [].
      * apply safe_bind, total_safe. eapply total_mono;
          [by apply (wait_timeout_spec mbox_wq RESPONSE_RECEIVED w0 Hi (mbox_queue_ok w0 Hi))|].
        by intros ? ? [? _].
    + apply total_safe. eapply total_mono; [by apply (poll_response_spec _ w0), mbox_timeout_range|].
      by intros ? ? [? _].
  - intros rc1 w3 He3. cbv beta. unfold acq200_ioctl_read_mbox.
    destruct (read_boxes_done MBOX_NUM (MBC_FROM_MBXR mbc) mbc w3) as (m & l & E).
    unfold safe. erewrite bind_done by (erewrite bind_done by exact E; reflexivity).
    erewrite bind_done by reflexivity. cbn [ret snd]. own_same.
Qed.

(** ** Leaving a path *)
Context (p : nat).

(** Nothing is queued for the path any more, what belongs to the others is there, and of their requests only
    events took any. *)
Record leaving (w0 w : World) : Prop := {
  lv_inv : dev_inv w;
  lv_idle : idle w;
  lv_live : is_Some (paths w !! p);
  lv_aside : aside p w0 w;
  lv_spared : spared p w0 w;
  lv_unref r : r ∈ queued w -> ~ for_path p w r
}.

(** The path is gone. *)
Record closed (w0 w : World) : Prop := {
  cl_inv : dev_inv w;
  cl_idle : idle w;
  cl_gone : paths w !! p = None;
  cl_aside : aside p w0 w;
  cl_spared : spared p w0 w;
  cl_unref r x : r ∈ queued w -> rchs w !! r = Some x -> rpath x <> Some p
}.

Lemma leaving_evolves w0 w w' : leaving w0 w -> evolves w w' -> spared p w w' -> leaving w0 w'.
Proof.
  intros [Hi Hd Hl Ha Hs Hu] He Hs'. constructor.
  - apply He.
  - by apply (evolves_idle w).
  - by eapply same_path_is_Some; [apply He|].
  - etransitivity; [done|]. by apply aside_evolves.
  - by transitivity w.
  - intros r Hr (x' & Hx' & Hp). pose proof (ev_queue _ _ He r Hr) as Hr0. apply (Hu r Hr0).
    destruct (di_queued _ Hi r Hr0) as (x & Hx & _). exists x. split; [done|].
    destruct (ev_queued _ _ He r x Hr Hx) as (x2 & Hx2 & _ & Hrp & _). congruence.
Qed.

(** A change to the path itself, or its deletion, does not concern the others. *)
Lemma aside_paths w0 w f : aside p w0 w -> (forall q, q <> p -> f (paths w) !! q = paths w !! q) ->
  aside p w0 (setf paths f w).
Proof.
  intros Ha Hf. etransitivity; [done|]. constructor; cbn.
  - intros r x Hr Hx. right. by exists x.
  - intros r x q b _ Hr Hx _ _ _. split; [done|]. by exists x.
  - intros q Hne. by rewrite Hf.
Qed.

Lemma leaving_path w0 w f : leaving w0 w -> leaving w0 (setf paths (alter f p) w).
Proof.
  intros [Hi Hd Hl Ha Hs Hu]. constructor.
  - apply (inv_same w); try done. intros q. cbn. apply alter_is_Some.
  - exact Hd.
  - cbn. by apply alter_is_Some.
  - apply aside_paths; [done|]. intros q Hne. by apply lookup_alter_ne.
  - etransitivity; [done|]. by apply spared_same.
  - exact Hu.
Qed.

Lemma leaving_delete w0 w : leaving w0 w -> closed w0 (setf paths (delete p) w).
Proof.
  intros [Hi Hd Hl Ha Hs Hu]. constructor; cbn.
  - destruct Hi as [? ? ? ? ? Hq ? ? ? ?]. constructor; try done. intros r Hr.
    destruct (Hq r Hr) as (x & Hx & [? ? (q & Hp & Hlive) ? ?]). exists x. split; [done|].
    constructor; try done. exists q. split; [done|]. cbn. rewrite lookup_delete_ne; [done|].
    intros <-. apply (Hu r Hr). by exists x.
  - exact Hd.
  - apply lookup_delete_eq.
  - apply aside_paths; [done|]. intros q Hne. by apply lookup_delete_ne.
  - etransitivity; [done|]. by apply spared_same.
  - intros r x Hr Hx Hp. apply (Hu r Hr). by exists x.
Qed.

(** The steps of a close: whatever events, changes to the path itself and its deletion preserve. *)
Lemma release_steps file (I Q : World -> Prop) w : PD file = p ->
  (forall w, I w -> dev_inv w /\ is_Some (paths w !! p)) ->
  (forall w w', I w -> evolves w w' -> spared p w w' -> I w') ->
  (forall w f, I w -> I (setf paths (alter f p) w)) ->
  (forall w, I w -> Q (setf paths (delete p) w)) ->
  I w -> safe (acq200_release file) (fun rc w' => rc = 0 /\ Q w') w.
Proof.
  intros Hf Hok Hev Hpath Hdel HI. unfold acq200_release. rewrite Hf. destruct (Hok w HI) as [_ [x Hx]].
  unfold safe. erewrite bind_done by by apply path_ref_eq.
  apply (safe_bind (when _ _)). eapply (safe_mono _ (fun _ w' => I w')).
  { destruct (istrue _); cbn [when]; [|by apply safe_ret]. eapply Hev; [exact HI| |by apply spared_same].
    apply evolves_same; [apply (Hok w HI)|by constructor]. }
  clear w HI Hx. intros [] w HI.
  apply (safe_bind (when _ _)). eapply (safe_mono _ (fun _ w' => I w')).
  2:{ clear w HI. intros [] w HI. unfold safe. erewrite bind_done by reflexivity.
      split; [done|]. by apply Hdel. }
  destruct (istrue _); cbn [when]; [|by apply safe_ret]. cbv zeta.
  destruct (Hok w HI) as [_ [y Hy]]. unfold safe. erewrite bind_done by (by apply (path_upd_eq p y)).
  set (w1 := setf paths _ w). assert (I w1) as HI1 by by apply Hpath.
  destruct (Hok w1 HI1) as [Hi1 _]. apply (safe_bind (acq200_ioctl_wbr_mbox _)).
  eapply safe_mono; [apply (safe_within (spared p)); [apply spared_waits; intros; by apply wbr_within|]|].
  { by apply (wbr_mbox_safe _ w1 w1); [|apply evolves_refl]. }
  intros [rc m] w2 [He Hs]. pose proof (Hev _ _ HI1 He Hs) as HI2. destruct (Hok w2 HI2) as [_ [z Hz]].
  unfold safe. rewrite (path_upd_eq p z) by done. by apply Hpath.
Qed.

Lemma release_safe file w0 w : PD file = p -> leaving w0 w ->
  safe (acq200_release file) (fun rc w' => rc = 0 /\ closed w0 w') w.
Proof.
  intros Hf Hlv. apply (release_steps file (leaving w0)); [done| | | | |done].
  - intros w1 Hlv1. split; apply Hlv1.
  - apply leaving_evolves.
  - intros. by apply leaving_path.
  - apply leaving_delete.
Qed.

Lemma keeps_find_path q l : keeps (find_path q l).
Proof. induction l; cbn [find_path]; keeps. Qed.
#[local] Hint Resolve keeps_find_path : c_keeps.
Lemma keeps_cleanup_loop fuel q : keeps (cleanup_loop fuel q).
Proof. induction fuel; cbn [cleanup_loop]; keeps. Qed.
#[local] Hint Resolve keeps_cleanup_loop : c_keeps.
Lemma keeps_cleanup q : keeps (_cleanup_on_bridge_release q).
Proof. unfold _cleanup_on_bridge_release. keeps. Qed.

Lemma outer_sched w w' : outer w' = outer w -> sched w' = sched w.
Proof. unfold outer. congruence. Qed.

Lemma cleaned_spared w w' : sched w' = sched w -> cleaned p w w' -> spared p w w'.
Proof.
  intros Hsc (_ & _ & Hq & Hs & _). apply spared_untouched. split; [done|]. intros r x. split.
  - intros (Hr & Hx & Hp). rewrite Hs in Hx by done. apply Hq in Hr as [Hr _]. done.
  - intros (Hr & Hx & Hp). assert (r ∈ queued w') as Hr'.
    { apply Hq. split; [done|]. intros (y & Hy & Hpy). congruence. }
    split; [done|]. by rewrite Hs.
Qed.

Lemma cleaned_aside w w' : dev_inv w -> cleaned p w w' -> aside p w w'.
Proof.
  intros Hi (_ & Hp & Hq & Hs & _). constructor; rewrite ?Hp.
  - intros r x Hr Hx. right. exists x. rewrite <- Hs by done. split; [by apply Hq|done].
  - intros r x q b Hne Hr Hx Hpx _ _. assert (r ∈ queued w') as Hr'.
    { apply Hq. split; [done|]. intros (y & Hy & Hpy). congruence. }
    split; [done|]. exists x. by rewrite Hs.
  - done.
Qed.

Lemma cleanup_safe {A} (k : MW A) Q w0 w : dev_inv w -> idle w -> is_Some (paths w !! p) -> aside p w0 w -> spared p w0 w ->
  (forall w', leaving w0 w' -> safe k Q w') ->
  safe (_cleanup_on_bridge_release p >> k) Q w.
Proof.
  intros Hi Hd Hl Ha Hsp Hk. apply safe_bind. unfold _cleanup_on_bridge_release, safe at 1.
  erewrite bind_done by reflexivity. cbv beta.
  pose proof (cleanup_loop_spec p (S (length (queued w))) w Hi ltac:(lia)) as Hc.
  apply (total_within quiet_step _ _ _ (keeps_cleanup_loop _ _)) in Hc. unfold total in Hc.
  destruct (cleanup_loop _ p w) as [[] w1| | |]; try done. destruct Hc as [[Hc (_ & _ & Hd1)] [Ho%outer_sched _]].
  apply Hk. pose proof Hc as (Hi1 & Hp1 & Hq1 & Hs1 & _). constructor; rewrite ?Hp1; auto.
  - etransitivity; [done|]. by apply cleaned_aside.
  - etransitivity; [done|]. by apply cleaned_spared.
  - intros r Hr (x & Hx & Hp). rewrite Hs1 in Hx by done. apply Hq1 in Hr as [Hr Hn]. apply Hn. by exists x.
Qed.

(** A handler is taken in the end, whatever fails before, or the wait for one never ends. *)
Lemma retry_spec fuel w : dev_inv w -> (length (sched w) < fuel)%nat ->
  safe (alloc_rch_retry fuel) (fun r w' => acquired w w' r None /\ spared p w w') w.
Proof.
  intros Hi Hf. apply safe_within.
  { apply spared_waits. intros R ? He Hm. clear w Hi Hf. induction fuel as [|fuel IH]; cbn [alloc_rch_retry]; [done|].
    waits ltac:(first [by apply alloc_rch_within | apply IH]). }
  revert w Hi Hf. induction fuel as [|fuel IH]; intros w Hi Hf; [lia|]. cbn [alloc_rch_retry].
  apply safe_bind. unfold get_world, safe at 1. apply safe_bind.
  eapply safe_mono; [by apply alloc_rch_spec|]. intros [r|] w1; cbn [rch_alloc_post]; [intros; by apply safe_ret|].
  intros (He & _ & Hl). destruct (decide (sched w = [])) as [E|Hne]; [done|].
  assert (length (sched w) <> 0)%nat by (by destruct (sched w)).
  eapply safe_mono; [apply IH; [apply He|lia]|]. intros r w2. by apply evolves_acquired.
Qed.

Lemma recycled_spared w r x : dev_inv w -> r ∈ queued w -> rchs w !! r = Some x -> rpath x = Some p ->
  spared p w (recycled r x w).
Proof.
  intros Hi Hr Hx Hp. apply (spared_own p w _ r); [apply recycled_rest| | |].
  - intros r' Hne. rewrite (recycled_rchs w r x), (recycled_queued w r x) by done. by intuition.
  - intros y (_ & ? & ?). congruence.
  - intros y (Hq & _). apply (recycled_queued w r x) in Hq as [_ ?]; done.
Qed.

(** The handler of the last message after the wait is queued still, or was recycled: to recycle it now
    does not fault. *)
Lemma last_handler w2 w3 r x : dev_inv w2 -> idle w3 -> evolves w2 w3 -> r ∈ queued w2 -> rchs w2 !! r = Some x ->
  is_Some (rdevice x) -> pool_kbuf x = None -> rpath x = Some p ->
  exists x3, rchs w3 !! r = Some x3 /\
    exists w4, i2o_recycleRch r w3 = Done tt w4 /\ dev_inv w4 /\ idle w4 /\ paths w4 = paths w3 /\ aside p w3 w4 /\
      spared p w3 w4.
Proof.
  intros Hi2 Hd3 He Hr Hx Hd Hk Hp. pose proof (ev_inv _ _ He) as Hi3. destruct (decide (r ∈ queued w3)) as [Hr3|Hr3].
  - destruct (ev_queued _ _ He r x Hr3 Hx) as (x3 & Hx3 & Hrep). exists x3. split; [done|].
    eexists. split; [by apply (recycle_queued w3 r x3)|]. split; [by apply recycled_inv|].
    split; [by apply recycled_idle|]. destruct (queued_facts w3 r x3 Hi3 Hr3 Hx3) as [_ _ (q & Hq & _) _ _].
    assert (rpath x3 = Some p) as Hp3 by (destruct Hrep as (_ & ? & _); congruence).
    split; [by apply recycled_facts; rewrite Hq; eexists|]. split; [by apply aside_recycled|by apply recycled_spared].
  - destruct (ev_gone _ _ He r x Hr Hr3 Hx) as (x3 & Hx3 & Hp3 & Hd3' & Hk3). exists x3. split; [done|].
    eexists. split; [apply (recycle_again r x3); congruence|]. split; [by apply rch_freed_inv|].
    destruct (rch_freed_facts r w3) as (_ & _ & Eq & Er & Ep & _).
    split; [intros r' x'; rewrite Er, Eq; apply Hd3|]. split; [done|].
    split; [|apply spared_same; [apply rch_freed_rest|done..]]. constructor; rewrite ?Eq, ?Er, ?Ep.
    + intros r' x' ? ?. right. by exists x'.
    + intros r' x' q b _ ? ? _ _ _. split; [done|]. by exists x'.
    + done.
Qed.

Lemma posted_spared w w' r k fl h m x : r ∉ queued w -> posted w w' r p k fl h m x -> spared p w w'.
Proof.
  intros Hr [_ Hq Hx Ho _ Hs _ _ Hp _ _ _ _ _]. apply (spared_own p w w' r).
  - congruence.
  - intros r' Hne. rewrite Hq. split; [by apply Ho|]. set_solver.
  - by intros y [? _].
  - intros y (_ & ? & ?). congruence.
Qed.

Lemma path_queue_minor : queue_minor (path_waitq p).
Proof.
  unfold queue_minor. cbn [enqueue path_waitq]. unfold path_upd, path_ref.
  within ltac:(apply within_modify; intros ?; reflexivity).
Qed.

(** The last message is posted, its answer awaited, and the path closed. *)
Lemma last_message_safe file msg w w1 r : PD file = p -> idle w -> is_Some (paths w !! p) -> acquired w w1 r None -> spared p w w1 ->
  safe (buildRch r i2o_handleLastMessage_fn p KNull RCH_KB_POOL >> rchAppend r >>
    let* _ := acq200_sendI2O_kbuf p msg in
    let* _ := wait_event_interruptible (path_waitq p) (rch_valid r) in
    release_end file r) (fun rc w' => rc = 0 /\ closed w w') w1.
Proof.
  intros Hf Hd Hp0 Ha Hsp. pose proof (aq_inv _ _ _ _ Ha) as Hi1. pose proof (aq_idle _ _ _ _ Ha Hd) as Hd1.
  destruct (aq_rch _ _ _ _ Ha) as [z Hz].
  pose proof (same_path_is_Some _ _ (aq_paths _ _ _ _ Ha p) Hp0) as Hp1.
  destruct (post_request w1 r z KNull RCH_KB_POOL i2o_handleLastMessage_fn p msg Hi1 (aq_unqueued _ _ _ _ Ha) Hz Hp1
    (aq_reserved _ _ _ _ Ha)) as (rc & w2 & x & Hpost & Hpo); [done|].
  unfold safe. erewrite bind_three by exact Hpost.
  pose proof (posted_served _ _ _ _ _ _ _ _ _ Hi1 Hd1 (aq_unqueued _ _ _ _ Ha) Hpo) as [_ Hd2 Ho2].
  pose proof (posted_spared _ _ _ _ _ _ _ _ (aq_unqueued _ _ _ _ Ha) Hpo) as Hsp2.
  destruct Hpo as [Hi2 Hq2 Hx2 _ _ _ Hp2 _ Hxp _ _ _ Hpk2 _].
  assert (r ∈ queued w2) as Hr2 by (rewrite Hq2; set_solver).
  assert (is_Some (paths w2 !! p)) as Hp by (by eapply paths_kept_is_Some).
  destruct (queued_facts w2 r x Hi2 Hr2 Hx2) as [_ Hdv _ _ _].
  apply (safe_bind (wait_event_interruptible _ _)). eapply safe_mono.
  { apply (safe_within (spared p)); [apply spared_waits; intros; apply wait_within; try done; apply path_queue_minor|].
    apply (wait_event_spec (path_waitq p) (rch_valid r) w2 Hi2 (path_queue_ok p w2 Hi2 Hp) w2 (evolves_refl w2 Hi2)). }
  intros rc1 w3 [[Hev _] Hsp3]. pose proof (evolves_idle w2 w3 Hi2 Hev Hd2) as Hd3.
  destruct (last_handler w2 w3 r x Hi2 Hd3 Hev Hr2 Hx2 Hdv Hpk2 Hxp) as (x3 & Hx3 & Hrec).
  unfold safe, release_end. rewrite Hf. erewrite bind_done by (by apply rch_ref_eq). cbv beta.
  assert (aside p w w3) as Ha3.
  { etransitivity; [by eapply others_kept_aside, others_kept_acquired|].
    etransitivity; [by apply others_kept_aside|]. by apply aside_evolves. }
  pose proof (same_path_is_Some _ _ (ev_paths _ _ Hev p) Hp) as Hp3.
  apply (safe_bind (when _ _)).
  eapply (safe_mono _ (fun _ w4 => dev_inv w4 /\ idle w4 /\ paths w4 = paths w3 /\ aside p w3 w4 /\ spared p w3 w4)).
  { destruct (_ =? 1); cbn [when]; [|by apply safe_ret; split; [apply Hev|]].
    destruct Hrec as (w4 & E & Hrec). unfold safe. by rewrite E. }
  intros [] w4 (Hi4 & Hd4 & Hp4 & Ha4 & Hs4).
  apply (cleanup_safe _ _ w); [done|done|by rewrite Hp4|by transitivity w3|by repeat (etransitivity; [eassumption|])|].
  intros w5 Hlv. by apply release_safe.
Qed.

Lemma release_message_safe file msg w : PD file = p -> dev_inv w -> idle w -> is_Some (paths w !! p) ->
  safe (acq200_bridge_release_message file msg) (fun rc w' => rc = 0 /\ closed w w') w.
Proof.
  intros Hf Hi Hd [y Hy]. unfold acq200_bridge_release_message. rewrite Hf. cbv zeta. unfold safe.
  erewrite bind_done by by apply path_ref_eq. erewrite bind_done by reflexivity. cbv beta.
  apply (safe_bind (alloc_rch_retry _)). eapply safe_mono; [apply retry_spec; [done|lia]|].
  intros r w1 [Ha Hs]. apply last_message_safe; [done..|by exists y|done|done].
Qed.

Lemma bridge_release_spec file code w : PD file = p -> dev_inv w -> idle w -> is_Some (paths w !! p) ->
  safe (acq200_bridge_release_generic file code) (fun rc w' => rc = 0 /\ closed w w') w.
Proof.
  intros Hf Hi Hd Hp. destruct Hp as [x Hx]. unfold acq200_bridge_release_generic. cbv zeta.
  assert (forall start outb cf, safe (let* m := build_hrd_message file 0 start 0 1 outb cf in
    acq200_bridge_release_message file m) (fun rc w' => rc = 0 /\ closed w w') w) as Hmsg.
  { intros start outb cf. destruct (build_message_own file 0 start 0 1 outb cf w) as (m & w1 & E & Ho & _ & Ed & _);
      [rewrite Hf; by exists x|]. pose proof (inv_own _ _ Hi Ho) as Hi1. destruct Ho as [Ho Hk].
    unfold own in Ho. injection Ho as Eq Er _ _ _ _ _ _ _ Esc _.
    unfold safe. erewrite bind_done by exact E. eapply safe_mono.
    - apply release_message_safe; [done|done|intros r y; rewrite Er, Eq; apply Hd|].
      apply (paths_kept_is_Some w); [done|by exists x].
    - intros rc w' [-> [? ? ? Ha Hs ?]]. split; [done|]. constructor; auto;
        [|etransitivity; [by apply (spared_same p w w1); congruence|exact Hs]].
      etransitivity; [|exact Ha]. constructor.
      + intros r y. rewrite Er, Eq. intros ? ?. right. by exists y.
      + intros r y q b _ Hr Hy _ _ _. rewrite Er, Eq. split; [done|]. by exists y.
      + intros q _. apply Hk. }
  unfold safe. erewrite bind_done by (apply path_ref_eq; by rewrite Hf).
  destruct (_ =? LDH_OUTBOUND); [apply Hmsg|]. destruct (_ =? LDH_INBOUND); [apply Hmsg|].
  rewrite Hf. apply (cleanup_safe (acq200_release file) _ w); [done|done|by exists x|done|done|].
  intros w' Hlv. by apply release_safe.
Qed.

(** C14: a close of a node that the bridge serves never faults, whatever the card and other contexts do
    while it waits for a free handler and for the answer to its last message, although the handler of
    that message is recycled twice.  Afterwards the path is gone, no handler that waits for a reply
    refers to it, every request of another path is still queued, with the same record, but for those
    that an event took meanwhile (a reply of the card, delivered by the bottom half), what belongs to the
    other paths is as it was, and the invariants of the device hold. *)
Theorem bridge_release_safe file code w : PD file = p -> dev_inv w -> idle w -> is_Some (paths w !! p) ->
  safe (acq200_bridge_release_generic file code) (fun rc w' => rc = 0 /\ closed w w') w.
Proof. apply bridge_release_spec. Qed.
End Release.
