(* ===== verification/Spares.v ===== *)
(** * What one process leaves to the others

    [spares M G w w']: between [w] and [w'] a process, and the card, did nothing to a handler that is
    not in [M], but for what replies do, and deleted no path that is not in [G].  The steps of reads,
    writes and closes spare whatever they do not own. *)

From S2P Require Import Prelude BusProt StreamBuf Pool Device Rch I2o Isr Kernel Outer.
From S2P Require Import Owner Frames Sleep Mask Mailbox Path Bridge Acquire Requests Writes Release.

(** A queued handler is queued still, with its reply perhaps; or it got the reply that recycled it. *)
Definition replied_or_gone (w w' : World) (r : nat) (x : ReturnCommandHandler) : Prop :=
  (r ∈ queued w' /\ exists x', rchs w' !! r = Some x' /\ replied x x') \/
  (r ∉ queued w' /\ rhandler x <> i2o_handleReadMessageFile_fn /\
   is_reserved (handlers (dev w')) r = false /\
   exists x', rchs w' !! r = Some x' /\ rpath x' = None /\ rdevice x' = rdevice x /\ pool_kbuf x' = pool_kbuf x).

Record spares (M G : nat -> Prop) (w w' : World) : Prop := {
  sp_unqueued r : ~ M r -> r ∉ queued w -> r ∉ queued w' /\ rchs w' !! r = rchs w !! r /\
    is_reserved (handlers (dev w')) r = is_reserved (handlers (dev w)) r;
  sp_queued r x : ~ M r -> r ∈ queued w -> rchs w !! r = Some x -> replied_or_gone w w' r x;
  sp_paths p : ~ G p -> is_Some (paths w !! p) -> is_Some (paths w' !! p);
  sp_maps : maps w' = maps w
}.

Section Spares.
Context (M G : nat -> Prop).

#[export] Instance spares_preorder : PreOrder (spares M G).
Proof.
  split.
  - intros w. constructor; try done. intros r x _ Hr Hx. left. split; [done|]. by exists x.
  - intros w1 w2 w3 [U12 Q12 P12 E12] [U23 Q23 P23 E23]. constructor; [| |auto|congruence].
    + intros r Hm Hr. destruct (U12 r Hm Hr) as (Hr2 & E & F). destruct (U23 r Hm Hr2) as (? & ? & ?).
      split_and!; congruence.
    + intros r x Hm Hr Hx. destruct (Q12 r x Hm Hr Hx) as [(Hr2 & x2 & Hx2 & Hrep)|(Hr2 & Hh & Hres & x2 & Hx2 & ?)].
      * pose proof (replied_kbuf _ _ Hrep) as Hk. pose proof Hrep as (Hh & _ & Hd & _).
        destruct (Q23 r x2 Hm Hr2 Hx2) as [(Hr3 & x3 & ? & ?)|(Hr3 & Hh3 & ? & x3 & ? & ? & ? & ?)].
        -- left. split; [done|]. exists x3. split; [done|]. by transitivity x2.
        -- right. split; [done|]. split; [congruence|]. split; [done|]. exists x3. split_and!; congruence.
      * right. destruct (U23 r Hm Hr2) as (? & E & E'). split; [done|]. split; [done|]. split; [congruence|].
        exists x2. split; [congruence|done].
Qed.

Lemma spares_mono (M' G' : nat -> Prop) w w' :
  (forall r, M r -> M' r) -> (forall p, G p -> G' p) -> spares M G w w' -> spares M' G' w w'.
Proof. intros Hm Hg [U Q P E]. constructor; [..|done]; naive_solver. Qed.

Lemma spares_evolves w w' : dev_inv w -> evolves w w' -> spares M G w w'.
Proof.
  intros Hi He. constructor.
  - intros r _ Hr. split; [by intros ?%(ev_queue _ _ He)|]. split; by apply He.
  - intros r x _ Hr Hx. destruct (decide (r ∈ queued w')) as [Hr'|Hr'].
    + left. split; [done|]. by apply (ev_queued _ _ He).
    + right. split; [done|]. split; [by intros Hh; apply Hr', (ev_reader _ _ He r x)|].
      split; [by apply (ev_left _ _ He r x)|]. by apply (ev_gone _ _ He r x).
  - intros p _. apply same_path_is_Some, He.
  - apply He.
Qed.

(** Only handlers of [M] are rewritten, queued or unqueued, reserved or freed. *)
Lemma spares_others w w' :
  (forall r, ~ M r -> (r ∈ queued w' <-> r ∈ queued w) /\ rchs w' !! r = rchs w !! r /\
     is_reserved (handlers (dev w')) r = is_reserved (handlers (dev w)) r) ->
  (forall p, ~ G p -> is_Some (paths w !! p) -> is_Some (paths w' !! p)) -> maps w' = maps w -> spares M G w w'.
Proof.
  intros Ho Hp Hm. constructor; [| |done..].
  - intros r Hr Hq. destruct (Ho r Hr) as (E & ? & ?). by rewrite E.
  - intros r x Hr Hq Hx. destruct (Ho r Hr) as (E & E' & ?). left. split; [by apply E|]. exists x. by rewrite E'.
Qed.

Lemma spares_taken_rch j e w : dev_inv w -> entries (handlers (dev w)) !! j = Some e -> M (item e) ->
  spares M G w (taken_rch j w).
Proof.
  intros Hi He Hm. apply spares_others; [|done..]. intros r Hr. split; [done|]. split; [done|].
  change (is_reserved (reserve j (handlers (dev w))) r = is_reserved (handlers (dev w)) r).
  rewrite (is_reserved_reserve _ _ e) by (done || apply Hi). rewrite decide_False; [done|]. by intros ->.
Qed.

Lemma spares_taken_map j w : spares M G w (taken_map j w).
Proof. by apply spares_others. Qed.

Lemma spares_upd w r f : M r -> spares M G w (setf rchs (alter f r) w).
Proof.
  intros Hm. apply spares_others; [|done..]. intros r' Hr. split; [done|]. split; [|done].
  cbn. apply list_lookup_alter_ne. by intros ->.
Qed.

Lemma spares_path w p f : spares M G w (setf paths (alter f p) w).
Proof. apply spares_others; [done| |done]. intros q _. cbn. apply alter_is_Some. Qed.

Lemma spares_delete w p : G p -> spares M G w (setf paths (delete p) w).
Proof.
  intros Hg. apply spares_others; [done| |done]. intros q Hq. cbn. rewrite lookup_delete_ne; [done|]. by intros ->.
Qed.

Lemma spares_own_paths w w' : same_own_paths w w' -> spares M G w w'.
Proof.
  intros [Ho Hp]. unfold own in Ho. injection Ho as Eq Er Em _ Eh _ _ _ _ _ _.
  apply spares_others; [by intros r _; rewrite Eq, Er, Eh| |done]. intros p _. by apply paths_kept_is_Some.
Qed.

Lemma spares_posted `{Platform} w w' r p k fl h m x : M r -> posted w w' r p k fl h m x -> spares M G w w'.
Proof.
  intros Hm [_ Pq _ Po [Ph _] Ps Pp _ _ _ _ _ _ _]. injection Ps as Em _ _ _ _ _ _.
  apply spares_others; [|by intros q _; apply paths_kept_is_Some|done]. intros r' Hr'.
  assert (r' <> r) by (by intros ->). rewrite Pq, Ph, Po by done. set_solver.
Qed.

Lemma spares_recycled w r x : dev_inv w -> r ∈ queued w -> rchs w !! r = Some x -> M r ->
  spares M G w (recycled r x w).
Proof.
  intros Hi Hr Hx Hm. destruct (queued_facts w r x Hi Hr Hx) as [_ _ (q & Hq & _) _ _].
  apply spares_others.
  - intros r' Hr'. assert (r' <> r) by (by intros ->).
    rewrite (recycled_queued w r x), recycled_handlers, decide_False, (recycled_rchs w r x) by done. naive_solver.
  - intros p _. by destruct (recycled_facts r x w) as (_ & _ & _ & _ & ->); [rewrite Hq|].
  - apply recycled_rest.
Qed.

Lemma spares_freed w r : dev_inv w -> M r -> spares M G w (rch_freed r w).
Proof.
  intros Hi Hm. destruct (rch_freed_facts r w) as (Eh & _ & Eq & Er & Ep & _).
  apply spares_others; rewrite ?Ep; [|done|apply rch_freed_rest]. intros r' Hr'.
  rewrite Eq, Er, Eh, is_reserved_freed by apply Hi. rewrite decide_False; [done|]. by intros ->.
Qed.
End Spares.

(** ** Closing *)
Section Closing.
Context `{Platform}.
Context (p : nat).

Lemma cleanup_keeps_unqueued fuel w : dev_inv w -> (length (queued w) < fuel)%nat ->
  total (cleanup_loop fuel p) (fun _ w' => maps w' = maps w /\ forall r, r ∉ queued w -> rchs w' !! r = rchs w !! r) w.
Proof.
  revert w. induction fuel as [|fuel IH]; intros w Hi Hf; [lia|].
  cbn [cleanup_loop]. unfold total. erewrite bind_done by reflexivity. cbv beta.
  destruct (find_path_spec p (queued w) w) as (o & Ho & Hpost).
  { intros r Hr. destruct (di_queued _ Hi r Hr) as (x & ? & _). by exists x. }
  erewrite bind_done by exact Ho. destruct o as [r|]; [|done].
  destruct Hpost as [Hr (x & Hx & Hp)].
  erewrite bind_done by (by apply (recycle_queued w r x)). set (w1 := recycled r x w).
  assert (length (queued w1) < fuel)%nat as Hf1.
  { subst w1. destruct (recycled_facts r x w) as (-> & _); [by exists p|].
    pose proof (remove_one_length r (queued w) Hr). lia. }
  eapply total_mono; [by apply IH; [apply recycled_inv|]|]. intros [] w' [Em Hk]. split.
  { rewrite Em. apply recycled_rest. }
  intros r' Hr'. rewrite Hk by (subst w1; rewrite (recycled_queued w r x); naive_solver).
  apply (recycled_rchs w r x); [done..|]. by intros ->.
Qed.

(** The clean-up recycles what is queued for the path and spares the rest. *)
Lemma cleanup_spares (M G : nat -> Prop) w : dev_inv w -> idle w -> (forall r, for_path p w r -> M r) ->
  total (_cleanup_on_bridge_release p) (fun _ w' => dev_inv w' /\ idle w' /\ paths w' = paths w /\
    (forall r, r ∈ queued w' -> ~ for_path p w' r) /\ spares M G w w') w.
Proof.
  intros Hi Hd Hm. unfold _cleanup_on_bridge_release, total. erewrite bind_done by reflexivity. cbv beta.
  pose proof (cleanup_loop_spec p (S (length (queued w))) w Hi ltac:(lia)) as Hc.
  pose proof (cleanup_keeps_unqueued (S (length (queued w))) w Hi ltac:(lia)) as Hu. unfold total in *.
  destruct (cleanup_loop _ p w) as [[] w1| | |]; try done.
  destruct Hc as [(Hi1 & Ep & Hq & Hs & _) (Hh & _ & Hd1)], Hu as [Em Hu].
  split; [done|]. split; [auto|]. split; [done|]. split.
  { intros r Hr (x & Hx & Hp). rewrite Hs in Hx by done. apply Hq in Hr as [_ Hn]. apply Hn. by exists x. }
  constructor; rewrite ?Ep; [| |done..].
  - intros r _ Hr. split; [rewrite Hq; naive_solver|]. split; auto.
  - intros r x Hr Hqr Hx. left. assert (r ∈ queued w1) as Hr1 by (apply Hq; naive_solver).
    split; [done|]. exists x. rewrite Hs by done. by split.
Qed.

(** The path of a process that closes it: nothing is queued for it, so it can be deleted. *)
Record left_alone (M : nat -> Prop) (w0 w : World) : Prop := {
  la_leaving : leaving p w w;
  la_spares : spares M (eq p) w0 w
}.

Lemma leaving_self w0 w : leaving p w0 w -> leaving p w w.
Proof. intros [? ? ? _ _ ?]. by constructor. Qed.

Lemma close_spares (M : nat -> Prop) file w0 w : PD file = p -> dev_inv w -> idle w -> is_Some (paths w !! p) ->
  (forall r, for_path p w r -> M r) -> spares M (eq p) w0 w ->
  safe (_cleanup_on_bridge_release p >> acq200_release file) (fun _ w' =>
    dev_inv w' /\ idle w' /\ paths w' !! p = None /\ spares M (eq p) w0 w') w.
Proof.
  intros Hf Hi Hd Hp Hm Hs. apply safe_bind, total_safe.
  eapply total_mono; [by apply (cleanup_spares M (eq p))|]. intros [] w1 (Hi1 & Hd1 & Ep & Hn & Hs1). cbv beta.
  eapply safe_mono; [apply (release_steps p file (left_alone M w0)
    (fun w' => dev_inv w' /\ idle w' /\ paths w' !! p = None /\ spares M (eq p) w0 w'))|]; [done|..|by intros rc w' [_ ?]].
  - intros w2 [Hl _]. split; apply Hl.
  - intros w2 w3 [Hl Hs2] He Hsp. pose proof (lv_inv _ _ _ Hl) as Hi2. split.
    + by eapply leaving_self, leaving_evolves.
    + etransitivity; [exact Hs2|]. by apply spares_evolves.
  - intros w2 f [Hl Hs2]. split; [by eapply leaving_self, leaving_path|].
    etransitivity; [exact Hs2|]. apply spares_path.
  - intros w2 [Hl Hs2]. destruct (leaving_delete _ _ _ Hl) as [? ? ? _ _ _]. split; [done|]. split; [done|]. split; [done|].
    etransitivity; [exact Hs2|]. by apply spares_delete.
  - split; [|by transitivity w]. constructor; rewrite ?Ep; done.
Qed.
End Closing.
