(* ===== verification/Processes.v ===== *)
(** * Several processes at once

    A machine of the device and of the processes that read, write or close nodes of the bridge.  A
    process is a program counter between two sleeps of its call; [resume] runs it from one sleep to the
    next, with the code of Bridge.v in between.  A step of the machine resumes a process, or starts a
    call, or opens a node, or is an event of the card or of the kernel; so the calls of all processes
    interleave at their sleeps.

    A turn of a sleeping process says what ends its sleep: an entry of the pool it waits for, which
    must be free then; the end of the time; the wake-up for its reply; a signal. *)

From S2P Require Import Prelude BusProt StreamBuf Pool Device Rch I2o Isr Kernel Outer.
From S2P Require Import Owner Frames Sleep Mask Mailbox Path Bridge Acquire Requests Writes Release Spares.

(** ** A call between two of its sleeps *)
Inductive Pc : Type :=
| Read_wants_handler (ubuf count pos hrd_code : Z) (kb : Kbuf)
| Read_wants_mapping (ubuf count pos hrd_code : Z) (rch : nat)
| Read_awaits (ubuf pos : Z) (rch : nat)
| Write_wants_handler (ubuf count pos : Z)
| Write_wants_mapping (ubuf count pos : Z) (rch : nat)
| Release_starts (hrd_code : Z)
| Release_wants_handler (message : Message)
| Release_awaits (rch : nat)
| Finished (res pos : Z).

Inductive Turn : Type :=
| Takes (j : nat)
| Times_out
| Wakes
| Interrupted.

Section Segments.
Context `{Platform}.

(** The end of [_alloc]: entry [j] of the pool is free and is reserved. *)
Definition take_entry {A} `{PoolHost World A} (j : nat) : MW A :=
  let* p := gets host_pool in
  match entries p !! j with
  | Some pe =>
      if reserved pe then block
      else modify (host_set_pool (reserve j p)) >> ret (item pe)
  | None => block
  end.

(** A read that has handler [rch] and buffer [kb] posts its request. *)
Definition read_posts (file : File) (ubuf count pos hrd_code : Z) (pool : bool) (kb : Kbuf) (rch : nat)
    : MW Pc :=
  let* m := kbuf_ref kb in
  let* w := get_world in
  let pam := if pool then MK_DMABUF_OFFSET m (dma_buf (dev w)) else u32 (map_pa m) in
  let rch_flags := if pool then RCH_KB_POOL else 0 in
  if map_len m =? 0 then
    i2o_recycleRch rch >> acq200_pool_free_mapping kb >> ret (Finished (- ENOMEM) pos)
  else
    let count := umin count (u32 (map_len m)) in
    let* message := build_incoming_raw_message file pam pos count hrd_code in
    buildRch rch i2o_handleReadMessageFile_fn (PD file) kb rch_flags >>
    rchAppend rch >>
    let* _ := acq200_sendI2O_kbuf (PD file) message in
    ret (Read_awaits ubuf pos rch).

Definition finish (m : MW (Z * Z)) : MW Pc := let* res := m in ret (Finished (fst res) (snd res)).

(** The wait for a reply is over: it is there, or a signal is. *)
Definition wait_over (rch : nat) (t : Turn) : MW bool :=
  let* w := get_world in
  match t with
  | Wakes => ret (rch_valid rch w)
  | Interrupted => ret (sigpending w)
  | _ => ret false
  end.

Definition release_begins (file : File) (hrd_code : Z) : MW Pc :=
  let* x := path_ref (PD file) in
  let ldh := last_direction_hack x in
  if ldh =? LDH_OUTBOUND then
    let* m := build_outgoing_raw_message file 0 0 0 (Z.lor hrd_code HRD_CHAN_EOF) in
    ret (Release_wants_handler m)
  else if ldh =? LDH_INBOUND then
    let* m := build_incoming_raw_message file 0 0 0 (Z.lor hrd_code HRD_CHAN_EOF) in
    ret (Release_wants_handler m)
  else
    let* rc := _cleanup_on_bridge_release (PD file) >> acq200_release file in ret (Finished rc 0).

(** The last message is posted with handler [rch]. *)
Definition release_posts (file : File) (message : Message) (rch : nat) : MW Pc :=
  buildRch rch i2o_handleLastMessage_fn (PD file) KNull RCH_KB_POOL >>
  rchAppend rch >>
  let* _ := acq200_sendI2O_kbuf (PD file) message in
  ret (Release_awaits rch).

(** From the end of one sleep to the next; it is blocked if the turn does not end the sleep. *)
Definition resume (file : File) (pc : Pc) (t : Turn) : MW Pc :=
  match pc, t with
  | Read_wants_handler ubuf count pos hrd_code kb, Takes j =>
      let* r := take_entry (A := nat) j in
      if bool_decide (kb = KNull) then ret (Read_wants_mapping ubuf count pos hrd_code r)
      else read_posts file ubuf count pos hrd_code false kb r
  | Read_wants_handler _ _ pos _ _, Times_out => ret (Finished (- ETIMEDOUT) pos)
  | Read_wants_mapping ubuf count pos hrd_code r, Takes j =>
      let* k := take_entry (A := Kbuf) j in read_posts file ubuf count pos hrd_code true k r
  | Read_wants_mapping _ _ pos _ r, Times_out => i2o_recycleRch r >> ret (Finished (- ETIMEDOUT) pos)
  | Read_awaits ubuf pos r, t =>
      let* b := wait_over r t in
      if b then finish (read_end file ubuf pos r) else block
  | Write_wants_handler ubuf count pos, Takes j =>
      let* r := take_entry (A := nat) j in ret (Write_wants_mapping ubuf count pos r)
  | Write_wants_handler _ _ pos, Times_out => ret (Finished (- ETIMEDOUT) pos)
  | Write_wants_mapping ubuf count pos r, Takes j =>
      let* k := take_entry (A := Kbuf) j in finish (write_with file ubuf pos r k count)
  | Write_wants_mapping _ _ pos r, Times_out => i2o_recycleRch r >> ret (Finished (- ETIMEDOUT) pos)
  | Release_starts hrd_code, Wakes => release_begins file hrd_code
  | Release_wants_handler message, Takes j =>
      let* r := take_entry (A := nat) j in release_posts file message r
  | Release_wants_handler message, Times_out => ret pc
  | Release_awaits r, t =>
      let* b := wait_over r t in
      if b then let* rc := release_end file r in ret (Finished rc 0) else block
  | _, _ => block
  end.

(** ** The machine *)

(** What goes on beside the processes: events; other events are scheduled, and another process runs, with
    a signal or without; a process that sleeps goes on its queue. *)
Inductive sleeps_on : WaitQ -> Prop :=
| sleeps_on_path p : sleeps_on (path_waitq p)
| sleeps_on_pool : sleeps_on pool_sleepq
| sleeps_on_mbox : sleeps_on mbox_wq.

Inductive env_step (w : World) : World -> Prop :=
| env_event e w' : run_event e w = Done tt w' -> env_step w w'
| env_sched evs sig : env_step w (w <| sched := evs |> <| sigpending := sig |>)
| env_queue q w' : sleeps_on q -> enqueue q w = Done tt w' -> env_step w w'.

Definition handler_of (pc : Pc) : option nat :=
  match pc with
  | Read_wants_mapping _ _ _ _ r | Read_awaits _ _ r | Write_wants_mapping _ _ _ r | Release_awaits r => Some r
  | _ => None
  end.

Definition closing (pc : Pc) : bool :=
  match pc with Release_starts _ | Release_wants_handler _ | Release_awaits _ => true | _ => false end.
Definition active (pc : Pc) : bool := match pc with Finished _ _ => false | _ => true end.
Definition wants_handler (pc : Pc) : bool :=
  match pc with
  | Read_wants_handler _ _ _ _ _ | Write_wants_handler _ _ _ | Release_wants_handler _ => true
  | _ => false
  end.

(** The calls: a read with a mapping of the pool, or with buffer A or B; a write; a close. *)
Definition own_buffer (kb : Kbuf) : bool :=
  match kb with KNull => true | KStack m => negb (map_len m =? 0) | _ => false end.
Definition call_ok (pc : Pc) : bool :=
  match pc with
  | Read_wants_handler _ _ _ _ kb => own_buffer kb
  | Write_wants_handler _ count _ => (0 <=? count) && (count <? 2 ^ 32)
  | Release_starts _ => true
  | _ => false
  end.

Record Machine := mkMachine { world : World; procs : gmap nat (File * Pc) }.

(** The kernel's rule: a file is released by its last user, and not used afterwards. *)
Definition may_start (m : Machine) (file : File) (pc : Pc) : Prop :=
  call_ok pc = true /\ is_Some (paths (world m) !! PD file) /\
  map_Forall (fun _ q => active (snd q) = true -> PD (fst q) = PD file -> closing pc = false /\ closing (snd q) = false)
    (procs m).

(** [ok] restricts the turns. *)
Inductive machine_step (ok : Machine -> nat -> Pc -> Turn -> Prop) (m : Machine) : Machine -> Prop :=
| step_resume i file pc t pc' w' :
    procs m !! i = Some (file, pc) -> ok m i pc t -> resume file pc t (world m) = Done pc' w' ->
    machine_step ok m (mkMachine w' (<[i := (file, pc')]> (procs m)))
| step_env w' : env_step (world m) w' -> machine_step ok m (mkMachine w' (procs m))
| step_call i file pc :
    (forall g pc', procs m !! i = Some (g, pc') -> active pc' = false) -> may_start m file pc ->
    machine_step ok m (mkMachine (world m) (<[i := (file, pc)]> (procs m)))
| step_open p i_rdev w' :
    paths (world m) !! p = None -> acq200_createPath i_rdev (Some p) (world m) = Done p w' ->
    machine_step ok m (mkMachine w' (procs m)).

Definition any_turn (m : Machine) (i : nat) (pc : Pc) (t : Turn) : Prop := True.

(** The turns that are excluded: to be given the handler of a last message while the process that sent it has
    not noticed yet that it was answered; and to run out of time for a mapping with a handler that
    had one in its last use, or no use yet. *)
Definition awaited (pc : Pc) : option nat := match pc with Release_awaits r => Some r | _ => None end.
Definition not_awaited (m : Machine) (j : nat) : Prop :=
  match entries (handlers (dev (world m))) !! j with
  | Some e => map_Forall (fun _ q => awaited (snd q) <> Some (item e)) (procs m)
  | None => True
  end.

Definition last_use_ok (w : World) (r : nat) : Prop :=
  match rchs w !! r with Some x => is_Some (rdevice x) /\ pool_kbuf x = None | None => True end.

Definition orderly (m : Machine) (i : nat) (pc : Pc) (t : Turn) : Prop :=
  match t, handler_of pc with
  | Takes j, _ => wants_handler pc = true -> not_awaited m j
  | Times_out, Some r => last_use_ok (world m) r
  | _, _ => True
  end.

#[export] Instance may_start_dec m file pc : Decision (may_start m file pc).
Proof. unfold may_start. apply _. Defined.
#[export] Instance orderly_dec m i pc t : Decision (orderly m i pc t).
Proof.
  unfold orderly, not_awaited, last_use_ok. destruct t; [| |apply _..]; [|destruct (handler_of pc); [|apply _]]; case_match; apply _.
Defined.
#[export] Instance any_turn_dec m i pc t : Decision (any_turn m i pc t) := left I.

(** ** Runs *)
Inductive Move : Type :=
| Turns (i : nat) (t : Turn)
| Happens (e : Event)
| Schedules (evs : list Event) (sig : bool)
| Calls (i : nat) (file : File) (pc : Pc)
| Opens (p : nat) (i_rdev : Z).

Section Run.
Context (ok : Machine -> nat -> Pc -> Turn -> Prop) `{forall m i pc t, Decision (ok m i pc t)}.

Definition done_machine {A} (o : Outcome World A) (k : A -> World -> Machine) : option Machine :=
  match o with Done a w => Some (k a w) | _ => None end.

Definition idle_at (m : Machine) (i : nat) : bool :=
  match procs m !! i with Some (_, pc) => negb (active pc) | None => true end.

Definition make (m : Machine) (a : Move) : option Machine :=
  match a with
  | Turns i t =>
      match procs m !! i with
      | Some (file, pc) =>
          if decide (ok m i pc t) then
            done_machine (resume file pc t (world m)) (fun pc' w' => mkMachine w' (<[i := (file, pc')]> (procs m)))
          else None
      | None => None
      end
  | Happens e => done_machine (run_event e (world m)) (fun _ w' => mkMachine w' (procs m))
  | Schedules evs sig => Some (mkMachine ((world m) <| sched := evs |> <| sigpending := sig |>) (procs m))
  | Calls i file pc =>
      if idle_at m i && bool_decide (may_start m file pc) then
        Some (mkMachine (world m) (<[i := (file, pc)]> (procs m)))
      else None
  | Opens p i_rdev =>
      match paths (world m) !! p with
      | Some _ => None
      | None => done_machine (acq200_createPath i_rdev (Some p) (world m)) (fun _ w' => mkMachine w' (procs m))
      end
  end.

Fixpoint make_all (m : Machine) (l : list Move) : option Machine :=
  match l with
  | [] => Some m
  | a :: l => match make m a with Some m' => make_all m' l | None => None end
  end.

Lemma make_step m a m' : make m a = Some m' -> machine_step ok m m'.
Proof.
  unfold make, done_machine. destruct a as [i t|e|evs sig|i file pc|p i_rdev].
  - destruct (procs m !! i) as [[file pc]|] eqn:Hp; [|done]. destruct (decide _); [|done].
    destruct (resume file pc t (world m)) as [pc' w'| | |] eqn:E; try done. intros [= <-]. by eapply step_resume.
  - destruct (run_event e (world m)) as [[] w'| | |] eqn:E; try done. intros [= <-]. apply step_env. by eapply env_event.
  - intros [= <-]. apply step_env, env_sched.
  - destruct (idle_at m i) eqn:Hi; [|done]. case_bool_decide; [|done]. intros [= <-]. apply step_call; [|done].
    intros g pc' Hp. unfold idle_at in Hi. rewrite Hp in Hi. by destruct (active pc').
  - destruct (paths (world m) !! p) eqn:Hp; [done|].
    destruct (acq200_createPath i_rdev (Some p) (world m)) as [q w'| | |] eqn:E; try done. intros [= <-].
    assert (q = p) as -> by (by injection E). by eapply step_open.
Qed.

Lemma make_all_run m l m' : make_all m l = Some m' -> rtc (machine_step ok) m m'.
Proof.
  revert m. induction l as [|a l IH]; intros m; cbn [make_all].
  - by intros [= <-].
  - destruct (make m a) as [m1|] eqn:E; [|done]. intros Hl. eapply rtc_l; [by eapply make_step|]. by apply IH.
Qed.
End Run.
End Segments.
