(* ===== verification/Runs.v ===== *)
(** * A call is a run

    What Bridge.v says of a call, with its sleeps and the events in them, is one of the runs of the
    machine of Processes.v: so the machine leaves out no behaviour of a call, and the results of the
    two models are the same. *)

From S2P Require Import Prelude BusProt StreamBuf Pool Device Rch I2o Isr Kernel.
From S2P Require Import Mailbox Path Bridge Writes Processes.

Lemma path_ref_inv p x w w' : path_ref p w = Done x w' -> w' = w.
Proof. unfold path_ref, bind, gets, deref. destruct (paths w !! p); [by intros [= _ <-]|done]. Qed.

Section Runs.
Context `{Platform}.

(** ** Sleeps *)
Lemma env_next e evs w w1 w' : run_event e w = Done tt w1 -> rtc env_step (w1 <| sched := evs |>) w' -> rtc env_step w w'.
Proof.
  intros E Hr. eapply rtc_l; [by eapply env_event|]. eapply rtc_l; [|exact Hr].
  pose proof (env_sched w1 evs (sigpending w1)) as Hs. by destruct w1.
Qed.

(** An event of a sleep happened. *)
Lemma event_inv {A} e evs (k : MW A) w a w' : (run_event e >> set_sched' evs >> k) w = Done a w' ->
  exists w1, rtc env_step w w1 /\ k w1 = Done a w'.
Proof.
  intros ([] & w1 & E & ([] & w2 & [= <-] & Hk)%bind_inv)%bind_inv. eexists. split; [|exact Hk].
  by eapply env_next.
Qed.

Lemma queue_inv {A} q (k : MW A) w a w' : sleeps_on q -> (enqueue q >> k) w = Done a w' ->
  exists w1, rtc env_step w w1 /\ k w1 = Done a w'.
Proof. intros Hq ([] & w1 & E & Hk)%bind_inv. exists w1. split; [|done]. by eapply rtc_once, env_queue. Qed.

Lemma wait_from_env q cond evs w rc w' : sleeps_on q -> wait_from q cond evs w = Done rc w' ->
  rtc env_step w w' /\ (cond w' = true \/ sigpending w' = true).
Proof.
  intros Hq. revert w. induction evs as [|e evs IH]; intros w; cbn [wait_from]; [done|].
  intros (w1 & He & (? & ? & [= <- <-] & E)%bind_inv)%event_inv.
  destruct (woken q w1 || sigpending w1).
  - destruct (cond w1) eqn:Hc; [injection E as _ <-; auto|].
    destruct (sigpending w1) eqn:Hs; [injection E as _ <-; auto|].
    apply (queue_inv q) in E as (w3 & He2 & [He3 ?]%IH); [|done]. split; [|done]. by transitivity w1; [|transitivity w3].
  - apply IH in E as [He2 ?]. split; [|done]. by transitivity w1.
Qed.

Lemma wait_env q cond w rc w' : sleeps_on q -> wait_event_interruptible q cond w = Done rc w' ->
  rtc env_step w w' /\ (cond w' = true \/ sigpending w' = true).
Proof.
  intros Hq (w1 & ? & [= <- <-] & E)%bind_inv.
  destruct (cond w) eqn:Hc; [injection E as _ <-; split; [done|auto]|].
  destruct (sigpending w) eqn:Hs; [injection E as _ <-; split; [done|auto]|].
  apply (queue_inv q) in E as (w3 & He2 & [He3 ?]%wait_from_env); [|done..]. split; [by transitivity w3|done].
Qed.

Lemma sleep_from_env q evs left w n w' : sleep_from q evs left w = Done n w' -> rtc env_step w w'.
Proof.
  revert left w. induction evs as [|e evs IH]; intros left w; cbn [sleep_from]; (destruct (left <=? 0); [by intros [= _ <-]|]).
  { by intros [= _ <-]. }
  cbv zeta. intros (w1 & He & (? & ? & [= <- <-] & E)%bind_inv)%event_inv.
  destruct (_ <=? 0); [by injection E as _ <-|]. destruct (woken q w1 || _); [by injection E as _ <-|].
  transitivity w1; [done|]. by eapply IH.
Qed.

Lemma pool_sleep_env w n w' : pool_sleep w = Done n w' -> rtc env_step w w'.
Proof.
  intros (w1 & ? & [= <- <-] & E)%bind_inv. destruct (_ && _); [done|].
  apply bind_inv in E as (w2 & ? & [= <- <-] & E). destruct (sigpending w).
  - destruct (sched w) as [|e evs] eqn:Es; [by injection E as _ <-|].
    apply event_inv in E as (w3 & He & [= _ <-]). exact He.
  - apply queue_inv in E as (w3 & He & E); [|constructor]. transitivity w3; [done|]. by eapply sleep_from_env.
Qed.

(** ** Allocations: sleeps, and then an entry that is free, or the end of the time *)
Lemma alloc_env {A} `{EqDecision A} `{PH : PoolHost World A} {PS : PoolSleeper World A} fuel i w o w' :
  (forall w n w', host_sleep w = Done n w' -> rtc env_step w w') -> _alloc_loop fuel i w = Done o w' ->
  match o with
  | Some it => exists w1 j, rtc env_step w w1 /\ take_entry (A := A) j w1 = Done it w'
  | None => rtc env_step w w'
  end.
Proof.
  intros Hsl. revert i w. induction fuel as [|fuel IH]; intros i w; cbn [_alloc_loop]; [done|].
  intros (p & ? & [= <- <-] & E)%bind_inv. destruct (entries (host_pool w) !! i) as [pe|] eqn:Hi; [|done].
  destruct (reserved pe) eqn:Hr.
  - assert (forall w1, rtc env_step w w1 -> (let* p := gets host_pool in _alloc_loop fuel (INCR p i)) w1 = Done o w' ->
      match o with Some it => exists w1 j, rtc env_step w w1 /\ take_entry (A := A) j w1 = Done it w' | None => rtc env_step w w' end) as Hgo.
    { intros w1 He (p1 & ? & [= <- <-] & Ha)%bind_inv. apply IH in Ha. destruct o as [it|].
      - destruct Ha as (w2 & j & ? & ?). exists w2, j. split; [|done]. by transitivity w1.
      - by transitivity w1. }
    destruct (_ =? _)%nat; [|by apply (Hgo w)].
    apply bind_inv in E as (n & w1 & Es & E). apply Hsl in Es. destruct (n =? 0); [by injection E as <- <-|].
    by apply (Hgo w1).
  - apply bind_inv in E as ([] & w1 & [= <-] & [= <- <-]). exists w, i. split; [done|].
    unfold take_entry. erewrite bind_done by reflexivity. by rewrite Hi, Hr.
Qed.

Lemma alloc_rch_env w o w' : acq200_pool_alloc_rch w = Done o w' ->
  match o with
  | Some r => exists w1 j, rtc env_step w w1 /\ take_entry (A := nat) j w1 = Done r w'
  | None => rtc env_step w w'
  end.
Proof.
  intros (? & ? & [= <- <-] & (? & ? & [= <- <-] & E)%bind_inv)%bind_inv.
  eapply alloc_env; [|exact E]. exact pool_sleep_env.
Qed.

Lemma alloc_map_env dir w o w' : acq200_pool_alloc_mapping dir w = Done o w' ->
  match o with
  | Some k => exists w1 j, rtc env_step w w1 /\ take_entry (A := Kbuf) j w1 = Done k w'
  | None => rtc env_step w w'
  end.
Proof.
  intros (? & ? & [= <- <-] & (? & ? & [= <- <-] & E)%bind_inv)%bind_inv.
  eapply alloc_env; [|exact E]. exact pool_sleep_env.
Qed.

(** ** Calls *)

(** The call that begins at a place, whole. *)
Definition whole (file : File) (pc : Pc) : MW (Z * Z) :=
  match pc with
  | Read_wants_handler ubuf count pos hrd_code kb => acq200_bridge_read_generic file ubuf count pos hrd_code kb
  | Write_wants_handler ubuf count pos => acq200_bridge_write file ubuf count pos
  | Release_starts hrd_code => let* rc := acq200_bridge_release_generic file hrd_code in ret (rc, 0)
  | _ => block
  end.

Section Call.
Context (file : File) (i : nat) (P : gmap nat (File * Pc)).

Definition at_pc (w : World) (pc : Pc) : Machine := mkMachine w (<[i := (file, pc)]> P).
Definition runs : Machine -> Machine -> Prop := rtc (machine_step any_turn).

Lemma turn_runs w pc t pc' w' : resume file pc t w = Done pc' w' -> runs (at_pc w pc) (at_pc w' pc').
Proof.
  intros E. apply rtc_once.
  replace (at_pc w' pc') with (mkMachine w' (<[i := (file, pc')]> (procs (at_pc w pc)))).
  - by apply (step_resume any_turn (at_pc w pc) i file pc t); [apply lookup_insert_eq|..].
  - unfold at_pc. cbn [procs]. by rewrite insert_insert_eq.
Qed.

Lemma env_runs w w' pc : rtc env_step w w' -> runs (at_pc w pc) (at_pc w' pc).
Proof.
  induction 1 as [|w w1 w' He _ IH]; [done|]. eapply rtc_l; [|exact IH].
  by apply (step_env any_turn (at_pc w pc)).
Qed.

(** Sleeps, and then a turn. *)
Lemma env_turn_runs w w1 pc t pc' w' : rtc env_step w w1 -> resume file pc t w1 = Done pc' w' ->
  runs (at_pc w pc) (at_pc w' pc').
Proof. intros He E. etransitivity; [by apply env_runs|]. by eapply turn_runs. Qed.

Lemma wait_turn {B} (r : nat) (w : World) (k : MW B) :
  rch_valid r w = true \/ sigpending w = true ->
  exists t, (let* b := wait_over r t in if b then k else block) w = k w.
Proof.
  intros [Hc|Hs]; [exists Wakes|exists Interrupted]; unfold wait_over; rewrite bind_assoc;
    (erewrite bind_done by reflexivity); cbv beta; rewrite ?Hc, ?Hs; by erewrite bind_done by reflexivity.
Qed.

Lemma finish_done (m : MW (Z * Z)) w res w' : m w = Done res w' -> finish m w = Done (Finished res.1 res.2) w'.
Proof. intros E. unfold finish. by erewrite bind_done by exact E. Qed.

Lemma reply_runs ubuf pos r w res w' : read_reply file ubuf pos r w = Done res w' ->
  runs (at_pc w (Read_awaits ubuf pos r)) (at_pc w' (Finished res.1 res.2)).
Proof.
  intros (rc & w1 & [He Hc]%wait_env & E)%bind_inv; [|constructor].
  destruct (wait_turn r w1 (finish (read_end file ubuf pos r)) Hc) as [t Et].
  eapply (env_turn_runs _ w1 _ t); [done|]. cbn [resume]. rewrite Et. by apply finish_done.
Qed.

(** What follows once a read has posted its request, or could not. *)
Definition posted_then (pc : Pc) : MW (Z * Z) :=
  match pc with
  | Read_awaits ubuf pos r => read_reply file ubuf pos r
  | Finished res pos => ret (res, pos)
  | _ => block
  end.

Lemma read_posts_then ubuf count pos hrd_code (pool : bool) kb rch w :
  (let* m := kbuf_ref kb in
   let* w := get_world in
   let pam := if pool then MK_DMABUF_OFFSET m (dma_buf (dev w)) else u32 (map_pa m) in
   let rch_flags := if pool then RCH_KB_POOL else 0 in
   if map_len m =? 0 then
     i2o_recycleRch rch >> acq200_pool_free_mapping kb >> ret (- ENOMEM, pos)
   else
     let count := umin count (u32 (map_len m)) in
     let* message := build_incoming_raw_message file pam pos count hrd_code in
     buildRch rch i2o_handleReadMessageFile_fn (PD file) kb rch_flags >>
     rchAppend rch >>
     let* _ := acq200_sendI2O_kbuf (PD file) message in
     read_reply file ubuf pos rch) w =
  (let* pc := read_posts file ubuf count pos hrd_code pool kb rch in posted_then pc) w.
Proof.
  unfold read_posts, get_world, gets, bind, ret. destruct (kbuf_ref kb w) as [m w1| | |]; try done. cbv beta zeta.
  destruct (map_len m =? 0).
  - destruct (i2o_recycleRch rch w1) as [[] w2| | |]; try done. by destruct (acq200_pool_free_mapping kb w2).
  - destruct (build_incoming_raw_message _ _ _ _ _ w1) as [msg w2| | |]; try done.
    destruct (buildRch rch _ _ _ _ w2) as [[] w3| | |]; try done.
    destruct (rchAppend rch w3) as [[] w4| | |]; try done.
    by destruct (acq200_sendI2O_kbuf (PD file) msg w4).
Qed.

Lemma posts_runs pc t ubuf count pos hrd_code pool kb rch w0 w1 w res w' :
  rtc env_step w0 w1 -> (forall pc' w'', read_posts file ubuf count pos hrd_code pool kb rch w = Done pc' w'' ->
    resume file pc t w1 = Done pc' w'') ->
  (let* pc := read_posts file ubuf count pos hrd_code pool kb rch in posted_then pc) w = Done res w' ->
  runs (at_pc w0 pc) (at_pc w' (Finished res.1 res.2)).
Proof.
  intros He Ht (pc' & w2 & Hp & E)%bind_inv. etransitivity; [eapply (env_turn_runs w0 w1 pc t); [done|by apply Ht]|].
  destruct pc'; try done; cbn [posted_then] in E; [by apply reply_runs|]. by injection E as <- <-.
Qed.

Lemma read_runs ubuf count pos hrd_code kb w res w' :
  acq200_bridge_read_generic file ubuf count pos hrd_code kb w = Done res w' ->
  runs (at_pc w (Read_wants_handler ubuf count pos hrd_code kb)) (at_pc w' (Finished res.1 res.2)).
Proof.
  intros (? & w0 & Hp & (o & w1 & Ha%alloc_rch_env & E)%bind_inv)%bind_inv.
  apply path_ref_inv in Hp as ->.
  destruct o as [r|]; [|injection E as <- <-; by eapply (env_turn_runs w w1 _ Times_out)].
  destruct Ha as (w2 & j & He & Ht). cbv zeta in E. case_bool_decide as Hkb.
  - subst kb. apply bind_inv in E as (o & w3 & Ha%alloc_map_env & E).
    transitivity (at_pc w1 (Read_wants_mapping ubuf count pos hrd_code r)).
    { eapply (env_turn_runs w w2 _ (Takes j)); [done|]. cbn [resume]. by erewrite bind_done by exact Ht. }
    destruct o as [k|].
    + destruct Ha as (w4 & j' & He' & Ht'). 
      eapply (posts_runs _ (Takes j') ubuf count pos hrd_code true k r w1 w4 w3);
        [done| |rewrite <- read_posts_then; exact E].
      intros pc' w'' Hpo. cbn [resume]. by erewrite bind_done by exact Ht'.
    + apply bind_inv in E as ([] & w4 & Hr & [= <- <-]).
      eapply (env_turn_runs w1 w3 _ Times_out); [done|]. cbn [resume]. by erewrite bind_done by exact Hr.
  - erewrite bind_done in E by reflexivity. cbv beta iota in E.
    eapply (posts_runs _ (Takes j) ubuf count pos hrd_code false kb r w w2 w1);
      [done| |rewrite <- read_posts_then; exact E].
    intros pc' w'' Hpo. cbn [resume]. erewrite bind_done by exact Ht. by rewrite bool_decide_eq_false_2.
Qed.

Lemma write_runs ubuf count pos w res w' : acq200_bridge_write file ubuf count pos w = Done res w' ->
  runs (at_pc w (Write_wants_handler ubuf count pos)) (at_pc w' (Finished res.1 res.2)).
Proof.
  intros (? & w0 & Hp & (o & w1 & Ha%alloc_rch_env & E)%bind_inv)%bind_inv.
  apply path_ref_inv in Hp as ->.
  destruct o as [r|]; [|injection E as <- <-; by eapply (env_turn_runs w w1 _ Times_out)].
  destruct Ha as (w2 & j & He & Ht). apply bind_inv in E as (o & w3 & Ha%alloc_map_env & E).
  transitivity (at_pc w1 (Write_wants_mapping ubuf count pos r)).
  { eapply (env_turn_runs w w2 _ (Takes j)); [done|]. cbn [resume]. by erewrite bind_done by exact Ht. }
  destruct o as [k|].
  - destruct Ha as (w4 & j' & He' & Ht'). eapply (env_turn_runs w1 w4 _ (Takes j')); [done|].
    cbn [resume]. erewrite bind_done by exact Ht'. apply finish_done. exact E.
  - apply bind_inv in E as ([] & w4 & Hr & [= <- <-]).
    eapply (env_turn_runs w1 w3 _ Times_out); [done|]. cbn [resume]. by erewrite bind_done by exact Hr.
Qed.

Lemma retry_runs message fuel w r w' : alloc_rch_retry fuel w = Done r w' ->
  exists w1 j, runs (at_pc w (Release_wants_handler message)) (at_pc w1 (Release_wants_handler message)) /\
    take_entry (A := nat) j w1 = Done r w'.
Proof.
  revert w. induction fuel as [|fuel IH]; intros w; cbn [alloc_rch_retry]; [done|].
  intros (? & ? & [= <- <-] & (o & w1 & Ha%alloc_rch_env & E)%bind_inv)%bind_inv. destruct o as [r'|].
  - injection E as -> ->. destruct Ha as (w2 & j & He & Ht). exists w2, j. split; [by apply env_runs|done].
  - destruct (decide (sched w = [])); [done|]. apply IH in E as (w2 & j & Hr & Ht). exists w2, j. split; [|done].
    etransitivity; [|exact Hr]. by apply (env_turn_runs w w1 _ Times_out).
Qed.

Lemma message_runs message w rc w' : acq200_bridge_release_message file message w = Done rc w' ->
  runs (at_pc w (Release_wants_handler message)) (at_pc w' (Finished rc 0)).
Proof.
  unfold acq200_bridge_release_message. cbv zeta.
  intros (? & w0 & ->%path_ref_inv & (? & ? & [= <- <-] & (r & w1 & Ha & E)%bind_inv)%bind_inv)%bind_inv.
  apply (retry_runs message) in Ha as (w2 & j & Hr & Ht). etransitivity; [exact Hr|].
  apply bind_inv in E as ([] & w3 & Eb & ([] & w4 & Eq & (rc' & w5 & Es & (rc'' & w6 & Hw & E)%bind_inv)%bind_inv)%bind_inv).
  transitivity (at_pc w5 (Release_awaits r)).
  { apply (turn_runs w2 _ (Takes j)). cbn [resume]. erewrite bind_done by exact Ht. unfold release_posts.
    erewrite bind_done by exact Eb. erewrite bind_done by exact Eq. by erewrite bind_done by exact Es. }
  apply wait_env in Hw as [He Hc]; [|constructor].
  destruct (wait_turn r w6 (let* rc := release_end file r in ret (Finished rc 0)) Hc) as [t Et].
  eapply (env_turn_runs _ w6 _ t); [done|]. cbn [resume]. rewrite Et. by erewrite bind_done by exact E.
Qed.

Lemma release_runs hrd_code w rc w' : acq200_bridge_release_generic file hrd_code w = Done rc w' ->
  runs (at_pc w (Release_starts hrd_code)) (at_pc w' (Finished rc 0)).
Proof.
  unfold acq200_bridge_release_generic. intros (x & w0 & Hx & E)%bind_inv.
  pose proof Hx as ->%path_ref_inv. cbv zeta in E.
  assert (forall m w1, release_begins file hrd_code w = Done (Release_wants_handler m) w1 ->
    acq200_bridge_release_message file m w1 = Done rc w' ->
    runs (at_pc w (Release_starts hrd_code)) (at_pc w' (Finished rc 0))) as Hgo.
  { intros m w1 Hb Hm. etransitivity; [by apply (turn_runs w _ Wakes)|]. by apply message_runs. }
  unfold release_begins in Hgo. destruct (_ =? LDH_OUTBOUND) eqn:Ho; [|destruct (_ =? LDH_INBOUND) eqn:Hi].
  - apply bind_inv in E as (m & w1 & Em & E). eapply Hgo; [|exact E].
    erewrite bind_done by exact Hx. cbv zeta. rewrite Ho. by erewrite bind_done by exact Em.
  - apply bind_inv in E as (m & w1 & Em & E). eapply Hgo; [|exact E].
    erewrite bind_done by exact Hx. cbv zeta. rewrite Ho, Hi. by erewrite bind_done by exact Em.
  - apply (turn_runs w _ Wakes). cbn [resume]. unfold release_begins.
    erewrite bind_done by exact Hx. cbv zeta. rewrite Ho, Hi. by erewrite bind_done by exact E.
Qed.

Lemma whole_runs w pc res w' : whole file pc w = Done res w' ->
  runs (at_pc w pc) (at_pc w' (Finished res.1 res.2)).
Proof.
  destruct pc; try done; cbn [whole]; [apply read_runs|apply write_runs|].
  intros (rc & w1 & E & [= <- <-])%bind_inv. by apply release_runs.
Qed.

(** C4: every call as Bridge.v has it, a read, a write or a close with its sleeps and the events that happen
    in them, is a run of the machine: the process goes from its first place to the result of the call,
    the world to the state the call leaves, whatever other processes there are; so what is shown of
    the runs holds of the calls, and the machine leaves none of their behaviours out. *)
Theorem call_is_run w pc res w' : whole file pc w = Done res w' ->
  rtc (machine_step any_turn) (mkMachine w (<[i := (file, pc)]> P))
    (mkMachine w' (<[i := (file, Finished res.1 res.2)]> P)).
Proof. apply whole_runs. Qed.
End Call.
End Runs.
