(* ===== verification/Interleaved.v ===== *)
(** * No process disturbs another

    [pc_ok] says what a process that is inside a call counts on: the path it works on, and the handler
    it has, with what it holds.  A turn of the process keeps the device in order, leaves it in such a
    place again, and spares every handler but its own ([resume_moves]).  So all of them, with the
    exclusions of [orderly], keep the machine in order, however their turns interleave
    ([interleaved_safe]). *)

From S2P Require Import Prelude BusProt StreamBuf Pool Device Rch I2o Isr Kernel Outer.
From S2P Require Import Owner Frames Sleep Mask Mailbox Path Bridge Acquire Requests Writes Release Spares Processes.

(** A read waits with handler [r]. *)
Record awaits_reply (w : World) (file : File) (r : nat) : Prop := {
  ar_queued : r ∈ queued w;
  ar_rch : exists x m, rchs w !! r = Some x /\ rhandler x = i2o_handleReadMessageFile_fn /\
    rpath x = Some (PD file) /\ pool_kbuf x = KPool <$> pool_index (kbuf (rchReturn x)) /\
    backs w (kbuf (rchReturn x)) m /\
    (valid (rchReturn x) = 0 \/ valid (rchReturn x) = 1 \/ valid (rchReturn x) = -1)
}.

(** A close waits with handler [r], which may have been recycled. *)
Definition awaits_answer (w : World) (file : File) (r : nat) : Prop :=
  exists x, rchs w !! r = Some x /\ is_Some (rdevice x) /\ pool_kbuf x = None /\
    (r ∈ queued w /\ rpath x = Some (PD file) \/ r ∉ queued w /\ rpath x = None).

(** Handler [r] is taken and not used yet. *)
Record has_taken (w : World) (r : nat) : Prop := {
  tk_unqueued : r ∉ queued w;
  tk_rch : is_Some (rchs w !! r);
  tk_reserved : is_reserved (handlers (dev w)) r = true
}.

Definition pc_ok (w : World) (file : File) (pc : Pc) : Prop :=
  (active pc = true -> is_Some (paths w !! PD file)) /\
  match pc with
  | Read_wants_handler _ _ _ _ kb => own_buffer kb = true
  | Read_wants_mapping _ _ _ _ r => has_taken w r
  | Read_awaits _ _ r => awaits_reply w file r
  | Write_wants_handler _ count _ => 0 <= count < 2 ^ 32
  | Write_wants_mapping _ count _ r => 0 <= count < 2 ^ 32 /\ has_taken w r
  | Release_awaits r => awaits_answer w file r
  | _ => True
  end.

Lemma taken_in_hand w r : dev_inv w -> has_taken w r -> in_hand w r None.
Proof. intros Hi []. by constructor. Qed.

(** ** What a process counts on is kept by whoever spares its handler and its path *)
Lemma pc_ok_spared M G w w' file pc : dev_inv w -> spares M G w w' -> pc_ok w file pc ->
  (forall r, handler_of pc = Some r -> ~ M r) -> (active pc = true -> ~ G (PD file)) -> pc_ok w' file pc.
Proof.
  intros Hi Hs [Hl Hpc] Hm Hg. split; [intros Ha; apply (sp_paths _ _ _ _ Hs); auto|].
  assert (forall r, handler_of pc = Some r -> has_taken w r -> has_taken w' r) as Htaken.
  { intros r E [Hq [x Hx] Hr]. destruct (sp_unqueued _ _ _ _ Hs r (Hm r E) Hq) as (? & Ex & Er).
    constructor; [done|rewrite Ex; by exists x|congruence]. }
  destruct pc; cbn [handler_of] in *; try done.
  - by apply Htaken.
  - destruct Hpc as [Hq (x & m & Hx & Hh & Hp & Hk & Hb & Hv)].
    destruct (sp_queued _ _ _ _ Hs rch x (Hm rch eq_refl) Hq Hx) as [(Hq' & x' & Hx' & Hrep)|(_ & ? & _)]; [|done].
    pose proof (replied_kbuf _ _ Hrep) as Hk'. destruct Hrep as (? & ? & _ & _ & _ & Ek & _ & Hv').
    split; [done|]. exists x', m. rewrite Ek, Hk'. split_and!; try congruence.
    + destruct (kbuf (rchReturn x)); cbn [backs] in *; rewrite ?(sp_maps _ _ _ _ Hs); done.
    + destruct Hv' as [->|[->| ->]]; auto.
  - destruct Hpc as [? ?]. split; [done|]. by apply Htaken.
  - destruct Hpc as (x & Hx & Hd & Hk & Hor). destruct (decide (rch ∈ queued w)) as [Hq|Hq].
    + destruct Hor as [[_ Hp]|[? _]]; [|done].
      destruct (sp_queued _ _ _ _ Hs rch x (Hm rch eq_refl) Hq Hx)
        as [(Hq' & x' & Hx' & Hrep)|(Hq' & _ & _ & x' & Hx' & Hp' & Hd' & Hk')].
      * pose proof (replied_kbuf _ _ Hrep) as Hk'. destruct Hrep as (_ & Ep & Ed & _).
        exists x'. split; [done|]. rewrite Ed, Hk', Ep. split_and!; auto.
      * exists x'. split; [done|]. rewrite Hd', Hk'. split_and!; auto.
    + destruct Hor as [[? _]|[_ Hp]]; [done|].
      destruct (sp_unqueued _ _ _ _ Hs rch (Hm rch eq_refl) Hq) as (? & Ex & _). exists x. rewrite Ex. split_and!; auto.
Qed.

Lemma own_buffer_cases kb : own_buffer kb = true -> kb = KNull \/ exists m, kb = KStack m /\ map_len m <> 0.
Proof.
  destruct kb as [| | |m]; cbn [own_buffer]; try done; [by left|]. intros E. right. exists m.
  split; [done|]. by apply negb_true_iff, Z.eqb_neq in E.
Qed.

Lemma last_use w r x : last_use_ok w r -> rchs w !! r = Some x -> is_Some (rdevice x) /\ pool_kbuf x = None.
Proof. unfold last_use_ok. intros Hok Hx. by rewrite Hx in Hok. Qed.

(** ** The turns *)
Section Turns.
Context `{Platform}.

(** What the turn of a process may touch: its handler, before and after; and the handlers of the path it closes. *)
Definition touches (file : File) (pc : Pc) (w : World) (pc' : Pc) (r : nat) : Prop :=
  handler_of pc = Some r \/ handler_of pc' = Some r \/ (closing pc = true /\ for_path (PD file) w r).
Definition closes (file : File) (pc : Pc) (p : nat) : Prop := closing pc = true /\ PD file = p.

(** The handler a turn takes: it was free. *)
Definition takes (pc : Pc) (t : Turn) (w : World) (r : nat) : Prop :=
  wants_handler pc = true /\ exists j e, t = Takes j /\ entries (handlers (dev w)) !! j = Some e /\
    reserved e = false /\ item e = r.

Record moved (file : File) (pc : Pc) (t : Turn) (w : World) (pc' : Pc) (w' : World) : Prop := {
  mv_inv : dev_inv w';
  mv_idle : idle w';
  mv_spares : spares (touches file pc w pc') (closes file pc) w w';
  mv_pc : pc_ok w' file pc';
  mv_fresh r : handler_of pc' = Some r -> handler_of pc = Some r \/ takes pc t w r;
  mv_closing : active pc' = true -> active pc = true /\ closing pc' = closing pc;
  mv_gone : closing pc = true -> active pc' = false -> paths w' !! PD file = None
}.

Lemma took pc j w e r : wants_handler pc = true -> entries (handlers (dev w)) !! j = Some e -> reserved e = false ->
  r = item e -> takes pc (Takes j) w r.
Proof. intros ? ? ? ->. split; [done|]. by exists j, e. Qed.

Lemma take_rch_blocked_or {B} (j : nat) (k : nat -> MW B) Q E w :
  dev_inv w ->
  (forall e, entries (handlers (dev w)) !! j = Some e -> reserved e = false ->
     dev_inv (taken_rch j w) -> has_taken (taken_rch j w) (item e) -> outcome (k (item e)) Q E (taken_rch j w)) ->
  outcome (let* r := take_entry (A := nat) j in k r) Q E w.
Proof.
  intros Hi Hk. unfold take_entry, outcome. rewrite bind_assoc. erewrite bind_done by reflexivity. cbv beta.
  destruct (entries (host_pool w) !! j) as [e|] eqn:He; [|done]. destruct (reserved e) eqn:Hf; [done|].
  rewrite bind_assoc. change (outcome (k (item e)) Q E (taken_rch j w)). change (host_pool w) with (handlers (dev w)) in He.
  destruct (free_not_queued w j e Hi He Hf) as (Hq & _ & x & Hx).
  apply Hk; [done|done|by eapply taken_rch_inv|]. constructor; [done|by exists x|].
  change (is_reserved (reserve j (handlers (dev w))) (item e) = true).
  rewrite (is_reserved_reserve _ _ e) by (done || apply Hi). by rewrite decide_True.
Qed.

Lemma take_map_blocked_or {B} (j : nat) (k : Kbuf -> MW B) Q E w r :
  in_hand w r None ->
  (forall n, in_hand (taken_map j w) r (Some n) -> outcome (k (KPool n)) Q E (taken_map j w)) ->
  outcome (let* kb := take_entry (A := Kbuf) j in k kb) Q E w.
Proof.
  intros [Hi Hq Hx Hr _] Hk. unfold take_entry, outcome. rewrite bind_assoc. erewrite bind_done by reflexivity. cbv beta.
  destruct (entries (host_pool w) !! j) as [e|] eqn:He; [|done]. destruct (reserved e) eqn:Hf; [done|].
  rewrite bind_assoc. change (outcome (k (item e)) Q E (taken_map j w)). change (host_pool w) with (mappings (dev w)) in He.
  destruct (free_not_held w j e Hi He Hf) as (Hnh & _ & n & m & Ek & Hm & Hl). rewrite Ek in *.
  apply Hk. constructor; try done; [by eapply taken_map_inv|].
  intros n' [= <-]. split; [|split; [done|by exists m]].
  change (is_reserved (reserve j (mappings (dev w))) (KPool n) = true).
  rewrite (is_reserved_reserve _ _ e) by (done || apply Hi). by rewrite Ek, decide_True.
Qed.

Lemma read_posts_total file ubuf count pos code k r m w : in_hand w r (pool_index k) ->
  is_Some (paths w !! PD file) -> backs w k m -> map_len m <> 0 ->
  exists w' msg x, read_posts file ubuf count pos code (bool_decide (is_Some (pool_index k))) k r w =
      Done (Read_awaits ubuf pos r) w' /\
    posted w w' r (PD file) k (read_flags k) i2o_handleReadMessageFile_fn msg x.
Proof.
  intros Hh Hp Hm Hl. unfold read_posts. erewrite bind_done by (by apply kbuf_ref_backs).
  erewrite bind_done by reflexivity. cbv beta zeta. rewrite (proj2 (Z.eqb_neq (map_len m) 0)) by done.
  destruct Hh as [Hi Hq Hx Hr Hk].
  assert ((if bool_decide (is_Some (pool_index k)) then RCH_KB_POOL else 0) = read_flags k) as -> by by destruct k.
  unfold build_incoming_raw_message.
  match goal with |- context [build_hrd_message _ ?pa ?start ?len _ _ _] =>
    destruct (message_sent (ret (Read_awaits ubuf pos r)) file pa start len LDH_INBOUND code
      i2o_handleReadMessageFile_fn w r k (read_flags k)) as (w' & x & -> & Hpo); try done end.
  { rewrite from_pool_flags. intros k' Hk'. destruct k as [|n| |]; try done. injection Hk' as <-.
    by destruct (Hk n eq_refl) as (? & ? & _). }
  eauto.
Qed.

(** Posting, from any place with the handler. *)
Lemma posted_reads ubuf pos file pc t w w1 w' r k msg x m : idle w1 -> handler_of pc = Some r \/ takes pc t w r ->
  spares (touches file pc w (Read_awaits ubuf pos r)) (closes file pc) w w1 -> active pc = true -> closing pc = false ->
  is_Some (paths w1 !! PD file) -> backs w1 k m ->
  posted w1 w' r (PD file) k (read_flags k) i2o_handleReadMessageFile_fn msg x ->
  moved file pc t w (Read_awaits ubuf pos r) w'.
Proof.
  intros Hd Hfr Hs Ha Hc Hp Hm Hpo. pose proof Hpo as [Pi Pq Px _ _ Ps Pp Ph Ppa _ Pv Pk Ppk _].
  injection Ps as Em _ _ _ _ _ _. constructor; [done|by eapply posted_idle| | |by intros ? [= <-]|by split|done].
  - etransitivity; [done|]. eapply spares_posted; [|exact Hpo]. unfold touches. auto.
  - split; [intros _; by eapply paths_kept_is_Some|]. split; [rewrite Pq; set_solver|].
    exists x, m. rewrite Ppk, from_pool_flags, Pk. split_and!; auto. destruct k; cbn [backs] in *; congruence.
Qed.

Lemma finished file pc t w res pos w' : dev_inv w' -> idle w' -> spares (touches file pc w (Finished res pos)) (closes file pc) w w' ->
  (closing pc = true -> paths w' !! PD file = None) -> moved file pc t w (Finished res pos) w'.
Proof. intros ? ? ? Hg. constructor; try done. intros Hc _. by apply Hg. Qed.

Lemma take_rch_moves file ubuf count pos code kb j w : dev_inv w -> idle w ->
  pc_ok w file (Read_wants_handler ubuf count pos code kb) ->
  outcome (resume file (Read_wants_handler ubuf count pos code kb) (Takes j))
    (moved file (Read_wants_handler ubuf count pos code kb) (Takes j) w) reply_fault w.
Proof.
  intros Hi Hd [Hl Hown]. cbn [resume]. apply take_rch_blocked_or; [done|]. intros e He Hf Hi1 Ht.
  apply own_buffer_cases in Hown as [->|(m & -> & Hlen)].
  - rewrite bool_decide_eq_true_2 by done. unfold outcome. cbn [ret]. constructor; try done; [|by intros r [= <-]; right; eapply took].
    apply (spares_taken_rch _ _ j e); [done|done|]. unfold touches. cbn [handler_of]. auto.
  - rewrite bool_decide_eq_false_2 by done.
    destruct (read_posts_total file ubuf count pos code (KStack m) (item e) m (taken_rch j w))
      as (w' & msg & x & E & Hpo); [by apply taken_in_hand|by apply Hl|done|done|].
    cbn [pool_index] in E. rewrite bool_decide_eq_false_2 in E by (by intros []).
    unfold outcome. rewrite E. eapply (posted_reads ubuf pos file _ _ w (taken_rch j w) _ _ _ _ _ m); [done|by right; eapply took| |done|done|by apply Hl| |exact Hpo]; [|done].
    apply (spares_taken_rch _ _ j e); [done|done|]. unfold touches. cbn [handler_of]. auto.
Qed.


Lemma read_map_moves file ubuf count pos code r j w : dev_inv w -> idle w ->
  pc_ok w file (Read_wants_mapping ubuf count pos code r) ->
  outcome (resume file (Read_wants_mapping ubuf count pos code r) (Takes j))
    (moved file (Read_wants_mapping ubuf count pos code r) (Takes j) w) reply_fault w.
Proof.
  intros Hi Hd [Hl Ht]. cbn [resume]. apply (take_map_blocked_or _ _ _ _ _ r); [by apply taken_in_hand|].
  intros n Hh. destruct (ih_map _ _ _ Hh n eq_refl) as (_ & _ & m & Hm & Hlen).
  destruct (read_posts_total file ubuf count pos code (KPool n) r m (taken_map j w))
    as (w' & msg & x & E & Hpo); [done|by apply Hl|done|lia|].
  cbn [pool_index] in E. rewrite bool_decide_eq_true_2 in E by (by eexists).
  unfold outcome. rewrite E.
  eapply (posted_reads ubuf pos file _ _ w (taken_map j w) _ _ _ _ _ m); [done|by left| |done|done|by apply Hl| |exact Hpo]; [|done].
  apply spares_taken_map.
Qed.

(** The time is over: the handler is freed, without anything it had. *)
Lemma gives_up file pc t r pos w : dev_inv w -> idle w -> has_taken w r -> handler_of pc = Some r -> closing pc = false -> last_use_ok w r ->
  outcome (i2o_recycleRch r >> ret (Finished (- ETIMEDOUT) pos)) (moved file pc t w) reply_fault w.
Proof.
  intros Hi Hd [Hq [x Hx] Hr] Hpc Hncl Hok. destruct (last_use w r x Hok Hx) as [Hdv Hk].
  unfold outcome. erewrite bind_done by (apply (recycle_again r x); [done..|by apply (Hd r x)|done]). cbn [ret].
  destruct (rch_freed_facts r w) as (_ & _ & Eq & Er & _). apply finished; [..|congruence].
  - by apply rch_freed_inv.
  - intros r' x'. rewrite Er, Eq. apply Hd.
  - apply spares_freed; [done|]. by left.
Qed.

Lemma read_end_moves file ubuf pos r t w : dev_inv w -> idle w -> pc_ok w file (Read_awaits ubuf pos r) ->
  outcome (finish (read_end file ubuf pos r)) (moved file (Read_awaits ubuf pos r) t w) reply_fault w.
Proof.
  intros Hi Hd [Hl [Hq (x & m & Hx & Hh & Hp & Hk & Hb & Hv)]].
  apply (outcome_then _ _ _ _ _ _ (read_end_spec file ubuf pos w r x _ m Hi Hq Hx eq_refl Hb Hv)).
  assert (forall pc', touches file (Read_awaits ubuf pos r) w pc' r) as Ht by (intros; by left).
  intros [res pos'] w' Hends. unfold outcome. cbn [ret fst snd].
  inversion Hends as [Hv0|n Hv1 En]; subst; (apply finished; [..|done]).
  - by apply inv_upd_queued.
  - intros r' y. cbn. destruct (decide (r' = r)) as [->|]; [done|]. rewrite list_lookup_alter_ne by done. apply Hd.
  - by apply spares_upd.
  - by apply recycled_inv; [apply copied_out_inv|..].
  - by apply recycled_idle; [apply copied_out_inv|..].
  - etransitivity; [|by apply (spares_recycled _ _ (copied_out ubuf m (u32 (nbytes (rchReturn x))) w) r x); [apply copied_out_inv|..]].
    by apply spares_others.
Qed.

Lemma wait_over_moves {B} (r : nat) (t : Turn) (k : MW B) Q E w :
  outcome k Q E w -> outcome (let* b := wait_over r t in if b then k else block) Q E w.
Proof.
  intros Hk. unfold wait_over, outcome. rewrite bind_assoc. erewrite bind_done by reflexivity. cbv beta.
  destruct t; try done; (erewrite bind_done by reflexivity); cbv beta.
  - by destruct (rch_valid r w).
  - by destruct (sigpending w).
Qed.

Lemma write_rch_moves file ubuf count pos j w : dev_inv w -> idle w -> pc_ok w file (Write_wants_handler ubuf count pos) ->
  outcome (resume file (Write_wants_handler ubuf count pos) (Takes j))
    (moved file (Write_wants_handler ubuf count pos) (Takes j) w) reply_fault w.
Proof.
  intros Hi Hd [Hl Hc]. cbn [resume]. apply take_rch_blocked_or; [done|]. intros e He Hf Hi1 Ht.
  unfold outcome. cbn [ret]. constructor; try done; [|by intros r [= <-]; right; eapply took].
  apply (spares_taken_rch _ _ j e); [done|done|]. unfold touches. cbn [handler_of]. auto.
Qed.

Lemma write_map_moves file ubuf count pos r j w : dev_inv w -> idle w ->
  pc_ok w file (Write_wants_mapping ubuf count pos r) ->
  outcome (resume file (Write_wants_mapping ubuf count pos r) (Takes j))
    (moved file (Write_wants_mapping ubuf count pos r) (Takes j) w) reply_fault w.
Proof.
  intros Hi Hd [Hl [Hc Ht]]. cbn [resume]. apply (take_map_blocked_or _ _ _ _ _ r); [by apply taken_in_hand|].
  intros n Hh. pose proof (write_with_spec file ubuf pos count (taken_map j w) r n Hc Hh (Hl eq_refl)) as Hw.
  unfold finish. apply (outcome_then _ _ _ _ _ (write_done file ubuf pos count (taken_map j w) r n)).
  { unfold total, outcome in *. by destruct (write_with file ubuf pos r (KPool n) count (taken_map j w)). }
  intros res w' Hdone. unfold outcome. cbn [ret]. destruct Hdone as [_|m n' msg x w' _ _ _ Hsv Hpo _ _|m n' msg x w' _ _ _ Hsv Hpo _ _].
  { apply finished; [apply Hh|done|apply spares_taken_map|done]. }
  all: destruct (Hsv Hd) as [Hi' Hd' _]; (apply finished; [done|done| |done]);
    (etransitivity; [apply (spares_taken_map _ _ j)|]);
    (transitivity (write_copied ubuf (taken_map j w) m n'); [by apply spares_others|]);
    (eapply spares_posted; [|exact Hpo]); by left.
Qed.

Lemma release_begin_moves file code t w : dev_inv w -> idle w -> pc_ok w file (Release_starts code) ->
  outcome (release_begins file code) (moved file (Release_starts code) t w) reply_fault w.
Proof.
  intros Hi Hd [Hl _]. pose proof (Hl eq_refl) as Hp. pose proof Hp as [x Hx]. unfold release_begins.
  unfold outcome. erewrite bind_done by by apply path_ref_eq. cbv zeta.
  assert (forall start outb cf, outcome (let* m := build_hrd_message file 0 start 0 1 outb cf in
    ret (Release_wants_handler m)) (moved file (Release_starts code) t w) reply_fault w) as Hmsg.
  { intros start outb cf. destruct (build_message_own file 0 start 0 1 outb cf w Hp) as (m & w1 & E & Ho & _).
    unfold outcome. erewrite bind_done by exact E. cbn [ret]. pose proof (inv_own _ _ Hi Ho) as Hi1.
    pose proof Ho as [Ho1 Hk]. unfold own in Ho1. injection Ho1 as Eq Er _ _ _ _ _ _ _ _ _.
    constructor; [done| |by apply spares_own_paths| |done|by split|done].
    - intros r y. rewrite Er, Eq. apply Hd.
    - split; [|done]. intros _. by eapply paths_kept_is_Some. }
  destruct (_ =? LDH_OUTBOUND); [apply Hmsg|]. destruct (_ =? LDH_INBOUND); [apply Hmsg|].
  apply (outcome_bind (_cleanup_on_bridge_release (PD file) >> acq200_release file) _ _ _ _ _
    (close_spares (PD file) (touches file (Release_starts code) w (Finished 0 0)) file w w eq_refl Hi Hd Hp
      ltac:(unfold touches; auto) ltac:(reflexivity))).
  intros rc w' (Hi' & Hd' & Hg & Hs). unfold outcome. cbn [ret]. apply finished; [done|done| |done].
  eapply spares_mono; [| |exact Hs]; [done|by split].
Qed.

Lemma release_posts_moves file message j w : dev_inv w -> idle w -> pc_ok w file (Release_wants_handler message) ->
  outcome (resume file (Release_wants_handler message) (Takes j))
    (moved file (Release_wants_handler message) (Takes j) w) reply_fault w.
Proof.
  intros Hi Hd [Hl _]. pose proof (Hl eq_refl) as Hp.
  cbn [resume]. apply take_rch_blocked_or; [done|]. intros e He Hf Hi1 [Hq [y Hy] Hr].
  destruct (post_request (taken_rch j w) (item e) y KNull RCH_KB_POOL i2o_handleLastMessage_fn (PD file) message
    Hi1 Hq Hy Hp Hr ltac:(done)) as (rc & w' & x & E & Hpo).
  unfold outcome, release_posts. erewrite bind_three by exact E. cbn [ret].
  pose proof Hpo as [Pi Pq Px _ _ _ Pp _ Ppa _ _ _ Ppk _].
  assert (item e ∈ queued w') as Hq' by (rewrite Pq; set_solver).
  destruct (queued_facts w' _ x Pi Hq' Px) as [_ Hdv _ _ _].
  constructor; [done|exact (posted_idle (taken_rch j w) w' _ _ _ _ _ _ _ Hd Hpo)| | |by intros r [= <-]; right; eapply took|by split|done].
  - transitivity (taken_rch j w).
    + apply (spares_taken_rch _ _ j e); [done|done|]. unfold touches. cbn [handler_of]. auto.
    + eapply spares_posted; [|exact Hpo]. unfold touches. cbn [handler_of]. auto.
  - split; [intros _; by eapply paths_kept_is_Some|]. exists x. split_and!; auto.
Qed.

(** Recycling the handler of the last message, which may have been recycled before. *)
Lemma recycle_last file r x w M G : dev_inv w -> idle w -> M r -> rchs w !! r = Some x -> is_Some (rdevice x) ->
  pool_kbuf x = None -> (r ∈ queued w /\ rpath x = Some (PD file) \/ r ∉ queued w /\ rpath x = None) ->
  exists w', i2o_recycleRch r w = Done tt w' /\ dev_inv w' /\ idle w' /\ paths w' = paths w /\
    (forall r', for_path (PD file) w' r' -> for_path (PD file) w r') /\ spares M G w w'.
Proof.
  intros Hi Hd Hm Hx Hdv Hk [[Hq Hp]|[Hq Hp]].
  - exists (recycled r x w). split; [by apply recycle_queued|].
    split; [by apply recycled_inv|]. split; [by apply recycled_idle|].
    split; [by apply recycled_facts; rewrite Hp; eexists|]. split; [|by apply spares_recycled].
    intros r' (y & Hy & Hpy). destruct (decide (r' = r)) as [->|Hne]; [by exists x|].
    rewrite (recycled_rchs w r x) in Hy by done. by exists y.
  - exists (rch_freed r w). destruct (rch_freed_facts r w) as (_ & _ & Eq & Er & Ep & _).
    split; [by apply (recycle_again r x)|]. split; [by apply rch_freed_inv|].
    split; [intros r' y; rewrite Er, Eq; apply Hd|]. split; [done|]. split; [|by apply spares_freed].
    intros r' (y & Hy & Hpy). rewrite Er in Hy. by exists y.
Qed.

Lemma release_end_moves file r t w : dev_inv w -> idle w -> pc_ok w file (Release_awaits r) ->
  outcome (let* rc := release_end file r in ret (Finished rc 0)) (moved file (Release_awaits r) t w) reply_fault w.
Proof.
  intros Hi Hd [Hl (x & Hx & Hdv & Hk & Hor)]. pose proof (Hl eq_refl) as Hp.
  set (M := touches file (Release_awaits r) w (Finished 0 0)).
  assert (M r) as Hm by by left.
  eapply outcome_bind; [|intros rc w' Hw; unfold outcome; cbn [ret]; exact Hw]. unfold release_end, safe.
  erewrite bind_done by by apply rch_ref_eq. apply (safe_bind (when _ _)).
  eapply (safe_mono _ (fun _ w1 => dev_inv w1 /\ idle w1 /\ paths w1 = paths w /\
    (forall r', for_path (PD file) w1 r' -> for_path (PD file) w r') /\ spares M (eq (PD file)) w w1)).
  { destruct (_ =? 1); cbn [when]; [|by apply safe_ret].
    destruct (recycle_last file r x w M (eq (PD file)) Hi Hd Hm Hx Hdv Hk Hor) as (w1 & E & Hw1).
    unfold safe. by rewrite E. }
  intros [] w1 (Hi1 & Hd1 & Ep & Hfp & Hs1).
  eapply safe_mono; [apply (close_spares (PD file) M file w w1); try done; [by rewrite Ep|]|].
  - intros r' Hf. right. right. split; [done|]. by apply Hfp.
  - intros rc w' (Hi' & Hd' & Hg & Hs). apply finished; [done|done| |done]. eapply spares_mono; [| |exact Hs]; [done|by split].
Qed.

(** Every turn of a process that is in its place: it comes to such a place again and spares the others;
    or it is blocked; or its reply reported an error and its handler is unlinked twice. *)
Lemma resume_moves file pc t w : dev_inv w -> idle w -> pc_ok w file pc ->
  (forall r, t = Times_out -> handler_of pc = Some r -> last_use_ok w r) ->
  outcome (resume file pc t) (moved file pc t w) reply_fault w.
Proof.
  intros Hi Hd Hpc Ht. destruct pc as [u c p code kb|u c p code r|u p r|u c p|u c p r|code|msg|r|res p]; cbn [resume].
  - destruct t; try done. by apply take_rch_moves.
  - destruct t; try done; [by apply read_map_moves|]. apply (gives_up _ _ _ r); try done; [apply Hpc|auto].
  - apply wait_over_moves. by apply read_end_moves.
  - destruct t; try done. by apply write_rch_moves.
  - destruct t; try done; [by apply write_map_moves|]. apply (gives_up _ _ _ r); try done; [apply Hpc|auto].
  - destruct t; try done. by apply release_begin_moves.
  - destruct t; try done; by apply release_posts_moves.
  - apply wait_over_moves. by apply release_end_moves.
  - done.
Qed.
End Turns.

(** ** The machine *)
Record machine_inv (m : Machine) : Prop := {
  mi_inv : dev_inv (world m);
  mi_idle : idle (world m);
  mi_procs i file pc : procs m !! i = Some (file, pc) -> pc_ok (world m) file pc;
  mi_apart i j file g pc pc' r : procs m !! i = Some (file, pc) -> procs m !! j = Some (g, pc') ->
    handler_of pc = Some r -> handler_of pc' = Some r -> i = j;
  mi_alone i j file g pc pc' : procs m !! i = Some (file, pc) -> procs m !! j = Some (g, pc') ->
    closing pc = true -> active pc' = true -> PD g = PD file -> i = j
}.

(** The handler of a process is reserved or queued, and if it refers to a path, to its own. *)
Lemma handler_place w file pc r : idle w -> pc_ok w file pc -> handler_of pc = Some r ->
  (is_reserved (handlers (dev w)) r = true \/ r ∈ queued w \/ pc = Release_awaits r) /\
  active pc = true /\ forall p, for_path p w r -> p = PD file.
Proof.
  intros Hd [_ Hpc] Hr.
  assert (has_taken w r -> forall p, for_path p w r -> p = PD file) as Ht.
  { intros [Hq _ _] p (x & Hx & Hp). pose proof (Hd r x Hx Hq). congruence. }
  destruct pc; cbn [handler_of] in Hr; simplify_eq; (split; [|split; [done|]]).
  - left. apply Hpc.
  - by apply Ht.
  - right. left. apply Hpc.
  - intros p (y & Hy & Hp). destruct Hpc as [_ (x & m & Hx & _ & ? & _)]. congruence.
  - left. apply (proj2 Hpc).
  - exact (Ht (proj2 Hpc)).
  - auto.
  - intros p (y & Hy & Hp). destruct Hpc as (x & Hx & _ & _ & [[_ ?]|[_ ?]]); congruence.
Qed.

Section Machine.
Context `{Platform}.

Lemma others_untouched m i j file g pc pcj t pc' w' r : machine_inv m ->
  procs m !! i = Some (file, pc) -> procs m !! j = Some (g, pcj) -> i <> j -> orderly m i pc t ->
  moved file pc t (world m) pc' w' -> handler_of pcj = Some r -> ~ touches file pc (world m) pc' r.
Proof.
  intros Hm Hp Hpj Hne Ho Hmv Hr Ht.
  destruct (handler_place _ _ _ _ (mi_idle _ Hm) (mi_procs _ Hm _ _ _ Hpj) Hr) as (Hplace & Ha & Hpath).
  assert (handler_of pc <> Some r) as Hnr by (intros E; by apply Hne, (mi_apart _ Hm i j file g pc pcj r)).
  destruct Ht as [?|[Hr'|[Hc Hf]]]; [done| |].
  - destruct (mv_fresh _ _ _ _ _ _ Hmv r Hr') as [?|(Hw & k & e & -> & He & Hfree & <-)]; [done|].
    destruct (free_not_queued _ k e (mi_inv _ Hm) He Hfree) as (Hnq & Hnres & _).
    destruct Hplace as [?|[?| ->]]; [congruence|done|].
    specialize (Ho Hw). unfold not_awaited in Ho. rewrite He in Ho. by apply (Ho j (g, Release_awaits (item e))).
  - apply Hne, (mi_alone _ Hm i j file g pc pcj); try done. by rewrite (Hpath _ Hf).
Qed.

(** A step that spares every process but [i], which comes to a place of its own. *)
Lemma resumed_inv m i file pc t pc' w' : machine_inv m -> procs m !! i = Some (file, pc) -> orderly m i pc t ->
  moved file pc t (world m) pc' w' -> machine_inv (mkMachine w' (<[i := (file, pc')]> (procs m))).
Proof.
  intros Hm Hp Ho Hmv. constructor; cbn [world procs].
  - apply Hmv.
  - apply Hmv.
  - intros j g pcj. destruct (decide (j = i)) as [->|Hne].
    + rewrite lookup_insert_eq. intros [= <- <-]. apply Hmv.
    + rewrite lookup_insert_ne by done. intros Hpj.
      apply (pc_ok_spared (touches file pc (world m) pc') (closes file pc) (world m)); [apply Hm|apply Hmv|by eapply mi_procs|..].
      * intros r Hr. by apply (others_untouched m i j file g pc pcj t pc' w').
      * intros Ha [Hc E]. by apply Hne, eq_sym, (mi_alone _ Hm i j file g pc pcj).
  - assert (forall j g pcj r, procs m !! j = Some (g, pcj) -> j <> i -> handler_of pcj = Some r ->
      handler_of pc' = Some r -> False) as Hfr.
    { intros j g pcj r Hpj Hne Hrj Hr'.
      apply (others_untouched m i j file g pc pcj t pc' w' r Hm Hp Hpj (not_eq_sym Hne) Ho Hmv Hrj).
      right. by left. }
    intros j k g h pcj pck r.
    destruct (decide (j = i)) as [->|Hnj], (decide (k = i)) as [->|Hnk];
      rewrite ?lookup_insert_eq, ?lookup_insert_ne by done.
    + done.
    + intros [= <- <-] ? ? ?. exfalso. by eapply Hfr.
    + intros ? [= <- <-] ? ?. exfalso. by eapply Hfr.
    + apply (mi_apart _ Hm).
  - intros j k g h pcj pck.
    destruct (decide (j = i)) as [->|Hnj], (decide (k = i)) as [->|Hnk];
      rewrite ?lookup_insert_eq, ?lookup_insert_ne by done.
    + done.
    + intros [= <- <-] Hk Hc. assert (active pc' = true) as Ha by by destruct pc'.
      destruct (mv_closing _ _ _ _ _ _ Hmv Ha) as [_ E]. rewrite E in Hc. by apply (mi_alone _ Hm i k file h pc pck).
    + intros Hj [= <- <-] Hc Ha. destruct (mv_closing _ _ _ _ _ _ Hmv Ha) as [Ha' _].
      by apply (mi_alone _ Hm j i g file pcj pc).
    + apply (mi_alone _ Hm).
Qed.

(** A step that is not a turn spares every process. *)
Lemma spared_inv m w' : machine_inv m -> dev_inv w' -> idle w' -> spares (fun _ => False) (fun _ => False) (world m) w' ->
  machine_inv (mkMachine w' (procs m)).
Proof.
  intros Hm Hi Hd Hs. constructor; cbn [world procs]; [done|done| |apply Hm|apply Hm].
  intros i file pc Hp. eapply pc_ok_spared; [apply Hm|exact Hs|by eapply mi_procs|naive_solver|naive_solver].
Qed.

Lemma queue_path p w w' : dev_inv w -> enqueue (path_waitq p) w = Done tt w' -> evolves w w'.
Proof.
  intros Hi E. assert (is_Some (paths w !! p)) as Hp.
  { cbn in E. unfold path_upd, path_ref, bind, gets, deref in E. destruct (paths w !! p); [by eexists|done]. }
  pose proof (path_queue_ok p w Hi Hp w (evolves_refl w Hi)) as Hq. unfold total in Hq. rewrite E in Hq. apply Hq.
Qed.

Lemma env_evolves w w' : dev_inv w -> env_step w w' -> evolves w w'.
Proof.
  intros Hi [e w1 E|evs sig|q w1 Hq E].
  - pose proof (run_event_spec e w Hi) as Ht. unfold total in Ht. by rewrite E in Ht.
  - apply evolves_same; [done|]. by constructor.
  - destruct Hq as [p| |]; [by eapply queue_path|..]; injection E as <-; (apply evolves_same; [done|by constructor]).
Qed.

Lemma called_inv m i file pc : machine_inv m ->
  (forall g pc', procs m !! i = Some (g, pc') -> active pc' = false) -> may_start m file pc ->
  machine_inv (mkMachine (world m) (<[i := (file, pc)]> (procs m))).
Proof.
  intros Hm Hi (Hc & Hl & Halone). assert (handler_of pc = None) as Hnone by by destruct pc.
  constructor; cbn [world procs]; [apply Hm|apply Hm|..].
  - intros j g pcj. destruct (decide (j = i)) as [->|Hne]; [|rewrite lookup_insert_ne by done; apply Hm].
    rewrite lookup_insert_eq. intros [= <- <-]. split; [done|]. destruct pc; try done.
    cbn in Hc. lia.
  - intros j k g h pcj pck r.
    destruct (decide (j = i)) as [->|Hnj], (decide (k = i)) as [->|Hnk];
      rewrite ?lookup_insert_eq, ?lookup_insert_ne by done; [done|congruence|congruence|apply (mi_apart _ Hm)].
  - intros j k g h pcj pck.
    destruct (decide (j = i)) as [->|Hnj], (decide (k = i)) as [->|Hnk];
      rewrite ?lookup_insert_eq, ?lookup_insert_ne by done; [done| | |apply (mi_alone _ Hm)].
    + intros [= <- <-] Hk Hcl Ha Ep. destruct (Halone k (h, pck) Hk Ha Ep). congruence.
    + intros Hj [= <- <-] Hcl _ Ep. destruct (Halone j (g, pcj) Hj) as [_ E]; cbn in *; [by destruct pcj|done|congruence].
Qed.

Lemma opened_inv m p i_rdev w' : machine_inv m -> paths (world m) !! p = None ->
  acq200_createPath i_rdev (Some p) (world m) = Done p w' -> machine_inv (mkMachine w' (procs m)).
Proof.
  intros Hm Hp E. injection E as <-.
  assert (forall q x, is_Some (paths (world m) !! q) -> is_Some (<[p := x]> (paths (world m)) !! q)) as Hlive.
  { intros q x Hq. destruct (decide (q = p)) as [->|]; [rewrite lookup_insert_eq; by eexists|by rewrite lookup_insert_ne]. }
  apply spared_inv; [done| |apply Hm|apply spares_others; [done| |done]; intros q _; apply Hlive].
  apply (inv_same (world m)); [apply Hm|done..| |done|done]. intros q. apply Hlive.
Qed.

Lemma machine_step_inv m m' : machine_inv m -> machine_step orderly m m' -> machine_inv m'.
Proof.
  intros Hm [i file pc t pc' w' Hp Ho E|w' He|i file pc Hi Hs|p i_rdev w' Hp E].
  - eapply resumed_inv; [done..|].
    pose proof (resume_moves file pc t (world m) (mi_inv _ Hm) (mi_idle _ Hm) (mi_procs _ Hm _ _ _ Hp)) as Hr.
    unfold outcome in Hr. rewrite E in Hr. apply Hr. intros r -> Hpc. unfold orderly in Ho. by rewrite Hpc in Ho.
  - pose proof (env_evolves _ _ (mi_inv _ Hm) He) as Hev. apply spared_inv; [done|apply Hev| |].
    + by apply (evolves_idle (world m)); [apply Hm|..|apply Hm].
    + apply spares_evolves; [apply Hm|done].
  - by apply called_inv.
  - by eapply opened_inv.
Qed.

(** What is reached is in order, and so is the next turn of every process. *)
Lemma reached_inv m m' : machine_inv m -> rtc (machine_step orderly) m m' -> machine_inv m'.
Proof. intros Hm Hr. induction Hr; [done|]. by apply IHHr, (machine_step_inv x). Qed.

(** No two reads wait with the same mapping. *)
Definition readers_apart (m : Machine) : Prop :=
  forall i j file g u p r u' p' r' x x' k,
    procs m !! i = Some (file, Read_awaits u p r) -> procs m !! j = Some (g, Read_awaits u' p' r') ->
    rchs (world m) !! r = Some x -> rchs (world m) !! r' = Some x' ->
    pool_kbuf x = Some k -> pool_kbuf x' = Some k -> i = j.

Lemma inv_readers_apart m : machine_inv m -> readers_apart m.
Proof.
  intros Hm i j file g u p r u' p' r' x x' k Hi Hj Hx Hx' Hk Hk'.
  destruct (mi_procs _ Hm _ _ _ Hi) as [_ [Hq _]], (mi_procs _ Hm _ _ _ Hj) as [_ [Hq' _]].
  assert (r = r') as <- by (eapply (di_holder _ (mi_inv _ Hm)); split; eauto).
  by apply (mi_apart _ Hm i j file g (Read_awaits u p r) (Read_awaits u' p' r) r).
Qed.

(** C2: reads, writes, closes and opens of any number of processes, interleaved at their sleeps with each
    other and with the card and the kernel in any order, keep the device in order, every process in its
    place, its handler its own, and no two reads with one mapping; and whichever process runs next, and
    whatever ends its sleep, its turn is done, or leaves it asleep, but for the fault of a reply that
    reports an error, whose handler is unlinked twice; when the turn ends a close, the path is gone, so no
    queued handler refers to it.  Two turns are excluded: to be given the handler
    of a last message that was answered before the closing process noticed, and to give up waiting for a
    mapping with a handler that had one in its last use. *)
Theorem interleaved_safe m m' : machine_inv m -> rtc (machine_step orderly) m m' ->
  machine_inv m' /\ readers_apart m' /\
  forall i file pc t, procs m' !! i = Some (file, pc) -> orderly m' i pc t ->
    outcome (resume file pc t) (fun pc' w' => machine_inv (mkMachine w' (<[i := (file, pc')]> (procs m'))) /\
        (closing pc = true -> active pc' = false -> paths w' !! PD file = None))
      reply_fault (world m').
Proof.
  intros Hm Hr. pose proof (reached_inv m m' Hm Hr) as Hm'. split; [done|].
  split; [by apply inv_readers_apart|]. intros i file pc t Hp Ho.
  eapply outcome_mono; [apply (resume_moves file pc t (world m')); [apply Hm'|apply Hm'|by eapply mi_procs|]|..].
  - intros r -> Hpc. unfold orderly in Ho. by rewrite Hpc in Ho.
  - intros pc' w' Hmv. split; [by eapply resumed_inv|apply Hmv].
  - done.
Qed.

(** C6: a read whose reply has come is not held up, however the other processes and the card went on since
    it slept: woken, it returns the number of bytes in the reply, delivers that many bytes of the mapping it
    reserved, which is no other request's, and frees its handler and the mapping. *)
Theorem answered_read_finishes m m' i file ubuf pos r x : machine_inv m -> rtc (machine_step orderly) m m' ->
  procs m' !! i = Some (file, Read_awaits ubuf pos r) -> rchs (world m') !! r = Some x -> valid (rchReturn x) = 1 ->
  let n := u32 (nbytes (rchReturn x)) in
  exists b w', resume file (Read_awaits ubuf pos r) Wakes (world m') = Done (Finished (s32 n) (pos + n)) w' /\
    backs (world m') (kbuf (rchReturn x)) b /\ delivered ubuf b n (world m') w' /\
    r ∉ queued w' /\ is_reserved (handlers (dev w')) r = false /\
    forall k, pool_kbuf x = Some k ->
      is_reserved (mappings (dev w')) k = false /\ forall r', holds (world m') r' k -> r' = r.
Proof.
  intros Hm Hr Hp Hx Hv n. pose proof (reached_inv m m' Hm Hr) as Hm'. set (w := world m') in *.
  pose proof (mi_inv _ Hm') as Hi. destruct (mi_procs _ Hm' _ _ _ Hp) as [_ [Hq (x' & b & Hx' & _ & _ & _ & Hb & _)]].
  fold w in Hi, Hq, Hx', Hb. assert (x' = x) as -> by congruence.
  exists b, (recycled r x (copied_out ubuf b n w)). pose proof (copied_out_inv ubuf b n w Hi) as Hi2.
  set (w2 := copied_out ubuf b n w) in *.
  split.
  { cbn [resume]. unfold wait_over. rewrite bind_assoc. erewrite bind_done by reflexivity. cbv beta.
    unfold rch_valid. rewrite Hx, Hv. erewrite bind_done by reflexivity. cbn [istrue negb Z.eqb].
    unfold finish. by erewrite bind_done by by apply (read_end_taken file ubuf pos w r x (kbuf (rchReturn x)) b). }
  split; [done|]. split.
  { unfold delivered. by rewrite (sr_umem _ _ (recycled_rest r x w2)), (sr_mem _ _ (recycled_rest r x w2)). }
  split; [by rewrite (recycled_queued w2 r x) by done; intros []|].
  split; [by rewrite (recycled_handlers w2 r x), decide_True|].
  intros k Hk. split; [by rewrite (recycled_maps w2 r x), decide_True|].
  intros r' Hh. apply (di_holder _ Hi r' r k); [done|]. split; [done|]. by exists x.
Qed.
End Machine.
