(* ===== verification/Shared.v ===== *)
(** * Bridge and mailboxes at the same time

    The machine of Interleaved.v and the one of Exclusion.v on one device: processes that read, write, close and
    open nodes of the bridge, and processes that make mailbox requests.  What the mailbox requests rely on
    is proved of the bridge here, and the other way round: a turn of the bridge leaves the mailboxes and
    their semaphore alone ([bridge_elsewhere]), a turn of a mailbox request leaves handlers, mappings and
    paths alone ([mbox_same_own]).

    A close of a path that has a request set for it ([MBC_FLAGS_ONRELEASE]) makes that request itself,
    within one turn; such turns are left out here ([apart]). *)

From S2P Require Import Prelude BusProt StreamBuf Pool Device Rch I2o Isr Kernel Outer.
From S2P Require Import Owner Frames Sleep Mask Mailbox Exclusion Path Bridge Acquire Requests Writes Release Spares.
From S2P Require Import Processes Interleaved.

(** ** Computations that are aside of the mailboxes *)
Notation aside := (within elsewhere).

Lemma aside_keeps {A} (m : MW A) : keeps m -> aside m.
Proof. apply within_mono. intros w w' [Ho Hq]. split; [|done]. unfold outer in Ho. cbn. congruence. Qed.

Section Bridge.
Context `{Platform}.

#[local] Hint Resolve keeps_readl : c_keeps.
#[local] Hint Extern 1 (keeps (writel _ _)) => apply keeps_writel; reflexivity : c_keeps.

Lemma keeps_path_ref p : keeps (path_ref p).
Proof. unfold path_ref. keeps. Qed.
Lemma keeps_copy_from_user va ubuf count : keeps (copy_from_user va ubuf count).
Proof. intros w. split; [done|]. by eapply box_quiet_one. Qed.
Lemma keeps_kbuf_ref k : keeps (kbuf_ref k).
Proof. destruct k; cbn [kbuf_ref]; unfold path_ref; keeps. Qed.
#[local] Hint Resolve keeps_path_ref keeps_copy_from_user keeps_kbuf_ref : c_keeps.

Lemma keeps_take {A} `{PoolHost World A} j : (forall f, keeps (modify (host_set_pool f))) -> keeps (take_entry (A := A) j).
Proof. intros Hf. unfold take_entry. keeps. Qed.
Lemma keeps_take_rch j : keeps (take_entry (A := nat) j).
Proof. apply keeps_take. intros f. keeps. Qed.
Lemma keeps_take_map j : keeps (take_entry (A := Kbuf) j).
Proof. apply keeps_take. intros f. keeps. Qed.
Lemma keeps_memcpy d m : keeps (memcpy_message d m).
Proof. intros w. split; [done|]. by eapply box_quiet_one. Qed.
#[local] Hint Resolve keeps_take_rch keeps_take_map keeps_memcpy : c_keeps.

Lemma keeps_send p m : keeps (acq200_sendI2O_kbuf p m).
Proof. unfold acq200_sendI2O_kbuf. cbv zeta. keeps. Qed.
Lemma keeps_incoming file pa pos count code : keeps (build_incoming_raw_message file pa pos count code).
Proof. unfold build_incoming_raw_message, build_hrd_message. cbv zeta. keeps. Qed.
Lemma keeps_outgoing file pa pos count code : keeps (build_outgoing_raw_message file pa pos count code).
Proof. unfold build_outgoing_raw_message, build_hrd_message. cbv zeta. keeps. Qed.
Lemma keeps_build r h p k fl : keeps (buildRch r h p k fl).
Proof. unfold buildRch. keeps. Qed.
Lemma keeps_append r : keeps (rchAppend r).
Proof. unfold rchAppend, list_add_tail, upd_rch_list, set_link. keeps. Qed.
Lemma keeps_remove_invalid r : keeps (rchRemoveIfNotValid r).
Proof. unfold rchRemoveIfNotValid. keeps. Qed.
Lemma keeps_over r t : keeps (wait_over r t).
Proof. unfold wait_over. keeps. Qed.
#[local] Hint Resolve keeps_send keeps_incoming keeps_outgoing keeps_build keeps_append keeps_remove_invalid keeps_over : c_keeps.

#[local] Hint Resolve keeps_cleanup : c_keeps.

Lemma copy_out_aside file ubuf va n : aside (acq200_copy_from_io_to_user file ubuf va n).
Proof.
  intros w. unfold acq200_copy_from_io_to_user, bind, get_world, gets. cbv beta iota.
  destruct (istrue _); [exact (elsewhere_refl w)|]. split; [done|by apply box_quiet_same].
Qed.
Lemma up_AB_aside : aside (up AB_busy_sem).
Proof. intros w. split; [done|by apply box_quiet_same]. Qed.
#[local] Hint Resolve copy_out_aside up_AB_aside : c_keeps.
#[local] Hint Extern 2 (aside _) => apply aside_keeps; solve [keeps] : c_keeps.
Ltac aside := within ltac:(apply aside_keeps; solve [keeps]).

Lemma read_posts_aside file ubuf count pos code pool kb r : aside (read_posts file ubuf count pos code pool kb r).
Proof. unfold read_posts. cbv zeta. aside. Qed.
Lemma write_with_aside file ubuf pos r k count : aside (write_with file ubuf pos r k count).
Proof. unfold write_with, acq200_copy_from_user_to_io. cbv zeta. aside. Qed.
Lemma read_end_aside file ubuf pos r : aside (read_end file ubuf pos r).
Proof. unfold read_end. cbv zeta. aside. Qed.
Lemma release_posts_aside file m r : aside (release_posts file m r).
Proof. unfold release_posts. aside. Qed.
#[local] Hint Resolve read_posts_aside write_with_aside read_end_aside release_posts_aside : c_keeps.

Lemma open_turn_aside file pc t : (forall code, pc <> Release_starts code) -> (forall r, pc <> Release_awaits r) ->
  aside (resume file pc t).
Proof.
  intros H1 H2. destruct pc, t; cbn [resume]; unfold finish; try done; try (by destruct (H1 hrd_code)); try (by destruct (H2 rch)); aside.
Qed.

(** ** Closing, when no request is set for it *)
Definition no_request (w : World) (p : nat) : Prop :=
  forall x, paths w !! p = Some x -> istrue (Z.land (mbc_flags (mbc_on_release x)) MBC_FLAGS_ONRELEASE) = false.

Definition same_paths (w w' : World) : Prop := paths w' = paths w.
#[local] Instance same_paths_preorder : PreOrder same_paths.
Proof. split; [done|]. intros w1 w2 w3 E1 E2. unfold same_paths in *. congruence. Qed.

Lemma recycle_paths r : within same_paths (i2o_recycleRch r).
Proof.
  unfold i2o_recycleRch, rchRemove, list_del, upd_rch_list, set_link, acq200_pool_free_mapping, acq200_pool_free_rch,
    _free, rch_upd, rch_ref.
  cbn [host_set_pool host_wake mappings_host handlers_host].
  within ltac:(apply within_modify; intros ?; reflexivity).
Qed.
#[local] Hint Resolve recycle_paths : c_keeps.

Lemma cleanup_paths p : within same_paths (_cleanup_on_bridge_release p).
Proof.
  assert (forall l, within same_paths (find_path p l)) as Hfind.
  { intros l. induction l; cbn [find_path]; unfold rch_ref; within fail. }
  unfold _cleanup_on_bridge_release. apply within_bind; [apply _|within fail|]. intros l. generalize (S (length l)).
  intros n. induction n; cbn [cleanup_loop]; within fail.
Qed.

Lemma release_elsewhere file w rc w' : no_request w (PD file) -> acq200_release file w = Done rc w' -> elsewhere w w'.
Proof.
  intros Hn (x & w1 & Ex & E)%bind_inv. unfold path_ref, bind, gets, deref in Ex.
  destruct (paths w !! PD file) as [y|] eqn:Hp; [|done]. injection Ex as -> <-. rewrite (Hn x Hp) in E. cbn [when] in E.
  assert (aside (when (istrue (has_AB_busy_mutex x)) (up AB_busy_sem) >> ret tt >> acq200_deletePath (PD file) >> ret 0)) as Ha.
  { unfold acq200_deletePath. within ltac:(apply aside_keeps; solve [keeps]). }
  specialize (Ha w). by rewrite E in Ha.
Qed.

Lemma no_request_paths w w' p : same_paths w w' -> no_request w p -> no_request w' p.
Proof. unfold same_paths, no_request. by intros ->. Qed.

(** Something aside of the mailboxes that changes no path, and then a closing part. *)
Lemma then_elsewhere {A B} (m : MW A) (k : A -> MW B) file w b w' : aside m -> within same_paths m ->
  (forall a w1, no_request w1 (PD file) -> k a w1 = Done b w' -> elsewhere w1 w') ->
  no_request w (PD file) -> (let* a := m in k a) w = Done b w' -> elsewhere w w'.
Proof.
  intros Ha Hp Hk Hn (a & w1 & E & Ek)%bind_inv. specialize (Ha w). specialize (Hp w). rewrite E in Ha, Hp.
  transitivity w1; [done|]. eapply Hk; [|exact Ek]. by eapply no_request_paths.
Qed.

Lemma close_elsewhere file w rc w' : no_request w (PD file) ->
  (_cleanup_on_bridge_release (PD file) >> acq200_release file) w = Done rc w' -> elsewhere w w'.
Proof.
  apply then_elsewhere; [apply aside_keeps; keeps|apply cleanup_paths|]. intros _ w1. apply release_elsewhere.
Qed.

(** ** Each leaves the other alone *)

Lemma aside_done {A} (m : MW A) w a w' : aside m -> m w = Done a w' -> elsewhere w w'.
Proof. intros Ha E. specialize (Ha w). by rewrite E in Ha. Qed.

(** A turn of a process of the bridge. *)
Lemma turn_elsewhere file pc t w pc' w' : (closing pc = true -> no_request w (PD file)) ->
  resume file pc t w = Done pc' w' -> elsewhere w w'.
Proof.
  intros Hn E.
  assert ((exists code, pc = Release_starts code) \/ (exists r, pc = Release_awaits r) \/
    (forall code, pc <> Release_starts code) /\ (forall r, pc <> Release_awaits r)) as [[code ->]|[[r ->]|[H1 H2]]]
    by (destruct pc; eauto).
  - destruct t; cbn [resume] in E; try done. specialize (Hn eq_refl). revert E. unfold release_begins.
    apply (then_elsewhere _ _ file); [apply aside_keeps, keeps_path_ref|unfold path_ref; within fail| |done].
    intros x w1 Hn1. destruct (_ =? LDH_OUTBOUND); [by apply aside_done, aside_keeps; keeps|].
    destruct (_ =? LDH_INBOUND); [by apply aside_done, aside_keeps; keeps|].
    intros (rc & w2 & E & [= <- <-])%bind_inv. by eapply close_elsewhere.
  - specialize (Hn eq_refl). cbn [resume] in E. revert E.
    apply (then_elsewhere _ _ file); [apply aside_keeps, keeps_over|unfold wait_over; within fail| |done].
    intros b w1 Hn1. destruct b; [|done]. intros (rc & w2 & E & [= <- <-])%bind_inv. revert E. unfold release_end.
    apply (then_elsewhere _ _ file); [apply aside_keeps, keeps_rch_ref|unfold rch_ref; within fail| |done].
    intros x w3 Hn3. apply (then_elsewhere _ _ file); [apply aside_keeps; keeps|within fail| |done].
    intros [] w4. apply close_elsewhere.
  - by eapply aside_done, E; apply open_turn_aside.
Qed.

(** A turn of a mailbox request. *)
Lemma mbox_same_own pc t : within same_own_paths (mbox_resume pc t).
Proof.
  assert (forall reg, within same_own_paths (readl reg)) as Hread by (intros reg w; split; [done|intros p; done]).
  assert (forall v reg, within same_own_paths (writel v reg)) as Hwrite by (intros v reg w; split; [done|intros p; done]).
  assert (forall n mask mbc, within same_own_paths (read_boxes n mask mbc)) as Hreads.
  { intros n mask. induction n; intros mbc; cbn [read_boxes]; unfold MBOX_READ; within fail. }
  assert (forall n mask mbc, within same_own_paths (write_boxes n mask mbc)) as Hwrites.
  { intros n mask. induction n; intros mbc; cbn [write_boxes]; unfold MBOX_WRITE; within fail. }
  assert (forall mbc rc, within same_own_paths (mbox_ends mbc rc)) as Hends.
  { intros mbc rc. unfold mbox_ends, acq200_ioctl_read_mbox, up.
    within ltac:(apply within_modify; intros w; split; [done|intros p; done]). }
  assert (forall mbc i e, within same_own_paths (poll_after mbc i e)) as Hafter by (intros; unfold poll_after; within fail).
  unfold mbox_resume, mbox_begins, _acq200_ioctl_write_mbox, poll_once.
  within ltac:(apply within_modify; intros w; split; [done|intros p; done]).
Qed.

(** ** The machine of both *)
Record Together := mkTogether { tworld : World; tprocs : gmap nat (File * Pc); tmboxes : gmap nat MboxPc }.
Definition bridge (s : Together) : Machine := mkMachine (tworld s) (tprocs s).
Definition mailboxes (s : Together) : MboxMachine := mkMboxMachine (tworld s) (tmboxes s).

(** The turns: as in [orderly]; and no close makes a request of its own. *)
Definition apart (m : Machine) (i : nat) (pc : Pc) (t : Turn) : Prop :=
  orderly m i pc t /\
  (closing pc = true -> forall file pc', procs m !! i = Some (file, pc') -> no_request (world m) (PD file)).

Inductive together_step (s : Together) : Together -> Prop :=
| together_bridge m' :
    machine_step apart (bridge s) m' -> sem_get mbox_sem (world m') = sem_get mbox_sem (tworld s) ->
    together_step s (mkTogether (world m') (procs m') (tmboxes s))
| together_turn i pc t pc' w' :
    tmboxes s !! i = Some pc -> mbox_resume pc t (tworld s) = Done pc' w' ->
    together_step s (mkTogether w' (tprocs s) (<[i := pc']> (tmboxes s)))
| together_call i mbc :
    (forall pc, tmboxes s !! i = Some pc -> inside pc = None) -> length (mbxr mbc) = MBOX_NUM ->
    together_step s (mkTogether (tworld s) (tprocs s) (<[i := Mbox_wants mbc]> (tmboxes s))).

Lemma apart_orderly m m' : machine_step apart m m' -> machine_step orderly m m'.
Proof.
  intros [i file pc t pc' w' Hp [Ho _] E|w' He|i file pc Hi Hs|p i_rdev w' Hp E].
  - by eapply step_resume.
  - by apply step_env.
  - by apply step_call.
  - by eapply step_open.
Qed.

Lemma env_elsewhere w w' : env_step w w' -> sem_get mbox_sem w' = sem_get mbox_sem w -> elsewhere w w'.
Proof.
  intros [e w1 E|evs sig|q w1 Hq E] Hs.
  - apply (event_elsewhere e); [done|]. intros ->. cbn in E. injection E as <-. cbn in Hs. lia.
  - split; [done|by apply box_quiet_same].
  - assert (aside (enqueue q)) as Ha; [|by eapply aside_done].
    apply aside_keeps. destruct Hq; cbn [enqueue]; keeps.
Qed.

(** A step of the bridge. *)
Lemma bridge_elsewhere m m' : machine_step apart m m' -> sem_get mbox_sem (world m') = sem_get mbox_sem (world m) ->
  elsewhere (world m) (world m').
Proof.
  intros [i file pc t pc' w' Hp [_ Hn] E|w' He|i file pc Hi Hs|p i_rdev w' Hp E] Hsem; cbn [world] in *.
  - eapply turn_elsewhere; [|exact E]. intros Hc. by eapply Hn.
  - by apply env_elsewhere.
  - exact (elsewhere_refl _).
  - injection E as <-. split; [done|by apply box_quiet_same].
Qed.

(** A turn of a mailbox request, for the processes of the bridge. *)
Lemma mbox_turn_inv m pc t pc' w' : machine_inv m -> mbox_resume pc t (world m) = Done pc' w' ->
  machine_inv (mkMachine w' (procs m)).
Proof.
  intros Hm E. pose proof (mbox_same_own pc t (world m)) as Ho. rewrite E in Ho. pose proof Ho as [Eo Hp].
  unfold own in Eo. injection Eo as Eq Er Em _ Eh _ _ _ _ _ _.
  apply spared_inv; [done|by apply (inv_own (world m)); [apply Hm|]| |apply spares_others; [| |done]].
  - intros r x. rewrite Er, Eq. by apply Hm.
  - intros r _. by rewrite Eq, Er, Eh.
  - intros p _. by apply paths_kept_is_Some.
Qed.

Lemma outcome_done {A} (m : MW A) Q E w : outcome m Q E w -> outcome m (fun a w' => Q a w' /\ m w = Done a w') E w.
Proof. unfold outcome. by destruct (m w). Qed.

Record together_inv (s : Together) : Prop := {
  ti_bridge : machine_inv (bridge s);
  ti_mailboxes : exclusive (mailboxes s)
}.

Lemma together_step_inv s s' : together_inv s -> together_step s s' -> together_inv s'.
Proof.
  intros [Hb Hm] [m' Hstep Hs|i pc t pc' w' Hp E|i mbc Hi Hl]; split.
  - destruct m'. by apply (machine_step_inv (bridge s)), apart_orderly.
  - apply (elsewhere_exclusive (mailboxes s)); [done|]. exact (bridge_elsewhere (bridge s) m' Hstep Hs).
  - by apply (mbox_turn_inv (bridge s) pc t pc' w').
  - apply (mbox_step_exclusive (mailboxes s)); [done|]. by apply (mbox_turn (mailboxes s) i pc t).
  - exact Hb.
  - apply (mbox_step_exclusive (mailboxes s)); [done|]. by apply mbox_call.
Qed.

Lemma together_reached s s' : together_inv s -> rtc together_step s s' -> together_inv s'.
Proof. intros Hs Hr. induction Hr; [done|]. by apply IHHr, (together_step_inv x). Qed.

(** C7: processes at the bridge and processes at the mailboxes, all interleaved at their sleeps on one
    device: the device and the place of every process of the bridge stay in order, and so do the
    mailboxes, where at most one request is under way and is a transaction on the bus.  Whichever process
    runs next, its turn is done or leaves it asleep, but for the fault of a reply that reports an
    error, and keeps both.  Excluded are the turns [interleaved_safe] excludes, a close of a path for which a
    request was set, and that somebody else releases the semaphore of the mailboxes. *)
Theorem bridge_and_mailboxes s s' : together_inv s -> rtc together_step s s' ->
  together_inv s' /\
  (forall i file pc t, tprocs s' !! i = Some (file, pc) -> apart (bridge s') i pc t ->
    outcome (resume file pc t) (fun pc' w' => together_inv (mkTogether w' (<[i := (file, pc')]> (tprocs s')) (tmboxes s')))
      reply_fault (tworld s')) /\
  (forall i pc t, tmboxes s' !! i = Some pc ->
    safe (mbox_resume pc t) (fun pc' w' => machine_inv (mkMachine w' (tprocs s')) /\ turn_exclusive (mailboxes s') i pc pc' w')
      (tworld s')).
Proof.
  intros Hs Hr. pose proof (together_reached s s' Hs Hr) as Hs'. split; [done|]. destruct Hs' as [Hb Hm]. split.
  - intros i file pc t Hp [Ho Hn].
    eapply outcome_mono; [apply outcome_done, (resume_moves file pc t (tworld s')); [apply Hb|apply Hb|exact (mi_procs _ Hb _ _ _ Hp)|]|..].
    + intros r -> Hpc. unfold orderly in Ho. by rewrite Hpc in Ho.
    + intros pc' w' [Hmv E]. split; [by eapply (resumed_inv (bridge s'))|].
      apply (elsewhere_exclusive (mailboxes s')); [done|]. eapply turn_elsewhere; [|exact E]. intros Hc. by eapply Hn.
    + done.
  - intros i pc t Hp. pose proof (resume_exclusive (mailboxes s') i pc t Hm Hp) as Ht.
    unfold safe in *. cbn [mailboxes mworld] in Ht. destruct (mbox_resume pc t (tworld s')) eqn:E; try exact Ht.
    split; [|exact Ht]. by eapply (mbox_turn_inv (bridge s')).
Qed.

(** ** Runs *)
#[export] Instance no_request_dec w p : Decision (no_request w p).
Proof.
  unfold no_request. destruct (paths w !! p) as [x|] eqn:Hx.
  - destruct (istrue (Z.land (mbc_flags (mbc_on_release x)) MBC_FLAGS_ONRELEASE)) eqn:Hf.
    + right. intros Hn. by rewrite (Hn x eq_refl) in Hf.
    + left. intros y [= <-]. exact Hf.
  - left. intros y. discriminate.
Defined.

#[export] Instance apart_dec m i pc t : Decision (apart m i pc t).
Proof.
  assert (Decision (forall file pc', procs m !! i = Some (file, pc') -> no_request (world m) (PD file))).
  { destruct (procs m !! i) as [[file pc']|] eqn:Hp; [|left; discriminate].
    destruct (decide (no_request (world m) (PD file))) as [Hn|Hn].
    - left. intros g pcg [= <- <-]. exact Hn.
    - right. intros Hall. by eapply Hn, Hall. }
  unfold apart. apply _.
Defined.

Inductive BothMove : Type :=
| At_bridge (a : Move)
| At_mailboxes (i : nat) (t : MboxTurn)
| Asks (i : nat) (mbc : MailboxControl).

Definition outside (s : Together) (i : nat) : bool :=
  match tmboxes s !! i with Some pc => bool_decide (inside pc = None) | None => true end.

Definition make_both (s : Together) (a : BothMove) : option Together :=
  match a with
  | At_bridge a =>
      match make apart (bridge s) a with
      | Some m' =>
          if sem_get mbox_sem (world m') =? sem_get mbox_sem (tworld s)
          then Some (mkTogether (world m') (procs m') (tmboxes s)) else None
      | None => None
      end
  | At_mailboxes i t =>
      match tmboxes s !! i with
      | Some pc =>
          match mbox_resume pc t (tworld s) with
          | Done pc' w' => Some (mkTogether w' (tprocs s) (<[i := pc']> (tmboxes s)))
          | _ => None
          end
      | None => None
      end
  | Asks i mbc =>
      if outside s i && bool_decide (length (mbxr mbc) = MBOX_NUM)
      then Some (mkTogether (tworld s) (tprocs s) (<[i := Mbox_wants mbc]> (tmboxes s))) else None
  end.

Fixpoint make_both_all (s : Together) (l : list BothMove) : option Together :=
  match l with
  | [] => Some s
  | a :: l => match make_both s a with Some s' => make_both_all s' l | None => None end
  end.

Lemma make_both_step s a s' : make_both s a = Some s' -> together_step s s'.
Proof.
  destruct a as [a|i t|i mbc]; cbn [make_both].
  - destruct (make apart (bridge s) a) as [m'|] eqn:E; [|done]. destruct (Z.eqb_spec (sem_get mbox_sem (world m')) (sem_get mbox_sem (tworld s))); [|done].
    intros [= <-]. apply together_bridge; [by eapply make_step|done].
  - destruct (tmboxes s !! i) as [pc|] eqn:Hp; [|done]. destruct (mbox_resume pc t (tworld s)) eqn:E; try done.
    intros [= <-]. by eapply together_turn.
  - destruct (outside s i) eqn:Ho; [|done]. case_bool_decide; [|done]. intros [= <-]. apply together_call; [|done].
    intros pc Hp. unfold outside in Ho. rewrite Hp in Ho. by apply bool_decide_eq_true in Ho.
Qed.

Lemma make_both_run s l s' : make_both_all s l = Some s' -> rtc together_step s s'.
Proof.
  revert s. induction l as [|a l IH]; intros s; cbn [make_both_all]; [by intros [= <-]|].
  destruct (make_both s a) as [s1|] eqn:E; [|done]. intros Hl. eapply rtc_l; [by eapply make_both_step|]. by apply IH.
Qed.
End Bridge.
