(* ===== verification/BufferAB.v ===== *)
(** * acq200_i2o.c, acq200.c: the swinging buffers A and B

    The user's program has two buffers; the card fills them in turn.  One ioctl gives back the
    buffers the user has done with, queues a request for each buffer that has none, waits until the
    next buffer in turn is full, and reports which are full, in turn. *)

From S2P Require Import Prelude BusProt StreamBuf Pool Device Rch I2o Isr Kernel Outer Owner Frames.
From S2P Require Import Sleep Mask Mailbox Path Bridge Acquire Requests.

(** ** A [struct BufferAB_Ops] in the user's memory: seven words *)
Definition BUFFERAB_OPS_SZ : Z := 28.
Definition ops_bytes (o : BufferAB_Ops) : list Z :=
  words_bytes [ci_recycle o; ci_timeout o; ds_full o; fst (ds_sid o); snd (ds_sid o);
               fst (ds_len o); snd (ds_len o)].
Definition ops_at (mem : gmap Z Z) (a : Z) : BufferAB_Ops :=
  mkABOps (word_at mem a) (word_at mem (a + 4)) (word_at mem (a + 8))
    (word_at mem (a + 12), word_at mem (a + 16)) (word_at mem (a + 20), word_at mem (a + 24)).

Section BufferAB.
Context `{Platform}.

Definition _recycle (path : nat) (ibuf : Z) : MW unit :=
  let* p := path_ref path in
  match ab_get (rchAB p) ibuf with
  | None => ret tt
  | Some r =>
      i2o_recycleRch r >>
      path_upd path (fun p => p <| rchAB := ab_set (rchAB p) ibuf None |>)
  end.

Definition acq200_bufferABrecycle (file : File) (ops : BufferAB_Ops) : MW unit :=
  when (istrue (Z.land (ci_recycle ops) BUFFER_A_FLAG)) (_recycle (PD file) BUFFERA) >>
  when (istrue (Z.land (ci_recycle ops) BUFFER_B_FLAG)) (_recycle (PD file) BUFFERB).

(** [path->rchAB[i]->rchReturn] *)
Definition rchAB_return (path : nat) (i : Z) : MW RchReturn :=
  let* p := path_ref path in
  let* r := deref NullDeref (ab_get (rchAB p) i) in
  let* x := rch_ref r in
  ret (rchReturn x).

(** What is reported of a full buffer. *)
Definition report (buffer : Z) (rr : RchReturn) (ops : BufferAB_Ops) : BufferAB_Ops :=
  let full := Z.lor (ds_full ops) (BUFFER_FLAG_LUT buffer) in
  ops <| ds_full := if nbytes rr =? 0 then Z.lor full FULL_EOF else full |>
      <| ds_sid := ab_set (ds_sid ops) buffer (start_id rr) |>
      <| ds_len := ab_set (ds_len ops) buffer (u32 (nbytes rr)) |>.

Definition fillDeviceStatus (ops : BufferAB_Ops) (path : nat) : MW (bool * BufferAB_Ops) :=
  let* p := path_ref path in
  let buffer := ab_next p in
  let* rr := rchAB_return path buffer in
  if istrue (valid rr) then
    let* _ := kbuf_ref (kbuf rr) in
    path_upd path (fun p => p <| ab_next := if buffer =? BUFFERA then BUFFERB else BUFFERA |>) >>
    ret (true, report buffer rr ops)
  else ret (false, ops).

Definition acq200_bufferAB_queue (file : File) (buffer : Z) : MW unit :=
  let path := PD file in
  let* _ := path_ref path in
  let* o := acq200_pool_alloc_rch in
  path_upd path (fun p => p <| rchAB := ab_set (rchAB p) buffer o |>) >>
  let* w := get_world in
  let mapping := AB_mapping w buffer in
  let* p := path_ref path in
  let sid0 := sid p in
  path_upd path (fun p => p <| sid := u32 (sid p + 1) |>) >>
  let* message := build_hrd_message file (u32 (map_pa mapping)) sid0 (Z.quot (map_len mapping) 2) 1
      LDH_INBOUND (Z.lor (Z.lor HRD_CHAN_IS_FILE HRD_ABS_PCI) HRD_READ_NEXT) in
  let* rch := deref NullDeref o in
  buildRch rch i2o_handleReadMessageFile_fn path (KPath path buffer) 0 >>
  rchAppend rch >>
  let* _ := acq200_sendI2O_kbuf path message in
  ret tt.

(** The condition of the wait: the next buffer in turn is full. *)
Definition next_full (path : nat) (w : World) : bool :=
  match paths w !! path with
  | Some p =>
      match ab_get (rchAB p) (ab_next p) with
      | Some r => rch_valid r w
      | None => false
      end
  | None => false
  end.

Definition is_null {A} (o : option A) : bool := match o with None => true | Some _ => false end.

Definition acq200_bufferABaction (file : File) (ops : BufferAB_Ops) : MW (Z * BufferAB_Ops) :=
  let path := PD file in
  acq200_bufferABrecycle file ops >>
  let* p := path_ref path in
  when (is_null (fst (rchAB p))) (acq200_bufferAB_queue file BUFFERA) >>
  let* p := path_ref path in
  when (is_null (snd (rchAB p))) (acq200_bufferAB_queue file BUFFERB) >>
  let* p := path_ref path in
  let* _ := rchAB_return path (ab_next p) in
  let* rc := wait_event_interruptible_timeout (path_waitq path) (next_full path) (s32 (ci_timeout ops)) in
  if rc =? 0 then ret (- ETIMEDOUT, ops)
  else if rc <? 0 then ret (rc, ops)
  else
    let ops := ops <| ds_full := 0 |> in
    let* r := fillDeviceStatus ops path in
    if fst r then
      let* r := fillDeviceStatus (snd r) path in
      ret (0, snd r)
    else ret (0, snd r).

Definition ACQ200_BUFFER_AB_IOWR : Z := _IOC 3 DMAGIC 4 BUFFERAB_OPS_SZ.

Definition acq200_ioctlAB (file : File) (cmd arg : Z) : MW Z :=
  if cmd =? ACQ200_BUFFER_AB_IOWR then
    let path := PD file in
    let* _ := path_ref path in
    let* rc := down_interruptible AB_busy_sem in
    if istrue rc then ret (- ERESTARTSYS)
    else
      path_upd path (fun p => p <| has_AB_busy_mutex := 1 |>) >>
      let* w := get_world in
      let ab_ops := ops_at (umem w) arg in
      if istrue (copy_fault arg BUFFERAB_OPS_SZ) then ret (- EFAULT)   (* COPY_FROM_USER *)
      else
        let* r := acq200_bufferABaction file ab_ops in
        up AB_busy_sem >>
        path_upd path (fun p => p <| has_AB_busy_mutex := 0 |>) >>
        (if fst r =? 0 then
           let* f := put_to_user arg (ops_bytes (snd r)) in
           if istrue f then ret (- EFAULT) else ret (fst r)             (* COPY_TO_USER *)
         else ret (fst r))
  else ret (- ENOTTY).

(** ** The backstop thread *)
Definition I2O_RETRY (w : World) : Z := 1 + HZ / 10 + idx (dev w).

(** [stops] is what [kthread_should_stop] answers from round to round; the thread returns when it
    answers true, or after a signal. *)
Fixpoint i2o_missed_int_checker (stops : list bool) : MW Z :=
  match stops with
  | [] => block
  | stop :: stops =>
      if stop then ret 0
      else
        let* w := get_world in
        let* timeout := wait_event_interruptible_timeout private_wq (fun _ => false) (I2O_RETRY w) in
        if negb (timeout =? 0) then ret 0
        else
          let* _ := acq200_handle_incoming_message in
          i2o_missed_int_checker stops
  end.
End BufferAB.

(** ** The order of the buffers *)

(** The reference: the full buffers in turn, from [next] on, up to the first that is not full. *)
Fixpoint in_turn (n : nat) (next : Z) (full : Z -> bool) : list Z :=
  match n with
  | O => []
  | S n => if full next then next :: in_turn n (1 - next) full else []
  end.

Section Turn.
Context `{Platform}.

(** Both requests are queued, and their mappings can be dereferenced. *)
Record both_queued (w : World) (path : nat) (p : Acq200Path) (rr : Z -> RchReturn) : Prop := {
  bq_path : paths w !! path = Some p;
  bq_next : ab_next p = BUFFERA \/ ab_next p = BUFFERB;
  bq_rch : forall b, b = BUFFERA \/ b = BUFFERB -> exists r x,
    ab_get (rchAB p) b = Some r /\ rchs w !! r = Some x /\ rchReturn x = rr b /\
    kbuf (rr b) = KPath path b
}.

Lemma alter_turn w path p : paths w !! path = Some p -> ab_next p = BUFFERA \/ ab_next p = BUFFERB ->
  setf paths (alter (fun p => p <| ab_next := 1 - ab_next p |>) path) w =
  setf paths (alter (fun q => q <| ab_next := if ab_next p =? BUFFERA then BUFFERB else BUFFERA |>) path) w.
Proof.
  intros Hp Hn. unfold setf, set_paths.
  enough (forall f g : Acq200Path -> Acq200Path, f p = g p ->
            alter f path (paths w) = alter g path (paths w)) as E
    by (rewrite (E _ (fun q => q <| ab_next := if ab_next p =? BUFFERA then BUFFERB else BUFFERA |>));
        [done|by destruct Hn as [-> | ->]]).
  intros f g E. apply map_eq. intros q.
  destruct (decide (q = path)) as [->|]; [|by rewrite !lookup_alter_ne].
  by rewrite !lookup_alter_eq, Hp; cbn; rewrite E.
Qed.

Lemma fill_once ops path w p rr : both_queued w path p rr ->
  fillDeviceStatus ops path w =
    if istrue (valid (rr (ab_next p))) then
      Done (true, report (ab_next p) (rr (ab_next p)) ops)
        (setf paths (alter (fun p => p <| ab_next := 1 - ab_next p |>) path) w)
    else Done (false, ops) w.
Proof.
  intros [Hp Hn Hr]. unfold fillDeviceStatus. erewrite bind_done by (by apply path_ref_eq). cbv zeta.
  destruct (Hr _ Hn) as (r & x & Hab & Hx & Hrr & Hk).
  erewrite bind_done.
  2:{ unfold rchAB_return. erewrite bind_done by (by apply path_ref_eq). rewrite Hab.
      erewrite bind_done by reflexivity. erewrite bind_done by (by apply rch_ref_eq). reflexivity. }
  rewrite Hrr. destruct (istrue _); [|done].
  erewrite bind_done.
  2:{ rewrite Hk. cbn [kbuf_ref]. erewrite bind_done by (by apply path_ref_eq). reflexivity. }
  erewrite bind_done by (by apply (path_upd_eq path p)). unfold ret.
  rewrite (alter_turn w path p) by done. done.
Qed.

(** C24: the status of the two buffers reports exactly the full buffers that are next in turn: the one
    whose turn it is, and the other one only after it, so data is never delivered out of order; and
    the turn moves on by as many buffers as were reported. *)
Theorem fill_status_in_turn ops path w p rr :
  both_queued w path p rr ->
  let turn := in_turn 2 (ab_next p) (fun b => istrue (valid (rr b))) in
  (let* r := fillDeviceStatus ops path in
   if fst r then let* r := fillDeviceStatus (snd r) path in ret (snd r) else ret (snd r)) w =
    Done (fold_left (fun o b => report b (rr b) o) turn ops)
      (match turn with
       | [] => w
       | _ => setf paths (alter (fun x => x <| ab_next :=
                if (length turn =? 2)%nat then ab_next p else 1 - ab_next p |>) path) w
       end).
Proof.
  intros Hb. pose proof (fill_once ops path w p rr Hb) as H1. destruct Hb as [Hp Hn Hr]. cbv zeta.
  cbn [in_turn]. destruct (istrue (valid (rr (ab_next p)))) eqn:Hv.
  2:{ erewrite bind_done by exact H1. done. }
  erewrite bind_done by exact H1. cbn [fst snd].
  set (p1 := p <| ab_next := 1 - ab_next p |>).
  set (w1 := setf paths (alter _ path) w).
  assert (paths w1 !! path = Some p1) as Hp1 by (cbn; by rewrite lookup_alter_eq, Hp).
  assert (both_queued w1 path p1 rr) as Hb1.
  { constructor; [done| |].
    - destruct Hn as [E|E]; [right|left]; cbn; by rewrite E.
    - intros b Hbb. destruct (Hr b Hbb) as (r & x & ? & ? & ? & ?). by exists r, x. }
  pose proof (fill_once (report (ab_next p) (rr (ab_next p)) ops) path w1 p1 rr Hb1) as H2.
  change (ab_next p1) with (1 - ab_next p) in H2.
  destruct (istrue (valid (rr (1 - ab_next p)))) eqn:Hv2; erewrite bind_done by exact H2;
    cbn [fold_left snd length Nat.eqb]; unfold ret; f_equal; subst w1;
    unfold setf, set_paths; cbn; f_equal; apply map_eq; intros q;
    (destruct (decide (q = path)) as [->|]; [|by rewrite !lookup_alter_ne]);
    rewrite !lookup_alter_eq, Hp; cbn; [|done]. unfold setf, set_ab_next; cbn.
  do 2 f_equal. lia.
Qed.

(** When the request block cannot be read from the user, the ioctl returns [-EFAULT] with the
    buffer A/B semaphore still taken. *)
Theorem ioctlAB_fault_keeps_semaphore file arg w p :
  paths w !! PD file = Some p -> 0 < buffer_AB_busy_mutex (dev w) ->
  copy_fault arg BUFFERAB_OPS_SZ <> 0 ->
  exists w', acq200_ioctlAB file ACQ200_BUFFER_AB_IOWR arg w = Done (- EFAULT) w' /\
    sem_get AB_busy_sem w' = sem_get AB_busy_sem w - 1.
Proof.
  intros Hp Hs Hf. unfold acq200_ioctlAB. rewrite Z.eqb_refl. cbv zeta.
  erewrite bind_done by (by apply path_ref_eq).
  erewrite bind_done.
  2:{ unfold down_interruptible. erewrite bind_done by reflexivity. cbn [sem_get].
      rewrite (proj2 (Z.ltb_lt _ _) Hs). reflexivity. }
  change (istrue 0) with false. cbv iota.
  erewrite bind_done by (by apply (path_upd_eq (PD file) p)).
  erewrite bind_done by reflexivity. unfold istrue. rewrite (proj2 (Z.eqb_neq _ _) Hf).
  eexists. split; [reflexivity|]. done.
Qed.
End Turn.
