(* ===== verification/Nodes.v ===== *)
(** * What every call on a node keeps

    Beside the ownership of handlers and mappings, three things hold between the calls: a handler that
    waits for nothing knows no path; a path that names a handler for buffer A or B names one that is
    queued for exactly that buffer; and what is queued belongs to a node that the bridge serves, whose
    close recycles it.  Reads, writes and closes keep this because of what they leave of the other
    paths; here the calls on buffers A and B are shown to keep it, which change what the path names. *)

From S2P Require Import Prelude BusProt StreamBuf Pool Device Rch I2o Isr Kernel Outer Owner Frames.
From S2P Require Import Sleep Mask Mailbox Path Bridge Acquire Requests Writes Release BufferAB.

Definition is_AB (b : Z) : Prop := b = BUFFERA \/ b = BUFFERB.

(** Handler [r] is queued for buffer [b] of path [p]. *)
Definition ab_request (w : World) (p : nat) (b : Z) (r : nat) : Prop :=
  r ∈ queued w /\ exists y, rchs w !! r = Some y /\ rpath y = Some p /\
    rhandler y = i2o_handleReadMessageFile_fn /\ kbuf (rchReturn y) = KPath p b.

Definition fops_of (x : Acq200Path) : file_operations := fst (newfops (minor x)).
Definition bridge_node (x : Acq200Path) : Prop := fops_of x = acq200_bridge_fops \/ fops_of x = acq200_bridge_AB_fops.

Record sys_inv (w : World) : Prop := {
  si_dev : dev_inv w;
  si_idle : idle w;
  si_ab p x b r : paths w !! p = Some x -> is_AB b -> ab_get (rchAB x) b = Some r -> ab_request w p b r;
  si_turn p x : paths w !! p = Some x -> is_AB (ab_next x);
  si_nodes r y p x : r ∈ queued w -> rchs w !! r = Some y -> rpath y = Some p -> paths w !! p = Some x -> bridge_node x
}.

(** A device that nobody has opened. *)
Lemma sys_inv_fresh w : dev_inv w -> queued w = [] -> idle w -> paths w = ∅ -> sys_inv w.
Proof.
  intros Hi Hq Hd Hp. constructor; [done|done|intros p x b r|intros p x|intros r y p x]; rewrite ?Hp, ?lookup_empty; try done.
Qed.

(** ** Reads, writes, closes and waits *)

Lemma kept_fops x x' : kept x x' -> fops_of x' = fops_of x.
Proof. unfold kept, node, fops_of. intros [= -> _ _ _]. done. Qed.

(** The other paths are left aside; path [p] may name other requests than before. *)
Lemma sys_inv_paths w w' p : sys_inv w -> dev_inv w' -> idle w' -> aside p w w' ->
  (forall x', paths w' !! p = Some x' -> exists x, paths w !! p = Some x /\ minor x' = minor x /\ is_AB (ab_next x') /\
     (forall b r, is_AB b -> ab_get (rchAB x') b = Some r -> ab_request w' p b r) /\
     ((exists r y', r ∈ queued w' /\ rchs w' !! r = Some y' /\ rpath y' = Some p) -> bridge_node x)) ->
  sys_inv w'.
Proof.
  intros Hs Hi Hd [Aq Aa Ap] Hp.
  assert (forall q x', q <> p -> paths w' !! q = Some x' -> exists x, paths w !! q = Some x /\ kept x' x) as Hback.
  { intros q x' Hne Hx'. destruct (node_lookup (paths w') (paths w) q x' ltac:(by rewrite Ap) Hx') as (x & ? & ?).
    by exists x. }
  constructor; [done..| | |].
  - intros q x' b r Hx' Hb Hr. destruct (decide (q = p)) as [->|Hne]; [by destruct (Hp x' Hx') as (x & _ & _ & _ & Hab & _); apply Hab|].
    destruct (Hback q x' Hne Hx') as (x & Hx & Hk). unfold kept, node in Hk. injection Hk as _ Erch _ _.
    destruct (si_ab w Hs q x b r Hx Hb ltac:(congruence)) as (Hq & y & Hy & Hyp & Hyh & Hyk).
    destruct (Aa r y q b Hne Hq Hy Hyp Hyh Hyk) as (Hq' & y' & Hy' & Hh' & Hp' & _ & _ & _ & Hk' & _).
    split; [done|]. exists y'. split; [done|]. repeat split; congruence.
  - intros q x' Hx'. destruct (decide (q = p)) as [->|Hne]; [by destruct (Hp x' Hx') as (x & _ & _ & ? & _)|].
    destruct (Hback q x' Hne Hx') as (x & Hx & Hk). pose proof (si_turn w Hs q x Hx).
    unfold kept, node in Hk. injection Hk as _ _ _ <-. done.
  - intros r y' q x' Hr Hy' Hyp Hx'. destruct (decide (q = p)) as [->|Hne].
    + destruct (Hp x' Hx') as (x & _ & Hm & _ & _ & Hn). unfold bridge_node, fops_of in *. rewrite Hm.
      apply Hn. by exists r, y'.
    + destruct (Hback q x' Hne Hx') as (x & Hx & Hk). unfold bridge_node. rewrite <- (kept_fops x' x Hk).
      destruct (Aq r y' Hr Hy') as [E|(y & Hq & Hy & E)]; [congruence|]. apply (si_nodes w Hs r y q x); congruence.
Qed.

(** Nothing that is queued changed, and the nodes are the same. *)
Lemma sys_inv_same w w' : sys_inv w -> dev_inv w' -> queued w' = queued w -> rchs w' = rchs w -> paths_kept w w' ->
  sys_inv w'.
Proof.
  intros [Hi Hd Ha Ht Hn] Hi' Eq Er Hk. constructor; [done| | | |]; unfold idle, ab_request; rewrite ?Eq, ?Er.
  - exact Hd.
  - intros q x' b r Hx'. destruct (node_lookup (paths w') (paths w) q x' ltac:(by rewrite Hk) Hx') as (x & Hx & E).
    unfold kept, node in E. injection E as _ <- _ _. by apply (Ha q x b r).
  - intros q x' Hx'. destruct (node_lookup (paths w') (paths w) q x' ltac:(by rewrite Hk) Hx') as (x & Hx & E).
    unfold kept, node in E. injection E as _ _ _ <-. by apply (Ht q x).
  - intros r y q x' Hr Hy Hp Hx'. destruct (node_lookup (paths w') (paths w) q x' ltac:(by rewrite Hk) Hx') as (x & Hx & E).
    unfold bridge_node. rewrite <- (kept_fops x' x E). by apply (Hn r y q x).
Qed.

Lemma ab_request_kept p q b r w w' : others_kept p w w' -> ab_request w q b r -> ab_request w' q b r.
Proof.
  intros Ho (Hq & y & Hy & Hyp & Hyh & Hyk).
  destruct (ok_ab _ _ _ Ho r y q b Hq Hy Hyh Hyk) as (Hq' & y' & Hy' & Hh' & Hp' & _ & _ & _ & Hk' & _).
  split; [done|]. exists y'. split; [done|]. repeat split; congruence.
Qed.

Lemma sys_inv_served p x w w' : sys_inv w -> paths w !! p = Some x -> bridge_node x -> served p w w' -> sys_inv w'.
Proof.
  intros Hs Hx Hb [Hi Hd Ho]. apply (sys_inv_paths w w' p); [done..|by apply others_kept_aside|].
  intros x' Hx'. destruct (node_lookup (paths w') (paths w) p x' ltac:(by rewrite (ok_paths _ _ _ Ho)) Hx') as (z & Hz & Hk).
  assert (z = x) as -> by congruence. pose proof (si_turn w Hs p x Hx). unfold kept, node in Hk. injection Hk as Em Er _ En.
  exists x. split; [done|]. split; [congruence|]. split; [by rewrite <- En|]. split; [|done]. intros b r Hab Hr.
  apply (ab_request_kept p p b r w); [done|]. apply (si_ab w Hs p x); [done..|congruence].
Qed.

Lemma sys_inv_evolves w w' : sys_inv w -> evolves w w' -> sys_inv w'.
Proof.
  intros Hs He. pose proof (si_dev w Hs) as Hi. pose proof (evolves_kept w w' He) as Hk.
  assert (forall q x', paths w' !! q = Some x' -> exists x, paths w !! q = Some x /\ kept x' x) as Hback.
  { intros q x' Hx'. by apply (node_lookup (paths w') (paths w) q x'); [rewrite Hk|]. }
  constructor; [apply He|by apply (evolves_idle w); [..|apply Hs]| | |].
  - intros q x' b r Hx' Hb Hr. destruct (Hback q x' Hx') as (x & Hx & E).
    unfold kept, node in E. injection E as _ Erch _ _. apply (ab_request_kept 0 q b r w); [by apply others_kept_evolves|].
    apply (si_ab w Hs q x); [done..|congruence].
  - intros q x' Hx'. destruct (Hback q x' Hx') as (x & Hx & E). pose proof (si_turn w Hs q x Hx).
    unfold kept, node in E. injection E as _ _ _ <-. done.
  - intros r y' q x' Hr Hy' Hyp Hx'. destruct (Hback q x' Hx') as (x & Hx & E).
    unfold bridge_node. rewrite <- (kept_fops x' x E).
    pose proof (ev_queue _ _ He r Hr) as Hq. destruct (di_queued _ Hi r Hq) as (y & Hy & _).
    destruct (ev_queued _ _ He r y Hr Hy) as (y2 & Hy2 & _ & Hp' & _). apply (si_nodes w Hs r y q x); congruence.
Qed.

Lemma sys_inv_closed `{Platform} p w w' : sys_inv w -> closed p w w' -> sys_inv w'.
Proof.
  intros Hs [Hi Hd Hg Ha _]. apply (sys_inv_paths w w' p); try done. intros x'. by rewrite Hg.
Qed.

(** An update of a user's memory. *)
Lemma put_inv `{Platform} a bs w : sys_inv w -> total (put_to_user a bs) (fun _ w' => sys_inv w') w.
Proof. intros Hs. apply (sys_inv_same w); try done. apply (inv_same w); try done. apply Hs. Qed.

(** ** Buffers A and B *)
Section AB.
Context `{Platform}.
Context (file : File).
Local Notation p := (PD file).

(** The state between the steps of an ioctl on the buffers: the invariant holds, the node is there. *)
Record at_AB (w : World) : Prop := {
  at_inv : sys_inv w;
  at_node : exists x, paths w !! p = Some x /\ bridge_node x
}.

(** A request is queued for buffer [b]. *)
Definition loaded (b : Z) (w : World) : Prop :=
  exists x r, paths w !! p = Some x /\ ab_get (rchAB x) b = Some r.

(** The one fault: no handler could be had for the request of a buffer, and the null handler is built. *)
Definition ab_fault (f : Fault) (w' : World) : Prop :=
  f = NullDeref /\ exists x b, paths w' !! p = Some x /\ is_AB b /\ ab_get (rchAB x) b = None.

Lemma ab_get_set {A} (ab : A * A) b b' v : is_AB b -> is_AB b' ->
  ab_get (ab_set ab b v) b' = if decide (b' = b) then v else ab_get ab b'.
Proof. intros [-> | ->] [-> | ->]; done. Qed.

Lemma at_AB_kept w w' : sys_inv w' -> paths_kept w w' -> at_AB w -> at_AB w'.
Proof.
  intros Hs Hk [_ (x & Hx & Hb)]. split; [done|].
  destruct (node_lookup (paths w) (paths w') p x (Hk p) Hx) as (x' & Hx' & E). exists x'. split; [done|].
  unfold bridge_node. by rewrite (kept_fops x x' E).
Qed.

Lemma at_AB_evolves w w' : at_AB w -> evolves w w' -> at_AB w'.
Proof. intros Ha He. apply (at_AB_kept w); [|by apply evolves_kept|done]. eapply sys_inv_evolves; [apply Ha|done]. Qed.

Lemma loaded_kept b w w' : paths_kept w w' -> loaded b w -> loaded b w'.
Proof.
  intros Hk (x & r & Hx & Hr). destruct (node_lookup (paths w) (paths w') p x (Hk p) Hx) as (x' & Hx' & E).
  exists x', r. split; [done|]. unfold kept, node in E. injection E as _ -> _ _. done.
Qed.

(** An update of the path that leaves its node. *)
Lemma at_AB_upd f w : (forall x, kept x (f x)) -> at_AB w ->
  path_upd p f w = Done tt (setf paths (alter f p) w) /\ at_AB (setf paths (alter f p) w) /\
  paths_kept w (setf paths (alter f p) w).
Proof.
  intros Hf Ha. destruct (at_node w Ha) as (x & Hx & _).
  assert (paths_kept w (setf paths (alter f p) w)) as Hk by by eapply paths_kept_alter.
  split; [by apply (path_upd_eq p x)|]. split; [|done]. apply (at_AB_kept w); [|done..].
  apply (sys_inv_same w); try done; [apply Ha|]. apply (inv_same w); try done; [apply Ha|].
  intros q. cbn. apply alter_is_Some.
Qed.

(** A change of which requests the path names, and of whose turn it is. *)
Lemma at_AB_paths w w' x x' : at_AB w -> paths w !! p = Some x -> dev_inv w' -> idle w' -> aside p w w' ->
  paths w' !! p = Some x' -> minor x' = minor x -> is_AB (ab_next x') ->
  (forall b r, is_AB b -> ab_get (rchAB x') b = Some r -> ab_request w' p b r) -> at_AB w'.
Proof.
  intros [Hs (z & Hz & Hb)] Hx Hi Hd Ha Hx' Hm Ht Hab. assert (z = x) as -> by congruence. split.
  - apply (sys_inv_paths w w' p); [done..|]. intros y Hy. assert (y = x') as -> by congruence. by exists x.
  - exists x'. split; [done|]. unfold bridge_node, fops_of in *. by rewrite Hm.
Qed.

Lemma recycle_AB b w : is_AB b -> at_AB w -> total (_recycle p b) (fun _ w' => at_AB w') w.
Proof.
  intros Hb Ha. destruct (at_node w Ha) as (x & Hx & Hn). unfold _recycle, total.
  erewrite bind_done by by apply path_ref_eq. destruct (ab_get (rchAB x) b) as [r|] eqn:Hr; [|done].
  destruct (si_ab w (at_inv w Ha) p x b r Hx Hb Hr) as (Hq & y & Hy & Hyp & Hyh & Hyk).
  pose proof (si_dev w (at_inv w Ha)) as Hi. erewrite bind_done by by apply (recycle_queued w r y).
  set (w1 := recycled r y w).
  assert (paths w1 = paths w) as Ep by (apply recycled_facts; rewrite Hyp; by eexists).
  assert (dev_inv w1) as Hi1 by by apply recycled_inv.
  rewrite (path_upd_eq p x) by by rewrite Ep. set (x' := x <| rchAB := ab_set (rchAB x) b None |>).
  apply (at_AB_paths w _ x x'); try done.
  - apply (inv_same w1); try done. intros q. cbn. apply alter_is_Some.
  - by apply (recycled_idle w); [..|apply Ha| |].
  - apply aside_paths; [by apply aside_recycled|]. intros q Hne. by apply lookup_alter_ne.
  - cbn. by rewrite lookup_alter_eq, Ep, Hx.
  - apply (si_turn w (at_inv w Ha) p x Hx).
  - intros b' r' Hb'. change (rchAB x') with (ab_set (rchAB x) b None). rewrite ab_get_set by done.
    case_decide as Hbb; [done|]. intros Hr'.
    destruct (si_ab w (at_inv w Ha) p x b' r' Hx Hb' Hr') as (Hq' & y' & Hy' & Hyp' & Hyh' & Hyk').
    assert (r' <> r) as Hne by (intros ->; apply Hbb; congruence).
    split; [by apply (recycled_queued w r y)|]. exists y'. split; [|done].
    change (rchs w1 !! r' = Some y'). unfold w1. by rewrite (recycled_rchs w r y).
Qed.

Lemma bufferABrecycle_AB ops w : at_AB w -> total (acq200_bufferABrecycle file ops) (fun _ w' => at_AB w') w.
Proof.
  intros Ha. unfold acq200_bufferABrecycle. apply total_bind.
  apply (total_mono _ (fun _ w' => at_AB w')).
  - apply total_when; [|done]. intros _. apply recycle_AB; [by left|done].
  - intros [] w1 Ha1. apply total_when; [|done]. intros _. apply recycle_AB; [by right|done].
Qed.

(** The state after the path took note of the handler [o] of its request for buffer [b]. *)
Definition noted (b : Z) (o : option nat) (w : World) : World :=
  setf paths (alter (fun z => z <| sid := u32 (sid z + 1) |>) p)
    (setf paths (alter (fun z => z <| rchAB := ab_set (rchAB z) b o |>) p) w).

Lemma noted_path b o w x1 : paths w !! p = Some x1 ->
  paths (noted b o w) !! p = Some (x1 <| rchAB := ab_set (rchAB x1) b o |> <| sid := u32 (sid x1 + 1) |>).
Proof. intros Hx. cbn. by rewrite !lookup_alter_eq, Hx. Qed.

Lemma noted_inv b o w : dev_inv w -> dev_inv (noted b o w).
Proof. intros Hi. apply (inv_same w); try done. intros q Hq. cbn. by apply alter_is_Some, alter_is_Some. Qed.

(** The request for buffer [b] was posted with handler [r]. *)
Lemma posted_AB b w w1 w4 r x x1 k msg y : is_AB b -> at_AB w -> paths w !! p = Some x -> acquired w w1 r None ->
  paths w1 !! p = Some x1 -> kept x x1 ->
  posted (noted b (Some r) w1) w4 r p (KPath p b) k i2o_handleReadMessageFile_fn msg y ->
  at_AB w4 /\ loaded b w4 /\ (forall b', is_AB b' -> loaded b' w -> loaded b' w4).
Proof.
  intros Hb Ha Hx Hpost Hx1 Hk1 Hpo. pose proof (noted_path b (Some r) w1 x1 Hx1) as Hx3.
  pose proof (noted_inv b (Some r) w1 (aq_inv _ _ _ _ Hpost)) as Hi3.
  assert (idle (noted b (Some r) w1)) as Hd1 by exact (aq_idle _ _ _ _ Hpost (si_idle w (at_inv w Ha))).
  set (w3 := noted b (Some r) w1) in *. set (x3 := x1 <| rchAB := _ |> <| sid := _ |>) in *.
  pose proof (posted_served w3 w4 _ _ _ _ _ _ _ Hi3 Hd1 (aq_unqueued _ _ _ _ Hpost) Hpo) as [_ Hd4 Ho4].
  destruct Hpo as [Hi4 Eq4 Hy4 _ _ _ _ Hyh Hyp _ _ Hyk _ _].
  destruct (node_lookup (paths w3) (paths w4) p x3 (ok_paths _ _ _ Ho4 p) Hx3) as (x4 & Hx4 & Hk4).
  pose proof (others_kept_acquired p w w1 r None Hpost) as Ho1.
  assert (rchAB x4 = ab_set (rchAB x) b (Some r) /\ minor x4 = minor x /\ ab_next x4 = ab_next x) as (Erch & Em & En).
  { unfold kept, node in Hk1, Hk4. injection Hk1 as E1 E2 _ E3. injection Hk4 as -> -> _ ->. cbn. by rewrite E1, E2, E3. }
  split; [|split].
  - apply (at_AB_paths w w4 x x4); try done.
    + transitivity w1; [by apply others_kept_aside|]. transitivity w3; [|by apply others_kept_aside].
      apply (aside_paths p w1 w1 (fun m => alter (fun z => z <| sid := u32 (sid z + 1) |>) p
        (alter (fun z => z <| rchAB := ab_set (rchAB z) b (Some r) |>) p m))); [done|]. intros q Hne. by rewrite !lookup_alter_ne.
    + rewrite En. apply (si_turn w (at_inv w Ha) p x Hx).
    + intros b' r' Hb'. rewrite Erch, ab_get_set by done. case_decide as Hbb.
      * intros [= <-]. subst b'. split; [rewrite Eq4; set_solver|]. by exists y.
      * intros Hr'. apply (ab_request_kept p p b' r' w3); [done|]. change (ab_request w1 p b' r').
        apply (ab_request_kept p p b' r' w); [done|]. by apply (si_ab w (at_inv w Ha) p x).
  - exists x4, r. split; [done|]. by rewrite Erch, ab_get_set, decide_True.
  - intros b' Hb' (z & r' & Hz & Hr'). assert (z = x) as -> by congruence.
    exists x4, (if decide (b' = b) then r else r'). split; [done|]. rewrite Erch, ab_get_set by done. by case_decide.
Qed.

(** The request for buffer [b] is queued, or there is no handler for it. *)
Lemma queue_AB b w : is_AB b -> at_AB w ->
  outcome (acq200_bufferAB_queue file b) (fun _ w' => at_AB w' /\ loaded b w' /\
    (forall b', is_AB b' -> loaded b' w -> loaded b' w')) ab_fault w.
Proof.
  intros Hb Ha. destruct (at_node w Ha) as (x & Hx & Hn). pose proof (si_dev w (at_inv w Ha)) as Hi.
  unfold acq200_bufferAB_queue, outcome. cbv zeta. erewrite bind_done by by apply path_ref_eq.
  apply (outcome_bind _ _ _ _ _ _ (alloc_rch_spec w Hi)). intros o w1 Hpost.
  assert (exists x1, paths w1 !! p = Some x1 /\ kept x x1) as (x1 & Hx1 & Hk1).
  { apply (node_lookup (paths w)); [|done]. destruct o as [r|]; cbn [rch_alloc_post] in Hpost.
    - exact (ok_paths _ _ _ (others_kept_acquired p _ _ _ _ Hpost) p).
    - exact (evolves_kept _ _ (proj1 Hpost) p). }
  unfold outcome. erewrite bind_done by by apply (path_upd_eq p x1). set (x2 := x1 <| rchAB := ab_set (rchAB x1) b o |>).
  set (w2 := setf paths _ w1). assert (paths w2 !! p = Some x2) as Hx2 by (cbn; by rewrite lookup_alter_eq, Hx1).
  erewrite bind_done by reflexivity. cbv beta zeta. erewrite bind_done by by apply path_ref_eq. cbv beta zeta.
  erewrite bind_done by by apply (path_upd_eq p x2). set (x3 := x2 <| sid := u32 (sid x2 + 1) |>). set (w3 := setf paths _ w2).
  assert (paths w3 !! p = Some x3) as Hx3.
  { change (paths w3) with (alter (fun z => z <| sid := u32 (sid z + 1) |>) p (paths w2)). by rewrite lookup_alter_eq, Hx2. }
  destruct o as [r|]; cbn [rch_alloc_post] in Hpost.
  2:{ destruct (build_message_own file (u32 (map_pa (AB_mapping w2 b))) (sid x2) (Z.quot (map_len (AB_mapping w2 b)) 2) 1
        LDH_INBOUND (Z.lor (Z.lor HRD_CHAN_IS_FILE HRD_ABS_PCI) HRD_READ_NEXT) w3) as (m & w4 & E & [_ Hk] & _); [by exists x3|].
      erewrite bind_done by exact E. split; [done|].
      destruct (node_lookup (paths w3) (paths w4) p x3 (Hk p) Hx3) as (x4 & Hx4 & E4). exists x4, b.
      split; [done|]. split; [done|]. unfold kept, node in E4. injection E4 as _ -> _ _.
      change (rchAB x3) with (ab_set (rchAB x1) b None). by rewrite ab_get_set, decide_True. }
  match goal with |- context [build_hrd_message _ ?pa ?st ?ln _ ?ob ?cf] =>
    destruct (message_sent (ret tt) file pa st ln ob cf i2o_handleReadMessageFile_fn w3 r (KPath p b) 0
      (noted_inv b (Some r) w1 (aq_inv _ _ _ _ Hpost)) (aq_unqueued _ _ _ _ Hpost) (aq_rch _ _ _ _ Hpost)
      ltac:(by exists x3) (aq_reserved _ _ _ _ Hpost)) as (w4 & y & E & Hpo); [done|];
    change (match (let* msg := build_hrd_message file pa st ln 1 ob cf in
      buildRch r i2o_handleReadMessageFile_fn p (KPath p b) 0 >> rchAppend r >>
      let* _ := acq200_sendI2O_kbuf p msg in ret tt) w3 with
      | Done a w' => at_AB w' /\ loaded b w' /\ (forall b', is_AB b' -> loaded b' w -> loaded b' w')
      | Crash f w' => ab_fault f w' | Blocked _ => True | NoFuel => False end)
  end. rewrite E. cbn [ret]. by apply (posted_AB b w w1 w4 r x x1 _ _ y Hb Ha Hx Hpost Hx1 Hk1 Hpo).
Qed.

(** While both requests are queued, the one of the buffer whose turn it is can be followed. *)
Lemma next_loaded w x : at_AB w -> loaded BUFFERA w -> loaded BUFFERB w -> paths w !! p = Some x ->
  exists r y, ab_get (rchAB x) (ab_next x) = Some r /\ rchs w !! r = Some y /\
    kbuf (rchReturn y) = KPath p (ab_next x) /\ rchAB_return p (ab_next x) w = Done (rchReturn y) w.
Proof.
  intros Ha HA HB Hx. pose proof (si_turn w (at_inv w Ha) p x Hx) as Ht.
  assert (exists r, ab_get (rchAB x) (ab_next x) = Some r) as [r Hr].
  { destruct HA as (? & ra & ? & ?), HB as (? & rb & ? & ?). destruct Ht as [-> | ->]; [exists ra|exists rb]; congruence. }
  destruct (si_ab w (at_inv w Ha) p x _ r Hx Ht Hr) as (Hq & y & Hy & _ & _ & Hk). exists r, y. split_and!; [done..|].
  unfold rchAB_return. erewrite bind_done by by apply path_ref_eq. rewrite Hr.
  erewrite bind_done by reflexivity. by erewrite bind_done by by apply rch_ref_eq.
Qed.

(** A full buffer is reported, and it is the other one's turn. *)
Lemma fill_AB ops w : at_AB w -> loaded BUFFERA w -> loaded BUFFERB w ->
  total (fillDeviceStatus ops p) (fun _ w' => at_AB w' /\ loaded BUFFERA w' /\ loaded BUFFERB w') w.
Proof.
  intros Ha HA HB. destruct (at_node w Ha) as (x & Hx & Hn). unfold fillDeviceStatus, total.
  erewrite bind_done by by apply path_ref_eq. cbv zeta.
  destruct (next_loaded w x Ha HA HB Hx) as (r & y & Hr & Hy & Hyk & E). erewrite bind_done by exact E.
  destruct (istrue _); [|done]. rewrite Hyk.
  erewrite bind_done by (cbn [kbuf_ref]; by erewrite bind_done by by apply path_ref_eq).
  erewrite bind_done by by apply (path_upd_eq p x). cbn [ret]. set (w' := setf paths _ w).
  set (x' := x <| ab_next := if ab_next x =? BUFFERA then BUFFERB else BUFFERA |>).
  assert (paths w' !! p = Some x') as Hx' by (cbn; by rewrite lookup_alter_eq, Hx).
  split; [|split; [destruct HA as (z & ra & Hz & ?)|destruct HB as (z & ra & Hz & ?)]; exists x', ra;
    (split; [done|]); assert (z = x) as -> by congruence; done].
  apply (at_AB_paths w w' x x'); try done.
  - apply (inv_same w); try done; [apply Ha|]. intros q. cbn. apply alter_is_Some.
  - apply (si_idle w (at_inv w Ha)).
  - apply aside_paths; [done|]. intros q Hne. by apply lookup_alter_ne.
  - cbn. unfold is_AB. destruct (_ =? _); auto.
  - intros b' r' Hb' Hr'. by apply (si_ab w (at_inv w Ha) p x b' r' Hx Hb').
Qed.

(** A request is queued for buffer [b] now, if there was none. *)
Lemma queue_if_null {B} b w (sel : Acq200Path -> option nat) (K : MW B) Q :
  is_AB b -> (forall x, sel x = ab_get (rchAB x) b) -> at_AB w ->
  (forall w', at_AB w' -> loaded b w' -> (forall b', is_AB b' -> loaded b' w -> loaded b' w') -> outcome K Q ab_fault w') ->
  outcome (let* x := path_ref p in when (is_null (sel x)) (acq200_bufferAB_queue file b) >> K) Q ab_fault w.
Proof.
  intros Hb Hsel Ha HK. destruct (at_node w Ha) as (x & Hx & _). unfold outcome.
  erewrite bind_done by by apply path_ref_eq. rewrite Hsel.
  destruct (ab_get (rchAB x) b) as [r|] eqn:Hr; cbn [is_null when].
  - apply HK; [done|by exists x, r|done].
  - eapply outcome_then; [by apply (queue_AB b w)|]. intros [] w' (? & ? & ?). by apply HK.
Qed.

Lemma action_AB ops w : at_AB w ->
  outcome (acq200_bufferABaction file ops) (fun _ w' => at_AB w') ab_fault w.
Proof.
  intros Ha. unfold acq200_bufferABaction. cbv zeta.
  apply (outcome_bind _ _ _ _ _ _ (total_safe _ _ _ (bufferABrecycle_AB ops w Ha))).
  intros [] w1 Ha1. cbv beta.
  apply (queue_if_null BUFFERA w1 (fun x => fst (rchAB x))); [by left|done|done|]. intros w2 Ha2 HA _.
  apply (queue_if_null BUFFERB w2 (fun x => snd (rchAB x))); [by right|done|done|]. intros w3 Ha3 HB HAB.
  specialize (HAB BUFFERA ltac:(by left) HA).
  destruct (at_node w3 Ha3) as (x & Hx & _). unfold outcome. erewrite bind_done by by apply path_ref_eq.
  destruct (next_loaded w3 x Ha3 HAB HB Hx) as (r & y & _ & _ & _ & E). erewrite bind_done by exact E.
  pose proof (si_dev w3 (at_inv w3 Ha3)) as Hi.
  apply (outcome_bind _ _ _ _ _ _ (total_safe _ _ _ (wait_timeout_spec (path_waitq p) (next_full p) w3 Hi
    (path_queue_ok p w3 Hi ltac:(by exists x)) (s32 (ci_timeout ops)) w3 (evolves_refl w3 Hi)))).
  intros rc w4 [He _]. pose proof (at_AB_evolves w3 w4 Ha3 He) as Ha4.
  pose proof (loaded_kept _ _ _ (evolves_kept _ _ He) HAB) as HA2. pose proof (loaded_kept _ _ _ (evolves_kept _ _ He) HB) as HB2.
  destruct (rc =? 0); [done|]. destruct (rc <? 0); [done|]. cbv zeta.
  apply safe_outcome, safe_bind, total_safe. eapply total_mono; [by apply fill_AB|]. intros [] w5 (Ha5 & HA3 & HB3). cbn [fst snd].
  destruct b; [|done]. apply safe_bind, total_safe. eapply total_mono; [by apply fill_AB|]. by intros ? w6 [? _].
Qed.

Lemma put_AB a bs w : at_AB w -> total (put_to_user a bs) (fun _ w' => at_AB w') w.
Proof. intros Ha. apply (at_AB_kept w); [|done..]. apply put_inv, Ha. Qed.

Lemma ioctlAB_spec cmd arg w : at_AB w ->
  outcome (acq200_ioctlAB file cmd arg) (fun _ w' => sys_inv w') ab_fault w.
Proof.
  intros Ha. unfold acq200_ioctlAB. destruct (cmd =? _); [|by apply safe_outcome, safe_ret, Ha]. cbv zeta.
  destruct (at_node w Ha) as (x & Hx & _). unfold outcome. erewrite bind_done by by apply path_ref_eq.
  pose proof (si_dev w (at_inv w Ha)) as Hi.
  apply (outcome_bind _ _ _ _ _ _ (down_spec AB_busy_sem w w Hi (evolves_refl w Hi))).
  intros rc w1 [He _]. pose proof (at_AB_evolves w w1 Ha He) as Ha1.
  destruct (istrue rc); [by apply safe_outcome, safe_ret, Ha1|].
  destruct (at_AB_upd (fun x => x <| has_AB_busy_mutex := 1 |>) w1 ltac:(done) Ha1) as (E & Ha2 & _).
  unfold outcome. erewrite bind_done by exact E. erewrite bind_done by reflexivity. cbv beta zeta.
  destruct (istrue _); [apply Ha2|]. apply (outcome_then _ _ _ _ _ _ (action_AB _ _ Ha2)).
  intros [rc' ops] w3 Ha3. unfold outcome. erewrite bind_done by reflexivity.
  assert (at_AB (sem_upd AB_busy_sem (fun n => n + 1) w3)) as Ha4.
  { apply (at_AB_evolves w3); [done|]. apply sem_upd_evolves; [apply Ha3|apply evolves_refl, Ha3]. }
  destruct (at_AB_upd (fun x => x <| has_AB_busy_mutex := 0 |>) _ ltac:(done) Ha4) as (E' & Ha5 & _).
  erewrite bind_done by exact E'. cbn [fst snd]. destruct (rc' =? 0); [|apply Ha5].
  apply safe_outcome, safe_bind, total_safe. eapply total_mono; [by apply put_AB|]. intros f w6 Ha6.
  destruct (istrue f); apply safe_ret, Ha6.
Qed.
End AB.
