(* ===== verification/Mmap.v ===== *)
(** * acq200_mmap.c: the card's registers in the kernel, the driver's buffers in a user's memory

    The register window of the card is requested as an i/o memory region and mapped when the device is
    created, and given back when it goes.  [mmap] of a device node lets the user's program see a
    buffer, or the mailbox registers.

    The kernel's [ioremap] and whether its [remap_pfn_range] fails are parameters.  Its region table is
    a list of the regions in use, as in /proc/iomem: a request fails when the region is not free. *)

From Stdlib Require Import String.
From S2P Require Import Prelude CString BusProt StreamBuf Pool Device Rch I2o Isr Kernel Outer.
From S2P Require Import Owner Frames Sleep Mask Mailbox Path Bridge.

Definition CSR_SIZE : Z := 0x80.
Definition CSR_SIZE_MAX : Z := 0x1000.
Definition PCI_BA_CSR : Z := 0.
Definition BA_MASK (bar : Z) : Z := Z.land bar (u32 (Z.lnot 0x0f)).

(** ** The register window *)

(** [device->csr], with its name, and the kernel's table of regions in use. *)
Record IoMap := mkIoMap {
  csr : IoMapping;
  csr_name : list Z;
  iomem : list (Z * Z)   (** start and length *)
}.
#[export] Instance set_csr : Setter csr := fun f r => mkIoMap (f (csr r)) (csr_name r) (iomem r).
#[export] Instance set_csr_name : Setter csr_name := fun f r => mkIoMap (csr r) (f (csr_name r)) (iomem r).
#[export] Instance set_iomem : Setter iomem := fun f r => mkIoMap (csr r) (csr_name r) (f (iomem r)).

Definition overlap (a b : Z * Z) : bool := (fst a <? fst b + snd b) && (fst b <? fst a + snd a).

(** linux/ioport.h *)
Definition request_mem_region (start n : Z) : M IoMap bool :=
  let* s := gets iomem in
  if existsb (overlap (start, n)) s then ret false
  else modify (setf iomem (cons (start, n))) >> ret true.
Definition release_mem_region (start n : Z) : M IoMap unit :=
  modify (setf iomem (remove_one (start, n))).

Definition KNAME : nat := 32.

Section Registers.
Context (pci_resource_start : Z -> Z) (ioremap_nocache : Z -> Z -> Z).

Definition acq200_makeIoMapping (bar : Z) (drv_name ident : list Z) (len : Z) : M IoMap Z :=
  modify (setf csr_name (fun _ => take (KNAME - 1) (drv_name ++ chars "." ++ ident))) >>
  modify (setf csr (fun m => m <| map_pa := BA_MASK (pci_resource_start bar) |> <| map_len := len |>)) >>
  let* pim := gets csr in
  let* ok := request_mem_region (map_pa pim) (map_len pim) in
  if ok then
    modify (setf csr (setf map_va (fun _ => ioremap_nocache (map_pa pim) (map_len pim)))) >>
    ret 0
  else ret (- ENODEV).

Definition acq200_map_pci_memory (drv_name : list Z) : M IoMap Z :=
  acq200_makeIoMapping PCI_BA_CSR drv_name (chars "csr") CSR_SIZE.

Definition clearIoMapping : M IoMap unit :=
  let* m := gets csr in
  let* name := gets csr_name in
  when (negb (map_va m =? 0)) (ret tt) >>                       (* iounmap *)
  when (negb (Z.of_nat (length name) =? 0)) (release_mem_region (map_pa m) (map_len m)) >>
  modify (setf csr (fun _ => mkIoMapping 0 0 0)) >>
  modify (setf csr_name (fun _ => [])).

Definition acq200_unmap_pci_memory : M IoMap unit := clearIoMapping.

Lemma csr_name_nonempty drv_name ident :
  negb (Z.of_nat (length (take (KNAME - 1) (drv_name ++ chars "." ++ ident))) =? 0) = true.
Proof.
  destruct (Z.eqb_spec (Z.of_nat (length (take (KNAME - 1) (drv_name ++ chars "." ++ ident)))) 0) as [E|];
    [|done].
  rewrite length_take, !length_app in E. unfold KNAME in E. change (length (chars ".")) with 1%nat in E.
  lia.
Qed.

(** The window of the card, and what mapping it answers. *)
Definition window : Z * Z := (BA_MASK (pci_resource_start PCI_BA_CSR), CSR_SIZE).

Lemma map_memory_eq drv_name w :
  let free := negb (existsb (overlap window) (iomem w)) in
  exists m name, negb (Z.of_nat (length name) =? 0) = true /\
    map_pa m = fst window /\ map_len m = CSR_SIZE /\
    acq200_map_pci_memory drv_name w = Done (if free then 0 else - ENODEV)
      (mkIoMap m name (if free then window :: iomem w else iomem w)).
Proof.
  cbv zeta. unfold acq200_map_pci_memory, acq200_makeIoMapping.
  pose proof (csr_name_nonempty drv_name (chars "csr")) as Hn.
  set (name := take _ _) in *.
  erewrite bind_done by reflexivity. erewrite bind_done by reflexivity.
  erewrite bind_done by reflexivity. cbn.
  destruct (existsb (overlap window) (iomem w)) eqn:E; unfold window in E.
  - exists (mkIoMapping (map_va (csr w)) (fst window) CSR_SIZE), name. repeat split; [done|].
    erewrite bind_done.
    2:{ unfold request_mem_region. erewrite bind_done by reflexivity. cbn. by rewrite E. }
    reflexivity.
  - eexists (mkIoMapping _ (fst window) CSR_SIZE), name. repeat split; [done|].
    erewrite bind_done.
    2:{ unfold request_mem_region. erewrite bind_done by reflexivity. cbn. rewrite E. reflexivity. }
    reflexivity.
Qed.

Lemma unmap_memory_eq m name regions : negb (Z.of_nat (length name) =? 0) = true ->
  acq200_unmap_pci_memory (mkIoMap m name regions) =
    Done tt (mkIoMap (mkIoMapping 0 0 0) [] (remove_one (map_pa m, map_len m) regions)).
Proof.
  intros Hn. unfold acq200_unmap_pci_memory, clearIoMapping.
  erewrite bind_done by reflexivity. erewrite bind_done by reflexivity.
  erewrite bind_done by (by destruct (negb (map_va _ =? 0))).
  cbn [csr_name]. rewrite Hn. reflexivity.
Qed.

(** The register window is requested when no driver has a region overlapping it, and only then;
    removing the device gives its region back.  When the request was refused, removing the device
    still releases a region equal to the window: that of the driver that has it. *)
Theorem register_window_balance drv_name w :
  exists rc w1, acq200_map_pci_memory drv_name w = Done rc w1 /\
    (rc = 0 <-> Forall (fun r => overlap window r = false) (iomem w)) /\
    acq200_unmap_pci_memory w1 = Done tt (mkIoMap (mkIoMapping 0 0 0) []
      (if rc =? 0 then iomem w else remove_one window (iomem w))).
Proof.
  destruct (map_memory_eq drv_name w) as (m & name & Hn & Hpa & Hlen & E).
  eexists _, _. split; [exact E|]. rewrite unmap_memory_eq by done.
  rewrite Hpa, Hlen. change (fst window, CSR_SIZE) with window.
  destruct (existsb _ _) eqn:Ho; cbn [negb]; (split; [split|]); try done.
  - intros Hf. apply existsb_exists in Ho as (r & Hr%list_elem_of_In & Hov).
    rewrite Forall_forall in Hf. by rewrite Hf in Hov.
  - intros _. apply Forall_forall. intros r Hr. destruct (overlap window r) eqn:Hov; [|done].
    rewrite <- Ho. symmetry. apply existsb_exists. exists r. by rewrite <- list_elem_of_In.
  - do 2 f_equal. cbn [remove_one]. by rewrite decide_True.
Qed.
End Registers.

(** ** [mmap] *)
Definition VM_READ : Z := 1.
Definition VM_WRITE : Z := 2.

Record vm_area_struct := mkVma {
  vm_start : Z;
  vm_end : Z;
  vm_pgoff : Z;
  vm_flags : Z
}.

Definition getDirectionFromVma (vma : vm_area_struct) : Z :=
  let f := Z.land (vm_flags vma) (Z.lor VM_READ VM_WRITE) in
  if f =? Z.lor VM_READ VM_WRITE then DMA_BIDIRECTIONAL
  else if f =? VM_READ then DMA_FROM_DEVICE
  else if f =? VM_WRITE then DMA_TO_DEVICE
  else DMA_NONE.

(** What [remap_pfn_range] puts in the page tables: the addresses from [rm_virt] on are mapped to the
    page frames from [rm_pfn] on. *)
Record Remap := mkRemap {
  rm_virt : Z;
  rm_pfn : Z;
  rm_size : Z
}.

(** The physical address a user address is mapped to. *)
Definition translate (r : Remap) (va : Z) : option Z :=
  if (rm_virt r <=? va) && (va <? rm_virt r + rm_size r)
  then Some (Z.shiftl (rm_pfn r) PAGE_SHIFT + (va - rm_virt r)) else None.

Section Mmap.
Context `{Platform}.
(** whether it fails, having mapped nothing *)
Context (remap_pfn_range : vm_area_struct -> Z -> Z -> bool).

Definition remap (vma : vm_area_struct) (pfn vsize : Z) : Z * option Remap :=
  if remap_pfn_range vma pfn vsize then (- EAGAIN, None)
  else (0, Some (mkRemap (vm_start vma) pfn vsize)).

Definition mmap_dmabuf (vma : vm_area_struct) (dma_buf : DmaBuf) : Z * option Remap :=
  let vsize := u32 (vm_end vma - vm_start vma) in
  let psize := u32 (dma_buf_len dma_buf) in
  let pfn := Z.shiftr (buf_pa dma_buf) PAGE_SHIFT in
  if psize <? vsize then (- EINVAL, None) else remap vma pfn vsize.

Definition acq200_mmap_host (file : File) (vma : vm_area_struct) : MW (Z * option Remap) :=
  let* p := path_ref (PD file) in ret (mmap_dmabuf vma (path_dma_buf p)).
Definition acq200_mmap_llhost (file : File) (vma : vm_area_struct) : MW (Z * option Remap) :=
  let* p := path_ref (PD file) in ret (mmap_dmabuf vma (path_llhost_dma_buf p)).
Definition acq200_mmapAB (file : File) (vma : vm_area_struct) : MW (Z * option Remap) :=
  let* p := path_ref (PD file) in
  let* w := get_world in
  ret (mmap_dmabuf vma (ab_get (AB (dev w)) (Z.land (minor p) 1))).

Definition acq200_mmap_mbox (file : File) (vma : vm_area_struct) : MW (Z * option Remap) :=
  let* _ := path_ref (PD file) in
  let* w := get_world in
  let off := u32 (Z.shiftl (vm_pgoff vma) PAGE_SHIFT) in
  let pa := u32 (csr_pa (dev w) + off) in
  let pfn := Z.shiftr pa PAGE_SHIFT in
  let vsize := u32 (vm_end vma - vm_start vma) in
  ret (if CSR_SIZE_MAX <? vsize then (- EINVAL, None) else remap vma pfn vsize).

(** ** What a user sees *)

(** A mapping the kernel offers, and a buffer as the page allocator and the DMA API give it. *)
Record vma_ok (vma : vm_area_struct) : Prop := {
  vo_range : 0 <= vm_start vma <= vm_end vma;
  vo_end : vm_end vma < 2 ^ 32
}.
Record dma_buf_ok (d : DmaBuf) : Prop := {
  do_order : 0 <= order d <= 18;
  do_page : buf_pa d mod PAGE_SIZE = 0;
  do_pa : 0 <= buf_pa d
}.

Lemma dma_buf_len_range d : dma_buf_ok d -> 0 <= dma_buf_len d < 2 ^ 31.
Proof.
  intros [[Ho Ho'] _ _]. unfold dma_buf_len. destruct (negb _); [|lia].
  change PAGE_SIZE with (2 ^ 12). rewrite Z.shiftl_mul_pow2, Z.mul_1_l, <- Z.pow_add_r by lia.
  assert (2 ^ (order d + 12) <= 2 ^ 30) by (apply Z.pow_le_mono_r; lia).
  pose proof (Z.pow_pos_nonneg 2 (order d + 12)). rewrite s32_id; lia.
Qed.

Lemma page_shift_id a : a mod PAGE_SIZE = 0 -> Z.shiftl (Z.shiftr a PAGE_SHIFT) PAGE_SHIFT = a.
Proof.
  intros Ha. change PAGE_SHIFT with 12. change PAGE_SIZE with (2 ^ 12) in Ha.
  rewrite Z.shiftr_div_pow2, Z.shiftl_mul_pow2 by lia. pose proof (Z.div_mod a (2 ^ 12)). lia.
Qed.

Lemma mmap_dmabuf_spec vma d : vma_ok vma -> dma_buf_ok d ->
  match mmap_dmabuf vma d with
  | (rc, None) => rc = - EINVAL /\ dma_buf_len d < vm_end vma - vm_start vma \/ rc = - EAGAIN
  | (rc, Some r) => rc = 0 /\ forall va, vm_start vma <= va < vm_end vma ->
      translate r va = Some (buf_pa d + (va - vm_start vma)) /\ va - vm_start vma < dma_buf_len d
  end.
Proof.
  intros [Hr He] Hd. pose proof (dma_buf_len_range d Hd) as Hl. destruct Hd as [_ Hp _].
  unfold mmap_dmabuf. cbv zeta. rewrite !u32_id by lia.
  destruct (Z.ltb_spec (dma_buf_len d) (vm_end vma - vm_start vma)); [left; lia|].
  unfold remap. destruct (remap_pfn_range _ _ _); [by right|]. split; [done|].
  intros va Hva. split; [|lia]. unfold translate. cbn [rm_virt rm_size rm_pfn].
  rewrite (proj2 (Z.leb_le _ _)), (proj2 (Z.ltb_lt _ _)) by lia. cbn [andb].
  by rewrite page_shift_id.
Qed.

(** C34: mapping the buffer of a node gives the user the buffer's first bytes, address for address,
    and nothing past the end of the buffer; a range longer than the buffer is refused. *)
Theorem mmap_within_buffer file vma w p :
  paths w !! PD file = Some p -> vma_ok vma ->
  forall d m, (m, d) ∈ [(acq200_mmap_host file vma, path_dma_buf p);
                        (acq200_mmap_llhost file vma, path_llhost_dma_buf p);
                        (acq200_mmapAB file vma, ab_get (AB (dev w)) (Z.land (minor p) 1))] ->
  dma_buf_ok d ->
  exists rc o, m w = Done (rc, o) w /\
    match o with
    | None => rc = - EINVAL /\ dma_buf_len d < vm_end vma - vm_start vma \/ rc = - EAGAIN
    | Some r => rc = 0 /\ forall va, vm_start vma <= va < vm_end vma ->
        translate r va = Some (buf_pa d + (va - vm_start vma)) /\ va - vm_start vma < dma_buf_len d
    end.
Proof.
  intros Hp Hv d m Hin Hd. pose proof (mmap_dmabuf_spec vma d Hv Hd) as E.
  destruct (mmap_dmabuf vma d) as [rc o] eqn:Em. exists rc, o. split; [|exact E].
  unfold acq200_mmap_host, acq200_mmap_llhost, acq200_mmapAB in Hin.
  repeat (apply elem_of_cons in Hin as [[= -> ->]|Hin];
    [erewrite bind_done by (by apply path_ref_eq); by rewrite <- Em|]).
  by apply not_elem_of_nil in Hin.
Qed.

(** The mailbox node maps any page of physical memory: for each there is an offset that gives it
    to the user, since the offset is not bounded by the size of the register window. *)
Theorem mmap_mbox_any_page file start w target :
  is_Some (paths w !! PD file) -> csr_pa (dev w) mod PAGE_SIZE = 0 ->
  target mod PAGE_SIZE = 0 -> 0 <= target < 2 ^ 32 -> 0 <= start < 2 ^ 32 - PAGE_SIZE ->
  (forall vma pfn size, remap_pfn_range vma pfn size = false) ->
  exists pgoff r, 0 <= pgoff < 2 ^ 20 /\
    acq200_mmap_mbox file (mkVma start (start + PAGE_SIZE) pgoff (Z.lor VM_READ VM_WRITE)) w =
      Done (0, Some r) w /\
    forall i, 0 <= i < PAGE_SIZE -> translate r (start + i) = Some (target + i).
Proof.
  intros [p Hp] Hc Ht Hr Hs Hok. change PAGE_SIZE with (2 ^ 12) in *.
  set (pgoff := (target - csr_pa (dev w)) / 2 ^ 12 mod 2 ^ 20).
  exists pgoff, (mkRemap start (Z.shiftr target PAGE_SHIFT) (2 ^ 12)).
  pose proof (Z.mod_pos_bound ((target - csr_pa (dev w)) / 2 ^ 12) (2 ^ 20)).
  split; [subst pgoff; lia|]. split.
  - unfold acq200_mmap_mbox. erewrite bind_done by (by apply path_ref_eq).
    erewrite bind_done by reflexivity. cbv zeta. cbn [vm_pgoff vm_end vm_start].
    assert (u32 (csr_pa (dev w) + u32 (Z.shiftl pgoff PAGE_SHIFT)) = target) as ->.
    { change PAGE_SHIFT with 12. unfold u32, wrap. rewrite Z.shiftl_mul_pow2 by lia. subst pgoff.
      set (c := csr_pa (dev w)) in *.
      pose proof (Z.div_mod (target - c) (2 ^ 12)) as E.
      assert ((target - c) mod 2 ^ 12 = 0) as E0 by (rewrite Zminus_mod, Ht, Hc; done).
      set (q := (target - c) / 2 ^ 12) in *.
      rewrite (Z.mod_small (q mod 2 ^ 20 * 2 ^ 12)) by lia.
      change (2 ^ 32) with (2 ^ 12 * 2 ^ 20).
      pose proof (Z.div_mod q (2 ^ 20)).
      replace (c + q mod 2 ^ 20 * 2 ^ 12) with (target + (- (q / 2 ^ 20)) * (2 ^ 12 * 2 ^ 20)) by lia.
      rewrite Z.mod_add by lia. apply Z.mod_small. lia. }
    replace (start + 2 ^ 12 - start) with (2 ^ 12) by lia. change (u32 (2 ^ 12)) with (2 ^ 12).
    change (CSR_SIZE_MAX <? 2 ^ 12) with false. cbv iota. unfold remap. by rewrite Hok.
  - intros i Hi. unfold translate. cbn [rm_virt rm_size rm_pfn].
    rewrite (proj2 (Z.leb_le _ _)), (proj2 (Z.ltb_lt _ _)) by lia. cbn [andb].
    rewrite page_shift_id by done. do 2 f_equal. lia.
Qed.
End Mmap.
