(* ===== verification/Init.v ===== *)
(** * acq200_bigbuf_alloc.c, acq200.c: the device of a new card

    When a card is found, its descriptor is created: the communications buffer, the largest the page
    allocator gives, is cut in four mappings, of which the last is kept for messages; sixteen handlers
    are made; the queue of handlers and the stream buffer are empty.  What the driver does with the
    descriptor (its table, the registrations, the first commands) is in the file [Driver].

    What the page allocator, the DMA API and the PCI layer return is a parameter. *)

From Stdlib Require Import String.
From S2P Require Import Prelude CString BusProt StreamBuf Pool Device Rch I2o Isr Kernel Outer.
From S2P Require Import Owner Frames Sleep Mask Mailbox Path Bridge Acquire Requests Writes Release BufferAB Nodes Mmap.

Definition NMAPPINGS : nat := 4.
Definition MSG_MAPPING : nat := NMAPPINGS - 1.
Definition NHANDLERS : nat := 16.
Definition COMMSBUF_ORDER : Z := 12.

(** A descriptor after [memset], with its PCI device. *)
Definition no_pool {A} : Pool A := mkPool 0 [] 0.
Definition zero_device `{Platform} (id irq devfn : Z) : Acq200Device :=
  mkDevice id 0 [] irq devfn 0 (mkDmaBuf 0 0 0) (mkDmaBuf 0 0 0) (mkDmaBuf 0 0 0, mkDmaBuf 0 0 0)
    no_pool no_pool false 0 [] (replicate (Z.to_nat (NR_IRQS / 4 + 1)) 0) 0
    (mkMboxSync 0 0 0 false) 0 0 0 0 0 0 0 (0, 0, 0) 0
    (mkDpd 0 0 0 0 0 0 [] false 0 false 0 0) (zeroIntBuf (Z.to_nat NSTREAMBUF)) no_task.

(** ** The pools *)

(** The loop of [_create_mappings]. *)
Fixpoint mappings_loop (n : nat) (bb : DmaBuf) (buflen offset : Z) : list IoMapping :=
  match n with
  | O => []
  | S n =>
      mkIoMapping (buf_va bb + offset) (u32 (buf_pa bb + offset)) buflen ::
      mappings_loop n bb buflen (u32 (offset + buflen))
  end.

Definition _create_mappings (bb : DmaBuf) : Pool Kbuf * list IoMapping :=
  let buflen := Z.quot (dma_buf_len bb) (Z.of_nat NMAPPINGS) in
  (mkPool NMAPPINGS ((fun ii => mkPoolEntry false (KPool ii)) <$> seq 0 NMAPPINGS) 0,
   mappings_loop NMAPPINGS bb buflen 0).

Definition _create_handlers : Pool nat * list ReturnCommandHandler :=
  (mkPool NHANDLERS ((fun ii => mkPoolEntry false ii) <$> seq 0 NHANDLERS) 0,
   replicate NHANDLERS zero_rch).

(** The memory the pools take; [block_ok w b] tells whether there is memory for block [b]. *)
Inductive PoolBlock := big_buf_pool | mapping_entries | mapping_items | handler_entries | handler_items.
#[export] Instance PoolBlock_eq_dec : EqDecision PoolBlock.
Proof. solve_decision. Defined.

Definition assert (b : bool) : MW unit := if b then ret tt else crash KernelBug.

(** The first block is cleared whether it is there or not, the others are asserted to be there. *)
Definition acq200_pool_create (block_ok : World -> PoolBlock -> bool) : MW unit :=
  let* w := get_world in
  when (negb (block_ok w big_buf_pool)) (crash NullDeref) >>
  assert (block_ok w mapping_items) >>
  assert (block_ok w mapping_entries) >>
  let '(pm, maps') := _create_mappings (dma_buf (dev w)) in
  modify (setf maps (fun _ => maps')) >>
  let* w := get_world in
  assert (block_ok w handler_entries) >>
  assert (block_ok w handler_items) >>
  let '(ph, rchs') := _create_handlers in
  modify (setf rchs (fun _ => rchs')) >>
  modify (upd_dev (fun d => d <| mappings :=
      mkPool (max_entries pm) (alter (fun e => mkPoolEntry true (item e)) MSG_MAPPING (entries pm))
        (cursor pm) |>
      <| handlers := ph |> <| sleepq := false |>)).

Definition _delete_mappings : MW unit := modify (setf maps (fun _ => [])).
Definition _delete_handlers : MW unit := modify (setf rchs (fun _ => [])).

Definition acq200_pool_delete : MW unit :=
  let* w := get_world in
  when (negb (max_entries (handlers (dev w)) =? 0)%nat)
    (_delete_mappings >>
     _delete_handlers >>
     modify (upd_dev (fun d => d <| mappings := no_pool |> <| handlers := no_pool |>))).

(** ** The ramp the buffer is filled with *)
Fixpoint fill_ramp_loop (n : nat) (data id ii : Z) : MW unit :=
  match n with
  | O => ret tt
  | S n =>
      modify (setf mem (fun m => mem_write m (data + 4 * ii) (le_bytes 4 (Z.lor id ii)))) >>
      fill_ramp_loop n data id (ii + 1)
  end.

(** [idx] is the driver's count of devices. *)
Definition fill_ramp (data len idx : Z) : MW unit :=
  let ilen := Z.quot len 4 in
  let id := u32 (Z.shiftl idx 28) in
  fill_ramp_loop (Z.to_nat ilen) data id 0.

Definition DEV_TYPE_ACQ196 : Z := 0x1000.
Definition DEV_TYPE_ACQ216 : Z := 0x2100.
Definition PCI_VENDOR_ID_INTEL : Z := 0x8086.
(** [ent->vendor], of the table's entry that the card matched. *)
Definition IS_ACQ196 (vendor : Z) : bool := vendor =? PCI_VENDOR_ID_INTEL.
Definition acq200_set_dev_type (vendor : Z) : MW unit :=
  if IS_ACQ196 vendor then
    modify (upd_dev (fun d => d <| card_type := DEV_TYPE_ACQ196 |> <| model_name := chars "acq196" |>))
  else
    modify (upd_dev (fun d => d <| card_type := DEV_TYPE_ACQ216 |> <| model_name := chars "acq216" |>)).

(** The slot of a card in the backplane, from its PCI address. *)
Definition acq200_get_cpci_slot (devfn : Z) : Z :=
  if (72 <=? devfn) && (devfn <=? 120) then s32 (u32 (9 - u32 (devfn / 8 - 8))) else -1.

Section Init.
Context `{Platform}.
Context (get_free_pages : World -> Z -> Z) (dma_map_single : World -> Z -> Z).
(** [dma_alloc_coherent]: address for the CPU and for the card *)
Context (dma_alloc_coherent : World -> Z * Z).
(** the start of a PCI resource *)
Context (pci_resource_start : Z -> Z).
(** whether there is memory for a block of the pools *)
Context (block_ok : World -> PoolBlock -> bool).

Definition alloc_llhost_buf : MW unit :=
  let* w := get_world in
  let vp := dma_alloc_coherent w in
  modify (upd_dev (setf llhost_dma_buf (fun _ => mkDmaBuf 0 (fst vp) (u32 (snd vp))))).

(** [id] is the value of [idx] before the device is counted; what comes before, the memory of the
    descriptor and its place in the table, is in [Driver.acq200_device_create].  The register window is mapped whatever
    [acq200_map_pci_memory] answers: its result is not looked at. *)
Definition acq200_device_create (id irq devfn : Z) : MW unit :=
  modify (upd_dev (fun _ => zero_device id irq devfn)) >>
  alloc_llhost_buf >>
  alloc_max_buf get_free_pages dma_map_single (fun b => setf dma_buf (fun _ => b)) COMMSBUF_ORDER >>
  let* w := get_world in
  fill_ramp (buf_va (dma_buf (dev w))) (dma_buf_len (dma_buf (dev w))) (id + 1) >>
  modify (upd_dev (fun d => d <| csr_pa := BA_MASK (pci_resource_start PCI_BA_CSR) |>
    <| mbox_sync := (mbox_sync d) <| mbox_mutex := 1 |> |>
    <| clients_mutex := 1 |> <| buffer_AB_busy_mutex := 1 |>
    <| streambuf := streamBufInit (streambuf d) |>)) >>
  rchInit None >>
  acq200_pool_create block_ok.

End Init.

(** ** The largest buffer there is *)

(** The highest of the orders below [n] for which there are pages. *)
Fixpoint best_order (pages : Z -> Z) (n : nat) : option nat :=
  match n with
  | O => None
  | S n => if pages (Z.of_nat n) =? 0 then best_order pages n else Some n
  end.

Lemma best_order_spec pages n :
  match best_order pages n with
  | Some o => (o < n)%nat /\ pages (Z.of_nat o) <> 0 /\
      forall i, (o < i < n)%nat -> pages (Z.of_nat i) = 0
  | None => forall i, (i < n)%nat -> pages (Z.of_nat i) = 0
  end.
Proof.
  induction n as [|n IH]; cbn [best_order]; [intros; lia|].
  destruct (Z.eqb_spec (pages (Z.of_nat n)) 0) as [E|E].
  - destruct (best_order pages n) as [o|].
    + destruct IH as (? & ? & Hi). repeat split; [lia|done|]. intros i Hr.
      destruct (decide (i = n)) as [->|]; [done|apply Hi; lia].
    + intros i Hr. destruct (decide (i = n)) as [->|]; [done|apply IH; lia].
  - repeat split; [lia|done|]. intros. lia.
Qed.

Section Created.
Context `{Platform}.
Context (get_free_pages : World -> Z -> Z) (dma_map_single : World -> Z -> Z).
Context (dma_alloc_coherent : World -> Z * Z) (pci_resource_start : Z -> Z).

Lemma get_max_buf_eq n w :
  get_max_buf get_free_pages n w =
    match best_order (get_free_pages w) n with
    | Some o => Done (get_free_pages w (Z.of_nat o), Z.of_nat o) w
    | None => Crash KernelBug w
    end.
Proof.
  induction n as [|n IH]; [done|]. cbn [get_max_buf best_order].
  erewrite bind_done by reflexivity. cbv zeta.
  by destruct (get_free_pages w (Z.of_nat n) =? 0).
Qed.

(** The buffer allocator takes the largest block of pages the kernel has, not above the order
    asked for; it stops the kernel only when there is not even one page. *)
Theorem get_max_buf_largest n w :
  (exists o, (o <= n)%nat /\ get_free_pages w (Z.of_nat o) <> 0 /\
     (forall i, (o < i <= n)%nat -> get_free_pages w (Z.of_nat i) = 0) /\
     get_max_buf get_free_pages (S n) w = Done (get_free_pages w (Z.of_nat o), Z.of_nat o) w) \/
  (forall i, (i <= n)%nat -> get_free_pages w (Z.of_nat i) = 0) /\
     get_max_buf get_free_pages (S n) w = Crash KernelBug w.
Proof.
  rewrite get_max_buf_eq. pose proof (best_order_spec (get_free_pages w) (S n)) as E.
  destruct (best_order _ _) as [o|].
  - left. destruct E as (? & ? & Hi). exists o. repeat split; [lia|done|]. intros; apply Hi; lia.
  - right. split; [|done]. intros; apply E; lia.
Qed.

End Created.

(** ** The ramp *)
Fixpoint ramp (n : nat) (id ii : Z) : list Z :=
  match n with
  | O => []
  | S n => Z.lor id ii :: ramp n id (ii + 1)
  end.

Lemma ramp_length n id ii : length (words_bytes (ramp n id ii)) = (4 * n)%nat.
Proof.
  revert ii. induction n as [|n IH]; intros ii; [done|]. unfold words_bytes in *. cbn [ramp flat_map].
  rewrite length_app, length_le_bytes, IH. lia.
Qed.

Lemma ramp_split n k id ii : (k < n)%nat -> words_bytes (ramp n id ii) =
  words_bytes (ramp k id ii) ++ le_bytes 4 (Z.lor id (ii + Z.of_nat k)) ++
  words_bytes (ramp (n - S k) id (ii + Z.of_nat k + 1)).
Proof.
  revert n ii. induction k as [|k IH]; intros [|n] ii Hk; try lia; unfold words_bytes in *.
  - cbn [ramp flat_map app]. rewrite Z.add_0_r. by replace (S n - 1)%nat with n by lia.
  - cbn [ramp flat_map]. rewrite (IH n (ii + 1)) by lia. rewrite <- app_assoc.
    replace (ii + 1 + Z.of_nat k) with (ii + Z.of_nat (S k)) by lia. done.
Qed.

Lemma fill_ramp_loop_eq n data id ii w :
  fill_ramp_loop n data id ii w =
    Done tt (setf mem (fun m => mem_write m (data + 4 * ii) (words_bytes (ramp n id ii))) w).
Proof.
  revert ii w. induction n as [|n IH]; intros ii w; [by destruct w|].
  cbn [fill_ramp_loop]. erewrite bind_done by reflexivity. rewrite IH. f_equal.
  unfold setf, set_mem. cbn -[le_bytes mem_write Z.mul]. f_equal.
  unfold words_bytes. cbn [ramp flat_map]. rewrite mem_write_app, length_le_bytes.
  by replace (data + 4 * (ii + 1)) with (data + 4 * ii + Z.of_nat 4) by lia.
Qed.

Lemma mem_read_mid m a xs ys zs :
  mem_read (mem_write m a (xs ++ ys ++ zs)) (a + Z.of_nat (length xs)) (length ys) = ys.
Proof.
  rewrite !mem_write_app. set (m1 := mem_write m a xs).
  rewrite mem_read_write_other by lia. apply mem_read_write.
Qed.

(** After a device is created word [i] of its communications buffer holds [i], with the number of
    the device in the four high bits. *)
Theorem fill_ramp_words data len idx i w : 0 <= i -> 4 * i + 4 <= len < 2 ^ 31 ->
  exists w', fill_ramp data len idx w = Done tt w' /\
    word_at (mem w') (data + 4 * i) = Z.lor (u32 (Z.shiftl idx 28)) i.
Proof.
  intros Hi Hl. assert (i < Z.quot len 4) as Hq.
  { rewrite Z.quot_div_nonneg by lia. apply Z.lt_le_trans with (i + 1); [lia|].
    apply Z.div_le_lower_bound; lia. }
  unfold fill_ramp. rewrite fill_ramp_loop_eq. eexists. split; [reflexivity|].
  set (id := u32 _). unfold word_at. cbn -[mem_read mem_write].
  rewrite (ramp_split _ (Z.to_nat i) id 0) by lia.
  pose proof (ramp_length (Z.to_nat i) id 0) as Hlen.
  replace (data + 4 * i) with (data + 4 * 0 + Z.of_nat (length (words_bytes (ramp (Z.to_nat i) id 0))))
    by lia.
  change 4%nat with (length (le_bytes 4 (Z.lor id (0 + Z.of_nat (Z.to_nat i))))) at 2.
  rewrite mem_read_mid, le_value_bytes_id; [f_equal; lia|].
  assert (0 <= Z.lor id i < 2 ^ 32) as Hb by (apply lor_range; [apply u32_range|lia]).
  replace (0 + Z.of_nat (Z.to_nat i)) with i by lia. exact Hb.
Qed.

(** ** A new device *)

(** What its pools are: four mappings that cut the buffer in equal parts, one after the other, the last
    one kept; sixteen handlers; nothing else in use. *)
Record fresh_pools (w : World) (bb : DmaBuf) : Prop := {
  fp_maps : forall i, (i < NMAPPINGS)%nat -> maps w !! i =
    Some (mkIoMapping (buf_va bb + Z.of_nat i * (dma_buf_len bb / 4))
            (u32 (buf_pa bb + Z.of_nat i * (dma_buf_len bb / 4))) (dma_buf_len bb / 4));
  fp_reserved : forall i, (i < NMAPPINGS)%nat ->
    is_reserved (mappings (dev w)) (KPool i) = bool_decide (i = MSG_MAPPING);
  fp_handlers : forall r, (r < NHANDLERS)%nat ->
    is_Some (rchs w !! r) /\ is_reserved (handlers (dev w)) r = false
}.

Definition pools_created (w : World) : World :=
  upd_dev (fun d => d
      <| mappings := mkPool 4 (alter (fun e => mkPoolEntry true (item e)) MSG_MAPPING
                       ((fun ii => mkPoolEntry false (KPool ii)) <$> seq 0 4)) 0 |>
      <| handlers := fst _create_handlers |> <| sleepq := false |>)
    (w <| maps := snd (_create_mappings (dma_buf (dev w))) |> <| rchs := replicate 16 zero_rch |>).

Lemma pool_create_eq block_ok w :
  settles (acq200_pool_create block_ok) (fun _ w' => w' = pools_created w)
    (fun f _ => exists v b, block_ok v b = false /\ f = if decide (b = big_buf_pool) then NullDeref else KernelBug) w.
Proof.
  unfold acq200_pool_create, settles. erewrite bind_done by reflexivity.
  destruct (block_ok w big_buf_pool) eqn:E1; [|by exists w, big_buf_pool]. erewrite bind_done by reflexivity.
  destruct (block_ok w mapping_items) eqn:E2; [|by exists w, mapping_items]. erewrite bind_done by reflexivity.
  destruct (block_ok w mapping_entries) eqn:E3; [|by exists w, mapping_entries]. erewrite bind_done by reflexivity.
  cbn [_create_mappings]. erewrite bind_done by reflexivity. erewrite bind_done by reflexivity. set (v := setf maps _ w).
  destruct (block_ok v handler_entries) eqn:E4; [|by exists v, handler_entries]. erewrite bind_done by reflexivity.
  destruct (block_ok v handler_items) eqn:E5; [|by exists v, handler_items]. reflexivity.
Qed.

Lemma mappings_cut bb : 0 <= dma_buf_len bb < 2 ^ 31 -> forall i, (i < NMAPPINGS)%nat ->
  snd (_create_mappings bb) !! i =
    Some (mkIoMapping (buf_va bb + Z.of_nat i * (dma_buf_len bb / 4))
            (u32 (buf_pa bb + Z.of_nat i * (dma_buf_len bb / 4))) (dma_buf_len bb / 4)).
Proof.
  intros Hl i Hi. unfold _create_mappings, NMAPPINGS in *. cbn [snd mappings_loop].
  change (Z.of_nat 4) with 4. rewrite Z.quot_div_nonneg by lia.
  assert (0 <= dma_buf_len bb / 4 < 2 ^ 29) as Hq
    by (split; [apply Z.div_pos; lia|apply Z.div_lt_upper_bound; lia]).
  set (q := dma_buf_len bb / 4) in *.
  rewrite (u32_id (0 + q)), (u32_id (0 + q + q)), (u32_id (0 + q + q + q)) by lia.
  destruct i as [|[|[|[|i]]]]; [..|lia]; cbn [lookup list_lookup]; f_equal; (f_equal; [lia|f_equal; lia]).
Qed.

Lemma pools_created_fresh w : 0 <= dma_buf_len (dma_buf (dev w)) < 2 ^ 31 ->
  fresh_pools (pools_created w) (dma_buf (dev w)).
Proof.
  intros Hl. constructor.
  - intros i Hi. by apply mappings_cut.
  - intros i Hi. unfold NMAPPINGS in Hi. by destruct i as [|[|[|[|i]]]]; [..|lia].
  - intros r Hr. unfold NHANDLERS in Hr. cbn [rchs pools_created upd_dev setf].
    do 16 (destruct r as [|r]; [split; [by eexists|reflexivity]|]). lia.
Qed.

Lemma pools_created_inv w : queued w = [] -> streambuf (dev w) = freshStreamBuf ->
  4 <= dma_buf_len (dma_buf (dev w)) < 2 ^ 31 -> dev_inv (pools_created w).
Proof.
  intros Hq Hs Hl. pose proof (pools_created_fresh w ltac:(lia)) as [Hm _ _].
  assert (queued (pools_created w) = []) as Hq' by exact Hq.
  constructor.
  - constructor; cbn; unfold NHANDLERS; [lia|done|lia|]. by apply (bool_decide_unpack _).
  - constructor; cbn; unfold NHANDLERS; [lia|done|lia|]. by apply (bool_decide_unpack _).
  - intros r Hr. change (r ∈ seq 0 16) in Hr. apply elem_of_seq in Hr.
    cbn [rchs pools_created upd_dev setf]. apply lookup_lt_is_Some. cbn. lia.
  - intros k Hk. change (k ∈ KPool <$> seq 0 4) in Hk. apply list_elem_of_fmap in Hk as (i & -> & Hi).
    apply elem_of_seq in Hi. eexists i, _. split; [done|]. split; [apply Hm; unfold NMAPPINGS; lia|].
    cbn [map_len]. split; [apply Z.div_str_pos; lia|apply Z.div_lt_upper_bound; lia].
  - rewrite Hq'. constructor.
  - intros r. rewrite Hq'. set_solver.
  - intros r x Hx _. cbn [rchs pools_created upd_dev setf] in Hx.
    change (rchs _ !! r) with (replicate 16 zero_rch !! r) in Hx.
    apply lookup_replicate in Hx as [-> _]. done.
  - intros r r' k [Hr _]. rewrite Hq' in Hr. set_solver.
  - cbn [dev pools_created upd_dev setf streambuf].
    change (streambuf (dev (pools_created w))) with (streambuf (dev w)). rewrite Hs. apply fresh_wf.
  - change (streambuf (dev (pools_created w))) with (streambuf (dev w)). rewrite Hs.
    change freshStreamBuf with (genericIntBufInit (2 ^ 7) (zeroIntBuf 128)).
    rewrite init_abs by lia. constructor.
Qed.

Section Ready.
Context `{Platform}.
Context (get_free_pages : World -> Z -> Z) (dma_map_single : World -> Z -> Z).
Context (dma_alloc_coherent : World -> Z * Z) (pci_resource_start : Z -> Z).
Context (block_ok : World -> PoolBlock -> bool).

(** Why a device cannot be made: there is not even one page, or no memory for the pools. *)
Inductive make_fault : Fault -> Prop :=
| fault_no_page v : get_free_pages v 0 = 0 -> make_fault KernelBug
| fault_no_pool v : block_ok v big_buf_pool = false -> make_fault NullDeref
| fault_no_block v b : b <> big_buf_pool -> block_ok v b = false -> make_fault KernelBug.

Lemma alloc_max_buf_eq set_buf n w o : best_order (get_free_pages w) (S n) = Some o ->
  alloc_max_buf get_free_pages dma_map_single set_buf (Z.of_nat n) w =
    Done tt (upd_dev (set_buf (mkDmaBuf (Z.of_nat o) (get_free_pages w (Z.of_nat o))
      (u32 (dma_map_single w (get_free_pages w (Z.of_nat o)))))) w).
Proof.
  intros Ho. unfold alloc_max_buf. replace (Z.to_nat (Z.of_nat n + 1)) with (S n) by lia.
  erewrite bind_done by (by rewrite get_max_buf_eq, Ho).
  by erewrite bind_done.
Qed.

Lemma order_len o va pa : 0 <= o <= 12 -> va <> 0 -> 4096 <= dma_buf_len (mkDmaBuf o va pa) <= 2 ^ 24.
Proof.
  intros Ho Hv. unfold dma_buf_len. cbn [buf_va order]. rewrite (proj2 (Z.eqb_neq _ _) Hv). cbn [negb].
  change PAGE_SIZE with (2 ^ 12). rewrite Z.shiftl_mul_pow2, Z.mul_1_l, <- Z.pow_add_r by lia.
  assert (2 ^ (0 + 12) <= 2 ^ (o + 12)) by (apply Z.pow_le_mono_r; lia).
  assert (2 ^ (o + 12) <= 2 ^ 24) by (apply Z.pow_le_mono_r; lia).
  rewrite s32_id by lia. lia.
Qed.

Lemma device_create_spec id irq devfn w :
  settles (acq200_device_create get_free_pages dma_map_single dma_alloc_coherent pci_resource_start block_ok
      id irq devfn) (fun _ w' =>
    dev_inv w' /\ queued w' = [] /\ fresh_pools w' (dma_buf (dev w')) /\
    4096 <= dma_buf_len (dma_buf (dev w')) <= 2 ^ 24 /\
    sem_get mbox_sem w' = 1 /\ sem_get AB_busy_sem w' = 1 /\ sem_get clients_sem w' = 1 /\
    using_interrupt (mbox_sync (dev w')) = 0 /\
    idx (dev w') = id /\ pci_irq (dev w') = irq /\ max_entries (handlers (dev w')) = NHANDLERS /\
    completed_onetime_setups (dev w') = 0 /\ params w' = params w /\ major (dev w') = 0 /\
    rchs w' = replicate NHANDLERS zero_rch /\ paths w' = paths w) (fun f _ => make_fault f) w.
Proof.
  unfold acq200_device_create, settles. erewrite bind_done by reflexivity.
  erewrite bind_done.
  2:{ unfold alloc_llhost_buf. erewrite bind_done by reflexivity. reflexivity. }
  match goal with |- context [bind (alloc_max_buf _ _ _ _) _ ?v] => set (w1 := v) end.
  pose proof (best_order_spec (get_free_pages w1) 13) as Hb.
  destruct (best_order (get_free_pages w1) 13) as [o|] eqn:Ho.
  2:{ unfold alloc_max_buf, bind at 1. change (Z.to_nat (COMMSBUF_ORDER + 1)) with 13%nat.
      unfold bind at 1. rewrite get_max_buf_eq, Ho. apply (fault_no_page w1), (Hb 0%nat). lia. }
  destruct Hb as (Hlt & Hne & _).
  erewrite bind_done by exact (alloc_max_buf_eq _ 12 w1 o Ho).
  set (bb := mkDmaBuf _ _ _). set (w2 := upd_dev _ w1).
  erewrite bind_done by reflexivity. unfold fill_ramp.
  erewrite bind_done by apply fill_ramp_loop_eq. set (w3 := setf mem _ w2).
  erewrite bind_done by reflexivity. erewrite bind_done by reflexivity.
  match goal with |- context [acq200_pool_create block_ok ?v] => set (w4 := v) end.
  fold (settles (acq200_pool_create block_ok)). eapply settles_mono; [apply pool_create_eq| |].
  2:{ intros f _ (v & b & Hb & ->). case_decide; [subst b; by eapply fault_no_pool|by eapply fault_no_block]. }
  intros [] w' ->.
  assert (dma_buf (dev w4) = bb) as Hbb by reflexivity.
  assert (4096 <= dma_buf_len bb <= 2 ^ 24) as Hlen by (apply order_len; [lia|exact Hne]).
  assert (forall v, dma_buf (dev (pools_created v)) = dma_buf (dev v)) as -> by done.
  rewrite Hbb.
  assert (queued w4 = []) as Hq by reflexivity.
  assert (streambuf (dev w4) = freshStreamBuf) as Hs by reflexivity.
  split; [apply pools_created_inv; [done|done|by rewrite Hbb; lia]|].
  split; [reflexivity|]. split; [rewrite <- Hbb; apply pools_created_fresh; rewrite Hbb; lia|].
  split; [exact Hlen|]. by repeat split.
Qed.


(** The mappings a fresh device has for data and messages lie inside the buffer and do not
    overlap. *)
Theorem fresh_mappings_disjoint w bb i j mi mj :
  fresh_pools w bb -> 0 <= dma_buf_len bb -> (i < j < NMAPPINGS)%nat ->
  maps w !! i = Some mi -> maps w !! j = Some mj ->
  buf_va bb <= map_va mi /\ map_va mi + map_len mi <= map_va mj /\
  map_va mj + map_len mj <= buf_va bb + dma_buf_len bb.
Proof.
  intros [Hm _ _] Hl Hij Hi Hj. rewrite Hm in Hi, Hj by lia. injection Hi as <-. injection Hj as <-.
  cbn [map_va map_len]. pose proof (Z.mul_div_le (dma_buf_len bb) 4 ltac:(lia)) as Hq.
  assert (0 <= dma_buf_len bb / 4) by (apply Z.div_pos; lia). unfold NMAPPINGS in *.
  set (q := dma_buf_len bb / 4) in *.
  assert (0 <= Z.of_nat i /\ Z.of_nat i + 1 <= Z.of_nat j <= 3) by lia. nia.
Qed.

End Ready.

(** The slot of a card is found from its PCI address exactly for device functions 72 to 120: a slot
    from 2 to 8, the same for the eight functions of a device and different for different devices. *)
Theorem cpci_slot_range devfn devfn' : 0 <= devfn < 2 ^ 32 -> 0 <= devfn' < 2 ^ 32 ->
  let slot := acq200_get_cpci_slot devfn in
  (slot = -1 <-> ~ 72 <= devfn <= 120) /\ (slot <> -1 -> 2 <= slot <= 8) /\
  (slot <> -1 -> acq200_get_cpci_slot devfn' <> -1 ->
    (slot = acq200_get_cpci_slot devfn' <-> devfn / 8 = devfn' / 8)).
Proof.
  assert (forall d, 0 <= d < 2 ^ 32 -> acq200_get_cpci_slot d =
    if (72 <=? d) && (d <=? 120) then 17 - d / 8 else -1) as E.
  { intros d Hd. unfold acq200_get_cpci_slot.
    destruct (Z.leb_spec 72 d), (Z.leb_spec d 120); cbn [andb]; try done.
    assert (9 <= d / 8 <= 15) by (split; [apply Z.div_le_lower_bound; lia|apply Z.div_le_upper_bound; lia]).
    rewrite (u32_id (d / 8 - 8)), u32_id, s32_id by lia. lia. }
  intros Hd Hd'. cbv zeta. rewrite !E by done.
  assert (forall d, 72 <= d <= 120 -> 9 <= d / 8 <= 15) as Hr.
  { intros d ?. split; [apply Z.div_le_lower_bound; lia|apply Z.div_le_upper_bound; lia]. }
  destruct (Z.leb_spec 72 devfn), (Z.leb_spec devfn 120); cbn [andb];
    try (repeat split; intros; lia).
  pose proof (Hr devfn ltac:(lia)).
  destruct (Z.leb_spec 72 devfn'), (Z.leb_spec devfn' 120); cbn [andb]; repeat split; intros; lia.
Qed.
