(* ===== verification/Driver.v ===== *)
(** * acq200.c, acq200_if.c: the driver, from the module's load to its unload

    The driver keeps a table of the descriptors of its cards.  A card that is found is probed: its
    descriptor is made and entered in the table, and registered with the kernel: a character device, an
    interrupt handler, a class device, the files of /sys.  A card that goes away is looked up in the
    table, its registrations are undone and its descriptor is freed; the table is not changed.

    A descriptor is a [World]: its device, the memory it owns and the bus history of its card.  The
    descriptors that are allocated are a heap: to follow a pointer to one that was freed is a fault.
    What the kernel keeps for the driver is a list of registrations.  What its functions answer is a
    parameter, [KernelApi]. *)

From Stdlib Require Import String.
From S2P Require Import Prelude CString BusProt StreamBuf Pool Device Rch I2o Isr Kernel Outer.
From S2P Require Import Owner Frames Sleep Mask Mailbox Path Bridge Acquire Requests Mmap Init.

Definition MAXDEV : nat := 16.

(** What the kernel keeps for the driver. *)
Inductive Registration :=
| reg_class (name : list Z)
| reg_driver (name : list Z)
| reg_chrdev (major : Z) (name : list Z)
| reg_irq (irq : Z) (dev_id : nat)          (** a handler, and the descriptor it gets *)
| reg_class_dev (devt dev : Z)
| reg_file (dev : Z) (attr : string).       (** in the directory of a device *)

#[export] Instance Registration_eq_dec : EqDecision Registration.
Proof. solve_decision. Defined.

(** A card, as the PCI layer describes it. *)
Record PciDev := mkPciDev {
  pci_device : Z;   (** address of its [struct device] *)
  pci_vendor : Z;
  pci_line : Z;   (** interrupt line, or 0 *)
  pci_fn : Z;
  pci_bar : Z -> Z   (** start of a resource *)
}.

(** A descriptor. *)
Record Desc := mkDesc {
  d_world : World;   (** the device, and the memory it owns *)
  pci_dev : Z;   (** address of its [struct device] *)
  drv_name : list Z;
  class_dev : Z;   (** 0 until it is created *)
  csr_map : IoMapping;
  csr_map_name : list Z
}.
#[export] Instance set_d_world : Setter d_world := fun f r => mkDesc (f (d_world r)) (pci_dev r) (drv_name r) (class_dev r) (csr_map r) (csr_map_name r).
#[export] Instance set_pci_dev : Setter pci_dev := fun f r => mkDesc (d_world r) (f (pci_dev r)) (drv_name r) (class_dev r) (csr_map r) (csr_map_name r).
#[export] Instance set_drv_name : Setter drv_name := fun f r => mkDesc (d_world r) (pci_dev r) (f (drv_name r)) (class_dev r) (csr_map r) (csr_map_name r).
#[export] Instance set_class_dev : Setter class_dev := fun f r => mkDesc (d_world r) (pci_dev r) (drv_name r) (f (class_dev r)) (csr_map r) (csr_map_name r).
#[export] Instance set_csr_map : Setter csr_map := fun f r => mkDesc (d_world r) (pci_dev r) (drv_name r) (class_dev r) (f (csr_map r)) (csr_map_name r).
#[export] Instance set_csr_map_name : Setter csr_map_name := fun f r => mkDesc (d_world r) (pci_dev r) (drv_name r) (class_dev r) (csr_map r) (f (csr_map_name r)).

Record Driver := mkDriver {
  devices : list nat;   (** [devices\[0\]], ..., [devices\[idx - 1\]] *)
  heap : gmap nat Desc;   (** the descriptors that are allocated *)
  regs : list Registration;
  resources : list (Z * Z);   (** the kernel's table of i/o regions *)
  freed_pages : list (Z * Z)   (** given to [__free_pages] *)
}.
#[export] Instance set_devices : Setter devices := fun f r => mkDriver (f (devices r)) (heap r) (regs r) (resources r) (freed_pages r).
#[export] Instance set_heap : Setter heap := fun f r => mkDriver (devices r) (f (heap r)) (regs r) (resources r) (freed_pages r).
#[export] Instance set_regs : Setter regs := fun f r => mkDriver (devices r) (heap r) (f (regs r)) (resources r) (freed_pages r).
#[export] Instance set_resources : Setter resources := fun f r => mkDriver (devices r) (heap r) (regs r) (f (resources r)) (freed_pages r).
#[export] Instance set_freed_pages : Setter freed_pages := fun f r => mkDriver (devices r) (heap r) (regs r) (resources r) (f (freed_pages r)).

Abbreviation MD := (M Driver).

(** What the kernel's functions answer. *)
Class KernelApi := {
  kmalloc : Driver -> option nat;   (** for a descriptor *)
  block_ok : World -> PoolBlock -> bool;   (** for a block of the pools *)
  boot : World;   (** the world of a new descriptor, before it is cleared *)
  get_free_pages : World -> Z -> Z;
  dma_map_single : World -> Z -> Z;
  dma_alloc_coherent : World -> Z * Z;
  ioremap_nocache : Z -> Z -> Z;
  pci_enable_device : Z -> Z;
  register_chrdev : Driver -> Z;   (** a major number, or negative *)
  request_irq_rc : Driver -> Z -> Z;
  device_create_file : Driver -> Z -> string -> Z;
  device_create : Driver -> Z -> Z;   (** the address of the class device, or an error *)
  sysfs_create_link : Driver -> Z -> string -> Z
}.

(** The kernel's [IS_ERR]: the addresses of the last page, here as negative numbers, are error codes. *)
Definition IS_ERR (p : Z) : bool := (-4095 <=? p) && (p <? 0).

(** ** Descriptors *)
Definition desc_ref (p : nat) : MD Desc :=
  let* h := gets heap in deref UseAfterFree (h !! p).
Definition desc_upd (p : nat) (f : Desc -> Desc) : MD unit :=
  let* _ := desc_ref p in modify (setf heap (alter f p)).

(** The driver after a step of one device. *)
Definition put_world (p : nat) (w : World) : Driver -> Driver :=
  setf heap (alter (fun d => d <| d_world := w |>) p).

Definition on {A} (p : nat) (m : MW A) : MD A := fun s =>
  match heap s !! p with
  | None => Crash UseAfterFree s
  | Some d =>
      match m (d_world d) with
      | Done a w => Done a (put_world p w s)
      | Crash f w => Crash f (put_world p w s)
      | Blocked w => Blocked (put_world p w s)
      | NoFuel => NoFuel
      end
  end.

(** The register window of one device, with the table of regions. *)
Definition put_window (p : nat) (i : IoMap) (s : Driver) : Driver :=
  setf heap (alter (fun d => d <| csr_map := csr i |> <| csr_map_name := csr_name i |>) p)
    (s <| resources := iomem i |>).
Definition on_window {A} (p : nat) (m : M IoMap A) : MD A := fun s =>
  match heap s !! p with
  | None => Crash UseAfterFree s
  | Some d =>
      match m (mkIoMap (csr_map d) (csr_map_name d) (resources s)) with
      | Done a i => Done a (put_window p i s)
      | Crash f i => Crash f (put_window p i s)
      | Blocked i => Blocked (put_window p i s)
      | NoFuel => NoFuel
      end
  end.

(** [acq200_lookupDevice] compares the PCI devices, [acq200_lookupDeviceFromClass] the class devices;
    both follow every pointer of the table up to the one they look for. *)
Fixpoint lookup_loop (test : Desc -> bool) (l : list nat) : MD (option nat) :=
  match l with
  | [] => ret None
  | p :: l =>
      let* d := desc_ref p in
      if test d then ret (Some p) else lookup_loop test l
  end.
Definition acq200_lookupDevice (dev : Z) : MD (option nat) :=
  let* l := gets devices in lookup_loop (fun d => dev =? pci_dev d) l.
Definition acq200_lookupDeviceFromClass (dev : Z) : MD (option nat) :=
  let* l := gets devices in lookup_loop (fun d => dev =? class_dev d) l.

(** ** Registrations *)
Definition register (r : Registration) : MD unit := modify (setf regs (cons r)).
Definition unregister (r : Registration) : MD unit := modify (setf regs (filter (fun x => x <> r))).

Section Registrations.
Context `{KernelApi}.

(** A file that cannot be made is reported, and that is all. *)
Definition acq200_device_create_file (dev : Z) (attr : string) : MD unit :=
  let* s := gets (fun s => s) in
  when (device_create_file s dev attr =? 0) (register (reg_file dev attr)).
Definition device_remove_file (dev : Z) (attr : string) : MD unit := unregister (reg_file dev attr).

Fixpoint each (f : string -> MD unit) (l : list string) : MD unit :=
  match l with
  | [] => ret tt
  | a :: l => f a >> each f l
  end.

Definition device_attrs : list string :=
  ["host_pa"; "host_len"; "llhost_pa"; "llhost_len"; "heartbeat"; "cpci_slot"; "buffer_AB_busy_mutex";
   "interrupt_count"; "available_input_channels"; "available_output_channels"; "buffers"]%string.
Definition acq200_create_sysfs_device (dev : Z) : MD unit :=
  each (acq200_device_create_file dev) device_attrs.
Definition acq200_remove_sysfs_device (dev : Z) : MD unit := each (device_remove_file dev) device_attrs.

Definition pool_attrs : list string := ["pool"; "rch_list"]%string.
Definition create_dev_sysfs (dev : Z) : MD unit := each (acq200_device_create_file dev) pool_attrs.
Definition remove_dev_sysfs (dev : Z) : MD unit := each (device_remove_file dev) pool_attrs.

Definition class_attrs : list string := ["imask"; "dev"]%string.

(** The link to the PCI device is an entry of the class device's directory.  The pointer to the class device
    is followed whether it is one or an error code. *)
Definition acq200_create_sysfs_class (p : nat) : MD unit :=
  let* d := desc_ref p in
  when (IS_ERR (class_dev d)) (crash BadPointer) >>
  acq200_device_create_file (class_dev d) "imask" >>
  acq200_device_create_file (class_dev d) "dev" >>
  let* s := gets (fun s => s) in
  when (sysfs_create_link s (class_dev d) "device" =? 0) (register (reg_file (class_dev d) "device")).
Definition acq200_remove_sysfs_class (p : nat) : MD unit :=
  let* d := desc_ref p in
  device_remove_file (class_dev d) "imask" >>
  device_remove_file (class_dev d) "dev".

(** [device_destroy]: the class device of that number goes, with its directory. *)
Definition in_class_dev (dev : Z) (r : Registration) : bool :=
  match r with
  | reg_class_dev _ d => d =? dev
  | reg_file d _ => d =? dev
  | _ => false
  end.
Fixpoint class_dev_of (devt : Z) (l : list Registration) : option Z :=
  match l with
  | [] => None
  | reg_class_dev t d :: l => if t =? devt then Some d else class_dev_of devt l
  | _ :: l => class_dev_of devt l
  end.
Definition device_destroy (devt : Z) : MD unit :=
  modify (fun s => match class_dev_of devt (regs s) with
    | Some dev => setf regs (filter (fun r => in_class_dev dev r = false)) s
    | None => s end).
End Registrations.

(** ** A card comes and goes *)
Section Cards.
Context `{Platform} `{KernelApi}.

Definition zero_desc : Desc := mkDesc boot 0 [] 0 (mkIoMapping 0 0 0) [].

(** The steps that concern the device alone are [Init.acq200_device_create]; the register window, which the
    code maps between the ramp and the semaphores, does not concern them. *)
Definition acq200_device_create (dev : PciDev) : MD nat :=
  let* s := gets (fun s => s) in
  match kmalloc s with
  | None => crash KernelBug
  | Some p =>
      let id := Z.of_nat (length (devices s)) in
      modify (setf heap (<[p := zero_desc]>)) >>
      when (negb (id <? Z.of_nat MAXDEV)) (crash KernelBug) >>
      modify (setf devices (fun l => l ++ [p])) >>
      desc_upd p (fun d => d <| pci_dev := pci_device dev |>
                             <| drv_name := chars "acq200." ++ fmt_d id |>) >>
      on p (Init.acq200_device_create get_free_pages dma_map_single dma_alloc_coherent (pci_bar dev) block_ok
              id (pci_line dev) (pci_fn dev)) >>
      let* d := desc_ref p in
      let* _ := on_window p (acq200_map_pci_memory (pci_bar dev) ioremap_nocache (drv_name d)) in
      create_dev_sysfs (pci_dev d) >>
      ret p
  end.

Definition dev_of (p : nat) : MD Acq200Device :=
  let* d := desc_ref p in ret (dev (d_world d)).

(** The last part of [acq200_device_init]: the files, the class device. *)
Definition device_announce (p : nat) : MD unit :=
  let* d := desc_ref p in
  acq200_create_sysfs_device (pci_dev d) >>
  let id := idx (dev (d_world d)) in
  let* s := gets (fun s => s) in
  let cd := device_create s id in
  when (negb (IS_ERR cd)) (register (reg_class_dev id cd)) >>
  desc_upd p (fun d => d <| class_dev := cd |>) >>
  acq200_create_sysfs_class p.

(** The first commands to the card. *)
Definition device_setup (p : nat) (rc : Z) : MD Z :=
  let* dv := dev_of p in
  if completed_onetime_setups dv =? 0 then
    let funcode := Z.lor (BP_SET_FUNCODE BP_FC_SET_HOST_DMABUF) (BP_SET_A1 (Z.of_nat NMAPPINGS)) in
    let* rc := on p (acq200_sendCommandA3A4 funcode (buf_pa (dma_buf dv)) (u32 (dma_buf_len (dma_buf dv)))) in
    on p (modify (upd_dev (setf completed_onetime_setups (fun _ => 1)))) >>
    if istrue rc then ret rc
    else
      let* rc := on p acq200_getAvailableChannels in
      device_announce p >> ret rc
  else device_announce p >> ret rc.

(** The result is that of the first step that fails, or of the last. *)
Definition acq200_device_init (p : nat) : MD Z :=
  let* d := desc_ref p in
  let rc := pci_enable_device (pci_dev d) in
  if istrue rc then ret rc
  else
    on p (modify (setf params (setf slots (fun _ => acq200_get_cpci_slot (pci_devfn (dev (d_world d))))))) >>
    let* s := gets (fun s => s) in
    let rc := register_chrdev s in
    if rc <? 0 then on p (modify (upd_dev (setf major (fun _ => 0)))) >> ret rc
    else
      register (reg_chrdev rc (drv_name d)) >>
      on p (modify (upd_dev (setf major (fun _ => rc)))) >>
      let* s := gets (fun s => s) in
      let irq := pci_irq (dev (d_world d)) in
      let use := istrue (acq200_use_interrupts (params (d_world d))) && istrue irq in
      let rc := if use then request_irq_rc s irq else rc in
      when (use && (rc =? 0)) (register (reg_irq irq p)) >>
      if use && istrue rc then ret rc
      else
        let* dv := dev_of p in
        if istrue (using_interrupt (mbox_sync dv)) then
          let* rc := on p (acq200_sendCommand (u32 (BP_SET_FUNCODE BP_FC_SET_INTERRUPTS + BP_SET_A1 3))) in
          if istrue rc then ret rc else device_setup p rc
        else device_setup p rc.

Definition acq200_probe (dev : PciDev) : MD Z :=
  let* p := acq200_device_create dev in
  on p (acq200_set_dev_type (pci_vendor dev)) >>
  acq200_device_init p.

(** What is given to [__free_pages]: address and order. *)
Definition __kbuf_free (b : DmaBuf) : list (Z * Z) :=
  if istrue (buf_va b) then [(buf_va b, order b)] else [].

(** [kfree] ends the life of the descriptor. *)
Definition acq200_device_free (p : nat) : MD unit :=
  let* d := desc_ref p in
  when (negb (max_entries (handlers (dev (d_world d))) =? 0)%nat)
    (remove_dev_sysfs (pci_dev d) >> on p acq200_pool_delete) >>
  on_window p acq200_unmap_pci_memory >>
  let dv := dev (d_world d) in
  modify (setf freed_pages (fun l => l ++
    (buf_va (llhost_dma_buf dv), order (llhost_dma_buf dv)) ::
    __kbuf_free (dma_buf dv) ++ __kbuf_free (fst (AB dv)) ++ __kbuf_free (snd (AB dv)))) >>
  modify (setf heap (delete p)).

Definition acq200_remove (dev : Z) : MD unit :=
  let* o := acq200_lookupDevice dev in
  match o with
  | None => ret tt
  | Some p =>
      let* dv := dev_of p in
      when (istrue (using_interrupt (mbox_sync dv)))
        (unregister (reg_irq (pci_irq dv) p) >>
         on p (modify (upd_mbox (setf using_interrupt (fun _ => 0))))) >>
      acq200_remove_sysfs_class p >>
      let* d := desc_ref p in
      acq200_remove_sysfs_device (pci_dev d) >>
      device_destroy (idx dv) >>
      unregister (reg_chrdev (major dv) (drv_name d)) >>
      acq200_device_free p
  end.

(** ** The module *)
Definition acq200_driver_name : list Z := chars "acq200".
Definition acq200_device_class : list Z := chars "acqX00".

(** The cards the driver is for: vendor, device, and vendor and device of the subsystem. *)
Record pci_device_id := mkPciId {
  id_vendor : Z; id_device : Z; id_subvendor : Z; id_subdevice : Z
}.
Definition PCI_VENDOR_ID_HINT : Z := 0x3388.
Definition PCI_ANY_ID : Z := 0xffffffff.
Definition acq200_pci_tbl : list pci_device_id :=
  [mkPciId PCI_VENDOR_ID_HINT 0x0029 PCI_ANY_ID PCI_ANY_ID;
   mkPciId PCI_VENDOR_ID_INTEL 0x0318 PCI_ANY_ID PCI_ANY_ID;
   mkPciId PCI_VENDOR_ID_INTEL 0x0319 PCI_ANY_ID PCI_ANY_ID].
Record pci_driver := mkPciDriver {
  pd_name : list Z; id_table : list pci_device_id; pd_probe : PciDev -> MD Z; pd_remove : Z -> MD unit
}.
Definition acq200_driver : pci_driver :=
  mkPciDriver acq200_driver_name acq200_pci_tbl acq200_probe acq200_remove.

(** The PCI layer calls [acq200_probe] for each card from then on; what it answers is not looked at. *)
Definition acq200_init : MD Z :=
  register (reg_class acq200_device_class) >>
  register (reg_driver (pd_name acq200_driver)) >>
  ret 0.

Definition acq200_init_module : MD Z := let* _ := acq200_init in ret 0.

(** With the driver unregistered the PCI layer has called [acq200_remove] for each card. *)
Definition acq200_exit_module : MD unit :=
  let* l := gets devices in
  if (length l =? 0)%nat then ret tt
  else
    unregister (reg_driver (pd_name acq200_driver)) >>
    unregister (reg_class acq200_device_class).
End Cards.

(** The PCI layer probes a card with the entry whose vendor is the card's, or any.  No entry of the
    table takes any vendor: the type of the card is that of the card's own vendor. *)
Theorem probed_vendor ent dev : ent ∈ acq200_pci_tbl ->
  id_vendor ent = pci_vendor dev \/ id_vendor ent = PCI_ANY_ID ->
  IS_ACQ196 (id_vendor ent) = IS_ACQ196 (pci_vendor dev).
Proof.
  intros Hin [->|E]; [done|]. exfalso. revert E.
  repeat (apply elem_of_cons in Hin as [->|Hin]; [done|]). by apply elem_of_nil in Hin.
Qed.

(** ** The table *)

(** The entries of the table are the descriptors that are allocated, each of another card. *)
Record drv_inv (s : Driver) : Prop := {
  dv_nodup : NoDup (devices s);
  dv_live p : p ∈ devices s <-> is_Some (heap s !! p);
  dv_pci p q d e : heap s !! p = Some d -> heap s !! q = Some e -> pci_dev d = pci_dev e -> p = q;
  dv_max : (length (devices s) <= MAXDEV)%nat
}.

Lemma desc_ref_eq p d s : heap s !! p = Some d -> desc_ref p s = Done d s.
Proof. intros E. unfold desc_ref, bind, gets. by rewrite E. Qed.

Lemma desc_upd_eq p d f s : heap s !! p = Some d -> desc_upd p f s = Done tt (setf heap (alter f p) s).
Proof. intros E. unfold desc_upd. by erewrite bind_done by by apply desc_ref_eq. Qed.

Lemma lookup_loop_live test l s : (forall p, p ∈ l -> is_Some (heap s !! p)) ->
  exists o, lookup_loop test l s = Done o s /\
    match o with
    | Some p => p ∈ l /\ exists d, heap s !! p = Some d /\ test d = true
    | None => forall p d, p ∈ l -> heap s !! p = Some d -> test d = false
    end.
Proof.
  induction l as [|p l IH]; intros Hl; cbn [lookup_loop].
  - exists None. split; [done|]. intros p d Hp. by apply elem_of_nil in Hp.
  - destruct (Hl p ltac:(left)) as [d Hd]. erewrite bind_done by by apply desc_ref_eq.
    destruct (test d) eqn:Ht.
    + exists (Some p). split; [done|]. split; [left|]. by exists d.
    + destruct IH as (o & Ho & Hpost). { intros q Hq. apply Hl. by right. }
      exists o. split; [done|]. destruct o as [q|].
      * destruct Hpost as [? ?]. split; [by right|done].
      * intros q e [->|Hq]%elem_of_cons He; [congruence|by eapply Hpost].
Qed.

(** A pointer in the table to a descriptor that was freed is followed. *)
Lemma lookup_loop_dead test l1 p l2 s :
  (forall q, q ∈ l1 -> exists d, heap s !! q = Some d /\ test d = false) -> heap s !! p = None ->
  lookup_loop test (l1 ++ p :: l2) s = Crash UseAfterFree s.
Proof.
  intros Hl Hp. induction l1 as [|q l1 IH]; cbn [lookup_loop app].
  - unfold desc_ref, bind, gets. by rewrite Hp.
  - destruct (Hl q ltac:(left)) as (d & Hd & Ht). erewrite bind_done by by apply desc_ref_eq.
    rewrite Ht. apply IH. intros q' Hq'. apply Hl. by right.
Qed.

Lemma lookup_device_spec s dev : drv_inv s ->
  exists o, acq200_lookupDevice dev s = Done o s /\
    forall p, o = Some p <-> exists d, heap s !! p = Some d /\ pci_dev d = dev.
Proof.
  intros [_ Hl Hp _]. unfold acq200_lookupDevice.
  destruct (lookup_loop_live (fun d => dev =? pci_dev d) (devices s) s) as (o & Ho & Hpost).
  { intros p. apply Hl. }
  exists o. split; [by erewrite bind_done by reflexivity|]. intros p. destruct o as [q|]; split.
  - intros [= <-]. destruct Hpost as (_ & d & Hd & Ht). exists d. split; [done|]. apply Z.eqb_eq in Ht. congruence.
  - intros (d & Hd & Hdev). destruct Hpost as (_ & e & He & Ht). apply Z.eqb_eq in Ht.
    f_equal. apply (Hp q p e d); [done..|congruence].
  - done.
  - intros (d & Hd & Hdev). assert (p ∈ devices s) as Hin by (apply Hl; by exists d).
    pose proof (Hpost p d Hin Hd) as Ht. apply Z.eqb_neq in Ht. congruence.
Qed.

(** While every descriptor of the table is allocated, the look-up finds the descriptor that was made
    for a card, and nothing for a card that was not probed; it never faults. *)
Theorem lookup_finds_card s dev : drv_inv s ->
  exists o, acq200_lookupDevice dev s = Done o s /\
    forall p, o = Some p <-> exists d, heap s !! p = Some d /\ pci_dev d = dev.
Proof. apply lookup_device_spec. Qed.

(** ** Registrations, as sets *)
Definition has (s : Driver) (r : Registration) : Prop := r ∈ regs s.

(** What a step adds to the registrations, and that it touches nothing else. *)
Record registers (P : Registration -> Prop) (s s' : Driver) : Prop := {
  rg_regs r : has s' r <-> has s r \/ (P r /\ has s' r);
  rg_rest : (devices s', heap s', resources s', freed_pages s') = (devices s, heap s, resources s, freed_pages s)
}.

Lemma registers_refl P s : registers P s s.
Proof. split; [naive_solver|done]. Qed.

Lemma registers_trans P s1 s2 s3 : registers P s1 s2 -> registers P s2 s3 -> registers P s1 s3.
Proof.
  intros [H1 E1] [H2 E2]. split; [|congruence]. intros r. specialize (H1 r). specialize (H2 r).
  naive_solver.
Qed.

Lemma register_spec (P : Registration -> Prop) r s : P r ->
  total (register r) (fun _ s' => registers P s s' /\ has s' r) s.
Proof.
  intros Hr. split; [split; [|done]|]; unfold has; cbn; [|set_solver].
  intros x. rewrite elem_of_cons. naive_solver.
Qed.

Section Announce.
Context `{KernelApi}.

Lemma create_file_spec (P : Registration -> Prop) dev attr s : P (reg_file dev attr) ->
  total (acq200_device_create_file dev attr) (fun _ s' => registers P s s') s.
Proof.
  intros Hr. unfold acq200_device_create_file. run. destruct (_ =? 0); cbn [when].
  - eapply total_mono; [by apply register_spec|]. naive_solver.
  - apply registers_refl.
Qed.

Lemma create_files_spec (P : Registration -> Prop) dev l s : (forall a, a ∈ l -> P (reg_file dev a)) ->
  total (each (acq200_device_create_file dev) l) (fun _ s' => registers P s s') s.
Proof.
  revert s. induction l as [|a l IH]; intros s Hl; cbn [each]; [apply registers_refl|].
  apply total_bind. eapply total_mono; [apply create_file_spec, Hl; left|]. intros [] s1 H1.
  eapply total_mono; [apply IH; intros b Hb; apply Hl; by right|]. intros [] s2 H2.
  by eapply registers_trans.
Qed.
End Announce.

Lemma unregister_eq r s : exists s', unregister r s = Done tt s' /\
  (forall x, has s' x <-> has s x /\ x <> r) /\
  (devices s', heap s', resources s', freed_pages s') = (devices s, heap s, resources s, freed_pages s).
Proof.
  eexists. split; [reflexivity|]. split; [|done]. intros x. unfold has. cbn.
  rewrite list_elem_of_filter. naive_solver.
Qed.
