(* ===== verification/Probe.v ===== *)
(** * acq200.c: what probing a card does

    Each step of a probe touches one descriptor and adds registrations: [steps].  A probe that
    comes back keeps the invariant of the driver's table; when it stops the kernel, for want of memory, of a
    place in the table or of a class device, the other cards are as they were: [settles]. *)

From Stdlib Require Import String.
From S2P Require Import Prelude CString BusProt StreamBuf Pool Device Rch I2o Isr Kernel Outer.
From S2P Require Import Owner Frames Sleep Mask Mailbox Path Bridge Acquire Requests Mmap Init Driver.

(** ** Steps of one descriptor *)

(** The part of a descriptor that is set when it is made. *)
Definition fixed (d : Desc) := (pci_dev d, drv_name d, csr_map d, csr_map_name d).

Record touches (p : nat) (s s' : Driver) : Prop := {
  to_table : (devices s', resources s', freed_pages s') = (devices s, resources s, freed_pages s);
  to_others q : q <> p -> heap s' !! q = heap s !! q;
  to_self d : heap s !! p = Some d -> exists d', heap s' !! p = Some d' /\ fixed d' = fixed d
}.

#[export] Instance touches_preorder p : PreOrder (touches p).
Proof.
  split.
  - intros s. constructor; [done..|]. intros d Hd. by exists d.
  - intros s1 s2 s3 [E1 O1 S1] [E2 O2 S2]. constructor; [congruence| |].
    + intros q Hq. by rewrite O2, O1.
    + intros d Hd. destruct (S1 d Hd) as (d2 & Hd2 & F2). destruct (S2 d2 Hd2) as (d3 & Hd3 & F3).
      exists d3. split; [done|congruence].
Qed.

(** The registrations that were added are among [P]. *)
Definition adds (P : Registration -> Prop) (s s' : Driver) : Prop :=
  forall r, has s' r <-> has s r \/ (P r /\ has s' r).

Definition steps (P : Registration -> Prop) (p : nat) (s s' : Driver) : Prop :=
  touches p s s' /\ adds P s s'.

Lemma steps_refl P p s : steps P p s s.
Proof. split; [done|]. unfold adds. naive_solver. Qed.

Lemma steps_trans P p s1 s2 s3 : steps P p s1 s2 -> steps P p s2 s3 -> steps P p s1 s3.
Proof.
  intros [T1 A1] [T2 A2]. split; [by etransitivity|]. intros r. specialize (A1 r). specialize (A2 r).
  naive_solver.
Qed.

Lemma steps_mono (P Q : Registration -> Prop) p s s' : (forall r, P r -> Q r) -> steps P p s s' -> steps Q p s s'.
Proof. intros HPQ [T A]. split; [done|]. intros r. specialize (A r). naive_solver. Qed.

Lemma registers_steps P p s s' : registers P s s' -> steps P p s s' /\ heap s' = heap s.
Proof.
  intros [A E]. injection E as Ed Eh Er Ef. split; [|done]. split; [|exact A].
  constructor; [congruence|by rewrite Eh|]. intros d. rewrite Eh. by exists d.
Qed.

Lemma on_spec {A} p (m : MW A) (Q : A -> World -> Prop) P s d :
  heap s !! p = Some d -> total m Q (d_world d) ->
  total (on p m) (fun a s' => steps P p s s' /\
    exists w, heap s' !! p = Some (d <| d_world := w |>) /\ Q a w) s.
Proof.
  intros Hd Hm. unfold total, on in *. rewrite Hd. destruct (m (d_world d)) as [a w| | |]; try done.
  assert (heap (put_world p w s) !! p = Some (d <| d_world := w |>)) as Hp
    by (cbn; by rewrite lookup_alter_eq, Hd).
  split; [|by exists w]. split; [|unfold adds; naive_solver]. constructor; [done| |].
  - intros q Hq. cbn. by rewrite lookup_alter_ne.
  - intros e He. simplify_eq. eexists. split; [exact Hp|done].
Qed.

Lemma desc_upd_spec p f P s d : heap s !! p = Some d -> fixed (f d) = fixed d ->
  total (desc_upd p f) (fun _ s' => steps P p s s' /\ heap s' !! p = Some (f d)) s.
Proof.
  intros Hd Hf. unfold total. rewrite (desc_upd_eq p d) by done.
  assert (heap (setf heap (alter f p) s) !! p = Some (f d)) as Hp by (cbn; by rewrite lookup_alter_eq, Hd).
  split; [|done]. split; [|unfold adds; naive_solver]. constructor; [done| |].
  - intros q Hq. cbn. by rewrite lookup_alter_ne.
  - intros e He. assert (e = d) as -> by congruence. exists (f d). by split.
Qed.

(** ** Setting a device up *)
Section Setup.
Context `{Platform} `{KernelApi}.
Context (p : nat) (id : Z).

(** What announcing a device registers: its class device, and the files of its two directories. *)
Definition announced (pci cd : Z) (r : Registration) : Prop :=
  r = reg_class_dev id cd \/ (exists a, a ∈ device_attrs /\ r = reg_file pci a) \/ exists a, r = reg_file cd a.

(** The class device could not be made; until then only this descriptor was touched. *)
Definition no_class (s : Driver) (f : Fault) (s' : Driver) : Prop :=
  f = BadPointer /\ (exists v, IS_ERR (device_create v id) = true) /\ touches p s s'.

Lemma no_class_after P s0 s f s' : steps P p s0 s -> no_class s f s' -> no_class s0 f s'.
Proof. intros [Ht _] (? & ? & ?). split; [done|]. split; [done|]. by transitivity s. Qed.

(** What is made in the directory of a class device that is there. *)
Lemma class_files_spec P s d : heap s !! p = Some d -> IS_ERR (class_dev d) = false ->
  (forall a, P (reg_file (class_dev d) a)) ->
  total (acq200_create_sysfs_class p) (fun _ s' => steps P p s s' /\ heap s' = heap s) s.
Proof.
  intros Hd Hok Hf. unfold acq200_create_sysfs_class, total. erewrite bind_done by by apply desc_ref_eq.
  rewrite Hok. cbn [when]. erewrite bind_done by reflexivity.
  apply (total_bind (acq200_device_create_file _ _)). eapply total_mono; [by apply (create_file_spec P)|].
  intros [] s4 Hr4. apply (registers_steps _ p) in Hr4 as [Hs4 Eh4].
  apply (total_bind (acq200_device_create_file _ _)). eapply total_mono; [by apply (create_file_spec P)|].
  intros [] s5 Hr5. apply (registers_steps _ p) in Hr5 as [Hs5 Eh5].
  unfold total. erewrite bind_done by reflexivity.
  eapply (total_mono (when _ _) (fun _ s6 => registers P s5 s6)).
  { destruct (_ =? 0); cbn [when]; [|apply registers_refl].
    eapply total_mono; [by apply (register_spec P)|]. by intros [] s6 []. }
  intros [] s6 Hr6. apply (registers_steps _ p) in Hr6 as [Hs6 Eh6].
  split; [by do 2 (eapply steps_trans; [eassumption|])|congruence].
Qed.

Lemma announce_spec s d : heap s !! p = Some d -> idx (dev (d_world d)) = id ->
  settles (device_announce p) (fun _ s' => exists cd,
    steps (announced (pci_dev d) cd) p s s' /\ heap s' !! p = Some (d <| class_dev := cd |>) /\
    has s' (reg_class_dev id cd) /\ IS_ERR cd = false /\ exists v, cd = device_create v id /\ forall r, has s r -> has v r)
    (no_class s) s.
Proof.
  intros Hd Hid. unfold device_announce, settles. erewrite bind_done by by apply desc_ref_eq.
  eapply (settles_bind (acq200_create_sysfs_device (pci_dev d))).
  { apply (create_files_spec (fun r => exists a, a ∈ device_attrs /\ r = reg_file (pci_dev d) a)). eauto. }
  intros [] s1 Hr1. apply (registers_steps _ p) in Hr1 as [Hs1 Eh1]. cbv zeta. rewrite Hid.
  unfold settles. erewrite bind_done by reflexivity. cbv beta zeta. set (cd := device_create s1 id).
  assert (Hmono : steps (announced (pci_dev d) cd) p s s1).
  { eapply steps_mono; [|exact Hs1]. intros r ?. right. by left. }
  assert (heap s1 !! p = Some d) as Hd1 by congruence. destruct (IS_ERR cd) eqn:Hcd; cbn [negb when].
  { erewrite bind_done by reflexivity. erewrite bind_done by by eapply desc_upd_eq.
    unfold acq200_create_sysfs_class. set (s2 := setf heap _ s1).
    assert (heap s2 !! p = Some (d <| class_dev := cd |>)) as Hd2 by (cbn; by rewrite lookup_alter_eq, Hd1).
    erewrite bind_done by by apply desc_ref_eq. cbn [class_dev setf set_class_dev]. rewrite Hcd. cbn [when].
    split; [done|]. split; [by exists s1|]. transitivity s1; [apply Hs1|].
    assert (total (desc_upd p (fun d => d <| class_dev := cd |>)) (fun _ s' => steps (fun _ => False) p s1 s') s1) as Hu.
    { eapply total_mono; [by apply (desc_upd_spec p _ (fun _ => False) s1 d)|]. by intros [] s' []. }
    unfold total in Hu. rewrite (desc_upd_eq p d) in Hu by done. exact (proj1 Hu). }
  eapply (settles_bind (register _)). { apply (register_spec (announced (pci_dev d) cd)). by left. }
  intros [] s2 [Hr2 Hh2]. apply (registers_steps _ p) in Hr2 as [Hs2 Eh2].
  eapply (settles_bind (desc_upd p _)).
  { apply (desc_upd_spec p _ (announced (pci_dev d) cd) s2 d); [congruence|done]. }
  intros [] s3 [Hs3 Hd3]. apply settles_total. eapply total_mono.
  { apply (class_files_spec (announced (pci_dev d) cd) s3 _ Hd3); [done|]. intros a. right. right. by exists a. }
  intros [] s6 [Hs6 Eh6]. exists cd.
  assert (forall r, has s2 r -> has s6 r) as Hmon.
  { intros r Hr. apply Hs6. left. apply Hs3. by left. }
  split; [by do 3 (eapply steps_trans; [eassumption|])|]. split; [by rewrite Eh6|]. split; [by apply Hmon|].
  split; [done|]. exists s1. split; [done|]. intros r Hr. apply Hs1. by left.
Qed.

(** A device that answers commands, with its number, major number and interrupt line. *)
Definition fit (s : Driver) (mj irq : Z) (d : Desc) : Prop :=
  heap s !! p = Some d /\ mbox_ready (d_world d) /\ card (d_world d) = (id, mj, irq).

(** The class device is there, it is new, and the descriptor knows it. *)
Definition has_class (s0 s : Driver) (d : Desc) (cd : Z) : Prop :=
  class_dev d = cd /\ has s (reg_class_dev id cd) /\ IS_ERR cd = false /\
  exists v, cd = device_create v id /\ forall r, has s0 r -> has v r.

Definition setup_post (s : Driver) (d : Desc) (mj irq : Z) (rc : Z) (s' : Driver) : Prop :=
  exists d' cd, steps (announced (pci_dev d) cd) p s s' /\ fit s' mj irq d' /\
    (rc = 0 -> has_class s s' d' cd).

Lemma fit_announce s0 s d mj irq rc :
  steps (fun _ => False) p s0 s -> fit s mj irq d ->
  settles (device_announce p >> ret rc) (fun rc' s' => rc' = rc /\ setup_post s0 d mj irq rc' s') (no_class s0) s.
Proof.
  intros Hs0 (Hd & Hm & Hc). eapply settles_then.
  { eapply settles_mono; [apply announce_spec; [done|unfold card in Hc; congruence]|intros a s' Hp; exact Hp|].
    intros f s'. by eapply no_class_after. }
  intros [] s' (cd & Hs & Hd' & Hh & Hok & v & Hcd & Hv). split; [done|]. exists (d <| class_dev := cd |>), cd.
  split. { eapply steps_trans; [|exact Hs]. eapply steps_mono; [|exact Hs0]. done. }
  split; [done|]. intros _. split; [done|]. split; [done|]. split; [done|]. exists v. split; [done|].
  intros r Hr. apply Hv. apply Hs0. by left.
Qed.

Lemma fit_on {A} (m : MW A) (Q : A -> World -> Prop) s0 s d mj irq :
  steps (fun _ => False) p s0 s -> fit s mj irq d ->
  total m (fun a w => mbox_ready w /\ card w = card (d_world d) /\ Q a w) (d_world d) ->
  total (on p m) (fun a s' => steps (fun _ => False) p s0 s' /\
    exists w, fit s' mj irq (d <| d_world := w |>) /\ Q a w) s.
Proof.
  intros Hs0 (Hd & Hm & Hc) Ht. eapply total_mono; [by apply (on_spec p m _ (fun _ => False) s d Hd Ht)|].
  intros a s' (Hs & w & Hw & Hmw & Hcw & Hq). split; [by eapply steps_trans|]. exists w.
  split; [|done]. split; [done|]. split; [done|]. cbn. congruence.
Qed.

Lemma setup_spec s d mj irq rc : fit s mj irq d ->
  settles (device_setup p rc) (fun rc' s' => setup_post s d mj irq rc' s') (no_class s) s.
Proof.
  intros Hf. pose proof (steps_refl (fun _ => False) p s) as Hst. unfold device_setup, dev_of.
  unfold settles. erewrite bind_done by (erewrite bind_done by (apply desc_ref_eq, Hf); reflexivity).
  destruct (completed_onetime_setups _ =? 0).
  2:{ eapply settles_mono; [by eapply fit_announce| |done]. by intros ? ? [_ ?]. }
  eapply (settles_bind (on p (acq200_sendCommandA3A4 _ _ _))).
  { eapply (fit_on _ (fun _ _ => True)); [exact Hst|exact Hf|].
    eapply total_mono; [apply sendCommandA3A4_total, Hf|]. by intros ? ? (? & ? & _). }
  intros rc1 s1 (Hst1 & w1 & Hf1 & _). eapply (settles_bind (on p _)).
  { eapply (fit_on _ (fun _ _ => True)); [exact Hst1|exact Hf1|].
    destruct Hf1 as (_ & (Hi & Hu & Hm) & _). split; [|done]. split; [|done]. by apply (inv_same w1). }
  intros [] s2 (Hst2 & w2 & Hf2 & _). unfold istrue. destruct (Z.eqb_spec rc1 0) as [_|Hrc]; cbn [negb].
  - eapply (settles_bind (on p _)).
    { eapply (fit_on _ (fun _ _ => True)); [exact Hst2|exact Hf2|].
      eapply total_mono; [apply getAvailableChannels_total, Hf2|]. by intros ? ? (? & ? & _). }
    intros rc3 s3 (Hst3 & w3 & Hf3 & _).
    eapply settles_mono; [by eapply fit_announce| |done]. intros ? ? [_ ?]. done.
  - apply settles_ret. eexists _, 0. split; [|by split; [exact Hf2|]]. eapply steps_mono; [|exact Hst2]. done.
Qed.

(** What setting a device up registers. *)
Definition own_reg (d : Desc) (mj irq cd : Z) (use : bool) (r : Registration) : Prop :=
  r = reg_chrdev mj (drv_name d) \/ (use = true /\ r = reg_irq irq p) \/ announced (pci_dev d) cd r.

Definition init_post (s : Driver) (d : Desc) (irq : Z) (use : bool) (rc : Z) (s' : Driver) : Prop :=
  exists d' mj mj' cd, steps (own_reg d mj irq cd use) p s s' /\ fit s' mj' irq d' /\
    (rc = 0 -> mj' = mj /\ has_class s s' d' cd /\ (use = true -> has s' (reg_irq irq p))).

(** Whether the interrupt line of a device is used. *)
Definition uses_line (d : Desc) : bool :=
  istrue (acq200_use_interrupts (params (d_world d))) && istrue (pci_irq (dev (d_world d))).

(** The registrations before the device is announced. *)
Definition line_reg (d : Desc) (mj irq : Z) (use : bool) (r : Registration) : Prop :=
  r = reg_chrdev mj (drv_name d) \/ (use = true /\ r = reg_irq irq p).

Lemma line_own d mj irq cd use r : line_reg d mj irq use r -> own_reg d mj irq cd use r.
Proof. unfold line_reg, own_reg. naive_solver. Qed.

(** A step of the device that keeps its mailboxes ready, and changes its major number at most. *)
Lemma fit_major f (P : Registration -> Prop) s d mj mj' irq : fit s mj irq d ->
  (forall w, mbox_ready w -> mbox_ready (f w)) ->
  (forall w, card w = (id, mj, irq) -> card (f w) = (id, mj', irq)) ->
  total (on p (modify f)) (fun _ s' => steps P p s s' /\ fit s' mj' irq (d <| d_world := f (d_world d) |>)) s.
Proof.
  intros (Hd & Hm & Hc) Hf Hcf. eapply total_mono.
  { apply (on_spec p (modify f) (fun _ w => w = f (d_world d)) P s d Hd). reflexivity. }
  intros [] s' (Hs & w & Hw & ->). split; [done|]. split; [done|]. split; [by apply Hf|by apply Hcf].
Qed.

Lemma mbox_ready_upd w f : mbox_ready w -> using_interrupt (mbox_sync (dev (f w))) = using_interrupt (mbox_sync (dev w)) ->
  mbox_mutex (mbox_sync (dev (f w))) = mbox_mutex (mbox_sync (dev w)) -> (dev_inv w -> dev_inv (f w)) ->
  mbox_ready (f w).
Proof. intros (Hi & Hu & Hm) Eu Em Hf. split; [auto|]. rewrite Eu, Em. done. Qed.

Lemma init_setup s0 s d d' mj irq use rc :
  steps (line_reg d mj irq use) p s0 s -> fit s mj irq d' -> pci_dev d' = pci_dev d ->
  (use = true -> has s (reg_irq irq p)) ->
  settles (device_setup p rc) (fun rc' s' => init_post s0 d irq use rc' s') (no_class s0) s.
Proof.
  intros Hs Hf Hpci Hirq. eapply settles_mono; [by eapply setup_spec| |intros f s'; by eapply no_class_after].
  intros rc' s' (d2 & cd & Hs2 & Hf2 & Hrc). rewrite Hpci in Hs2. exists d2, mj, mj, cd. split; [|split; [done|]].
  - eapply steps_trans; [eapply steps_mono; [|exact Hs]; intros r; apply line_own|].
    eapply steps_mono; [|exact Hs2]. intros r ?. by right; right.
  - intros E. split; [done|]. destruct (Hrc E) as (Hcd & Hh & Hok & v & Hv & Hsv). split.
    + split; [done|]. split; [done|]. split; [done|]. exists v. split; [done|]. intros r Hr. apply Hsv. apply Hs. by left.
    + intros Hu. apply Hs2. left. auto.
Qed.

(** The set-up goes no further. *)
Lemma init_fails s d mj irq s' d' mj' rc : rc <> 0 -> steps (line_reg d mj irq (uses_line d)) p s s' -> fit s' mj' irq d' ->
  init_post s d irq (uses_line d) rc s'.
Proof.
  intros Hrc Hs Hf'. exists d', mj, mj', 0. split; [|by split]. eapply steps_mono; [|exact Hs]. intros r. apply line_own.
Qed.

(** The interrupt line, when it was requested and given. *)
Lemma line_registered s s3 d d3 mj irq use rc : fit s3 mj irq d3 -> steps (line_reg d mj irq use) p s s3 ->
  total (when (use && (rc =? 0)) (register (reg_irq irq p))) (fun _ s4 =>
    steps (line_reg d mj irq use) p s s4 /\ fit s4 mj irq d3 /\ (use = true -> rc = 0 -> has s4 (reg_irq irq p))) s3.
Proof.
  intros Hf3 Hs. destruct (use && (rc =? 0)) eqn:Hu; cbn [when].
  - apply andb_true_iff in Hu as [-> _]. eapply total_mono.
    { apply (register_spec (line_reg d mj irq true)). by right. }
    intros [] s4 [[Hs4 Eh4]%(registers_steps _ p) Hh]. split; [by eapply steps_trans|]. split; [|done].
    destruct Hf3 as (? & ?). split; [congruence|done].
  - split; [done|]. split; [done|]. by intros -> ->.
Qed.

Lemma init_spec s d mj0 irq : fit s mj0 irq d ->
  settles (acq200_device_init p) (fun rc s' => init_post s d irq (uses_line d) rc s') (no_class s) s.
Proof.
  intros Hf. pose proof Hf as (Hd & Hm & Hc). assert (pci_irq (dev (d_world d)) = irq) as Hirq by (unfold card in Hc; congruence).
  unfold acq200_device_init, settles. erewrite bind_done by by apply desc_ref_eq. cbv zeta.
  unfold istrue at 1. destruct (Z.eqb_spec (pci_enable_device (pci_dev d)) 0) as [_|Hrc]; cbn [negb].
  2:{ apply (init_fails s d 0 irq s d mj0 _ Hrc); [apply steps_refl|done]. }
  eapply (settles_bind (on p _)).
  { apply (fit_major _ (fun _ => False) s d mj0 mj0 irq Hf); [|done].
    intros w Hw. apply (mbox_ready_upd w _ Hw); [done..|]. intros ?. by apply (inv_same w). }
  intros [] s1 [Hs1 Hf1]. unfold settles. erewrite bind_done by reflexivity. cbv beta zeta.
  set (mj := register_chrdev s1). set (d1 := d <| d_world := _ |>) in *.
  assert (forall P : Registration -> Prop, steps P p s s1) as Hs1'.
  { intros P. eapply steps_mono; [|exact Hs1]. done. }
  destruct (Z.ltb_spec mj 0).
  { eapply (settles_bind (on p _)).
    { apply (fit_major _ (line_reg d mj irq (uses_line d)) s1 d1 mj0 0 irq Hf1).
      - intros w Hw. apply (mbox_ready_upd w _ Hw); [done..|]. intros ?. by apply (inv_same w).
      - unfold card. cbn. intros w ?. congruence. }
    intros [] s2 [Hs2 Hf2]. apply settles_ret. eapply init_fails; [lia|by eapply steps_trans|exact Hf2]. }
  eapply (settles_bind (register _)).
  { apply (register_spec (line_reg d mj irq (uses_line d))). by left. }
  intros [] s2 [[Hs2 Eh2]%(registers_steps _ p) _].
  assert (fit s2 mj0 irq d1) as Hf2 by (destruct Hf1 as (? & ?); split; [congruence|done]).
  eapply (settles_bind (on p _)).
  { apply (fit_major _ (line_reg d mj irq (uses_line d)) s2 d1 mj0 mj irq Hf2).
    - intros w Hw. apply (mbox_ready_upd w _ Hw); [done..|]. intros ?. by apply (inv_same w).
    - unfold card. cbn. intros w ?. congruence. }
  intros [] s3 [Hs3 Hf3]. set (d3 := d1 <| d_world := _ |>) in *.
  assert (steps (line_reg d mj irq (uses_line d)) p s s3) as Hs by (do 2 (eapply steps_trans; [done|]); done).
  unfold settles. erewrite bind_done by reflexivity. cbv beta zeta. fold (uses_line d). rewrite Hirq.
  set (rc := if uses_line d then _ else _).
  eapply (settles_bind (when _ _)); [by apply (line_registered s s3 d d3 mj irq (uses_line d) rc)|].
  intros [] s4 (Hs4 & Hf4 & Hirq4).
  destruct (uses_line d && istrue rc) eqn:Hu.
  { apply andb_true_iff in Hu as [_ Hrc]. unfold istrue in Hrc. apply negb_true_iff, Z.eqb_neq in Hrc.
    apply settles_ret. by eapply init_fails. }
  unfold dev_of, settles. erewrite bind_done by (erewrite bind_done by (apply desc_ref_eq, Hf4); reflexivity).
  pose proof Hf4 as (_ & (_ & Hui & _) & _). rewrite Hui. change (istrue 0) with false. cbv iota.
  eapply (init_setup s s4 d d3); [done|done|done|].
  intros Hut. apply Hirq4; [done|]. rewrite Hut in Hu. cbn [andb] in Hu. unfold istrue in Hu.
  by apply negb_false_iff, Z.eqb_eq in Hu.
Qed.
End Setup.

(** ** Probing a card *)
Section Probe.
Context `{Platform} `{KernelApi}.

(** The number of the next card, and its name. *)
Definition next_number (s : Driver) : Z := Z.of_nat (length (devices s)).
Definition next_name (s : Driver) : list Z := chars "acq200." ++ fmt_d (next_number s).

(** The card was not probed; if there is memory for its descriptor it is at [p], where there is no other. *)
Record card_new (dev : PciDev) (p : nat) (s : Driver) : Prop := {
  cn_inv : drv_inv s;
  cn_alloc q : kmalloc s = Some q -> q = p;
  cn_fresh : heap s !! p = None;
  cn_other q d : heap s !! q = Some d -> pci_dev d <> pci_device dev
}.

(** Why a probe may stop the kernel: no memory for the descriptor; a card too many; the device could not be
    made; its class device could not be made. *)
Inductive probe_fault (s : Driver) : Fault -> Prop :=
| fault_no_descriptor : kmalloc s = None -> probe_fault s KernelBug
| fault_table_full : (MAXDEV <= length (devices s))%nat -> probe_fault s KernelBug
| fault_not_made f : make_fault get_free_pages block_ok f -> probe_fault s f
| fault_no_class v : IS_ERR (device_create v (next_number s)) = true -> probe_fault s BadPointer.

(** The driver after such a fault: the other cards are as they were. *)
Record stopped (p : nat) (s : Driver) (f : Fault) (s' : Driver) : Prop := {
  st_fault : probe_fault s f;
  st_others q : q <> p -> heap s' !! q = heap s !! q;
  st_devices : devices s' = devices s \/ devices s' = devices s ++ [p]
}.

(** The register window of a card, and whether it is free. *)
Definition card_window (dev : PciDev) : Z * Z := (BA_MASK (pci_bar dev PCI_BA_CSR), CSR_SIZE).
Definition window_free (dev : PciDev) (s : Driver) : bool :=
  negb (existsb (overlap (card_window dev)) (resources s)).

Definition pool_file (pci : Z) (r : Registration) : Prop := exists a, a ∈ pool_attrs /\ r = reg_file pci a.

(** A descriptor that was just made. *)
Record made (dev : PciDev) (p : nat) (s s' : Driver) (d : Desc) : Prop := {
  md_alloc : kmalloc s = Some p;
  md_room : (length (devices s) < MAXDEV)%nat;
  md_devices : devices s' = devices s ++ [p];
  md_others q : q <> p -> heap s' !! q = heap s !! q;
  md_pci : pci_dev d = pci_device dev;
  md_name : drv_name d = next_name s;
  md_window : (map_pa (csr_map d), map_len (csr_map d)) = card_window dev /\ csr_map_name d <> [];
  md_resources : resources s' = if window_free dev s then card_window dev :: resources s else resources s;
  md_freed : freed_pages s' = freed_pages s
}.

Lemma on_window_eq {A} p (m : M IoMap A) a i s d : heap s !! p = Some d ->
  m (mkIoMap (csr_map d) (csr_map_name d) (resources s)) = Done a i ->
  on_window p m s = Done a (put_window p i s).
Proof. intros Hd Hm. unfold on_window. by rewrite Hd, Hm. Qed.

Lemma create_spec dev p s : card_new dev p s ->
  settles (acq200_device_create dev) (fun q s' => q = p /\ exists d,
    made dev p s s' d /\ adds (pool_file (pci_device dev)) s s' /\
    fit p (next_number s) s' 0 (pci_line dev) d /\
    uses_line d = istrue (acq200_use_interrupts (params boot)) && istrue (pci_line dev)) (stopped p s) s.
Proof.
  intros [_ Ha Hf _]. unfold acq200_device_create, settles. erewrite bind_done by reflexivity.
  destruct (kmalloc s) as [q|] eqn:Hk; [|constructor; [by apply fault_no_descriptor|done|by left]].
  rewrite (Ha q eq_refl). cbv zeta. fold (next_number s) (next_name s).
  erewrite bind_done by reflexivity. destruct (Z.ltb_spec (next_number s) (Z.of_nat MAXDEV)) as [Hroom|Hfull]; cbn [negb when].
  2:{ constructor; [|intros r Hr; cbn; by rewrite lookup_insert_ne|by left].
      apply fault_table_full. unfold next_number in Hfull. lia. }
  erewrite bind_done by reflexivity. erewrite bind_done by reflexivity.
  set (s1 := setf devices _ _). assert (heap s1 !! p = Some zero_desc) as Hd1 by (cbn; apply lookup_insert_eq).
  erewrite bind_done by (by eapply desc_upd_eq). set (s2 := setf heap _ s1).
  set (d2 := zero_desc <| pci_dev := pci_device dev |> <| drv_name := next_name s |>).
  assert (heap s2 !! p = Some d2) as Hd2 by (cbn; by rewrite lookup_alter_eq, lookup_insert_eq).
  assert (forall q, q <> p -> heap s2 !! q = heap s !! q) as Ho2.
  { intros r Hr'. cbn. by rewrite lookup_alter_ne, lookup_insert_ne. }
  pose proof (device_create_spec get_free_pages dma_map_single dma_alloc_coherent (pci_bar dev) block_ok
    (next_number s) (pci_line dev) (pci_fn dev) boot) as Hsp. unfold settles in Hsp.
  destruct (Init.acq200_device_create _ _ _ _ _ _ _ _ boot) as [[] w|f w| |] eqn:Hcr; try done.
  2:{ unfold bind at 1, on at 1. rewrite Hd2. change (d_world d2) with boot. rewrite Hcr.
      constructor; [by apply fault_not_made| |by right]. intros r Hr. cbn. rewrite lookup_alter_ne by done. by apply Ho2. }
  destruct Hsp as (Hi & _ & _ & _ & Hmb & _ & _ & Hui & Hidx & Hirq & _ & _ & Hpar & Hmaj & _).
  erewrite bind_done. 2:{ unfold on. rewrite Hd2. cbn [d_world]. change (d_world d2) with boot. by rewrite Hcr. }
  set (s3 := put_world p w s2). set (d3 := d2 <| d_world := w |>).
  assert (heap s3 !! p = Some d3) as Hd3.
  { unfold s3, put_world. cbn [heap setf set_heap]. by rewrite lookup_alter_eq, Hd2. }
  erewrite bind_done by by apply desc_ref_eq.
  destruct (map_memory_eq (pci_bar dev) ioremap_nocache (drv_name d3) (mkIoMap (csr_map d3) (csr_map_name d3) (resources s3)))
    as (m & name & Hn & Hpa & Hlen & Hmap). cbv zeta in Hmap.
  erewrite bind_done by by eapply on_window_eq.
  match goal with |- context [put_window p ?i s3] => set (io := i) end. set (s4 := put_window p io s3).
  set (d4 := d3 <| csr_map := m |> <| csr_map_name := name |>).
  assert (heap s4 !! p = Some d4) as Hd4.
  { unfold s4, put_window. cbn [heap setf set_heap set_resources]. by rewrite lookup_alter_eq, Hd3. }
  eapply (settles_bind (create_dev_sysfs _)).
  { apply (create_files_spec (pool_file (pci_device dev))). intros a Hin. by exists a. }
  intros [] s5 [Hadd Hrest]. injection Hrest as Ed Eh Er Ef. apply settles_ret. split; [done|]. exists d4.
  assert (regs s4 = regs s) as Hregs by done.
  split; [|split; [|split]].
  - constructor; try done.
    + by rewrite Hk, (Ha q eq_refl).
    + unfold next_number in Hroom. lia.
    + intros r Hr. rewrite Eh. unfold s4, put_window, s3, put_world. cbn. by rewrite !lookup_alter_ne, lookup_insert_ne by done.
    + split; [cbn; by rewrite Hpa, Hlen|]. cbn. intros ->. done.
  - intros r. specialize (Hadd r). unfold has in *. by rewrite Hregs in Hadd.
  - split; [by rewrite Eh|]. split; [split; [done|]; split; [done|cbn in Hmb |- *; lia]|].
    unfold card. cbn. by rewrite Hidx, Hirq, Hmaj.
  - unfold uses_line. cbn. by rewrite Hpar, Hirq.
Qed.

(** What a probe leaves behind, whatever its result. *)
Record probed (dev : PciDev) (p : nat) (s s' : Driver) (rc : Z) : Prop := {
  pb_alloc : kmalloc s = Some p;
  pb_room : (length (devices s) < MAXDEV)%nat;
  pb_devices : devices s' = devices s ++ [p];
  pb_others q : q <> p -> heap s' !! q = heap s !! q;
  pb_resources : resources s' = if window_free dev s then card_window dev :: resources s else resources s;
  pb_freed : freed_pages s' = freed_pages s;
  pb_desc : exists d mj mj' cd,
    fit p (next_number s) s' mj' (pci_line dev) d /\ pci_dev d = pci_device dev /\ drv_name d = next_name s /\
    (map_pa (csr_map d), map_len (csr_map d)) = card_window dev /\ csr_map_name d <> [] /\
    let use := istrue (acq200_use_interrupts (params boot)) && istrue (pci_line dev) in
    adds (fun r => pool_file (pci_device dev) r \/ own_reg p (next_number s) d mj (pci_line dev) cd use r) s s' /\
    (rc = 0 -> mj' = mj /\ has_class (next_number s) s s' d cd /\ (use = true -> has s' (reg_irq (pci_line dev) p)))
}.

Lemma adds_trans (P Q : Registration -> Prop) s1 s2 s3 :
  adds P s1 s2 -> adds Q s2 s3 -> adds (fun r => P r \/ Q r) s1 s3.
Proof. intros A1 A2 r. specialize (A1 r). specialize (A2 r). naive_solver. Qed.

Lemma set_dev_type_spec vendor w : mbox_ready w ->
  total (acq200_set_dev_type vendor) (fun _ w' => mbox_ready w' /\ card w' = card w /\ params w' = params w) w.
Proof.
  intros (Hi & ? & ?). unfold acq200_set_dev_type.
  by case_match; (split; [split; [by apply (inv_same w)|done]|done]).
Qed.

Lemma probe_spec dev p s : card_new dev p s ->
  settles (acq200_probe dev) (fun rc s' => probed dev p s s' rc) (stopped p s) s.
Proof.
  intros Hn. eapply (settles_then (acq200_device_create dev)); [by apply create_spec|].
  intros q s1 (-> & d & [Mk Mroom Md Mo Mp Mn [Mw Mwn] Mr Mf] & Ha & Hf & Hu).
  eapply (settles_bind (on p _)).
  { eapply (fit_on p _ _ (fun _ w => params w = params (d_world d))); [apply steps_refl|exact Hf|].
    apply set_dev_type_spec, Hf. }
  intros [] s2 (Hs2 & w & Hf2 & Hw). set (d2 := d <| d_world := w |>) in *.
  assert (uses_line d2 = uses_line d) as Hu2.
  { destruct Hf as (_ & _ & Hc), Hf2 as (_ & _ & Hc2). unfold card in Hc, Hc2. unfold uses_line.
    change (d_world d2) with w in *. rewrite Hw. congruence. }
  eapply settles_mono; [by eapply init_spec| |].
  2:{ intros f s3 (-> & (v & Hv) & [E3 O3 _]). destruct Hs2 as [[E2 O2 _] _].
      injection E2 as ED2 _ _. injection E3 as ED3 _ _. constructor; [by eapply fault_no_class| |].
      - intros r Hr. by rewrite O3, O2, Mo.
      - right. congruence. }
  rewrite Hu2, Hu. intros rc s3 (d3 & mj & mj' & cd & [Ht3 Ha3] & Hf3 & Hrc).
  destruct Hs2 as [Ht2 Ha2]. destruct Ht2 as [E2 O2 _], Ht3 as [E3 O3 S3].
  destruct (S3 d2 (proj1 Hf2)) as (d' & Hd' & Hfix). assert (d' = d3) as -> by (destruct Hf3; congruence).
  injection E2 as ED2 ER2 EF2. injection E3 as ED3 ER3 EF3. unfold fixed in Hfix.
  injection Hfix as Xp Xn Xm Xmn. constructor; try congruence.
  - intros q Hq. by rewrite O3, O2, Mo.
  - exists d3, mj, mj', cd. split; [done|]. split; [congruence|]. split; [congruence|].
    split; [congruence|]. split; [by rewrite Xmn|]. split.
    + assert (adds (pool_file (pci_device dev)) s s2) as A2 by (intros r; specialize (Ha r); specialize (Ha2 r); naive_solver).
      assert (own_reg p (next_number s) d2 mj (pci_line dev) cd = own_reg p (next_number s) d3 mj (pci_line dev) cd) as <-.
      { unfold own_reg. by rewrite Xp, Xn. }
      by eapply adds_trans.
    + intros E. destruct (Hrc E) as (-> & (Hc & Hh & Hok & v & Hv & Hsv) & Hi). split; [done|]. split; [|done].
      split; [done|]. split; [done|]. split; [done|]. exists v. split; [done|]. intros r Hr. apply Hsv, Ha2. left. apply Ha. by left.
Qed.

Lemma probed_inv dev p s s' rc : card_new dev p s -> probed dev p s s' rc -> drv_inv s'.
Proof.
  intros Hn [_ Hr Hd Ho _ _ (d & mj & mj' & cd & (Hp & _) & Hpci & _)].
  destruct Hn as [[Hnd Hl Hdist _] _ Hf Hother].
  assert (p ∉ devices s) as Hnp. { intros Hin%Hl. destruct Hin. congruence. }
  constructor.
  - rewrite Hd. apply NoDup_app. split; [done|]. split; [|apply NoDup_singleton]. set_solver.
  - intros q. rewrite Hd, elem_of_app, list_elem_of_singleton. destruct (decide (q = p)) as [->|Hq].
    + split; [by eexists|by right].
    + rewrite Ho, <- Hl by done. naive_solver.
  - intros q1 q2 d1 d2. destruct (decide (q1 = p)) as [->|N1], (decide (q2 = p)) as [->|N2]; try done.
    + rewrite Hp, Ho by done. intros [= <-] H2 E. exfalso. apply (Hother _ _ H2). congruence.
    + rewrite Hp, Ho by done. intros H1 [= <-] E. exfalso. apply (Hother _ _ H1). congruence.
    + rewrite !Ho by done. apply Hdist.
  - rewrite Hd, length_app. cbn. lia.
Qed.


(** It comes back when there is memory, a place in the table, and the class device can be made. *)
Theorem probe_comes_back dev p s : card_new dev p s -> kmalloc s = Some p -> (length (devices s) < MAXDEV)%nat ->
  (forall w, get_free_pages w 0 <> 0) -> (forall w b, block_ok w b = true) ->
  (forall v, IS_ERR (device_create v (next_number s)) = false) ->
  exists rc s', acq200_probe dev s = Done rc s' /\ probed dev p s s' rc.
Proof.
  intros Hn Hk Hr Hg Hb Hc. pose proof (probe_spec dev p s Hn) as Hp. unfold settles in Hp.
  destruct (acq200_probe dev s) as [rc s'|f s'| |]; try done; [by exists rc, s'|].
  exfalso. destruct Hp as [[E|E|f' [v E|v E|v b _ E]|v E] _ _]; [congruence|lia|by apply (Hg v)|..]; congruence.
Qed.
End Probe.
