(* ===== verification/Removal.v ===== *)
(** * acq200.c: what removing a card, and unloading the module, undoes

    Removing a card drops exactly the registrations its probe made, but for the interrupt handler; the
    table keeps the pointer to its descriptor, which the next look-up follows. *)

From Stdlib Require Import String.
From S2P Require Import Prelude CString BusProt StreamBuf Pool Device Rch I2o Isr Kernel Outer.
From S2P Require Import Owner Frames Sleep Mask Mailbox Path Bridge Acquire Requests Mmap Init Driver Probe.

(** ** Removing a card *)

(** Exactly the registrations of [P] go, and nothing else changes. *)
Record drops (P : Registration -> Prop) (s s' : Driver) : Prop := {
  dp_regs r : has s' r <-> has s r /\ ~ P r;
  dp_rest : (devices s', heap s', resources s', freed_pages s') = (devices s, heap s, resources s, freed_pages s)
}.

Lemma drops_refl s : drops (fun _ => False) s s.
Proof. split; [naive_solver|done]. Qed.

Lemma drops_trans P Q s1 s2 s3 : drops P s1 s2 -> drops Q s2 s3 -> drops (fun r => P r \/ Q r) s1 s3.
Proof. intros [H1 E1] [H2 E2]. split; [|congruence]. intros r. rewrite H2, H1. naive_solver. Qed.

Lemma unregister_spec r s : total (unregister r) (fun _ s' => drops (eq r) s s') s.
Proof. split; [|done]. intros x. unfold has. cbn. rewrite list_elem_of_filter. naive_solver. Qed.

Definition files_of (dev : Z) (l : list string) (r : Registration) : Prop := exists a, a ∈ l /\ r = reg_file dev a.

Lemma remove_files_spec dev l s :
  total (each (device_remove_file dev) l) (fun _ s' => drops (files_of dev l) s s') s.
Proof.
  revert s. induction l as [|a l IH]; intros s; cbn [each].
  - split; [|done]. intros r. split; [|naive_solver]. intros Hr. split; [done|]. intros (b & Hb & _). by apply elem_of_nil in Hb.
  - apply total_bind. eapply total_mono; [apply unregister_spec|]. intros [] s1 H1.
    eapply total_mono; [apply IH|]. intros [] s2 H2. destruct (drops_trans _ _ _ _ _ H1 H2) as [Hr E].
    split; [|done]. intros r. rewrite Hr. unfold files_of. setoid_rewrite elem_of_cons. naive_solver.
Qed.

(** The registrations of the class device of a number, and its directory. *)
Lemma class_dev_of_unique devt cd l : reg_class_dev devt cd ∈ l ->
  (forall cd', reg_class_dev devt cd' ∈ l -> cd' = cd) -> class_dev_of devt l = Some cd.
Proof.
  induction l as [|r l IH]; [by intros ?%elem_of_nil|]. intros Hin Hu.
  destruct r as [| | | |t d|]; cbn [class_dev_of].
  5:{ destruct (Z.eqb_spec t devt) as [->|Hne]; [f_equal; apply Hu; left|].
      apply IH; [|intros; apply Hu; by right]. apply elem_of_cons in Hin as [[=]|]; [congruence|done]. }
  all: apply IH; [by apply elem_of_cons in Hin as [[=]|]|intros; apply Hu; by right].
Qed.

Definition class_reg (devt cd : Z) (r : Registration) : Prop := in_class_dev cd r = true.

Lemma device_destroy_spec devt s : total (device_destroy devt) (fun _ s' =>
    drops (fun r => exists cd, class_dev_of devt (regs s) = Some cd /\ in_class_dev cd r = true) s s') s.
Proof.
  unfold device_destroy, total, modify. destruct (class_dev_of devt (regs s)) as [cd|].
  - split; [|done]. intros r. unfold has. cbn. rewrite list_elem_of_filter, <- not_true_iff_false.
    split; [intros [H ?]; split; [done|]; naive_solver|]. intros [? H]. split; [|done]. intros E. apply H. eauto.
  - split; [|done]. naive_solver.
Qed.

Section Remove.
Context `{Platform} `{KernelApi}.

(** What removing a card unregisters. *)
Definition undone (id mj cd : Z) (d : Desc) (r : Registration) : Prop :=
  in_class_dev cd r = true \/ files_of (class_dev d) ["imask"; "dev"]%string r \/
  files_of (pci_dev d) device_attrs r \/ files_of (pci_dev d) pool_attrs r \/ r = reg_chrdev mj (drv_name d).

Lemma remove_class_files p s d : heap s !! p = Some d ->
  total (acq200_remove_sysfs_class p)
    (fun _ s' => drops (files_of (class_dev d) ["imask"; "dev"]%string) s s') s.
Proof.
  intros Hd. unfold acq200_remove_sysfs_class, total. erewrite bind_done by by apply desc_ref_eq.
  exact (remove_files_spec (class_dev d) ["imask"; "dev"]%string s).
Qed.

Lemma pool_delete_done w : exists w', acq200_pool_delete w = Done tt w'.
Proof.
  unfold acq200_pool_delete. erewrite bind_done by reflexivity.
  destruct (negb _); cbn [when]; [|by eexists].
  erewrite bind_done by reflexivity. erewrite bind_done by reflexivity. by eexists.
Qed.

Lemma delete_alter p (f : Desc -> Desc) (h : gmap nat Desc) : delete p (alter f p h) = delete p h.
Proof.
  apply map_eq. intros q. destruct (decide (q = p)) as [->|].
  - by rewrite !lookup_delete_eq.
  - by rewrite !lookup_delete_ne, lookup_alter_ne by done.
Qed.

(** Freeing a descriptor: its files and its register window go with it. *)
Lemma device_free_spec p s d : heap s !! p = Some d ->
  max_entries (handlers (dev (d_world d))) <> 0%nat -> csr_map_name d <> [] ->
  exists s', acq200_device_free p s = Done tt s' /\ devices s' = devices s /\ heap s' = delete p (heap s) /\
    resources s' = remove_one (map_pa (csr_map d), map_len (csr_map d)) (resources s) /\
    forall r, has s' r <-> has s r /\ ~ files_of (pci_dev d) pool_attrs r.
Proof.
  intros Hd Hm Hn. unfold acq200_device_free. erewrite bind_done by by apply desc_ref_eq.
  rewrite (proj2 (Nat.eqb_neq _ _) Hm). cbn [negb when]. rewrite bind_assoc.
  pose proof (remove_files_spec (pci_dev d) pool_attrs s) as Hr. unfold total, remove_dev_sysfs in *.
  destruct (each _ _ s) as [[] s1| | |] eqn:E1; try done. erewrite bind_done by exact E1.
  destruct Hr as [Hr Er]. injection Er as Ed Eh Eres Ef.
  destruct (pool_delete_done (d_world d)) as (w & Hw).
  erewrite bind_done by (unfold on; rewrite Eh, Hd, Hw; reflexivity). set (s2 := put_world p w s1).
  assert (heap s2 !! p = Some (d <| d_world := w |>)) as Hd2 by (cbn; by rewrite lookup_alter_eq, Eh, Hd).
  erewrite bind_done.
  2:{ eapply on_window_eq; [exact Hd2|]. apply unmap_memory_eq. cbn. by destruct (csr_map_name d). }
  erewrite bind_done by reflexivity. eexists. split; [reflexivity|]. cbn.
  split; [done|]. split; [by rewrite !delete_alter, Eh|]. split; [by rewrite Eres|]. exact Hr.
Qed.

Lemma remove_spec p s d : drv_inv s -> heap s !! p = Some d ->
  using_interrupt (mbox_sync (dev (d_world d))) = 0 ->
  max_entries (handlers (dev (d_world d))) <> 0%nat -> csr_map_name d <> [] ->
  exists s', acq200_remove (pci_dev d) s = Done tt s' /\ devices s' = devices s /\ heap s' = delete p (heap s) /\
    resources s' = remove_one (map_pa (csr_map d), map_len (csr_map d)) (resources s) /\
    forall id mj irq cd, card (d_world d) = (id, mj, irq) ->
      has s (reg_class_dev id cd) -> (forall cd', has s (reg_class_dev id cd') -> cd' = cd) ->
      forall r, has s' r <-> has s r /\ ~ undone id mj cd d r.
Proof.
  intros Hi Hd Hu Hm Hn. destruct (lookup_device_spec s (pci_dev d) Hi) as (o & Hlk & Ho).
  assert (o = Some p) as -> by (apply Ho; by exists d). unfold acq200_remove.
  erewrite bind_done by exact Hlk. unfold dev_of.
  erewrite bind_done by (erewrite bind_done by (by apply desc_ref_eq); reflexivity).
  rewrite Hu. change (istrue 0) with false. cbn [when]. erewrite bind_done by reflexivity.
  pose proof (remove_class_files p s d Hd) as Hc. unfold total in Hc.
  destruct (acq200_remove_sysfs_class p s) as [[] s1| | |] eqn:E1; try done. erewrite bind_done by exact E1.
  destruct Hc as [H1 R1]. injection R1 as Ed1 Eh1 Er1 _.
  erewrite bind_done by (apply desc_ref_eq; by rewrite Eh1). unfold acq200_remove_sysfs_device.
  pose proof (remove_files_spec (pci_dev d) device_attrs s1) as Hc. unfold total in Hc.
  destruct (each _ _ s1) as [[] s2| | |] eqn:E2; try done. erewrite bind_done by exact E2.
  destruct Hc as [H2 R2]. injection R2 as Ed2 Eh2 Er2 _.
  pose proof (device_destroy_spec (idx (dev (d_world d))) s2) as Hc. unfold total in Hc.
  destruct (device_destroy _ s2) as [[] s3| | |] eqn:E3; try done. erewrite bind_done by exact E3.
  destruct Hc as [H3 R3]. injection R3 as Ed3 Eh3 Er3 _.
  set (ch := reg_chrdev _ _). pose proof (unregister_spec ch s3) as Hc. unfold total in Hc.
  destruct (unregister ch s3) as [[] s4| | |] eqn:E4; try done. erewrite bind_done by exact E4.
  destruct Hc as [H4 R4]. injection R4 as Ed4 Eh4 Er4 _.
  destruct (device_free_spec p s4 d) as (s5 & E5 & Ed5 & Eh5 & Er5 & H5); [congruence|done|done|].
  exists s5. split; [exact E5|]. split; [congruence|]. split; [congruence|]. split; [congruence|].
  intros id mj irq cd Hcard Hh Huniq r. unfold card in Hcard. injection Hcard as Hid Hmj _.
  assert (class_dev_of (idx (dev (d_world d))) (regs s2) = Some cd) as Hcd.
  { rewrite Hid. apply class_dev_of_unique.
    - apply H2. split; [apply H1; split; [done|]|]; by intros (? & ? & ?).
    - intros cd' [[? _]%H1 _]%H2. by apply Huniq. }
  rewrite H5, H4, H3, H2, H1, Hcd. unfold undone. subst ch. rewrite Hmj. naive_solver.
Qed.
End Remove.

Section Life.
Context `{Platform} `{KernelApi}.

(** The kernel has nothing registered for the card, nor for the next number; and the class device it
    makes is a new one, with an empty directory. *)
Record unregistered (dev : PciDev) (s : Driver) : Prop := {
  un_files a : ~ has s (reg_file (pci_device dev) a);
  un_class cd : ~ has s (reg_class_dev (next_number s) cd);
  un_chrdev mj : ~ has s (reg_chrdev mj (next_name s));
  un_window : window_free dev s = true;
  un_new v r : IS_ERR (device_create v (next_number s)) = false -> has v r -> in_class_dev (device_create v (next_number s)) r = false
}.

(** C15: removing a card undoes its probe.  When the probe of a card succeeded and the card is removed, its
    descriptor, its register window, its files, its class device and its device number are gone,
    whichever of the files could be made; all that is left is the interrupt handler, when one was
    installed, with a pointer to the descriptor that was freed, and that pointer in the table.  (The probe
    comes to an end; it stops the kernel only for want of memory, of a place in the table, or of a class
    device.) *)
Theorem probe_remove_balance dev p s : card_new dev p s -> unregistered dev s ->
  settles (acq200_probe dev) (fun rc s1 => rc = 0 ->
    exists s2, acq200_remove (pci_device dev) s1 = Done tt s2 /\
      heap s2 = heap s /\ resources s2 = resources s /\ devices s2 = devices s ++ [p] /\
      forall r, has s2 r <-> has s r \/
        (istrue (acq200_use_interrupts (params boot)) && istrue (pci_line dev) = true /\
         r = reg_irq (pci_line dev) p)) (stopped p s) s.
Proof.
  intros Hn Hun. eapply settles_mono; [by apply probe_spec| |done]. intros rc s1 Hp Hrc.
  pose proof (probed_inv dev p s s1 rc Hn Hp) as Hi1.
  destruct Hp as [_ _ Hd Ho Hres _ (d & mj & mj' & cd & Hfit & Hpci & Hname & Hwin & Hwn & Hadd & Hok)].
  destruct (Hok Hrc) as (-> & (Hcd & Hcl & Hok' & v & Hv & Hsv) & Hirq). clear Hok.
  destruct Hun as [Uf Uc Uh Uw Un]. rewrite Uw in Hres. set (use := _ && _) in *.
  destruct Hfit as (Hh & (Hinv & Hui & _) & Hcard).
  destruct (remove_spec p s1 d Hi1 Hh Hui) as (s2 & E & Ed & Eh & Er & Hreg); [|done|].
  { pose proof (pw_cursor _ (di_handlers _ Hinv)). lia. }
  exists s2. rewrite <- Hpci. split; [exact E|]. split; [|split; [|split; [congruence|]]].
  - rewrite Eh. apply map_eq. intros q. destruct (decide (q = p)) as [->|Hq].
    + by rewrite lookup_delete_eq, (cn_fresh _ _ _ Hn).
    + by rewrite lookup_delete_ne, Ho by done.
  - rewrite Er, Hwin, Hres. cbn [remove_one]. by rewrite decide_True.
  - intros r. rewrite (Hreg _ _ _ cd Hcard Hcl).
    2:{ intros cd' [H1|[H1 _]]%Hadd; [by destruct (Uc cd')|].
        destruct H1 as [(a & _ & [=])|[[=]|[[_ [=]]|[[= E1]|[(a & _ & [=])|(a & [=])]]]]]. done. }
    rewrite (Hadd r). unfold undone. rewrite Hcd, Hpci, Hname. split.
    + intros [[Hr|[[Hr|[->|[[Hu ->]|Hr]]] _]] Hnu].
      * by left.
      * exfalso. apply Hnu. naive_solver.
      * exfalso. apply Hnu. rewrite Hname. naive_solver.
      * by right.
      * exfalso. apply Hnu. rewrite Hpci in Hr. destruct Hr as [->|[Hr|(a & ->)]].
        -- left. cbn. apply Z.eqb_refl.
        -- right; right; left. exact Hr.
        -- left. cbn. apply Z.eqb_refl.
    + assert (Hcls : forall r, in_class_dev cd r = true -> has s r -> False).
      { intros x Hx Hs. apply Hsv in Hs. rewrite Hv in Hx, Hok'. rewrite (Un v x Hok' Hs) in Hx. done. }
      intros [Hr|[Hu ->]].
      * split; [by left|]. intros [Hx|[(a & _ & ->)|[(a & _ & ->)|[(a & _ & ->)| -> ]]]].
        -- by eapply Hcls.
        -- eapply Hcls; [|exact Hr]. cbn. apply Z.eqb_refl.
        -- by eapply Uf.
        -- by eapply Uf.
        -- by eapply Uh.
      * split. { right. split; [|by apply Hirq]. right. right. left. done. }
        intros [[=]|[(a & _ & [=])|[(a & _ & [=])|[(a & _ & [=])|[=]]]]].
Qed.

(** A descriptor that was set up. *)
Definition settled (d : Desc) : Prop :=
  using_interrupt (mbox_sync (dev (d_world d))) = 0 /\
  max_entries (handlers (dev (d_world d))) <> 0%nat /\ csr_map_name d <> [].

(** C40: the table keeps the pointer of a card that was removed: the look-up of any card that is not in
    front of it in the table follows the pointer to the descriptor that was freed.  So the second
    removal faults: unloading the module while it has two cards does. *)
Theorem second_remove_faults s l1 p l2 d dev : drv_inv s -> devices s = l1 ++ p :: l2 ->
  heap s !! p = Some d -> settled d ->
  (forall q e, q ∈ l1 -> heap s !! q = Some e -> pci_dev e <> dev) ->
  exists s1, acq200_remove (pci_dev d) s = Done tt s1 /\
    acq200_lookupDevice dev s1 = Crash UseAfterFree s1 /\
    (acq200_remove (pci_dev d) >> acq200_remove dev) s = Crash UseAfterFree s1.
Proof.
  intros Hi Hl Hd (Hu & Hm & Hn) Hdev.
  destruct (remove_spec p s d Hi Hd Hu Hm Hn) as (s1 & E & Ed & Eh & _). exists s1. split; [exact E|].
  assert (acq200_lookupDevice dev s1 = Crash UseAfterFree s1) as Hlk.
  { unfold acq200_lookupDevice. erewrite bind_done by reflexivity. rewrite Ed, Hl.
    apply lookup_loop_dead; [|by rewrite Eh, lookup_delete_eq]. intros q Hq.
    assert (q <> p) as Hne.
    { intros ->. pose proof (dv_nodup _ Hi) as Hnd. rewrite Hl in Hnd. apply NoDup_app in Hnd as (_ & Hx & _).
      apply (Hx p Hq). left. }
    destruct (proj1 (dv_live _ Hi q)) as [e He]; [rewrite Hl; set_solver|].
    exists e. split; [by rewrite Eh, lookup_delete_ne|]. apply Z.eqb_neq. intros ->. by eapply Hdev. }
  split; [exact Hlk|]. erewrite bind_done by exact E. unfold acq200_remove, bind at 1. by rewrite Hlk.
Qed.

(** A card is removed without the interrupt line being given back, when mailbox replies do not use
    interrupts, which nothing sets: the handler stays installed, with the freed descriptor. *)
Theorem remove_keeps_interrupt s p d irq : drv_inv s -> heap s !! p = Some d -> settled d ->
  has s (reg_class_dev (idx (dev (d_world d))) (class_dev d)) ->
  (forall cd, has s (reg_class_dev (idx (dev (d_world d))) cd) -> cd = class_dev d) ->
  has s (reg_irq irq p) ->
  exists s1, acq200_remove (pci_dev d) s = Done tt s1 /\ heap s1 !! p = None /\ has s1 (reg_irq irq p).
Proof.
  intros Hi Hd (Hu & Hm & Hn) Hc Hcu Hirq.
  destruct (remove_spec p s d Hi Hd Hu Hm Hn) as (s1 & E & Ed & Eh & _ & Hr). exists s1.
  split; [exact E|]. split; [by rewrite Eh, lookup_delete_eq|].
  apply (Hr _ _ _ (class_dev d) eq_refl Hc Hcu). split; [done|].
  intros [[=]|[(a & _ & [=])|[(a & _ & [=])|[(a & _ & [=])|[=]]]]].
Qed.

(** The module is unloaded without unregistering its driver when no card was ever found. *)
Theorem exit_without_cards s : devices s = [] ->
  exists s', (let* _ := acq200_init_module in acq200_exit_module) s = Done tt s' /\
    has s' (reg_driver acq200_driver_name) /\ has s' (reg_class acq200_device_class).
Proof.
  intros Hd. eexists. split.
  - unfold acq200_init_module, acq200_init. erewrite bind_done by reflexivity.
    unfold acq200_exit_module. erewrite bind_done by reflexivity. cbn. rewrite Hd. reflexivity.
  - split; unfold has; cbn; set_solver.
Qed.
End Life.
