(* ===== verification/Listing.v ===== *)
(** * acq200_bigbuf_alloc.c: the listings of the pools and of the reply queue

    The files [pool] and [rch_list] of a device in /sys show its pools and the handlers that wait for a
    reply.  The kernel gives their functions a page to print in; they do not look at how much is left.

    The addresses of the objects, which are printed, are parameters. *)

From Stdlib Require Import String.
From S2P Require Import Prelude CString BusProt StreamBuf Pool Device Rch I2o Isr Kernel Outer.
From S2P Require Import Owner Frames Sleep Mask Mailbox Path Bridge Acquire Requests Mmap Init Driver.

(** The addresses of pool items, handler functions and paths. *)
Class Addresses := {
  map_addr : Kbuf -> Z;
  rch_addr : nat -> Z;
  fn_addr : Handler -> Z;
  path_addr : option nat -> Z
}.

(** [%p] of the kernel, with addresses of 32 bits; [%2d] of a number of the table. *)
Definition fmt_p (z : Z) : list Z := fmt_08x z.
Definition fmt_2d (z : Z) : list Z := replicate (2 - length (fmt_d z)) 32 ++ fmt_d z.

Section Listing.
Context `{Addresses}.

(** [for (ii = 0; ii != max_entries; ++ii)]: beyond the array there is nothing to read. *)
Fixpoint list_entries {A} (line : nat -> PoolEntry A -> MW (list Z)) (n ii : nat) (pe : list (PoolEntry A))
    : MW (list Z) :=
  match n with
  | O => ret []
  | S n =>
      let* e := deref OutOfBounds (pe !! ii) in
      let* l := line ii e in
      let* rest := list_entries line n (S ii) pe in
      ret (l ++ rest)
  end.

Definition entry_head (ii cur : nat) (item reserved : Z) : list Z :=
  chars "[" ++ fmt_2d (Z.of_nat ii) ++ chars "] " ++ chars (if (ii =? cur)%nat then "*" else " ") ++
  chars " " ++ fmt_p item ++ chars " " ++ fmt_d reserved.

Definition mapping_line (cur ii : nat) (e : PoolEntry Kbuf) : MW (list Z) :=
  ret (entry_head ii cur (map_addr (item e)) (Zbool (reserved e)) ++ [newline]).

Definition rch_fields (x : ReturnCommandHandler) : list Z :=
  chars " hdlr:" ++ fmt_p (fn_addr (rhandler x)) ++ chars " kbuf " ++ fmt_p (map_addr (kbuf (rchReturn x))) ++
  chars " valid " ++ fmt_d (valid (rchReturn x)).

Definition handler_line (cur ii : nat) (e : PoolEntry nat) : MW (list Z) :=
  let* x := rch_ref (item e) in
  ret (entry_head ii cur (rch_addr (item e)) (Zbool (reserved e)) ++ rch_fields x ++ [newline]).

Definition pool_text : MW (list Z) :=
  let* w := get_world in
  let m := mappings (dev w) in
  let* l1 := list_entries (mapping_line (cursor m)) (max_entries m) 0 (entries m) in
  let h := handlers (dev w) in
  let* l2 := list_entries (handler_line (cursor h)) (max_entries h) 0 (entries h) in
  ret (chars "MAPPINGS" ++ [newline] ++ l1 ++ chars "HANDLERS" ++ [newline] ++ l2).

(** The pool is read before the device is tested. *)
Definition show_pool (d : Z) : MD (list Z) :=
  let* o := acq200_lookupDevice d in
  let* p := deref NullDeref o in
  on p pool_text.

Fixpoint list_queue (l : list nat) : MW (list Z) :=
  match l with
  | [] => ret []
  | r :: l =>
      let* x := rch_ref r in
      let* rest := list_queue l in
      ret (fmt_p (rch_addr r) ++ rch_fields x ++ chars " path " ++ fmt_p (path_addr (rpath x)) ++
           [newline] ++ rest)
  end.

Definition rch_list_text : MW (list Z) :=
  let* l := gets queued in
  let* t := list_queue l in
  ret (chars "RCH LISTING" ++ [newline] ++ t).

Definition show_rch_list (d : Z) : MD (list Z) :=
  let* o := acq200_lookupDevice d in
  match o with
  | None => ret (chars "ERROR: device not found" ++ [newline])
  | Some p => on p rch_list_text
  end.

(** ** How long the listings are *)
Hypothesis addr_range : (forall k, 0 <= map_addr k < 2 ^ 32) /\ (forall r, 0 <= rch_addr r < 2 ^ 32) /\
  (forall h, 0 <= fn_addr h < 2 ^ 32) /\ (forall p, 0 <= path_addr p < 2 ^ 32).

Lemma fmt_p_length z : 0 <= z < 2 ^ 32 -> length (fmt_p z) = 8%nat.
Proof.
  intros Hz. unfold fmt_p, fmt_08x, pad0. rewrite length_app, length_replicate.
  pose proof (digits_bound 32 16 z 8 ltac:(lia) ltac:(lia) ltac:(lia)). lia.
Qed.

Lemma fmt_2d_length ii : (ii < 100)%nat -> length (fmt_2d (Z.of_nat ii)) = 2%nat.
Proof.
  intros Hi. unfold fmt_2d. rewrite length_app, length_replicate.
  assert (length (fmt_d (Z.of_nat ii)) <= 2)%nat; [|lia]. unfold fmt_d.
  rewrite (proj2 (Z.ltb_ge _ _)) by lia. apply (digits_bound 32 10); lia.
Qed.

Lemma entry_head_length ii cur it (b : bool) : (ii < 100)%nat -> 0 <= it < 2 ^ 32 ->
  length (entry_head ii cur it (Zbool b)) = 17%nat.
Proof.
  intros Hi Hit. unfold entry_head. rewrite !length_app, fmt_2d_length, fmt_p_length by done.
  by destruct (ii =? cur)%nat, b.
Qed.

Lemma rch_fields_length x : - 2 ^ 31 <= valid (rchReturn x) < 2 ^ 31 -> (length (rch_fields x) <= 46)%nat.
Proof.
  intros Hv. destruct addr_range as (? & ? & ? & ?). unfold rch_fields.
  rewrite !length_app, !fmt_p_length by done. pose proof (fmt_d_bound _ Hv).
  change (length (chars " hdlr:")) with 6%nat. change (length (chars " kbuf ")) with 6%nat.
  change (length (chars " valid ")) with 7%nat. lia.
Qed.

(** The loop prints [n] lines of at most [k] characters. *)
Lemma list_entries_bound {A} (line : nat -> PoolEntry A -> MW (list Z)) n ii pe k w :
  (ii + n <= length pe)%nat ->
  (forall i e, pe !! i = Some e -> (i < ii + n)%nat -> exists l, line i e w = Done l w /\ (length l <= k)%nat) ->
  exists l, list_entries line n ii pe w = Done l w /\ (length l <= n * k)%nat.
Proof.
  revert ii. induction n as [|n IH]; intros ii Hl Hline; cbn [list_entries]; [by exists []|].
  destruct (lookup_lt_is_Some_2 pe ii) as [e He]; [lia|]. rewrite He. erewrite bind_done by reflexivity.
  destruct (Hline ii e He ltac:(lia)) as (l & E & Hk). erewrite bind_done by exact E.
  destruct (IH (S ii)) as (l' & E' & Hk'); [lia|intros; apply Hline; [done|lia]|].
  erewrite bind_done by exact E'. eexists. split; [reflexivity|]. rewrite length_app. lia.
Qed.

(** Every handler's answer fits in an int. *)
Definition valids_ok (w : World) : Prop :=
  forall r x, rchs w !! r = Some x -> - 2 ^ 31 <= valid (rchReturn x) < 2 ^ 31.

Lemma pool_text_bound w : dev_inv w -> valids_ok w ->
  max_entries (mappings (dev w)) = NMAPPINGS -> max_entries (handlers (dev w)) = NHANDLERS ->
  exists l, pool_text w = Done l w /\ (length l <= 1114)%nat.
Proof.
  intros Hi Hv Hm Hh. destruct addr_range as (? & ? & ? & ?). unfold pool_text.
  erewrite bind_done by reflexivity. cbv zeta.
  pose proof (pw_len _ (di_maps _ Hi)) as Hlm. pose proof (pw_len _ (di_handlers _ Hi)) as Hlh.
  destruct (list_entries_bound (mapping_line (cursor (mappings (dev w)))) (max_entries (mappings (dev w))) 0
    (entries (mappings (dev w))) 18 w) as (l1 & E1 & B1); [lia| |].
  { intros i e _ Hlt. eexists. split; [reflexivity|]. unfold NMAPPINGS in *.
    rewrite length_app, entry_head_length by (done || lia). cbn. lia. }
  erewrite bind_done by exact E1.
  destruct (list_entries_bound (handler_line (cursor (handlers (dev w)))) (max_entries (handlers (dev w))) 0
    (entries (handlers (dev w))) 64 w) as (l2 & E2 & B2); [lia| |].
  { intros i e He Hlt. destruct (di_items _ Hi (item e)) as [x Hx].
    { apply list_elem_of_fmap. exists e. split; [done|]. by eapply list_elem_of_lookup_2. }
    unfold handler_line. erewrite bind_done by by apply rch_ref_eq. eexists. split; [reflexivity|].
    unfold NHANDLERS in *. rewrite !length_app, entry_head_length by (done || lia).
    pose proof (rch_fields_length x (Hv _ _ Hx)). cbn [length]. lia. }
  erewrite bind_done by exact E2. eexists. split; [reflexivity|].
  rewrite !length_app. change (length (chars "MAPPINGS")) with 8%nat. change (length (chars "HANDLERS")) with 8%nat.
  cbn [length]. unfold NMAPPINGS, NHANDLERS in *. lia.
Qed.

Lemma list_queue_bound l w : (forall r, r ∈ l -> is_Some (rchs w !! r)) -> valids_ok w ->
  exists t, list_queue l w = Done t w /\ (length t <= length l * 69)%nat.
Proof.
  intros Hl Hv. destruct addr_range as (? & ? & ? & ?). induction l as [|r l IH]; cbn [list_queue]; [by exists []|].
  destruct (Hl r ltac:(left)) as [x Hx]. erewrite bind_done by by apply rch_ref_eq.
  destruct IH as (t & E & B). { intros q Hq. apply Hl. by right. }
  erewrite bind_done by exact E. eexists. split; [reflexivity|].
  rewrite !length_app, !fmt_p_length by done. pose proof (rch_fields_length x (Hv _ _ Hx)).
  change (length (chars " path ")) with 6%nat. cbn [length]. lia.
Qed.

(** No more handlers wait than the pool has. *)
Lemma queue_bound w : dev_inv w -> (length (queued w) <= max_entries (handlers (dev w)))%nat.
Proof.
  intros Hi. rewrite <- (pw_len _ (di_handlers _ Hi)), <- (length_fmap item).
  apply submseteq_length, NoDup_submseteq; [apply Hi|]. intros r Hr.
  destruct (di_queued _ Hi r Hr) as (x & _ & [_ _ _ Hres _]). unfold is_reserved in Hres.
  destruct (find_item _ r) as [i|] eqn:E; [|done]. apply find_item_spec in E; [|apply Hi].
  apply list_elem_of_lookup. exists i. by rewrite list_lookup_fmap.
Qed.

Lemma listings_bound w : dev_inv w -> valids_ok w ->
  max_entries (mappings (dev w)) = NMAPPINGS -> max_entries (handlers (dev w)) = NHANDLERS ->
  total pool_text (fun l w' => w' = w /\ Z.of_nat (length l) < PAGE_SIZE) w /\
  total rch_list_text (fun l w' => w' = w /\ Z.of_nat (length l) < PAGE_SIZE) w.
Proof.
  intros Hi Hv Hm Hh. change PAGE_SIZE with 4096. split.
  - destruct (pool_text_bound w Hi Hv Hm Hh) as (l & E & B). unfold total. rewrite E. split; [done|lia].
  - destruct (list_queue_bound (queued w) w) as (t & E & B); [|done|].
    { intros r Hr. destruct (di_queued _ Hi r Hr) as (x & ? & _). by exists x. }
    unfold rch_list_text, total. erewrite bind_done by reflexivity. erewrite bind_done by exact E.
    pose proof (queue_bound w Hi) as Hq. rewrite Hh in Hq. unfold NHANDLERS in Hq. split; [done|].
    rewrite !length_app. change (length (chars "RCH LISTING")) with 11%nat. cbn [length]. lia.
Qed.

(** The two listings of a device always end, and fit in the page they are printed to, whatever is in
    the pools and on the queue. *)
Theorem listings_fit w : dev_inv w -> valids_ok w ->
  max_entries (mappings (dev w)) = NMAPPINGS -> max_entries (handlers (dev w)) = NHANDLERS ->
  total pool_text (fun l w' => w' = w /\ Z.of_nat (length l) < PAGE_SIZE) w /\
  total rch_list_text (fun l w' => w' = w /\ Z.of_nat (length l) < PAGE_SIZE) w.
Proof. apply listings_bound. Qed.

(** A device that is not in the table: the pool's listing follows a null pointer, the queue's says so. *)
Theorem show_pool_unknown s d : acq200_lookupDevice d s = Done None s ->
  show_pool d s = Crash NullDeref s /\
  show_rch_list d s = Done (chars "ERROR: device not found" ++ [newline]) s.
Proof.
  intros E. unfold show_pool, show_rch_list. erewrite bind_done by exact E. split; [reflexivity|].
  by erewrite bind_done by exact E.
Qed.
End Listing.
