(* ===== verification/Sysfs.v ===== *)
(** * acq200_if.c, acq200.c: the device's attributes as text

    The files under sysfs show counters, addresses and the mask string as text, and take a new mask
    string; reading the node of the big buffer gives a line that says where the buffer is.  A show
    function gives the text it puts in its buffer; how it finds its device, and what it answers when
    there is none, is in the file [Attributes]. *)

From Stdlib Require Import String.
From S2P Require Import Prelude CString BusProt StreamBuf Pool Device Rch I2o Isr Kernel Outer.
From S2P Require Import Owner Frames Sleep Mask Mailbox Path Bridge Mmap Init.

Section Sysfs.
Context `{Platform}.

(** ** What is shown *)
Definition show_heartbeat : MW (list Z) :=
  let* h := acq200_getHeartbeat in
  ret (fmt_d h ++ [newline]).

Definition show_cpci_slot : MW (list Z) :=
  let* w := get_world in
  ret (fmt_d (acq200_get_cpci_slot (pci_devfn (dev w))) ++ [newline]).

(** 0 when the semaphore was taken, 1 when it could not be *)
Definition down_trylock (s : Sem) : MW Z :=
  let* w := get_world in
  if 0 <? sem_get s w then modify (sem_upd s (fun n => n - 1)) >> ret 0 else ret 1.

Definition show_buffer_AB_busy_mutex : MW (list Z) :=
  let* rc := down_trylock AB_busy_sem in
  when (rc =? 0) (up AB_busy_sem) >>
  ret (fmt_d rc ++ [newline]).

Definition show_interrupt_count : MW (list Z) :=
  let* w := get_world in
  let '(c0, c1, c2) := interrupt_count (dev w) in
  ret (fmt_d c0 ++ chars " " ++ fmt_d c1 ++ chars " " ++ fmt_d c2 ++ [newline]).

Definition show_host_pa : MW (list Z) :=
  let* w := get_world in ret (chars "0x" ++ fmt_08x (buf_pa (dma_buf (dev w))) ++ [newline]).
Definition show_host_len : MW (list Z) :=
  let* w := get_world in ret (fmt_d (dma_buf_len (dma_buf (dev w))) ++ [newline]).
Definition show_llhost_pa : MW (list Z) :=
  let* w := get_world in ret (chars "0x" ++ fmt_08x (buf_pa (llhost_dma_buf (dev w))) ++ [newline]).
Definition show_llhost_len : MW (list Z) :=
  let* w := get_world in ret (fmt_d (dma_buf_len (llhost_dma_buf (dev w))) ++ [newline]).
Definition show_available_input_channels : MW (list Z) :=
  let* w := get_world in ret (fmt_d (s32 (input_nchannels (dev w))) ++ [newline]).
Definition show_available_output_channels : MW (list Z) :=
  let* w := get_world in ret (fmt_d (s32 (output_nchannels (dev w))) ++ [newline]).

(** [%10s]; [%p] is eight hexadecimal digits on this platform. *)
Definition fmt_10s (s : list Z) : list Z := replicate (10 - length s) 32 ++ s.
Definition dumpDmaBuf (d : DmaBuf) (maxbuf : nat) (id : list Z) : list Z :=
  take (maxbuf - 1) (fmt_10s id ++ chars ":" ++ fmt_d (order d) ++ chars " " ++ fmt_08x (buf_va d) ++
    chars " 0x" ++ fmt_08x (buf_pa d) ++ chars " len " ++ fmt_d (dma_buf_len d) ++ [newline]).
Definition show_buffers : MW (list Z) :=
  let* w := get_world in
  let '(a, b) := AB (dev w) in
  ret (dumpDmaBuf (dma_buf (dev w)) 80 (chars "dma_buf") ++
       (if istrue (buf_va a) then dumpDmaBuf a 80 (chars "buffer A") else []) ++
       (if istrue (buf_va b) then dumpDmaBuf b 80 (chars "buffer B") else [])).

Definition show_imask : MW (list Z) :=
  let* w := get_world in ret (imask (dev w) ++ [newline]).
Definition show_dev : MW (list Z) :=
  let* w := get_world in ret (fmt_d (major (dev w)) ++ chars ":" ++ fmt_d 0 ++ [newline]).

(** ** A new mask string *)

Definition store_imask (buf : list Z) : MW Z :=
  let* w := get_world in
  (if strncmp_eq buf (chars "LAPIC") 5 then ret tt                 (* disable_local_APIC() *)
   else if strncmp_eq buf (chars "LOC") 3 then
     let* _ := acq200_bkl BKL_LOCK in ret tt
   else
     let* locked := if strncmp_eq buf (chars "000") 3 then acq200_bkl BKL_QUERY else ret 0 in
     if istrue locked then let* _ := acq200_bkl BKL_UNLOCK in ret tt
     else
       let s := strncpy buf (Z.to_nat (NR_IRQS / 4)) in
       modify (upd_dev (setf imask (fun _ =>
         c_string ((fun c => if isxdigit c then c else 0) <$> s)))) >>
       let* _ := acq200_intsMask in
       ret tt) >>
  ret (Z.of_nat (length buf)).

(** ** The node of the big buffer *)
Definition acq200_bigbuf_line (w : World) : list Z :=
  chars "BIGBUF: pa=0x" ++ fmt_08x (buf_pa (dma_buf (dev w))) ++ chars " len=0x" ++
  fmt_08x (u32 (ORDER2LEN (order (dma_buf (dev w))))) ++ [newline].

(** The result and the new position.  A negative length is a range no user address space has. *)
Definition acq200_read (file : File) (buf count pos : Z) : MW (Z * Z) :=
  let* _ := path_ref (PD file) in
  let* w := get_world in
  let myline := acq200_bigbuf_line w in
  let len := Z.of_nat (length myline) in
  let ipos := s32 pos in
  if ipos <? len then
    let len := Z.min (s32 count) (len - ipos) in
    if len <? 0 then ret (- EFAULT, pos)
    else
      let* rc := put_to_user buf (take (Z.to_nat len) (drop (Z.to_nat ipos) myline)) in
      if istrue rc then ret (- EFAULT, pos) else ret (len, pos + len)
  else ret (0, pos).

Definition acq200_write (file : File) (buf count pos : Z) : MW (Z * Z) := ret (0, pos).
End Sysfs.

(** ** The mask string kept is the hexadecimal digits the text starts with *)
Fixpoint hex_prefix (s : list Z) : list Z :=
  match s with
  | c :: s => if isxdigit c then c :: hex_prefix s else []
  | [] => []
  end.

Lemma isxdigit_nonzero c : isxdigit c = true -> (c =? 0) = false.
Proof.
  unfold isxdigit, ch. intros E. apply Z.eqb_neq. intros ->. cbn in E. done.
Qed.

Lemma c_string_hex s : c_string ((fun c => if isxdigit c then c else 0) <$> s) = hex_prefix s.
Proof.
  induction s as [|c s IH]; [done|]. cbn [fmap list_fmap c_string hex_prefix] in *.
  destruct (isxdigit c) eqn:E; [|done]. rewrite isxdigit_nonzero by done. by f_equal.
Qed.

Lemma hex_prefix_app s t : Forall (fun c => isxdigit c = true) s -> hex_prefix (s ++ newline :: t) = s.
Proof. induction 1 as [|c s Hc _ IH]; [done|]. cbn [hex_prefix app]. by rewrite Hc, IH. Qed.

Section Text.
Context `{Platform}.

Lemma intsMask_imask w : exists w', acq200_intsMask w = Done 0 w' /\ imask (dev w') = imask (dev w).
Proof.
  unfold acq200_intsMask. erewrite bind_done by reflexivity.
  destruct (mask_digits _ _ _ _ _ _) as [ia ops].
  erewrite bind_done by reflexivity. erewrite bind_done by reflexivity.
  eexists. split; [reflexivity|done].
Qed.

(** Text that is none of the special words for the big lock and the local APIC. *)
Definition plain_mask (buf : list Z) (w : World) : Prop :=
  strncmp_eq buf (chars "LAPIC") 5 = false /\ strncmp_eq buf (chars "LOC") 3 = false /\
  (strncmp_eq buf (chars "000") 3 = true -> bkl_is_locked (dev w) = 0).

Lemma store_imask_spec buf w : plain_mask buf w -> exists w',
  acq200_intsMask (upd_dev (setf imask (fun _ => hex_prefix (take (Z.to_nat (NR_IRQS / 4)) buf))) w)
    = Done 0 w' /\
  store_imask buf w = Done (Z.of_nat (length buf)) w' /\
  imask (dev w') = hex_prefix (take (Z.to_nat (NR_IRQS / 4)) buf).
Proof.
  intros (H1 & H2 & H3).
  set (w1 := upd_dev _ w). destruct (intsMask_imask w1) as (w' & E & Hi).
  exists w'. split; [exact E|]. split; [|by rewrite Hi].
  unfold store_imask. erewrite bind_done by reflexivity.
  erewrite bind_done; [reflexivity|]. rewrite H1, H2.
  assert ((if strncmp_eq buf (chars "000") 3 then acq200_bkl BKL_QUERY else ret 0) w = Done 0 w) as E3.
  { destruct (strncmp_eq buf (chars "000") 3); [|done]. unfold acq200_bkl.
    erewrite bind_done by reflexivity. unfold gets. by rewrite H3. }
  erewrite bind_done by exact E3. change (istrue 0) with false. cbv iota zeta.
  rewrite c_string_hex. erewrite bind_done by reflexivity. unfold strncpy. fold w1.
  by erewrite bind_done by exact E.
Qed.

(** Text written to the mask attribute sets the mask string to the hexadecimal digits it starts
    with, at most a quarter of the number of lines, and brings the interrupt lines in line with it;
    reading the attribute gives it back. *)
Theorem store_imask_prefix s t w :
  plain_mask (s ++ newline :: t) w -> Forall (fun c => isxdigit c = true) s ->
  Z.of_nat (length s) < NR_IRQS / 4 ->
  exists w', acq200_intsMask (upd_dev (setf imask (fun _ => s)) w) = Done 0 w' /\
    store_imask (s ++ newline :: t) w = Done (Z.of_nat (length (s ++ newline :: t))) w' /\
    show_imask w' = Done (s ++ [newline]) w'.
Proof.
  intros Hp Hs Hl. destruct (store_imask_spec _ w Hp) as (w' & E & Est & Hi).
  assert (hex_prefix (take (Z.to_nat (NR_IRQS / 4)) (s ++ newline :: t)) = s) as Ehex.
  { replace (Z.to_nat (NR_IRQS / 4)) with (length s + S (Z.to_nat (NR_IRQS / 4) - length s - 1))%nat
      by lia.
    rewrite take_app_add. cbn [take]. by apply hex_prefix_app. }
  rewrite Ehex in E, Hi. exists w'. split; [exact E|]. split; [exact Est|].
  unfold show_imask. erewrite bind_done by reflexivity. by rewrite Hi.
Qed.

(** Looking at the busy attribute shows 1 exactly when the buffers are in use, and leaves the
    semaphore as it was. *)
Theorem show_busy_keeps_semaphore w : 0 <= sem_get AB_busy_sem w ->
  show_buffer_AB_busy_mutex w =
    Done (fmt_d (if sem_get AB_busy_sem w =? 0 then 1 else 0) ++ [newline]) w.
Proof.
  intros Hs. unfold show_buffer_AB_busy_mutex, down_trylock.
  rewrite bind_assoc. erewrite bind_done by reflexivity.
  destruct (Z.ltb_spec 0 (sem_get AB_busy_sem w)), (Z.eqb_spec (sem_get AB_busy_sem w) 0); try lia.
  - rewrite bind_assoc. erewrite bind_done by reflexivity. erewrite bind_done by reflexivity.
    change (0 =? 0) with true. unfold when. erewrite bind_done by reflexivity.
    unfold ret. f_equal. destruct w as [? ? ? ? d]; destruct d.
    unfold sem_upd, upd_dev, setf, set_dev, set_buffer_AB_busy_mutex; cbn. by rewrite Z.sub_add.
  - erewrite bind_done by reflexivity. done.
Qed.

(** A program that reads a number the driver shows gets that number back. *)
Theorem shown_numbers_read_back w :
  0 <= buf_pa (dma_buf (dev w)) < 2 ^ 32 -> 0 <= buf_pa (llhost_dma_buf (dev w)) < 2 ^ 32 ->
  0 <= input_nchannels (dev w) < 2 ^ 31 -> 0 <= output_nchannels (dev w) < 2 ^ 31 ->
  Forall (fun c => exists s, fst c w = Done (s ++ [newline]) w /\ read_d s = snd c)
    [(show_host_len, dma_buf_len (dma_buf (dev w)));
     (show_llhost_len, dma_buf_len (llhost_dma_buf (dev w)));
     (show_available_input_channels, input_nchannels (dev w));
     (show_available_output_channels, output_nchannels (dev w))] /\
  Forall (fun c => exists s, fst c w = Done (chars "0x" ++ s ++ [newline]) w /\
                     read_digits 16 s = snd c)
    [(show_host_pa, buf_pa (dma_buf (dev w))); (show_llhost_pa, buf_pa (llhost_dma_buf (dev w)))].
Proof.
  intros Hpa Hlpa Hi Ho.
  assert (forall d, - 2 ^ 31 <= dma_buf_len d < 2 ^ 32) as Hl.
  { intros d. unfold dma_buf_len. destruct (negb _); [|lia]. pose proof (s32_range
      (Z.shiftl 1 (order d) * PAGE_SIZE)). lia. }
  split; repeat constructor; cbn [fst snd]; eexists; (split; [reflexivity|]).
  1, 2: apply read_d_fmt_d, Hl.
  1, 2: rewrite s32_id by lia; apply read_d_fmt_d; lia.
  all: apply fmt_08x_read; lia.
Qed.

(** ** Reading the node of the big buffer, piece by piece *)

(** What a program gets that reads [count] bytes at a time into the buffer at [buf]. *)
Fixpoint read_pieces (file : File) (buf : Z) (counts : list Z) (pos : Z) : MW (list Z) :=
  match counts with
  | [] => ret []
  | count :: counts =>
      let* r := acq200_read file buf count pos in
      let* w := get_world in
      let piece := mem_read (umem w) buf (Z.to_nat (fst r)) in
      let* rest := read_pieces file buf counts (snd r) in
      ret (piece ++ rest)
  end.

Lemma bigbuf_line_length w : 0 < Z.of_nat (length (acq200_bigbuf_line w)) < 2 ^ 31.
Proof.
  unfold acq200_bigbuf_line. rewrite !length_app.
  pose proof (fmt_08x_length (buf_pa (dma_buf (dev w)))).
  pose proof (fmt_08x_length (u32 (ORDER2LEN (order (dma_buf (dev w)))))).
  change (length (chars "BIGBUF: pa=0x")) with 13%nat. change (length (chars " len=0x")) with 7%nat.
  cbn [length]. lia.
Qed.

Lemma read_piece file buf count pos w p : paths w !! PD file = Some p ->
  (forall n, copy_fault buf n = 0) -> 0 <= count < 2 ^ 31 ->
  0 <= pos <= Z.of_nat (length (acq200_bigbuf_line w)) ->
  let piece := take (Z.to_nat count) (drop (Z.to_nat pos) (acq200_bigbuf_line w)) in
  exists w', acq200_read file buf count pos w =
      Done (Z.of_nat (length piece), pos + Z.of_nat (length piece)) w' /\
    mem_read (umem w') buf (length piece) = piece /\ paths w' = paths w /\ dev w' = dev w.
Proof.
  intros Hp Hf Hc Hpos piece. pose proof (bigbuf_line_length w). unfold acq200_read.
  erewrite bind_done by (by apply path_ref_eq). erewrite bind_done by reflexivity. cbv zeta.
  rewrite !s32_id by lia. set (line := acq200_bigbuf_line w) in *.
  assert (Z.of_nat (length piece) = Z.min count (Z.of_nat (length line) - pos)) as Hlen
    by (subst piece; rewrite length_take, length_drop; lia).
  destruct (Z.ltb_spec pos (Z.of_nat (length line))).
  - destruct (Z.ltb_spec (Z.min count (Z.of_nat (length line) - pos)) 0); [lia|].
    rewrite <- Hlen, Nat2Z.id.
    assert (take (length piece) (drop (Z.to_nat pos) line) = piece) as ->.
    { subst piece. rewrite length_take, length_drop.
      destruct (Nat.min_spec (Z.to_nat count) (length line - Z.to_nat pos)) as [[? ->]|[? ->]]; [done|].
      rewrite !take_ge by (rewrite length_drop; lia). done. }
    erewrite bind_done by reflexivity. unfold user_copied. rewrite Hf. change (istrue 0) with false.
    eexists. split; [reflexivity|]. cbn [umem setf set_umem]. rewrite Z.sub_0_r, Nat2Z.id, firstn_all.
    split; [apply mem_read_write|done].
  - assert (length piece = 0%nat) as -> by lia. exists w. rewrite Z.add_0_r.
    assert (piece = []) as -> by (apply length_zero_iff_nil; lia). done.
Qed.

(** C39: a program that reads the node of the big buffer in pieces of any sizes gets the line that
    describes the buffer, from its start, once, without gap or repetition, then end of file. *)
Theorem bigbuf_read_pieces file buf counts w p : paths w !! PD file = Some p ->
  (forall n, copy_fault buf n = 0) -> Forall (fun c => 0 <= c < 2 ^ 31) counts ->
  exists w', read_pieces file buf counts 0 w =
    Done (take (Z.to_nat (foldr Z.add 0 counts)) (acq200_bigbuf_line w)) w'.
Proof.
  intros Hp Hf Hc.
  enough (forall pos v q, dev v = dev w -> paths v !! PD file = Some q ->
      0 <= pos <= Z.of_nat (length (acq200_bigbuf_line w)) -> exists w',
    read_pieces file buf counts pos v = Done (take (Z.to_nat (foldr Z.add 0 counts))
      (drop (Z.to_nat pos) (acq200_bigbuf_line w))) w') as E
    by (destruct (E 0 w p) as [w' ->]; [done|done|lia|by exists w']).
  pose proof (bigbuf_line_length w) as Hll.
  induction Hc as [|c cs Hc Hcs IH]; intros pos v q Hd Hq Hpos; [by exists v|].
  assert (acq200_bigbuf_line v = acq200_bigbuf_line w) as El by (unfold acq200_bigbuf_line; by rewrite Hd).
  destruct (read_piece file buf c pos v q Hq Hf Hc) as (v' & E & Em & Ep & Ed); [by rewrite El|].
  rewrite El in E, Em. set (line := acq200_bigbuf_line w) in *.
  set (piece := take (Z.to_nat c) (drop (Z.to_nat pos) line)) in *.
  assert (Z.of_nat (length piece) = Z.min c (Z.of_nat (length line) - pos)) as Hlen
    by (subst piece; rewrite length_take, length_drop; lia).
  cbn [read_pieces]. erewrite bind_done by exact E. erewrite bind_done by reflexivity.
  cbv zeta. cbn [fst snd]. rewrite Nat2Z.id, Em.
  destruct (IH (pos + Z.of_nat (length piece)) v' q) as [v'' E'']; [congruence|by rewrite Ep|lia|].
  erewrite bind_done by exact E''. exists v''. unfold ret. f_equal. cbn [foldr].
  assert (0 <= foldr Z.add 0 cs) as Hnn by (clear -Hcs; induction Hcs; cbn; lia).
  rewrite (Z2Nat.inj_add c) by lia. rewrite <- take_take_drop, drop_drop. subst piece. f_equal.
  destruct (Z.min_spec c (Z.of_nat (length line) - pos)) as [[? Hm]|[? Hm]].
  - do 2 f_equal. lia.
  - rewrite !drop_ge by lia. done.
Qed.
End Text.
