(* ===== verification/Attributes.v ===== *)
(** * acq200_if.c: the files of a card in /sys

    A file that is registered for a device of the kernel is read by a call of its show function, which
    looks the card up in the driver's table and prints into a page.  The functions of the PCI device's
    files take the card whose PCI device it is, those of the class device's files the card whose class
    device it is; what they print of the card is in the files [Sysfs] and [Listing]. *)

From Stdlib Require Import String.
From S2P Require Import Prelude CString BusProt StreamBuf Pool Device Rch I2o Isr Kernel Outer.
From S2P Require Import Owner Frames Sleep Mask Mailbox Path Bridge Acquire Requests Mmap Init Driver Listing Sysfs.

Section Attributes.
Context `{Platform} `{Addresses}.

(** The text that is printed, or the negative result. *)
Definition Shown : Type := list Z + Z.

(** [if (device != 0) return sprintf(...); else return -ENODEV;] *)
Definition dev_show (o : option nat) (m : MW (list Z)) : MD Shown :=
  match o with
  | Some p => let* t := on p m in ret (inl t)
  | None => ret (inr (- ENODEV))
  end.

(** [show_buffers] does not test the device. *)
Definition show_buffers_of (o : option nat) : MD Shown :=
  let* p := deref NullDeref o in
  let* t := on p show_buffers in ret (inl t).

(** The functions that test the device, by the names of their files. *)
Definition device_shows : list (string * MW (list Z)) :=
  [("host_pa", show_host_pa); ("host_len", show_host_len); ("llhost_pa", show_llhost_pa);
   ("llhost_len", show_llhost_len); ("heartbeat", show_heartbeat); ("cpci_slot", show_cpci_slot);
   ("buffer_AB_busy_mutex", show_buffer_AB_busy_mutex); ("interrupt_count", show_interrupt_count);
   ("available_input_channels", show_available_input_channels);
   ("available_output_channels", show_available_output_channels)]%string.
Definition class_shows : list (string * MW (list Z)) := [("imask", show_imask); ("dev", show_dev)]%string.

Fixpoint show_of (name : string) (l : list (string * MW (list Z))) : option (MW (list Z)) :=
  match l with
  | [] => None
  | (n, m) :: l => if decide (name = n) then Some m else show_of name l
  end.

(** A read of the file [name] of the PCI device [d]; [None] when there is no such function. *)
Definition read_device_file (d : Z) (name : string) : option (MD Shown) :=
  if decide (name = "pool"%string) then Some (let* t := show_pool d in ret (inl t))
  else if decide (name = "rch_list"%string) then Some (let* t := show_rch_list d in ret (inl t))
  else if decide (name = "buffers"%string) then
    Some (let* o := acq200_lookupDevice d in show_buffers_of o)
  else
    match show_of name device_shows with
    | Some m => Some (let* o := acq200_lookupDevice d in dev_show o m)
    | None => None
    end.

(** A read of a file of the class device [c], and a write to the mask file. *)
Definition read_class_file (c : Z) (name : string) : option (MD Shown) :=
  match show_of name class_shows with
  | Some m => Some (let* o := acq200_lookupDeviceFromClass c in dev_show o m)
  | None => None
  end.
Definition write_imask_file (c : Z) (buf : list Z) : MD Z :=
  let* o := acq200_lookupDeviceFromClass c in
  match o with
  | Some p => on p (store_imask buf)
  | None => ret (- ENODEV)
  end.
End Attributes.

(** ** The heartbeat *)
Section Heartbeat.
Context `{Platform}.

Lemma nap_total t w0 w : dev_inv w0 -> evolves w0 w ->
  total (interruptible_sleep_on_timeout private_wq t) (fun _ w' => evolves w0 w') w.
Proof.
  intros Hi He. assert (queue_ok private_wq w0) as Hq by (by intros v Hv; split).
  destruct (Z.ltb_spec 0 t) as [Ht|Ht].
  - eapply total_mono; [by apply (sleep_on_timeout_spec private_wq w0 Hi Hq)|]. by intros ? ? [? _].
  - unfold interruptible_sleep_on_timeout. apply total_bind. unfold get_world, total at 1. destruct (sigpending w).
    + destruct (sched w) as [|e evs]; [done|]. by apply (event_step_total _ _ _ _ w0).
    + unfold total. erewrite bind_done by reflexivity. destruct (sched w); cbn [sleep_from];
        by rewrite (proj2 (Z.leb_le t 0) Ht).
Qed.

Lemma read_status_total w0 w : dev_inv w0 -> evolves w0 w ->
  total _getHeartbeat (fun _ w' => evolves w0 w') w.
Proof. intros Hi He. unfold _getHeartbeat, MBOX_READ, total. erewrite bind_done by reflexivity. cbn [ret]. own_same. Qed.

Lemma set_heartbeat_total v w0 w : dev_inv w0 -> evolves w0 w ->
  total (set_heartbeat' v) (fun x w' => evolves w0 w' /\ - 2 ^ 31 <= x < 2 ^ 31) w.
Proof.
  intros Hi He. unfold set_heartbeat', total. erewrite bind_done by reflexivity. cbn [ret].
  split; [own_same|apply s32_range].
Qed.

Lemma heartbeat_total w : dev_inv w ->
  total acq200_getHeartbeat (fun v w' => evolves w w' /\ - 2 ^ 31 <= v < 2 ^ 31) w.
Proof.
  intros Hi. pose proof (evolves_refl w Hi) as He. apply total_bind.
  eapply total_mono; [by apply (read_status_total w)|]. intros v1 w1 He1. apply total_bind.
  eapply total_mono; [by apply (nap_total _ w)|]. intros ? w2 He2. apply total_bind.
  eapply total_mono; [by apply (read_status_total w)|]. intros v2 w3 He3. destruct (negb _).
  - destruct (v1 <? v2); [by apply (set_heartbeat_total _ w)|]. apply total_bind.
    eapply total_mono; [by apply (nap_total _ w)|]. intros ? w4 He4. apply total_bind.
    eapply total_mono; [by apply (read_status_total w)|]. intros v3 w5 He5. by apply (set_heartbeat_total _ w).
  - unfold total. do 4 (erewrite bind_done by reflexivity). apply (set_heartbeat_total _ w); [done|]. eapply evolves_trans; [exact Hi|exact He3|]. apply evolves_same; [apply He3|by constructor].
Qed.
End Heartbeat.

(** ** Lengths of the texts *)

(** The numbers that are printed fit in an int, the buffers' addresses in 32 bits. *)
Record printable `{Platform} (w : World) : Prop := {
  pr_counts : let '(c0, c1, c2) := interrupt_count (dev w) in
    Forall (fun c => - 2 ^ 31 <= c < 2 ^ 31) [c0; c1; c2];
  pr_major : - 2 ^ 31 <= major (dev w) < 2 ^ 31;
  pr_imask : Z.of_nat (length (imask (dev w))) < PAGE_SIZE - 1;
  pr_busy : 0 <= sem_get AB_busy_sem w
}.

Section Lengths.
Context `{Platform}.

Lemma fmt_d_s32 z : (length (fmt_d (s32 z)) <= 11)%nat.
Proof. apply fmt_d_bound. pose proof (s32_range z). lia. Qed.

Lemma fmt_d_len d : (length (fmt_d (dma_buf_len d)) <= 11)%nat.
Proof. unfold dma_buf_len. destruct (negb _); [apply fmt_d_s32|apply fmt_d_bound; lia]. Qed.

Lemma cpci_slot_bound devfn : (length (fmt_d (acq200_get_cpci_slot devfn)) <= 11)%nat.
Proof.
  apply fmt_d_bound. unfold acq200_get_cpci_slot.
  destruct (_ && _); [|lia]. match goal with |- context [s32 ?z] => pose proof (s32_range z) end. lia.
Qed.

Lemma dump_buf_bound d id : (length (dumpDmaBuf d 80 id) <= 79)%nat.
Proof. unfold dumpDmaBuf. rewrite length_take. lia. Qed.

(** A show function that prints less than a page and changes nothing. *)
Definition fits (m : MW (list Z)) (w : World) : Prop :=
  exists t, m w = Done t w /\ Z.of_nat (length t) < PAGE_SIZE.

Lemma fits_intro (m : MW (list Z)) t w : m w = Done t w -> Z.of_nat (length t) < PAGE_SIZE -> fits m w.
Proof. by exists t. Qed.

Lemma show_buffers_fits w : fits show_buffers w.
Proof.
  unfold show_buffers. destruct (AB (dev w)) as [a b] eqn:E.
  eapply fits_intro; [erewrite bind_done by reflexivity; by rewrite E|].
  rewrite !length_app. pose proof (dump_buf_bound (dma_buf (dev w)) (chars "dma_buf")).
  pose proof (dump_buf_bound a (chars "buffer A")). pose proof (dump_buf_bound b (chars "buffer B")).
  change PAGE_SIZE with 4096. destruct (istrue (buf_va a)), (istrue (buf_va b)); cbn [length]; lia.
Qed.

Lemma show_busy_fits w : 0 <= sem_get AB_busy_sem w -> fits show_buffer_AB_busy_mutex w.
Proof.
  intros Hs. eapply fits_intro; [by apply show_busy_keeps_semaphore|].
  change PAGE_SIZE with 4096. by destruct (_ =? 0).
Qed.

Lemma device_shows_fit name m w : printable w -> show_of name device_shows = Some m ->
  name <> "heartbeat"%string -> fits m w.
Proof.
  intros [Hc _ _ Hb] Hm Hn. unfold device_shows in Hm. cbn [show_of] in Hm.
  repeat case_decide; simplify_eq; try (by apply show_busy_fits);
    try (eapply fits_intro; [reflexivity|]; cbv beta; rewrite !length_app; change PAGE_SIZE with 4096;
      change (length (chars "0x")) with 2%nat; cbn [length];
      first [pose proof (fmt_d_len (dma_buf (dev w))); pose proof (fmt_d_len (llhost_dma_buf (dev w)));
             pose proof (fmt_08x_length (buf_pa (dma_buf (dev w))));
             pose proof (fmt_08x_length (buf_pa (llhost_dma_buf (dev w))));
             pose proof (cpci_slot_bound (pci_devfn (dev w)));
             pose proof (fmt_d_s32 (input_nchannels (dev w))); pose proof (fmt_d_s32 (output_nchannels (dev w)));
             lia]).
  unfold show_interrupt_count. destruct (interrupt_count (dev w)) as [[c0 c1] c2] eqn:E.
  eapply fits_intro; [erewrite bind_done by reflexivity; by rewrite E|].
  apply Forall_cons in Hc as [B0 Hc]. apply Forall_cons in Hc as [B1 Hc]. apply Forall_cons in Hc as [B2 _].
  pose proof (fmt_d_bound _ B0). pose proof (fmt_d_bound _ B1). pose proof (fmt_d_bound _ B2).
  rewrite !length_app. change PAGE_SIZE with 4096. change (length (chars " ")) with 1%nat. cbn [length]. lia.
Qed.

Lemma class_shows_fit name m w : printable w -> show_of name class_shows = Some m -> fits m w.
Proof.
  intros [_ Hmj Hi _] Hm. unfold class_shows in Hm. cbn [show_of] in Hm.
  repeat case_decide; simplify_eq; (eapply fits_intro; [reflexivity|]); cbv beta; rewrite !length_app.
  - cbn [length]. lia.
  - pose proof (fmt_d_bound _ Hmj). change (length (chars ":")) with 1%nat. change (length (fmt_d 0)) with 1%nat.
    change PAGE_SIZE with 4096. cbn [length]. lia.
Qed.

(** ** Reading the files of a card *)
Lemma put_world_same p d s : heap s !! p = Some d -> put_world p (d_world d) s = s.
Proof.
  intros Hd. unfold put_world, setf, set_heap. destruct s as [ds h rg rs fp]. cbn in *. f_equal.
  apply map_eq. intros q. destruct (decide (q = p)) as [->|]; [|by rewrite lookup_alter_ne].
  rewrite lookup_alter_eq, Hd. cbn. by destruct d.
Qed.

Lemma on_fits p (m : MW (list Z)) d s : heap s !! p = Some d -> fits m (d_world d) ->
  exists t, on p m s = Done t s /\ Z.of_nat (length t) < PAGE_SIZE.
Proof.
  intros Hd (t & E & Hl). exists t. split; [|done]. unfold on. by rewrite Hd, E, put_world_same.
Qed.
End Lengths.

Section Read.
Context `{Platform} `{Addresses}.
Hypothesis addr_range : (forall k, 0 <= map_addr k < 2 ^ 32) /\ (forall r, 0 <= rch_addr r < 2 ^ 32) /\
  (forall h, 0 <= fn_addr h < 2 ^ 32) /\ (forall p, 0 <= path_addr p < 2 ^ 32).

(** A card whose files can be read: its numbers can be printed and its pools have their size. *)
Record readable (w : World) : Prop := {
  rd_printable : printable w;
  rd_inv : dev_inv w;
  rd_valids : valids_ok w;
  rd_pools : max_entries (mappings (dev w)) = NMAPPINGS /\ max_entries (handlers (dev w)) = NHANDLERS
}.

Lemma total_fits (m : MW (list Z)) w :
  total m (fun l w' => w' = w /\ Z.of_nat (length l) < PAGE_SIZE) w -> fits m w.
Proof. unfold total. destruct (m w) eqn:E; try done. intros [-> Hl]. by eexists. Qed.

Lemma lookup_pci s p d : drv_inv s -> heap s !! p = Some d -> acq200_lookupDevice (pci_dev d) s = Done (Some p) s.
Proof.
  intros Hi Hd. destruct (lookup_device_spec s (pci_dev d) Hi) as (o & E & Ho).
  by rewrite E, (proj2 (Ho p)) by by exists d.
Qed.

Lemma device_file_read s p d name : drv_inv s -> heap s !! p = Some d -> readable (d_world d) ->
  name ∈ device_attrs ++ pool_attrs -> name <> "heartbeat"%string ->
  exists m t, read_device_file (pci_dev d) name = Some m /\ m s = Done (inl t) s /\
    Z.of_nat (length t) < PAGE_SIZE.
Proof.
  intros Hi Hd [Hp Hinv Hv [Hm Hh]] Hname Hn. pose proof (lookup_pci s p d Hi Hd) as Hlk.
  destruct (listings_bound addr_range (d_world d) Hinv Hv Hm Hh) as [Hpool%total_fits Hlist%total_fits].
  unfold read_device_file. case_decide; [|case_decide; [|case_decide]].
  - destruct (on_fits p _ d s Hd Hpool) as (t & E & Hl). eexists _, t. split; [done|]. split; [|done].
    unfold show_pool. erewrite bind_done; [reflexivity|]. erewrite bind_done by exact Hlk. exact E.
  - destruct (on_fits p _ d s Hd Hlist) as (t & E & Hl). eexists _, t. split; [done|]. split; [|done].
    unfold show_rch_list. erewrite bind_done; [reflexivity|]. erewrite bind_done by exact Hlk. exact E.
  - destruct (on_fits p _ d s Hd (show_buffers_fits _)) as (t & E & Hl). eexists _, t. split; [done|].
    split; [|done]. erewrite bind_done by exact Hlk. unfold show_buffers_of.
    erewrite bind_done by reflexivity. by erewrite bind_done by exact E.
  - assert (is_Some (show_of name device_shows)) as [m Em].
    { revert Hname. unfold device_attrs, pool_attrs. cbn [app]. rewrite !elem_of_cons, elem_of_nil.
      intros Hname. repeat (destruct Hname as [->|Hname]; [first [congruence | by eexists]|]). done. }
    rewrite Em. destruct (on_fits p m d s Hd (device_shows_fit name m _ Hp Em Hn)) as (t & E & Hl).
    eexists _, t. split; [done|]. split; [|done]. erewrite bind_done by exact Hlk.
    unfold dev_show. by erewrite bind_done by exact E.
Qed.

Lemma put_world_inv p w s : drv_inv s -> drv_inv (put_world p w s).
Proof.
  intros [Hnd Hlv Hpci Hmax].
  assert (Hlk : forall q e, heap (put_world p w s) !! q = Some e ->
    exists e0, heap s !! q = Some e0 /\ pci_dev e = pci_dev e0).
  { intros q e. cbn. destruct (decide (p = q)) as [<-|Hne]; [|rewrite lookup_alter_ne by done; by exists e].
    rewrite lookup_alter_eq. destruct (heap s !! p) as [e0|]; [|done]. cbn. intros [= <-]. by exists e0. }
  constructor; [done| | |done].
  - intros q. rewrite Hlv. cbn. by rewrite lookup_alter_is_Some.
  - intros q1 q2 e1 e2 (d1 & H1 & E1)%Hlk (d2 & H2 & E2)%Hlk E. apply (Hpci q1 q2 d1 d2 H1 H2). congruence.
Qed.

Lemma put_world_class p w s d : heap s !! p = Some d ->
  (forall q e, heap s !! q = Some e -> class_dev e = class_dev d -> q = p) ->
  forall q e, heap (put_world p w s) !! q = Some e -> class_dev e = class_dev d -> q = p.
Proof.
  intros Hd Hu q e. cbn. destruct (decide (p = q)) as [<-|Hne]; [done|]. rewrite lookup_alter_ne by done. apply Hu.
Qed.

Lemma lookup_class s p d : drv_inv s -> heap s !! p = Some d ->
  (forall q e, heap s !! q = Some e -> class_dev e = class_dev d -> q = p) ->
  acq200_lookupDeviceFromClass (class_dev d) s = Done (Some p) s.
Proof.
  intros Hi Hd Hu. unfold acq200_lookupDeviceFromClass. erewrite bind_done by reflexivity.
  destruct (lookup_loop_live (fun e => class_dev d =? class_dev e) (devices s) s) as (o & -> & Ho).
  { intros q. apply (dv_live _ Hi). }
  destruct o as [q|].
  - destruct Ho as (_ & e & He & Ht). apply Z.eqb_eq in Ht. by rewrite (Hu q e He (eq_sym Ht)).
  - assert (p ∈ devices s) as Hin by (apply (dv_live _ Hi); by exists d).
    pose proof (Ho p d Hin Hd) as Ht. by rewrite Z.eqb_refl in Ht.
Qed.

(** The file of the heartbeat reads the card twice, and sleeps in between: the card's interrupts and bottom
    halves go on meanwhile. *)
Lemma heartbeat_read s p d : drv_inv s -> heap s !! p = Some d -> dev_inv (d_world d) ->
  exists m, read_device_file (pci_dev d) "heartbeat" = Some m /\
    total m (fun o s' => exists t w, o = inl t /\ Z.of_nat (length t) < PAGE_SIZE /\
      s' = put_world p w s /\ evolves (d_world d) w) s.
Proof.
  intros Hi Hd Hinv. eexists. split; [reflexivity|]. unfold total.
  erewrite bind_done by by apply lookup_pci. unfold dev_show, bind, on. rewrite Hd.
  pose proof (heartbeat_total (d_world d) Hinv) as Ht. unfold total, show_heartbeat, bind in *.
  destruct (acq200_getHeartbeat (d_world d)) as [v w| | |]; try done. cbn [ret]. destruct Ht as [He Hv].
  eexists _, w. split; [reflexivity|]. split; [|done].
  pose proof (fmt_d_bound v Hv). rewrite length_app. change PAGE_SIZE with 4096. cbn [length]. lia.
Qed.

(** C29: every file that the driver makes for a card has a function, and a read of it finds the card and prints
    its text in less than a page.  The files of the PCI device, but for the heartbeat, and those of the
    class device leave the driver and every card as they were; that of the heartbeat, which reads the
    card and sleeps, comes to an end, and changes nothing but what the card's own interrupts and bottom
    halves do meanwhile. *)
Theorem attributes_read s p d : drv_inv s -> heap s !! p = Some d -> readable (d_world d) ->
  (forall q e, heap s !! q = Some e -> class_dev e = class_dev d -> q = p) ->
  let reads r := exists m t, r = Some m /\ m s = Done (inl t) s /\ Z.of_nat (length t) < PAGE_SIZE in
  (forall name, name ∈ device_attrs ++ pool_attrs -> name <> "heartbeat"%string ->
     reads (read_device_file (pci_dev d) name)) /\
  (forall name, name ∈ class_attrs -> reads (read_class_file (class_dev d) name)) /\
  exists m, read_device_file (pci_dev d) "heartbeat" = Some m /\
    total m (fun o s' => exists t w, o = inl t /\ Z.of_nat (length t) < PAGE_SIZE /\
      s' = put_world p w s /\ evolves (d_world d) w) s.
Proof.
  intros Hi Hd Hr Hu reads. split; [|split].
  - intros name. by apply (device_file_read s p d).
  - intros name Hn. assert (is_Some (show_of name class_shows)) as [m Em].
    { unfold class_attrs in Hn. rewrite !elem_of_cons, elem_of_nil in Hn. by destruct Hn as [->|[->|[]]]; eexists. }
    destruct (on_fits p m d s Hd (class_shows_fit name m _ (rd_printable _ Hr) Em)) as (t & E & Hl).
    unfold read_class_file. rewrite Em. eexists _, t. split; [done|]. split; [|done].
    erewrite bind_done by by apply lookup_class. unfold dev_show. by erewrite bind_done by exact E.
  - apply heartbeat_read; [done..|apply Hr].
Qed.

(** C30: the files of the class device: a new mask that is written reaches the card whose class device it
    is and no other, and is what is read there next. *)
Theorem class_files_mask s p d t more : drv_inv s -> heap s !! p = Some d ->
  (forall q e, heap s !! q = Some e -> class_dev e = class_dev d -> q = p) ->
  plain_mask (t ++ newline :: more) (d_world d) -> Forall (fun c => isxdigit c = true) t ->
  Z.of_nat (length t) < NR_IRQS / 4 ->
  exists w m, write_imask_file (class_dev d) (t ++ newline :: more) s =
      Done (Z.of_nat (length (t ++ newline :: more))) (put_world p w s) /\
    read_class_file (class_dev d) "imask" = Some m /\
    m (put_world p w s) = Done (inl (t ++ [newline])) (put_world p w s) /\
    forall q, q <> p -> heap (put_world p w s) !! q = heap s !! q.
Proof.
  intros Hi Hd Hu Hp Hx Hl. pose proof (lookup_class s p d Hi Hd Hu) as Hlk.
  destruct (store_imask_spec _ (d_world d) Hp) as (w & _ & Est & Ei).
  assert (hex_prefix (take (Z.to_nat (NR_IRQS / 4)) (t ++ newline :: more)) = t) as Eh.
  { replace (Z.to_nat (NR_IRQS / 4)) with (length t + S (Z.to_nat (NR_IRQS / 4) - length t - 1))%nat by lia.
    rewrite take_app_add. cbn [take]. by apply hex_prefix_app. }
  rewrite Eh in Ei.
  set (s' := put_world p w s). assert (heap s' !! p = Some (d <| d_world := w |>)) as Hd'
    by (cbn; by rewrite lookup_alter_eq, Hd).
  assert (Hother : forall q, q <> p -> heap s' !! q = heap s !! q) by (intros q Hq; cbn; by rewrite lookup_alter_ne).
  exists w. eexists. split; [|split; [reflexivity|split; [|exact Hother]]].
  - unfold write_imask_file. erewrite bind_done by exact Hlk. unfold on. by rewrite Hd, Est.
  - erewrite bind_done by exact (lookup_class s' p _ (put_world_inv p w s Hi) Hd' (put_world_class p w s d Hd Hu)).
    unfold dev_show, on. erewrite bind_done; [reflexivity|]. rewrite Hd'. cbn [d_world setf set_d_world].
    unfold show_imask. erewrite bind_done by reflexivity. cbv beta. rewrite Ei. unfold ret.
    f_equal. exact (put_world_same p _ s' Hd').
Qed.
(** A device that is not in the table: the functions that test it answer [-ENODEV]; those of the
    buffers and of the pool do not, and follow a null pointer. *)
Theorem unknown_device_read s d : acq200_lookupDevice d s = Done None s ->
  (forall name m, name <> "buffers"%string -> show_of name device_shows = Some m ->
    exists r, read_device_file d name = Some r /\ r s = Done (inr (- ENODEV)) s) /\
  forall name, name = "buffers"%string \/ name = "pool"%string ->
    exists r, read_device_file d name = Some r /\ r s = Crash NullDeref s.
Proof.
  intros E. split.
  - intros name m Hb Hm. unfold read_device_file. rewrite (decide_False (P := name = "buffers"%string)) by done.
    rewrite !decide_False by (intros ->; by vm_compute in Hm). rewrite Hm. eexists. split; [done|].
    by erewrite bind_done by exact E.
  - intros name [-> | ->]; (eexists; split; [reflexivity|]).
    + by erewrite bind_done by exact E.
    + unfold show_pool, bind. rewrite E. reflexivity.
Qed.
End Read.
