(* ===== verification/System.v ===== *)
(** * The device under any sequence of calls and events

    A state machine: processes open nodes of every kind, and make on each the calls its table of file
    operations has: reads, writes, ioctls, mappings, closes; masks are set; between the calls, as
    within those that sleep, the other contexts run (interrupts, the bottom half, the card's DMA,
    signals, ticks).  The states that can be reached keep the invariant of the device and its nodes,
    and in none of them does a call or an event fault, but for four known faults: the read that gets
    an error reply, the ioctl on the buffers that gets no handler, the first open of the buffers
    when the kernel has no page to give, and their last close when the backstop thread could not be
    started.

    A call is one step here; what the other contexts do while it sleeps is part of it.  Reads and
    writes that use the pool are those for which a mapping is free: without one a handler is recycled
    that was not built again, which may free what others hold ([timeout_frees_foreign_mapping]). *)

From S2P Require Import Prelude BusProt StreamBuf Pool Device Rch I2o Isr Kernel Outer.
From S2P Require Import Owner Frames Sleep Mask Mailbox Path Bridge Acquire Requests Writes Release BufferAB Nodes Mmap Init Sysfs.

(** ** The file operations of a node *)
Section Vfs.
Context `{Platform}.

Definition vfs_read (file : File) (ubuf count pos : Z) : MW (Z * Z) :=
  let* x := path_ref (PD file) in
  match fops_of x with
  | acq200_bridge_fops => acq200_bridge_read file ubuf count pos
  | acq200_bridge_AB_fops => acq200_bridge_readAB file ubuf count pos
  | acq200_fops | acq200_llhost_fops | acq200_mbox_fops => acq200_read file ubuf count pos
  end.

Definition vfs_write (file : File) (ubuf count pos : Z) : MW (Z * Z) :=
  let* x := path_ref (PD file) in
  match fops_of x with
  | acq200_bridge_fops | acq200_bridge_AB_fops => acq200_bridge_write file ubuf count pos
  | acq200_fops | acq200_llhost_fops | acq200_mbox_fops => acq200_write file ubuf count pos
  end.

(** A table without an ioctl: the kernel answers [-ENOTTY]. *)
Definition vfs_ioctl (file : File) (cmd arg : Z) : MW Z :=
  let* x := path_ref (PD file) in
  match fops_of x with
  | acq200_bridge_fops => ret (- ENOTTY)
  | acq200_bridge_AB_fops => acq200_ioctlAB file cmd arg
  | acq200_fops | acq200_llhost_fops | acq200_mbox_fops => acq200_ioctl file cmd arg
  end.

(** A table without an mmap: the kernel answers [-ENODEV]. *)
Definition vfs_mmap (remap_pfn_range : vm_area_struct -> Z -> Z -> bool) (file : File) (vma : vm_area_struct) : MW (Z * option Remap) :=
  let* x := path_ref (PD file) in
  match fops_of x with
  | acq200_bridge_fops => ret (- ENODEV, None)
  | acq200_bridge_AB_fops => acq200_mmapAB remap_pfn_range file vma
  | acq200_fops => acq200_mmap_host remap_pfn_range file vma
  | acq200_llhost_fops => acq200_mmap_llhost remap_pfn_range file vma
  | acq200_mbox_fops => acq200_mmap_mbox remap_pfn_range file vma
  end.

Definition vfs_release (file : File) : MW Z :=
  let* x := path_ref (PD file) in
  match fops_of x with
  | acq200_bridge_fops => acq200_bridge_release file
  | acq200_bridge_AB_fops => acq200_bridge_releaseAB file
  | acq200_fops | acq200_llhost_fops | acq200_mbox_fops => acq200_release file
  end.
End Vfs.

(** ** Calls, and when a process can make them *)
Inductive Call :=
| Call_event (e : Event)
| Call_open (i_rdev : Z) (path : nat)   (** and the path that [kmalloc] gives *)
| Call_read (file : File) (ubuf count pos : Z)
| Call_write (file : File) (ubuf count pos : Z)
| Call_ioctl (file : File) (cmd arg : Z)
| Call_mmap (file : File) (vma : vm_area_struct)
| Call_close (file : File)
| Call_mask (text : list Z).

Section System.
Context `{Platform}.
Context (get_free_pages : World -> Z -> Z) (dma_map_single : World -> Z -> Z).
Context (remap_pfn_range : vm_area_struct -> Z -> Z -> bool).

Definition run_call (c : Call) : MW unit :=
  match c with
  | Call_event e => run_event e
  | Call_open i_rdev p => let* _ := acq200_open get_free_pages dma_map_single i_rdev (Some p) in ret tt
  | Call_read file ubuf count pos => let* _ := vfs_read file ubuf count pos in ret tt
  | Call_write file ubuf count pos => let* _ := vfs_write file ubuf count pos in ret tt
  | Call_ioctl file cmd arg => let* _ := vfs_ioctl file cmd arg in ret tt
  | Call_mmap file vma => let* _ := vfs_mmap remap_pfn_range file vma in ret tt
  | Call_close file => let* _ := vfs_release file in ret tt
  | Call_mask text => let* _ := store_imask text in ret tt
  end.

Definition enabled (c : Call) (w : World) : Prop :=
  match c with
  | Call_event _ | Call_mask _ => True
  | Call_open i_rdev p => major (dev w) = MAJOR i_rdev /\ paths w !! p = None
  | Call_read file _ _ _ => exists x, paths w !! PD file = Some x /\
      (fops_of x = acq200_bridge_fops -> has_free (mappings (dev w))) /\
      (fops_of x = acq200_bridge_AB_fops -> map_len (AB_mapping w 0) <> 0)
  | Call_write file _ count _ => exists x, paths w !! PD file = Some x /\
      (bridge_node x -> has_free (mappings (dev w)) /\ 0 <= count < 2 ^ 32)
  | Call_ioctl file _ _ | Call_mmap file _ | Call_close file => is_Some (paths w !! PD file)
  end.

Inductive step (w w' : World) : Prop :=
| step_call c : enabled c w -> run_call c w = Done tt w' -> step w w'.

(** The faults that are known: a read gets a reply which reports an error; no handler can be had for a
    buffer's request; no pages can be had for the buffers; their last client stops a thread that could not
    be started. *)
Definition known_fault (c : Call) (f : Fault) (w' : World) : Prop :=
  match c with
  | Call_read _ _ _ _ => f = ListCorruption /\ exists r x, rchs w' !! r = Some x /\ valid (rchReturn x) = -1
  | Call_ioctl file _ _ => ab_fault file f w'
  | Call_open i_rdev _ => fst (newfops (MINOR i_rdev)) = acq200_bridge_AB_fops /\ f = KernelBug /\
      forall o, 0 <= o <= acq200_AB_dmabuf_max_order (params w') -> get_free_pages w' o = 0
  | Call_close _ => f = BadPointer /\ i2o_backstop (dev w') = task_error
  | _ => False
  end.

(** ** Each call keeps the invariant *)
Lemma outcome_ret {A} (m : MW A) (P : A -> World -> Prop) E w :
  outcome m P E w -> (forall a w', P a w' -> sys_inv w') ->
  outcome (let* _ := m in ret tt) (fun _ w' => sys_inv w') E w.
Proof. unfold outcome, bind. destruct (m w) as [a w'| | |]; try done. intros HP Hi. by eapply Hi. Qed.

Lemma bkl_own a w : total (acq200_bkl a) (fun _ w' => same_own_paths w w') w.
Proof. unfold acq200_bkl. destruct (a =? BKL_LOCK); [by intros; split|]. by destruct (a =? BKL_UNLOCK). Qed.

Lemma intsMask_own w : total acq200_intsMask (fun _ w' => same_own_paths w w') w.
Proof.
  unfold acq200_intsMask, total. erewrite bind_done by reflexivity. destruct (mask_digits _ _ _ _ _ _). by split.
Qed.

Lemma own_then {A B} (m : MW A) (k : A -> MW B) w :
  total m (fun _ w' => same_own_paths w w') w ->
  (forall a w', total (k a) (fun _ w'' => same_own_paths w' w'') w') ->
  total (bind m k) (fun _ w' => same_own_paths w w') w.
Proof.
  intros Hm Hk. apply total_bind. eapply total_mono; [exact Hm|]. intros a w1 H1.
  eapply total_mono; [apply Hk|]. intros b w2 H2. by transitivity w1.
Qed.

Lemma store_imask_own text w : total (store_imask text) (fun _ w' => same_own_paths w w') w.
Proof.
  unfold store_imask. apply own_then; [by intros; split|]. intros v w1. apply own_then; [|by intros; split].
  clear v w. destruct (CString.strncmp_eq text _ 5); [by intros; split|].
  destruct (CString.strncmp_eq text _ 3) at 1; [apply own_then; [apply bkl_own|by intros; split]|].
  apply own_then; [destruct (CString.strncmp_eq text _ 3); [apply bkl_own|by intros; split]|]. intros locked w2.
  destruct (istrue locked); [apply own_then; [apply bkl_own|by intros; split]|]. cbv zeta.
  apply own_then; [by intros; split|]. intros [] w3. apply own_then; [apply intsMask_own|by intros; split].
Qed.

Lemma own_inv w w' : sys_inv w -> same_own_paths w w' -> sys_inv w'.
Proof.
  intros Hs Ho. apply (sys_inv_same w); [done| | | |apply Ho].
  - by eapply inv_own; [apply Hs|].
  - destruct Ho as [Ho _]. unfold own in Ho. congruence.
  - destruct Ho as [Ho _]. unfold own in Ho. congruence.
Qed.

(** *** Open *)
Lemma path_added i_rdev p x w : sys_inv w -> paths w !! p = None -> rchAB x = (None, None) -> ab_next x = 0 ->
  minor x = MINOR i_rdev -> sys_inv (setf paths (insert p x) w).
Proof.
  intros Hs Hp Hr Hn Hm. constructor.
  - apply (inv_same w); try done; [apply Hs|]. intros q Hq. cbn.
    destruct (decide (q = p)) as [->|]; [rewrite lookup_insert_eq; by eexists|by rewrite lookup_insert_ne].
  - apply (si_idle w Hs).
  - intros q y b r Hy Hb Hab. cbn in Hy. destruct (decide (q = p)) as [->|].
    + rewrite lookup_insert_eq in Hy. injection Hy as <-. rewrite Hr in Hab. by destruct Hb as [-> | ->].
    + rewrite lookup_insert_ne in Hy by done. by apply (si_ab w Hs q y).
  - intros q y Hy. cbn in Hy. destruct (decide (q = p)) as [->|].
    + rewrite lookup_insert_eq in Hy. injection Hy as <-. rewrite Hn. by left.
    + rewrite lookup_insert_ne in Hy by done. by apply (si_turn w Hs q y).
  - intros r y q z Hq Hy Hyp Hz. cbn in Hz. destruct (decide (q = p)) as [->|].
    + destruct (di_queued _ (si_dev w Hs) r Hq) as (y' & Hy' & [_ _ (q & Hq' & [x0 Hx0]) _ _]).
      change (rchs w !! r = Some y) in Hy. congruence.
    + rewrite lookup_insert_ne in Hz by done. by apply (si_nodes w Hs r y q z).
Qed.

Lemma get_max_buf_outcome n w : outcome (get_max_buf get_free_pages n) (fun _ w' => w' = w)
  (fun f w' => f = KernelBug /\ w' = w /\ forall o, (o < n)%nat -> get_free_pages w (Z.of_nat o) = 0) w.
Proof.
  induction n as [|n IH]; cbn [get_max_buf]; [split; [done|split; [done|lia]]|].
  unfold outcome. erewrite bind_done by reflexivity. cbv beta zeta.
  destruct (Z.eqb_spec (get_free_pages w (Z.of_nat n)) 0) as [E|E]; cbn [negb]; [|done].
  eapply outcome_mono; [exact IH|done|]. intros f w' (-> & -> & Hall). split; [done|]. split; [done|].
  intros o Ho. destruct (decide (o = n)) as [->|]; [done|]. apply Hall. lia.
Qed.

Definition no_pages (f : Fault) (w' : World) : Prop :=
  f = KernelBug /\ forall o, 0 <= o <= acq200_AB_dmabuf_max_order (params w') -> get_free_pages w' o = 0.

Lemma alloc_AB set_buf w :
  (forall b, sys_inv (upd_dev (set_buf b) w)) -> sys_inv w ->
  outcome (alloc_max_buf get_free_pages dma_map_single set_buf (acq200_AB_dmabuf_max_order (params w)))
    (fun _ w' => sys_inv w' /\ paths w' = paths w /\ params w' = params w) no_pages w.
Proof.
  intros Hset Hs. unfold alloc_max_buf. eapply outcome_then.
  - eapply outcome_mono; [apply get_max_buf_outcome|intros a w' E; exact E|].
    intros f w' (-> & -> & Hall). split; [done|]. intros o Ho. rewrite <- (Z2Nat.id o) by lia. apply Hall. lia.
  - intros vo w' ->. unfold outcome. erewrite bind_done by reflexivity. by split.
Qed.

Lemma set_AB_inv (f : DmaBuf * DmaBuf -> DmaBuf * DmaBuf) w : sys_inv w -> sys_inv (upd_dev (setf AB f) w).
Proof. intros Hs. apply (sys_inv_same w); try done. apply (inv_same w); try done. apply Hs. Qed.

(** An update of a path that changes neither what it names nor whose turn it is. *)
Lemma sys_inv_upd f p x w : sys_inv w -> paths w !! p = Some x ->
  (minor (f x), rchAB (f x), ab_next (f x)) = (minor x, rchAB x, ab_next x) -> sys_inv (setf paths (alter f p) w).
Proof.
  intros Hs Hx [= Em Er En]. apply (sys_inv_paths w _ p); try done.
  - apply (inv_same w); try done; [apply Hs|]. intros q. cbn. apply alter_is_Some.
  - apply (si_idle w Hs).
  - apply aside_paths; [done|]. intros q Hne. by apply lookup_alter_ne.
  - intros x' Hx'. cbn in Hx'. rewrite lookup_alter_eq, Hx in Hx'. injection Hx' as <-. exists x.
    rewrite Em, Er, En. split; [done|]. split; [done|]. split; [apply (si_turn w Hs p x Hx)|]. split.
    + intros b r Hb Hr. by apply (si_ab w Hs p x).
    + intros (r & y & Hr & Hy & Hp). by apply (si_nodes w Hs r y p x).
Qed.

Lemma onOpen_safe p w : sys_inv w -> safe (onOpen p) (fun _ w' => sys_inv w') w.
Proof.
  intros Hs. unfold onOpen. apply safe_bind. pose proof (si_dev w Hs) as Hi.
  eapply safe_mono; [apply (down_spec clients_sem w w Hi (evolves_refl w Hi))|]. intros rc w1 [He _].
  pose proof (sys_inv_evolves w w1 Hs He) as Hs1. destruct (istrue rc); [done|]. unfold safe.
  erewrite bind_done by reflexivity. erewrite bind_done by reflexivity. cbv beta.
  destruct (_ =? 1); unfold acq200_onFirstClientOpenAB, kthread_run, modify, ret, up, get_world; cbn [bind];
    (apply (sys_inv_same w1); try done; apply (inv_same w1); try done; apply Hs1).
Qed.

Lemma openAB_inv file w : sys_inv w -> is_Some (paths w !! PD file) ->
  outcome (acq200_bridge_openAB get_free_pages dma_map_single file) (fun _ w' => sys_inv w') no_pages w.
Proof.
  intros Hs [x Hx]. unfold acq200_bridge_openAB, outcome. erewrite bind_done by by apply path_ref_eq.
  erewrite bind_done by reflexivity. cbv beta.
  eapply (outcome_then _ _ _ _ _ (fun _ w' => sys_inv w' /\ paths w' = paths w)).
  - destruct (_ =? 0); cbn [when]; [|by apply safe_outcome, safe_ret].
    eapply outcome_then; [apply alloc_AB; [intros b; by apply set_AB_inv|done]|]. intros [] w1 (Hs1 & Hp1 & Epar).
    rewrite <- Epar. eapply outcome_mono; [apply alloc_AB; [intros b; by apply set_AB_inv|done]| |done].
    intros [] w2 (Hs2 & Hp2 & _). split; [done|congruence].
  - intros [] w1 [Hs1 Hp1]. unfold outcome. erewrite bind_done by reflexivity. cbv beta.
    assert (paths w1 !! PD file = Some x) as Hx1 by (by rewrite Hp1).
    erewrite bind_done by by apply (path_upd_eq (PD file) x).
    apply safe_outcome, safe_bind. eapply safe_mono; [apply onOpen_safe; by apply (sys_inv_upd _ _ x)|].
    intros rc w2 Hs2. by apply safe_ret.
Qed.

Lemma open_inv i_rdev p w : sys_inv w -> enabled (Call_open i_rdev p) w ->
  outcome (acq200_open get_free_pages dma_map_single i_rdev (Some p)) (fun _ w' => sys_inv w')
    (known_fault (Call_open i_rdev p)) w.
Proof.
  intros Hs (Hmaj & Hfree). unfold acq200_open, outcome.
  erewrite bind_done.
  2:{ unfold acq200_lookup_device. erewrite bind_done by reflexivity. rewrite Hmaj, Z.eqb_refl. reflexivity. }
  erewrite bind_done.
  2:{ unfold acq200_createPath. erewrite bind_done by reflexivity. erewrite bind_done by reflexivity. reflexivity. }
  set (x := mkPath _ _ _ _ _ _ _ _ _ _ _ _). set (w0 := setf paths (insert p x) w).
  assert (sys_inv w0) as Hs0 by by apply (path_added i_rdev).
  assert (paths w0 !! p = Some x) as Hx by (cbn; apply lookup_insert_eq).
  erewrite bind_done by by apply path_ref_eq.
  change (minor x) with (MINOR i_rdev). destruct (newfops (MINOR i_rdev)) as [fops busy] eqn:Ef.
  eapply (outcome_then (if busy then _ else _) _ _ _ _ (fun _ w' => sys_inv w' /\ is_Some (paths w' !! p))).
  - apply safe_outcome. destruct busy; [|apply safe_ret; split; [done|by exists x]]. apply safe_bind.
    eapply safe_mono; [apply (down_spec AB_busy_sem w0 w0), evolves_refl; apply Hs0|].
    intros rc w1 [He _]. pose proof (sys_inv_evolves w0 w1 Hs0 He) as Hs1.
    destruct (same_path_is_Some _ _ (ev_paths _ _ He p) ltac:(by exists x)) as [y Hy].
    destruct (istrue rc); [apply safe_ret; split; [done|by exists y]|].
    unfold safe. erewrite bind_done by by apply (path_upd_eq p y). cbn [ret]. split; [by apply (sys_inv_upd _ _ y)|].
    cbn. apply alter_is_Some. by eexists.
  - intros rc w1 [Hs1 Hp1]. destruct (istrue rc); [by apply safe_outcome, safe_ret|].
    destruct (decide (fops = acq200_bridge_AB_fops)) as [E|]; [|by apply safe_outcome, safe_bind, safe_ret].
    eapply outcome_then.
    + eapply outcome_mono; [by apply (openAB_inv (mkFile p i_rdev))|intros ? ? Hs2; exact Hs2|].
      intros f w' [-> Hno]. cbn [known_fault]. by rewrite Ef.
    + intros rc' w2 Hs2. by apply safe_outcome, safe_ret.
Qed.

(** *** Reads and writes *)
Lemma bridge_or_not x : {bridge_node x} + {fops_of x <> acq200_bridge_fops /\ fops_of x <> acq200_bridge_AB_fops}.
Proof. unfold bridge_node. destruct (fops_of x); auto. Defined.

Lemma bigbuf_read_inv file buf count pos w : sys_inv w -> is_Some (paths w !! PD file) ->
  total (acq200_read file buf count pos) (fun _ w' => sys_inv w') w.
Proof.
  intros Hs [x Hx]. unfold acq200_read, total. erewrite bind_done by (by apply path_ref_eq).
  erewrite bind_done by reflexivity. cbv beta zeta. destruct (_ <? _); [|done]. destruct (_ <? 0); [done|].
  apply (total_bind (put_to_user _ _)). eapply total_mono; [by apply put_inv|]. intros f w1 Hs1. by destruct (istrue f).
Qed.

Lemma read_inv file ubuf count pos w : sys_inv w -> enabled (Call_read file ubuf count pos) w ->
  outcome (vfs_read file ubuf count pos) (fun _ w' => sys_inv w') (known_fault (Call_read file ubuf count pos)) w.
Proof.
  intros Hs (x & Hx & Hm & Hl). unfold vfs_read, outcome. erewrite bind_done by by apply path_ref_eq.
  assert (is_Some (paths w !! PD file)) as Hp by by exists x.
  destruct (fops_of x) eqn:Hf; try (by apply safe_outcome, total_safe, bigbuf_read_inv).
  - eapply outcome_mono; [apply read_generic_spec; [apply Hs|apply Hs|done]| |].
    + intros res w' [_ Hsv]. apply (sys_inv_served (PD file) x w); [done|done|by left|auto].
    + intros f w' Hft. destruct Hft as [r y w' ? ?|r y w' Hn]; [|by destruct Hn; apply Hm].
      split; [done|]. by exists r, y.
  - unfold acq200_bridge_readAB. unfold outcome. erewrite bind_done by (by apply path_ref_eq).
    erewrite bind_done by reflexivity. cbv beta.
    eapply outcome_mono; [apply read_own_spec; [apply Hs|apply Hs|done|by apply Hl]| |done].
    intros res w' [_ Hsv]. apply (sys_inv_served (PD file) x w); [done|done|by right|done].
Qed.

Lemma write_inv file ubuf count pos w : sys_inv w -> enabled (Call_write file ubuf count pos) w ->
  safe (vfs_write file ubuf count pos) (fun _ w' => sys_inv w') w.
Proof.
  intros Hs (x & Hx & Hm). unfold vfs_write, safe. erewrite bind_done by by apply path_ref_eq.
  assert (bridge_node x -> safe (acq200_bridge_write file ubuf count pos) (fun _ w' => sys_inv w') w) as Hw.
  { intros Hb. destruct (Hm Hb) as [Hfree Hc].
    pose proof (write_spec file ubuf pos w count Hc (si_dev w Hs) (si_idle w Hs) ltac:(by exists x)) as Ho.
    unfold outcome, safe in *. destruct (acq200_bridge_write file ubuf count pos w) as [res w'|f w'| |]; try done.
    - destruct Ho as [w' _ He|r y w1 Hn|r j w2 res w' Ha Hd]; [by apply (sys_inv_evolves w)|done|].
      apply (sys_inv_served (PD file) x w); [done..|].
      pose proof (acquired_served (PD file) w w2 r _ (si_idle w Hs) Ha) as Hsv.
      destruct Hd as [Hc0|m n msg y w' _ _ _ Hsv' _ _ _|m n msg y w' _ _ _ Hsv' _ _ _]; [done| |];
        (eapply served_trans; [done|apply Hsv', Hsv]).
    - by destruct Ho as [r y w' Hn]. }
  destruct (fops_of x) eqn:Hf; try done; apply Hw; [by left|by right].
Qed.

(** *** Ioctls, mappings, masks and closes *)
Lemma mbox_action_inv file arg act w : sys_inv w -> is_Some (paths w !! PD file) ->
  (forall mbc, safe (act mbc) (fun _ w' => sys_inv w') w) ->
  safe (acq200_mbox_ioctl file arg act) (fun _ w' => sys_inv w') w.
Proof.
  intros Hs [x Hx] Hact. unfold acq200_mbox_ioctl, safe. erewrite bind_done by by apply path_ref_eq.
  erewrite bind_done by reflexivity. cbv beta zeta. destruct (istrue (copy_fault _ _)); [done|].
  destruct (istrue (Z.land _ _)).
  - erewrite bind_done by by apply (path_upd_eq (PD file) x). by apply (sys_inv_upd _ _ x).
  - apply (safe_bind (act _)). eapply safe_mono; [apply Hact|]. intros [rc m] w1 Hs1.
    apply safe_bind, total_safe. eapply total_mono; [by apply put_inv|]. intros f w2 Hs2. by destruct (istrue f).
Qed.

Lemma log_irqops_inv o w : is_Some o -> sys_inv w -> safe (log_irqops o) (fun _ w' => sys_inv w') w.
Proof.
  intros [l ->] Hs. apply (sys_inv_same w _); try done. apply (inv_same w); try done. apply Hs.
Qed.

Lemma ioctl_inv file cmd arg w : sys_inv w -> is_Some (paths w !! PD file) ->
  safe (acq200_ioctl file cmd arg) (fun _ w' => sys_inv w') w.
Proof.
  intros Hs Hp. unfold acq200_ioctl. destruct (cmd =? ACQ200_MBOX_IOR).
  { apply mbox_action_inv; [done..|]. intros mbc. unfold acq200_ioctl_read_mbox, safe.
    destruct (read_boxes_done MBOX_NUM (MBC_FROM_MBXR mbc) mbc w) as (m & l & E). erewrite bind_done by exact E.
    apply (sys_inv_same w); try done. apply (inv_same w); try done. apply Hs. }
  destruct (cmd =? ACQ200_MBOX_IOWR).
  { apply mbox_action_inv; [done..|]. intros mbc. eapply safe_mono.
    - apply (wbr_mbox_safe mbc w w (si_dev w Hs)), evolves_refl, Hs.
    - intros ? w' He. by apply (sys_inv_evolves w). }
  destruct (cmd =? ACQ32_IOG_PCIREGS_OFFSET).
  { destruct Hp as [x Hx]. unfold safe. erewrite bind_done by by apply path_ref_eq. erewrite bind_done by reflexivity.
    cbv beta zeta. apply (safe_bind (put_to_user _ _)), total_safe. eapply total_mono; [by apply put_inv|]. done. }
  destruct (cmd =? ACQ32_IOS_INTS_DISABLE); [by apply log_irqops_inv; [apply ints_mask_ends|]|].
  destruct (cmd =? ACQ32_IOS_INTS_ENABLE); [by apply log_irqops_inv; [apply ints_mask_ends|]|]. by apply safe_ret.
Qed.

Lemma vfs_ioctl_inv file cmd arg w : sys_inv w -> is_Some (paths w !! PD file) ->
  outcome (vfs_ioctl file cmd arg) (fun _ w' => sys_inv w') (ab_fault file) w.
Proof.
  intros Hs [x Hx]. unfold vfs_ioctl, outcome. erewrite bind_done by by apply path_ref_eq.
  destruct (fops_of x) eqn:Hf; try (apply safe_outcome, ioctl_inv; [done|by exists x]); [done|].
  apply ioctlAB_spec. split; [done|]. exists x. split; [done|by right].
Qed.

Lemma mmap_inv file vma w : is_Some (paths w !! PD file) -> safe (vfs_mmap remap_pfn_range file vma) (fun _ w' => w' = w) w.
Proof.
  intros [x Hx]. unfold vfs_mmap, safe. erewrite bind_done by by apply path_ref_eq.
  destruct (fops_of x); try done;
    unfold acq200_mmap_host, acq200_mmap_llhost, acq200_mmap_mbox, acq200_mmapAB;
    by erewrite bind_done by by apply path_ref_eq.
Qed.

Lemma onRelease_inv p w : sys_inv w ->
  outcome (onRelease p) (fun _ w' => sys_inv w' /\ forall q, is_Some (paths w !! q) -> is_Some (paths w' !! q))
    (fun f w' => f = BadPointer /\ i2o_backstop (dev w') = task_error) w.
Proof.
  intros Hs. unfold onRelease. pose proof (si_dev w Hs) as Hi. eapply outcome_then.
  { apply safe_outcome, (down_spec clients_sem w w Hi (evolves_refl w Hi)). }
  intros rc w1 [He _]. pose proof (sys_inv_evolves w w1 Hs He) as Hs1.
  unfold outcome. erewrite bind_done by reflexivity. cbv beta.
  assert (forall f, sys_inv (upd_dev (setf i2o_backstop f) w1)) as Hset.
  { intros f. apply (sys_inv_same w1); try done. apply (inv_same w1); try done. apply Hs1. }
  assert (forall w2, sys_inv w2 -> paths w2 = paths w1 -> forall rc : Z,
    outcome (modify (upd_dev (setf clients_count (fun n => s32 (n - 1)))) >> up clients_sem >> ret rc)
      (fun _ w' => sys_inv w' /\ forall q, is_Some (paths w !! q) -> is_Some (paths w' !! q))
      (fun f w' => f = BadPointer /\ i2o_backstop (dev w') = task_error) w2) as Hend.
  { intros w2 Hs2 Ep rc'. unfold outcome. erewrite bind_done by reflexivity. erewrite bind_done by reflexivity. cbn [ret]. split.
    - apply (sys_inv_same w2); try done. apply (inv_same w2); try done. apply Hs2.
    - intros q Hq. change (is_Some (paths w2 !! q)). rewrite Ep. exact (same_path_is_Some _ _ (ev_paths _ _ He q) Hq). }
  eapply (outcome_then (if _ =? 1 then _ else _) _ _ _ _ (fun _ w2 => sys_inv w2 /\ paths w2 = paths w1)).
  - destruct (_ =? 1); [|done]. unfold acq200_onLastClientReleaseAB, outcome.
    erewrite bind_done by reflexivity. cbv beta. destruct (i2o_backstop (dev w1)) eqn:Et; cbn [kthread_stop];
      [by split; [apply Hset|]|by split; [apply Hset|]|done].
  - intros rc' w2 [Hs2 Ep]. by apply Hend.
Qed.

Lemma release_inv file w : sys_inv w -> is_Some (paths w !! PD file) ->
  outcome (vfs_release file) (fun _ w' => sys_inv w') (known_fault (Call_close file)) w.
Proof.
  intros Hs [x Hx]. unfold vfs_release, outcome. erewrite bind_done by by apply path_ref_eq.
  assert (fops_of x <> acq200_bridge_fops -> fops_of x <> acq200_bridge_AB_fops ->
    safe (acq200_release file) (fun _ w' => sys_inv w') w) as Hraw.
  { intros Hn1 Hn2. eapply safe_mono; [apply (release_safe (PD file) file w w eq_refl)|].
    - constructor; [apply Hs|apply Hs|by exists x|done|done|]. intros r Hr (y & Hy & Hyp).
      by destruct (si_nodes w Hs r y (PD file) x Hr Hy Hyp Hx).
    - intros rc w' [_ Hcl]. by apply (sys_inv_closed (PD file) w). }
  assert (forall w1, sys_inv w1 -> is_Some (paths w1 !! PD file) ->
    safe (acq200_bridge_release file) (fun _ w' => sys_inv w') w1) as Hbr.
  { intros w1 Hs1 Hp1. eapply safe_mono; [apply (bridge_release_spec (PD file) file _ w1 eq_refl); [apply Hs1..|done]|].
    intros rc w' [_ Hcl]. by apply (sys_inv_closed (PD file) w1). }
  destruct (fops_of x) eqn:Hf; try (by apply safe_outcome, Hraw).
  - apply safe_outcome, Hbr; [done|by exists x].
  - unfold acq200_bridge_releaseAB. eapply outcome_then; [apply (onRelease_inv _ _ Hs)|].
    intros rc w1 [Hs1 Hp1]. apply safe_outcome, Hbr; [done|]. apply Hp1. by exists x.
Qed.

Lemma call_outcome c w : sys_inv w -> enabled c w ->
  outcome (run_call c) (fun _ w' => sys_inv w') (known_fault c) w.
Proof.
  intros Hs He. destruct c as [e|i_rdev p|file ubuf count pos|file ubuf count pos|file cmd arg|file vma|file|text]; cbn [run_call].
  - apply safe_outcome, total_safe. eapply total_mono; [apply run_event_spec, Hs|]. intros ? ? Hev. by apply (sys_inv_evolves w).
  - by eapply outcome_ret; [apply open_inv|].
  - by eapply outcome_ret; [apply read_inv|].
  - by eapply outcome_ret; [eapply safe_outcome, write_inv|].
  - by eapply outcome_ret; [apply vfs_ioctl_inv|].
  - eapply outcome_ret; [by apply safe_outcome, mmap_inv|]. by intros ? ? ->.
  - by eapply outcome_ret; [apply release_inv|].
  - eapply outcome_ret; [apply safe_outcome, total_safe, store_imask_own|]. intros ? ?. by apply own_inv.
Qed.

Lemma step_inv w w' : sys_inv w -> step w w' -> sys_inv w'.
Proof.
  intros Hi [c He E]. pose proof (call_outcome c w Hi He) as Ho. unfold outcome in Ho. by rewrite E in Ho.
Qed.

Lemma reachable_inv w0 w : rtc step w0 w -> sys_inv w0 -> sys_inv w.
Proof. induction 1 as [w|w0 w1 w Hs _ IH]; [done|]. intros Hi. apply IH. by eapply step_inv. Qed.

(** C3: whatever calls the processes make on the nodes, and whatever the card and the other contexts do,
    in any order, from a device that was set up: every handler that waits for a reply is reserved and
    belongs to an open node of the bridge; no two of them hold the same mapping; a request that a path
    names for buffer A or B is queued for that very buffer; and neither a call nor an event faults,
    but for the four known faults. *)
Theorem reachable_safe w0 w : sys_inv w0 -> rtc step w0 w ->
  (forall r, r ∈ queued w -> exists y p x, rchs w !! r = Some y /\ rpath y = Some p /\
     paths w !! p = Some x /\ bridge_node x /\ is_reserved (handlers (dev w)) r = true) /\
  (forall r r' k, holds w r k -> holds w r' k -> r = r') /\
  (forall p x b r, paths w !! p = Some x -> is_AB b -> ab_get (rchAB x) b = Some r -> ab_request w p b r) /\
  forall c, enabled c w -> outcome (run_call c) (fun _ w' => step w w') (known_fault c) w.
Proof.
  intros Hi0 Hs. pose proof (reachable_inv w0 w Hs Hi0) as Hi. pose proof (si_dev w Hi) as Hd. split_and!.
  - intros r Hr. destruct (di_queued _ Hd r Hr) as (y & Hy & [_ _ (p & Hp & x & Hx) Hres _]). exists y, p, x.
    split_and!; try done. by apply (si_nodes w Hi r y p x).
  - apply Hd.
  - apply (si_ab w Hi).
  - intros c He. pose proof (call_outcome c w Hi He) as Ho. unfold outcome in *.
    destruct (run_call c w) as [[] w'| | |] eqn:E; try done. by econstructor.
Qed.
End System.

(** ** Opening and closing *)
Section OpenClose.
Context `{Platform}.
Context (get_free_pages : World -> Z -> Z) (dma_map_single : World -> Z -> Z).

(** C35: opening a node of a device, but for the buffers A and B, takes the busy semaphore exactly when the
    node's operations need it (every node but the raw ones), and closing it by the node's own table, which
    for the nodes of the bridge looks for queued requests of the path first, leaves everything as it was
    before. *)
Theorem open_close_restores i_rdev p w :
  dev_inv w -> major (dev w) = MAJOR i_rdev -> paths w !! p = None ->
  fst (newfops (MINOR i_rdev)) <> acq200_bridge_AB_fops ->
  (snd (newfops (MINOR i_rdev)) = true -> 0 < sem_get AB_busy_sem w) ->
  exists w1, acq200_open get_free_pages dma_map_single i_rdev (Some p) w =
      Done (0, Some (mkFile p i_rdev, fst (newfops (MINOR i_rdev)))) w1 /\
    sem_get AB_busy_sem w1 = sem_get AB_busy_sem w - Zbool (snd (newfops (MINOR i_rdev))) /\
    vfs_release (mkFile p i_rdev) w1 = Done 0 w.
Proof.
  intros Hi Hmaj Hp Hab Hsem.
  destruct (open_then_release get_free_pages dma_map_single i_rdev p w Hmaj Hp Hab Hsem)
    as (w1 & x & Ho & Hb & Hx & Hm & Hl & Hq & Hr & Hc).
  exists w1. split; [done|]. split; [done|]. unfold vfs_release. erewrite bind_done by by apply path_ref_eq.
  unfold fops_of. rewrite Hm. destruct (fst (newfops (MINOR i_rdev))); try done.
  unfold acq200_bridge_release, acq200_bridge_release_generic. erewrite bind_done by by apply path_ref_eq.
  cbv zeta. rewrite Hl. cbn [Z.eqb LDH_OUTBOUND LDH_INBOUND]. change (0 =? LDH_OUTBOUND) with false.
  change (0 =? LDH_INBOUND) with false. cbv iota. erewrite bind_done; [exact Hc|].
  apply cleanup_none. intros r Hr'. rewrite Hq in Hr'. destruct (di_queued _ Hi r Hr') as (y & Hy & [_ _ (q & Hqy & Hlive) _ _]).
  exists y. rewrite Hr. split; [done|]. intros E. cbn in E. assert (q = p) as -> by congruence. rewrite Hp in Hlive. by destruct Hlive.
Qed.
End OpenClose.
