(* ===== verification/HtStream.v ===== *)
(** * htstream.c: the program that streams from the buffers A and B

    It asks the driver for full buffers, works on them in turn, and gives them back with its next
    request; the data may go to a sequence of files of bounded length.

    What the driver answers to each ioctl is the input of the model, a list; so are the results of
    [open] and [write].  [exit] ends the run with its code. *)

From S2P Require Import Prelude BusProt StreamBuf Pool Device Rch I2o Isr Kernel Outer Owner Frames.
From S2P Require Import Sleep Mask Mailbox Path Bridge Acquire Requests BufferAB.

(** ** The output files *)
Record FILE_INFO := mkFileInfo {
  maxfile : Z;   (** unsigned *)
  nfiles : Z;   (** unsigned *)
  ifile : Z;
  fd : Z;
  oneshot : Z;
  f_pos : Z;   (** the offset in the open file *)
  f_opened : list Z   (** the numbers of the files opened, in their order *)
}.
#[export] Instance set_ifile : Setter ifile := fun f r => mkFileInfo (maxfile r) (nfiles r) (f (ifile r)) (fd r) (oneshot r) (f_pos r) (f_opened r).
#[export] Instance set_fd : Setter fd := fun f r => mkFileInfo (maxfile r) (nfiles r) (ifile r) (f (fd r)) (oneshot r) (f_pos r) (f_opened r).
#[export] Instance set_f_pos : Setter f_pos := fun f r => mkFileInfo (maxfile r) (nfiles r) (ifile r) (fd r) (oneshot r) (f (f_pos r)) (f_opened r).
#[export] Instance set_f_opened : Setter f_opened := fun f r => mkFileInfo (maxfile r) (nfiles r) (ifile r) (fd r) (oneshot r) (f_pos r) (f (f_opened r)).

Definition G_file : FILE_INFO := mkFileInfo 0x80000000 10000 0 (-1) 0 0 [].

Section Files.
(** the descriptor [open] gives for a file number; how much of a [write] is done *)
Context (open : Z -> Z) (write : Z -> Z).

(** The new state, or the code the program exits with. *)
Definition fileOpen (len : Z) (g : FILE_INFO) : FILE_INFO + Z :=
  if negb (fd g =? -1) && (u32 (f_pos g + len) <? maxfile g) then inl g
  else
    let g := g <| fd := open (ifile g) |> <| f_pos := 0 |>
               <| f_opened := f_opened g ++ [ifile g] |> in
    if fd g <=? 0 then inr (-1)
    else
      let g := g <| ifile := s32 (ifile g + 1) |> in
      if nfiles g <? u32 (ifile g) then
        if istrue (oneshot g) then inr 0 else inl (g <| ifile := 0 |>)
      else inl g.

Definition fileWork (index len : Z) (g : FILE_INFO) : FILE_INFO + Z :=
  match fileOpen len g with
  | inl g => inl (g <| f_pos := f_pos g + write len |>)
  | inr code => inr code
  end.

Fixpoint file_works (lens : list Z) (g : FILE_INFO) : FILE_INFO + Z :=
  match lens with
  | [] => inl g
  | len :: lens => match fileWork 0 len g with inl g => file_works lens g | inr code => inr code end
  end.
End Files.

(** ** The streaming loop *)
Record Client := mkClient {
  c_ops : BufferAB_Ops;
  c_next : Z;
  c_total : Z;
  c_syscalls : Z;
  c_timeouts : Z;
  c_started : bool;
  c_work : list (Z * Z)   (** the calls of [doWork]: buffer and length *)
}.
#[export] Instance set_c_ops : Setter c_ops := fun f r => mkClient (f (c_ops r)) (c_next r) (c_total r) (c_syscalls r) (c_timeouts r) (c_started r) (c_work r).
#[export] Instance set_c_next : Setter c_next := fun f r => mkClient (c_ops r) (f (c_next r)) (c_total r) (c_syscalls r) (c_timeouts r) (c_started r) (c_work r).
#[export] Instance set_c_total : Setter c_total := fun f r => mkClient (c_ops r) (c_next r) (f (c_total r)) (c_syscalls r) (c_timeouts r) (c_started r) (c_work r).
#[export] Instance set_c_syscalls : Setter c_syscalls := fun f r => mkClient (c_ops r) (c_next r) (c_total r) (f (c_syscalls r)) (c_timeouts r) (c_started r) (c_work r).
#[export] Instance set_c_timeouts : Setter c_timeouts := fun f r => mkClient (c_ops r) (c_next r) (c_total r) (c_syscalls r) (f (c_timeouts r)) (c_started r) (c_work r).
#[export] Instance set_c_started : Setter c_started := fun f r => mkClient (c_ops r) (c_next r) (c_total r) (c_syscalls r) (c_timeouts r) (f (c_started r)) (c_work r).
#[export] Instance set_c_work : Setter c_work := fun f r => mkClient (c_ops r) (c_next r) (c_total r) (c_syscalls r) (c_timeouts r) (c_started r) (f (c_work r)).

Definition INITIAL_TIMEOUT : Z := 24 * 3600 * 100.
Definition client0 : Client := mkClient (mkABOps 0 INITIAL_TIMEOUT 0 (0, 0) (0, 0)) BUFFERA 0 1 0 false [].

(** What the ioctl gives back: the request with its answer, or an error. *)
Inductive Answer :=
| AOps (rc : Z) (ops : BufferAB_Ops)   (** [rc >= 0] *)
| ATimeout   (** -1, [ETIMEDOUT] *)
| AError.   (** -1, another error *)

(** Work on the next buffer. *)
Definition client_work (c : Client) : Client :=
  let next := c_next c in
  let len := ab_get (ds_len (c_ops c)) next in
  c <| c_total := wrap 64 (c_total c + len) |>
    <| c_ops := (c_ops c) <| ci_recycle := Z.lor (ci_recycle (c_ops c)) (BUFFER_FLAG_LUT next) |> |>
    <| c_work := c_work c ++ [(next, s32 len)] |>
    <| c_next := Zbool (next =? 0) |>.

Definition next_is_full (c : Client) : bool :=
  istrue (Z.land (ds_full (c_ops c)) (BUFFER_FLAG_LUT (c_next c))).

Section Action.
Context (timeout MAXTO : Z).

(** The increment of the loop. *)
Definition client_again (c : Client) : Client :=
  c <| c_syscalls := s32 (c_syscalls c + 1) |> <| c_ops := (c_ops c) <| ci_timeout := u32 timeout |> |>.

(** One turn of the loop: the new state, and the result when the program is done. *)
Definition client_step (a : Answer) (c : Client) : Client * option Z :=
  match a with
  | AOps rc ops =>
      let c := c <| c_ops := ops |> <| c_timeouts := 0 |> <| c_started := true |> in
      let c := c <| c_ops := (c_ops c) <| ci_recycle := 0 |> |> in
      let c :=
        if next_is_full c then
          let c := client_work c in if next_is_full c then client_work c else c
        else c in
      if istrue (Z.land (ds_full (c_ops c)) FULL_EOF) then (c, Some 0) else (client_again c, None)
  | ATimeout =>
      if c_started c then
        let c := c <| c_timeouts := s32 (c_timeouts c + 1) |> in
        if MAXTO <=? c_timeouts c then (c, Some (-1)) else (client_again c, None)
      else (client_again c, None)
  | AError => (client_again c, None)
  end.

(** The requests sent, and how it ended; the program waits for ever when the answers run out. *)
Fixpoint action (answers : list Answer) (c : Client) : list BufferAB_Ops * Client * option Z :=
  match answers with
  | [] => ([], c, None)
  | a :: answers =>
      match client_step a c with
      | (c', Some rc) => ([c_ops c], c', Some rc)
      | (c', None) => let '(reqs, c'', rc) := action answers c' in (c_ops c :: reqs, c'', rc)
      end
  end.
End Action.

(** ** The client and the driver agree on the turn *)

(** What the driver reports in one ioctl: the full buffers in turn, from [next] on (BufferAB.v). *)
Definition driver_report (next : Z) (rr : Z -> RchReturn) (ops : BufferAB_Ops) : BufferAB_Ops :=
  fold_left (fun o b => report b (rr b) o) (in_turn 2 next (fun b => istrue (valid (rr b))))
    (ops <| ds_full := 0 |>).

Section Turns.
Context (timeout MAXTO : Z).

Lemma in_turn_range n next full b : next = BUFFERA \/ next = BUFFERB ->
  b ∈ in_turn n next full -> b = BUFFERA \/ b = BUFFERB.
Proof.
  revert next. induction n as [|n IH]; intros next Hn Hb; cbn [in_turn] in Hb; [by apply not_elem_of_nil in Hb|].
  destruct (full next); [|by apply not_elem_of_nil in Hb].
  apply elem_of_cons in Hb as [->|Hb]; [done|]. apply (IH (1 - next)); [|done].
  unfold BUFFERA, BUFFERB in *. lia.
Qed.

Lemma report_full b rr o : ds_full (report b rr o) =
  if nbytes rr =? 0 then Z.lor (Z.lor (ds_full o) (BUFFER_FLAG_LUT b)) FULL_EOF
  else Z.lor (ds_full o) (BUFFER_FLAG_LUT b).
Proof. done. Qed.

Lemma report_len b b' rr o : b = BUFFERA \/ b = BUFFERB -> b' = BUFFERA \/ b' = BUFFERB ->
  ab_get (ds_len (report b rr o)) b' = if b =? b' then u32 (nbytes rr) else ab_get (ds_len o) b'.
Proof. by intros [-> | ->] [-> | ->]. Qed.

(** What the report says: which buffers are in it, their lengths, whether one is empty. *)
Lemma report_says next rr ops : next = BUFFERA \/ next = BUFFERB ->
  let turn := in_turn 2 next (fun b => istrue (valid (rr b))) in
  let o := driver_report next rr ops in
  (forall b, b = BUFFERA \/ b = BUFFERB ->
    istrue (Z.land (ds_full o) (BUFFER_FLAG_LUT b)) = existsb (Z.eqb b) turn) /\
  (forall b, b = BUFFERA \/ b = BUFFERB -> existsb (Z.eqb b) turn = true ->
    ab_get (ds_len o) b = u32 (nbytes (rr b))) /\
  istrue (Z.land (ds_full o) FULL_EOF) = existsb (fun b => nbytes (rr b) =? 0) turn.
Proof.
  intros Hn. cbv zeta. unfold driver_report. cbn [in_turn].
  assert (ds_full (ops <| ds_full := 0 |>) = 0) as Hf by done.
  set (ops0 := ops <| ds_full := 0 |>) in *. clearbody ops0.
  destruct Hn as [-> | ->]; change (1 - BUFFERA) with BUFFERB; change (1 - BUFFERB) with BUFFERA;
    [destruct (istrue (valid (rr BUFFERA))); [destruct (istrue (valid (rr BUFFERB)))|]
    |destruct (istrue (valid (rr BUFFERB))); [destruct (istrue (valid (rr BUFFERA)))|]];
    cbn [fold_left]; rewrite ?report_full, ?Hf;
    (split; [|split]); try (intros b Hb; intros; rewrite ?report_len by auto);
    destruct (nbytes (rr BUFFERA) =? 0) eqn:EA, (nbytes (rr BUFFERB) =? 0) eqn:EB;
    try destruct Hb as [-> | ->]; cbn [existsb]; rewrite ?EA, ?EB; done.
Qed.

Lemma work_facts c : c_next c = BUFFERA \/ c_next c = BUFFERB ->
  c_work (client_work c) = c_work c ++ [(c_next c, s32 (ab_get (ds_len (c_ops c)) (c_next c)))] /\
  c_next (client_work c) = 1 - c_next c /\
  ci_recycle (c_ops (client_work c)) = Z.lor (ci_recycle (c_ops c)) (BUFFER_FLAG_LUT (c_next c)) /\
  ds_full (c_ops (client_work c)) = ds_full (c_ops c) /\
  ds_len (c_ops (client_work c)) = ds_len (c_ops c).
Proof. intros Hn. repeat split. change (c_next (client_work c)) with (Zbool (c_next c =? 0)).
  by destruct Hn as [-> | ->]. Qed.

(** The two tests of the loop find the buffers that are in turn. *)
Lemma work_in_turn c (full : Z -> bool) : c_next c = BUFFERA \/ c_next c = BUFFERB ->
  let turn := in_turn 2 (c_next c) full in
  (forall b, b = BUFFERA \/ b = BUFFERB ->
    istrue (Z.land (ds_full (c_ops c)) (BUFFER_FLAG_LUT b)) = existsb (Z.eqb b) turn) ->
  ci_recycle (c_ops c) = 0 ->
  let c' := if next_is_full c then
              let c := client_work c in if next_is_full c then client_work c else c else c in
  c_work c' = c_work c ++ ((fun b => (b, s32 (ab_get (ds_len (c_ops c)) b))) <$> turn) /\
  c_next c' = (if (length turn =? 1)%nat then 1 - c_next c else c_next c) /\
  ci_recycle (c_ops c') = foldr (fun b f => Z.lor (BUFFER_FLAG_LUT b) f) 0 turn /\
  ds_full (c_ops c') = ds_full (c_ops c).
Proof.
  intros Hn. cbv zeta. cbn [in_turn]. intros Hb Hr. unfold next_is_full.
  destruct (work_facts c Hn) as (E1 & E2 & E3 & E4 & E5).
  assert (1 - c_next c = BUFFERA \/ 1 - c_next c = BUFFERB) as Hn' by (unfold BUFFERA, BUFFERB in *; lia).
  destruct (work_facts (client_work c)) as (F1 & F2 & F3 & F4 & F5); [by rewrite E2|].
  rewrite E2, E4, !Hb by done.
  destruct (full (c_next c)); cbn [existsb]; rewrite ?Z.eqb_refl; cbn [orb].
  2:{ cbn. by rewrite app_nil_r. }
  destruct (full (1 - c_next c)); cbn [existsb fmap list_fmap length Nat.eqb foldr].
  - rewrite Z.eqb_refl, orb_true_r. rewrite F1, F2, F3, F4, E1, E2, E3, E4, E5, Hr, <- app_assoc.
    repeat split; [lia|]. by destruct Hn as [-> | ->].
  - assert ((1 - c_next c =? c_next c) = false) as -> by (apply Z.eqb_neq; lia). cbn [orb].
    rewrite E1, E2, E3, E4, Hr. repeat split. by destruct Hn as [-> | ->].
Qed.

(** C25: when the driver reports the full buffers in turn from the buffer the client expects, the
    client works on exactly these, in turn, with their lengths; asks for the same buffers to be
    recycled with its next request; expects the buffer after them; and stops at an empty one. *)
Theorem client_follows_driver c rr : c_next c = BUFFERA \/ c_next c = BUFFERB ->
  let turn := in_turn 2 (c_next c) (fun b => istrue (valid (rr b))) in
  let '(c', stop) := client_step timeout MAXTO (AOps 0 (driver_report (c_next c) rr (c_ops c))) c in
  c_work c' = c_work c ++ ((fun b => (b, s32 (u32 (nbytes (rr b))))) <$> turn) /\
  c_next c' = (if (length turn =? 1)%nat then 1 - c_next c else c_next c) /\
  ci_recycle (c_ops c') = foldr (fun b f => Z.lor (BUFFER_FLAG_LUT b) f) 0 turn /\
  stop = if existsb (fun b => nbytes (rr b) =? 0) turn then Some 0 else None.
Proof.
  intros Hn turn. pose proof (report_says (c_next c) rr (c_ops c) Hn) as (Hf & Hl & He).
  cbn [client_step]. set (R := driver_report _ _ _) in *.
  set (c1 := setf c_ops (fun _ => setf ci_recycle _ _) _).
  destruct (work_in_turn c1 (fun b => istrue (valid (rr b))) Hn Hf eq_refl) as (E1 & E2 & E3 & E4).
  set (c2 := if next_is_full c1 then _ else c1) in *.
  rewrite E4. change (ds_full (c_ops c1)) with (ds_full R). rewrite He.
  change (c_next c1) with (c_next c) in *. fold turn in E1, E2, E3 |- *.
  assert ((fun b => (b, s32 (ab_get (ds_len (c_ops c1)) b))) <$> turn =
          (fun b => (b, s32 (u32 (nbytes (rr b))))) <$> turn) as Ew.
  { apply list_fmap_ext. intros i b Hb. change (ds_len (c_ops c1)) with (ds_len R).
    rewrite (Hl b); [done| |].
    - apply list_elem_of_lookup_2 in Hb. by apply in_turn_range in Hb.
    - apply existsb_exists. exists b. rewrite Z.eqb_refl. split; [|done].
      apply list_elem_of_In. by eapply list_elem_of_lookup_2. }
  rewrite Ew in E1. destruct (existsb _ turn); by repeat split.
Qed.

Definition alternating (n : nat) : list Z := (fun k => Z.of_nat (k mod 2)) <$> seq 0 n.

Definition in_step (c : Client) : Prop :=
  fst <$> c_work c = alternating (length (c_work c)) /\
  c_next c = Z.of_nat (length (c_work c) mod 2).

Lemma alternating_S n : alternating (S n) = alternating n ++ [Z.of_nat (n mod 2)].
Proof. unfold alternating. by rewrite seq_S, fmap_app. Qed.

Lemma work_in_step c : in_step c -> in_step (client_work c).
Proof.
  intros [Hw Hn]. unfold in_step. change (c_work (client_work c)) with
    (c_work c ++ [(c_next c, s32 (ab_get (ds_len (c_ops c)) (c_next c)))]).
  change (c_next (client_work c)) with (Zbool (c_next c =? 0)).
  rewrite length_app, fmap_app. cbn [length fmap list_fmap fst]. rewrite Nat.add_1_r, alternating_S, Hw, Hn.
  split; [done|]. set (n := length (c_work c)).
  assert (S n mod 2 = 1 - n mod 2)%nat as ->.
  { pose proof (Nat.div_mod_eq n 2). pose proof (Nat.div_mod_eq (S n) 2).
    pose proof (Nat.mod_upper_bound n 2). pose proof (Nat.mod_upper_bound (S n) 2). lia. }
  pose proof (Nat.mod_upper_bound n 2).
  destruct (n mod 2)%nat as [|[|m]]; [done|done|lia].
Qed.

Lemma step_in_step a c : in_step c -> in_step (fst (client_step timeout MAXTO a c)).
Proof.
  intros Hc. destruct a as [rc ops| |]; cbn [client_step].
  - set (c1 := setf c_ops _ (setf c_started _ _)).
    assert (in_step c1) as H1 by exact Hc.
    set (c2 := if next_is_full c1 then _ else c1).
    assert (in_step c2) as H2.
    { subst c2. destruct (next_is_full c1); [|done].
      destruct (next_is_full (client_work c1)); repeat apply work_in_step; done. }
    destruct (istrue _); exact H2.
  - destruct (c_started c); [|exact Hc]. destruct (_ <=? _); exact Hc.
  - exact Hc.
Qed.

Lemma action_in_step answers c : in_step c -> in_step (snd (fst (action timeout MAXTO answers c))).
Proof.
  revert c. induction answers as [|a answers IH]; intros c Hc; [exact Hc|].
  cbn [action]. pose proof (step_in_step a c Hc) as H1.
  destruct (client_step timeout MAXTO a c) as [c1 [rc|]]; [exact H1|].
  specialize (IH c1 H1). by destruct (action timeout MAXTO answers c1) as [[reqs c2] rc].
Qed.

(** Whatever the driver answers, timeouts and errors included, the client works on the buffers in
    strict alternation, beginning with A. *)
Theorem client_alternates answers :
  let c := snd (fst (action timeout MAXTO answers client0)) in
  fst <$> c_work c = alternating (length (c_work c)).
Proof. apply (action_in_step answers client0). done. Qed.

(** A request that timed out is repeated with the recycle flags it had, although the driver
    already gave those buffers back: the repeated request makes it give back the handler it has
    queued for the buffer since, and the card's reply to it is lost. *)
Theorem timeout_recycles_again `{Platform} c file w p r x :
  c_started c = false \/ s32 (c_timeouts c + 1) < MAXTO ->
  ci_recycle (c_ops c) = BUFFER_A_FLAG ->
  dev_inv w -> paths w !! PD file = Some p -> fst (rchAB p) = Some r -> r ∈ queued w ->
  rchs w !! r = Some x ->
  exists c' w', client_step timeout MAXTO ATimeout c = (c', None) /\
    acq200_bufferABrecycle file (c_ops c') w = Done tt w' /\
    r ∉ queued w' /\ fst <$> (rchAB <$> paths w' !! PD file) = Some None.
Proof.
  intros Ht Hr Hinv Hp Hab Hq Hx.
  exists (fst (client_step timeout MAXTO ATimeout c)).
  assert (client_step timeout MAXTO ATimeout c =
    (fst (client_step timeout MAXTO ATimeout c), None)) as Es.
  { cbn [client_step]. destruct (c_started c); [|done]. destruct Ht as [?|Ht]; [done|].
    cbn [c_timeouts setf set_c_timeouts]. by rewrite (proj2 (Z.leb_gt _ _) Ht). }
  assert (ci_recycle (c_ops (fst (client_step timeout MAXTO ATimeout c))) = BUFFER_A_FLAG) as Hr'.
  { rewrite <- Hr. cbn [client_step]. destruct (c_started c); [|done].
    by destruct (MAXTO <=? _). }
  set (c' := fst (client_step timeout MAXTO ATimeout c)) in *.
  pose proof (recycle_queued w r x Hinv Hq Hx) as Er.
  destruct (qo_path _ _ _ (queued_facts w r x Hinv Hq Hx)) as (q & Hq0 & _).
  destruct (recycled_facts r x w (ex_intro _ q Hq0)) as (_ & _ & _ & _ & Hpe).
  assert (paths (recycled r x w) !! PD file = Some p) as Hp' by (by rewrite Hpe).
  exists (setf paths (alter (fun p => p <| rchAB := ab_set (rchAB p) BUFFERA None |>) (PD file))
            (recycled r x w)).
  split; [exact Es|]. split; [|split].
  - unfold acq200_bufferABrecycle. rewrite Hr'.
    change (istrue (Z.land BUFFER_A_FLAG BUFFER_A_FLAG)) with true.
    change (istrue (Z.land BUFFER_A_FLAG BUFFER_B_FLAG)) with false. unfold when, _recycle.
    erewrite bind_done; [reflexivity|].
    erewrite bind_done by (by apply path_ref_eq). change (ab_get (rchAB p) BUFFERA) with (fst (rchAB p)).
    rewrite Hab. erewrite bind_done by exact Er. by apply (path_upd_eq _ p).
  - change (queued (setf paths _ _)) with (queued (recycled r x w)).
    intros Hin%(recycled_queued w r x Hinv Hq Hx). tauto.
  - cbn [paths setf set_paths]. rewrite lookup_alter_eq, Hp'. done.
Qed.
End Turns.

(** ** The sequence of files *)
Section FileSequence.
Context (open write : Z -> Z).

(** No output file grows past the limit, when a buffer is shorter than the limit. *)
Theorem files_bounded lens g g' : 0 < maxfile g <= 2 ^ 31 ->
  Forall (fun len => 0 <= len < maxfile g /\ 0 <= write len <= len) lens ->
  0 <= f_pos g < maxfile g -> file_works open write lens g = inl g' ->
  0 <= f_pos g' < maxfile g.
Proof.
  intros Hm Hl. revert g Hm Hl. induction lens as [|len lens IH]; intros g Hm Hl Hp E.
  - by injection E as <-.
  - cbn [file_works] in E. apply Forall_cons in Hl as [[Hl Hw] Hls].
    unfold fileWork in E. destruct (fileOpen open len g) as [g1|code] eqn:Eo; [|done].
    assert (maxfile g1 = maxfile g /\ 0 <= f_pos g1 /\ f_pos g1 + write len < maxfile g) as (Em & H0 & H1).
    { unfold fileOpen in Eo. destruct (negb _ && _) eqn:Eb.
      - injection Eo as <-. apply andb_true_iff in Eb as [_ Eb]. apply Z.ltb_lt in Eb.
        rewrite u32_id in Eb by lia. lia.
      - destruct (fd _ <=? 0); [done|]. destruct (nfiles _ <? _); [destruct (istrue _); [done|]|];
          injection Eo as <-; cbn; lia. }
    set (g2 := g1 <| f_pos := f_pos g1 + write len |>) in *.
    assert (maxfile g2 = maxfile g /\ f_pos g2 = f_pos g1 + write len) as [E2 E3] by done.
    specialize (IH g2). rewrite E2, E3 in IH. apply IH; [done|done|lia|done].
Qed.

(** Without the one-shot flag the program writes files 0 up to [nfiles], then starts again at 0:
    one more file than [nfiles] says. *)
Theorem files_cycle lens g' n : (forall i, 0 < open i) -> 0 <= n < 2 ^ 31 - 1 ->
  file_works open write lens (mkFileInfo 0x80000000 n 0 (-1) 0 0 []) = inl g' ->
  f_opened g' = (fun k => Z.of_nat k mod (n + 1)) <$> seq 0 (length (f_opened g')).
Proof.
  intros Ho Hn.
  enough (forall g, (f_opened g = (fun k => Z.of_nat k mod (n + 1)) <$> seq 0 (length (f_opened g)) /\
      ifile g = Z.of_nat (length (f_opened g)) mod (n + 1) /\ nfiles g = n /\ oneshot g = 0) ->
    file_works open write lens g = inl g' ->
    f_opened g' = (fun k => Z.of_nat k mod (n + 1)) <$> seq 0 (length (f_opened g'))) as E
    by (apply E; done).
  induction lens as [|len lens IH]; intros g (H1 & H2 & H3 & H4) E; [by injection E as <-|].
  cbn [file_works] in E. unfold fileWork in E.
  destruct (fileOpen open len g) as [g1|code] eqn:Eo; [|done].
  apply (IH (g1 <| f_pos := f_pos g1 + write len |>)); [|exact E].
  change (f_opened (g1 <| f_pos := f_pos g1 + write len |>)) with (f_opened g1).
  unfold fileOpen in Eo. destruct (negb _ && _); [by injection Eo as <-|].
  cbn [fd setf set_fd set_f_pos set_f_opened] in Eo.
  destruct (Z.leb_spec (open (ifile g)) 0); [specialize (Ho (ifile g)); lia|].
  pose proof (Z.mod_pos_bound (Z.of_nat (length (f_opened g))) (n + 1) ltac:(lia)).
  cbn [ifile nfiles setf set_fd set_f_pos set_f_opened set_ifile oneshot] in Eo.
  rewrite H3, H4, s32_id, u32_id in Eo by (rewrite ?s32_id; lia).
  change (istrue 0) with false in Eo.
  assert (forall m, Z.of_nat (length (f_opened g ++ [ifile g])) mod (n + 1) = m <->
            (ifile g + 1) mod (n + 1) = m) as Hmod.
  { intros m. rewrite length_app, H2. cbn [length]. rewrite Nat2Z.inj_add. change (Z.of_nat 1) with 1.
    by rewrite Zplus_mod_idemp_l. }
  assert (f_opened g ++ [ifile g] = (fun k => Z.of_nat k mod (n + 1)) <$>
            seq 0 (length (f_opened g ++ [ifile g]))) as Hop.
  { rewrite length_app. cbn [length]. rewrite Nat.add_1_r, seq_S, fmap_app, <- H1, H2. done. }
  destruct (Z.ltb_spec n (ifile g + 1)); injection Eo as <-; cbn -[Z.of_nat].
  - repeat split; [exact Hop| |done|done]. symmetry. apply Hmod.
    replace (ifile g + 1) with (n + 1) by lia. apply Z.mod_same. lia.
  - repeat split; [exact Hop| |done|done]. symmetry. apply Hmod. apply Z.mod_small. lia.
Qed.
End FileSequence.
