(* ===== verification/Hw.v ===== *)
(** * hw.c: how large a buffer the kernel has

    A module that, when it is loaded, twice takes the largest block of pages it can get and prints
    what it found.  Which blocks the kernel has, given those that were taken, is a parameter. *)

From Stdlib Require Import String.
From S2P Require Import Prelude CString.

Record Hw := mkHw {
  blocks : list (Z * Z);   (** address and order of the blocks taken *)
  klog : list (list Z)   (** lines printed *)
}.

Section Hw.
(** [__get_free_pages], 0 when there is no such block *)
Context (get_free_pages : list (Z * Z) -> Z -> Z).

Definition line_of (order : Z) (result : string) : list Z :=
  replicate (2 - length (fmt_d order)) 32 ++ fmt_d order ++ chars " [0x" ++
  fmt_08x (Z.shiftl 1 order * 4096) ++ chars " bytes] " ++ chars result ++ [newline].

(** [for (order = n; order >= 0; --order)] *)
Fixpoint max_loop (n : nat) (h : Hw) : Hw :=
  let order := Z.of_nat n in
  let buf := get_free_pages (blocks h) order in
  if istrue buf then mkHw (blocks h ++ [(buf, order)]) (klog h ++ [line_of order "SUCCESS"])
  else
    let h := mkHw (blocks h) (klog h ++ [line_of order "FAIL"]) in
    match n with
    | O => h
    | S n => max_loop n h
    end.
Definition get_max (h : Hw) : Hw := max_loop 12 h.

Definition hello_init (h : Hw) : Hw * Z :=
  let h := mkHw (blocks h) (klog h ++ [chars "Hello World" ++ [newline]]) in
  (get_max (get_max h), 0).
Definition hello_exit (h : Hw) : Hw := mkHw (blocks h) (klog h ++ [chars "Ciao" ++ [newline]]).

(** ** What is taken *)

(** The largest order up to [n] of which there is a block. *)
Definition largest (taken : list (Z * Z)) (n k : nat) : Prop :=
  (k <= n)%nat /\ get_free_pages taken (Z.of_nat k) <> 0 /\
  forall i, (k < i <= n)%nat -> get_free_pages taken (Z.of_nat i) = 0.

Lemma max_loop_spec n h : exists lines,
  klog (max_loop n h) = klog h ++ lines /\
  ((exists k, largest (blocks h) n k /\
      blocks (max_loop n h) = blocks h ++ [(get_free_pages (blocks h) (Z.of_nat k), Z.of_nat k)] /\
      lines = ((fun i => line_of (Z.of_nat i) "FAIL") <$> rev (seq (S k) (n - k))) ++ [line_of (Z.of_nat k) "SUCCESS"])
   \/ ((forall i, (i <= n)%nat -> get_free_pages (blocks h) (Z.of_nat i) = 0) /\
      blocks (max_loop n h) = blocks h)).
Proof.
  assert (forall n b l, istrue (get_free_pages b (Z.of_nat n)) = true ->
    klog (max_loop n (mkHw b l)) = l ++ [line_of (Z.of_nat n) "SUCCESS"] /\
    blocks (max_loop n (mkHw b l)) = b ++ [(get_free_pages b (Z.of_nat n), Z.of_nat n)]) as Hyes.
  { intros [|m] b l E; cbn [max_loop blocks]; cbv zeta; by rewrite E. }
  destruct h as [b l]. cbn [blocks klog]. revert l. induction n as [|n IH]; intros l;
    match goal with |- context [max_loop ?m _] =>
      destruct (istrue (get_free_pages b (Z.of_nat m))) eqn:E;
        [destruct (Hyes m b l E) as [-> ->]; eexists; split; [done|]; left; exists m;
         unfold istrue in E; apply negb_true_iff, Z.eqb_neq in E;
         split; [split; [lia|]; split; [done|lia]|]; split; [done|]; by rewrite Nat.sub_diag
        |cbn [max_loop blocks klog]; cbv zeta; rewrite E; unfold istrue in E;
         apply negb_false_iff, Z.eqb_eq in E] end.
  - eexists. split; [done|]. right. split; [|done]. intros i Hi. by replace i with 0%nat by lia.
  - destruct (IH (l ++ [line_of (Z.of_nat (S n)) "FAIL"])) as (lines & El & H). rewrite El.
    eexists. rewrite <- app_assoc. split; [done|]. destruct H as [(k & (Hk & Hne & Hno) & Hb & Hlines)|[Hno Hb]].
    + left. exists k. split; [split; [lia|]; split; [done|]|].
      * intros i Hi. destruct (decide (i = S n)) as [->|]; [done|]. apply Hno. lia.
      * split; [done|]. rewrite Hlines. replace (S n - k)%nat with (S (n - k)) by lia.
        rewrite seq_S, rev_app_distr. cbn [rev app fmap list_fmap]. do 4 f_equal. lia.
    + right. split; [|done]. intros i Hi. destruct (decide (i = S n)) as [->|]; [done|]. apply Hno. lia.
Qed.

(** Loading the module takes the largest block there is, of at most 4096 pages, and then the largest
    that is left; unloading it gives neither back. *)
Theorem hello_keeps_pages h k1 k2 : largest (blocks h) 12 k1 ->
  let b1 := blocks h ++ [(get_free_pages (blocks h) (Z.of_nat k1), Z.of_nat k1)] in
  largest b1 12 k2 ->
  blocks (hello_exit (fst (hello_init h))) = b1 ++ [(get_free_pages b1 (Z.of_nat k2), Z.of_nat k2)].
Proof.
  assert (forall taken k k', largest taken 12 k -> largest taken 12 k' -> k = k') as Huniq.
  { intros t k k' (H1 & H2 & H3) (H1' & H2' & H3'). destruct (Nat.lt_trichotomy k k') as [?|[?|?]]; [|done|].
    - by rewrite H3 in H2' by lia.
    - by rewrite H3' in H2 by lia. }
  intros H1 b1 H2. unfold hello_init, hello_exit, get_max. cbn [fst blocks].
  set (h0 := mkHw _ _). destruct (max_loop_spec 12 h0) as (l1 & _ & [(k & Hk & Hb & _)|[Hno _]]).
  2:{ destruct H1 as (Hle & Hne & _). by rewrite Hno in Hne. }
  rewrite (Huniq (blocks h) k k1 Hk H1) in Hb. change (blocks h0) with (blocks h) in Hb. fold b1 in Hb.
  destruct (max_loop_spec 12 (max_loop 12 h0)) as (l2 & _ & [(k' & Hk' & Hb' & _)|[Hno _]]); rewrite Hb in *.
  - by rewrite (Huniq b1 k' k2 Hk' H2) in Hb'.
  - destruct H2 as (Hle & Hne & _). by rewrite Hno in Hne.
Qed.
End Hw.
