(* ===== verification/IntTest.v ===== *)
(** * int-disable-test.c: interrupt lines masked for a test

    The program writes a mask to the device's attribute, runs a test, and writes the mask of zeros.
    The kernel counts how often a line is disabled: a line is served again when it was enabled as
    often as it was disabled.  What a change of the mask does to that count of each line is stated
    here, and that the test leaves all counts as they were.

    The commands the program runs and the delay loops are a list of actions; of these only the writes
    to the attribute reach the driver. *)

From Stdlib Require Import String.
From S2P Require Import Prelude CString Stdio Local BusProt StreamBuf Pool Device Mask Sysfs.

(** ** The program *)
Inductive Act :=
| Act_system (command : list Z)
| Act_loop (loopcount : Z)   (** [test_loop] *)
| Act_store (knob text : list Z).   (** the file is opened, the text is written, and it is closed *)

Definition IRQ_MASK (slot : Z) : list Z := chars "/dev/acq200/acq200." ++ fmt_d slot ++ chars ".imask".
Definition NOMASK : list Z := chars "00000000".
Definition KNOB_SIZE : nat := 80.
Definition COMMAND_SIZE : nat := 256.

Definition set_mask (slot : Z) (mask : list Z) : Act := Act_store (IRQ_MASK slot) (mask ++ [newline]).

Definition dump_command (mask id : list Z) : list Z :=
  chars "cp /proc/interrupts irqstat." ++ mask ++ chars "." ++ id.

(** [None] when [sprintf] writes past the end of [command]. *)
Definition dump_state (mask id : list Z) : option Act :=
  let command := dump_command mask id in
  if (COMMAND_SIZE <=? length command)%nat then None else Some (Act_system command).

Definition run_test (loopcount : Z) (mask : list Z) : option (list Act) :=
  match dump_state mask (chars "before"), dump_state mask (chars "after") with
  | Some before, Some after => Some [before; Act_loop loopcount; after]
  | _, _ => None
  end.

(** The settings: slot, mask and loop count; or the code of [exit]; [None] when the assertion on the
    slot fails. *)
Definition init_defaults (slot_env : option (list Z)) (args : list (list Z))
    : option (Z * list Z * Z + Z) :=
  let slot := match slot_env with Some v => atoi v | None => 2 end in
  if (match slot_env with Some _ => negb (IN_RANGE slot 2 10) | None => false end) then None
  else
    match args with
    | [] => Some (inr 1)
    | [mask] => Some (inl (slot, mask, 1))
    | mask :: count :: _ => Some (inl (slot, mask, atoi count))
    end.

Definition test_main (slot : Z) (mask : list Z) (loopcount : Z) : option (list Act) :=
  match run_test loopcount NOMASK, run_test loopcount mask with
  | Some first, Some second => Some (first ++ [set_mask slot mask] ++ second ++ [set_mask slot NOMASK])
  | _, _ => None
  end.

(** What reaches the driver. *)
Definition run_act `{Platform} (a : Act) : MW unit :=
  match a with
  | Act_store _ text => let* _ := store_imask text in ret tt
  | _ => ret tt
  end.
Fixpoint run_acts `{Platform} (l : list Act) : MW unit :=
  match l with
  | [] => ret tt
  | a :: l => run_act a >> run_acts l
  end.

(** ** How often a line is disabled *)
Definition op_net (irq : Z) (o : IrqOp) : Z :=
  match o with
  | disable_irq_nosync i => if i =? irq then 1 else 0
  | enable_irq i => if i =? irq then -1 else 0
  | _ => 0
  end.
Definition net (irq : Z) (ops : list IrqOp) : Z := foldr (fun o d => op_net irq o + d) 0 ops.

Lemma net_app irq l l' : net irq (l ++ l') = net irq l + net irq l'.
Proof.
  induction l as [|o l IH]; [done|]. change (net irq ((o :: l) ++ l')) with (op_net irq o + net irq (l ++ l')).
  change (net irq (o :: l)) with (op_net irq o + net irq l). lia.
Qed.

(** The change of a line's count when bit [old] becomes bit [new]. *)
Definition bit_net (new old : bool) : Z := if new then 1 else if old then -1 else 0.

Lemma net_line_ops new active base irq : base <= irq < base + 4 ->
  net irq (line_ops new active base) = bit_net (Z.testbit new (irq - base)) (Z.testbit active (irq - base)).
Proof.
  intros Hi. unfold line_ops. cbn [flat_map]. rewrite !net_app.
  assert (forall k, net irq (if Z.testbit new k then [disable_irq_nosync (base + k)]
    else if Z.testbit active k then [enable_irq (base + k)] else []) =
    if irq - base =? k then bit_net (Z.testbit new k) (Z.testbit active k) else 0) as Hk.
  { intros k. destruct (Z.eqb_spec (irq - base) k) as [E|E]; unfold bit_net;
      (destruct (Z.testbit new k); [|destruct (Z.testbit active k)]); cbn [net foldr op_net];
      try (rewrite (proj2 (Z.eqb_eq (base + k) irq)) by lia); try done;
      rewrite (proj2 (Z.eqb_neq (base + k) irq)) by lia; done. }
  rewrite !Hk. change (net irq []) with 0.
  assert (irq - base = 0 \/ irq - base = 1 \/ irq - base = 2 \/ irq - base = 3) as Hc by lia.
  destruct Hc as [E|[E|[E|E]]]; rewrite E; cbn [Z.eqb Pos.eqb]; lia.
Qed.

Lemma net_line_ops_other new active base irq : ~ (base <= irq < base + 4) ->
  net irq (line_ops new active base) = 0.
Proof.
  intros Hi. unfold line_ops. cbn [flat_map]. rewrite !net_app. change (net irq []) with 0.
  assert (forall k, 0 <= k < 4 -> net irq (if Z.testbit new k then [disable_irq_nosync (base + k)]
    else if Z.testbit active k then [enable_irq (base + k)] else []) = 0) as Hk.
  { intros k Hk. destruct (Z.testbit new k); [|destruct (Z.testbit active k)]; cbn [net foldr op_net];
      try done; rewrite (proj2 (Z.eqb_neq (base + k) irq)) by lia; done. }
  rewrite !Hk by lia. lia.
Qed.

Lemma net_digits new old n irq : 0 <= irq < 4 * Z.of_nat n ->
  net irq (flat_map (fun k => line_ops (new k) (old k) (4 * Z.of_nat k)) (seq 0 n)) =
  bit_net (Z.testbit (new (Z.to_nat (irq / 4))) (irq mod 4)) (Z.testbit (old (Z.to_nat (irq / 4))) (irq mod 4)).
Proof.
  induction n as [|n IH]; intros Hi; [lia|]. rewrite seq_S, flat_map_app, net_app. cbn [flat_map app].
  rewrite app_nil_r, Nat.add_0_l. pose proof (Z.div_mod irq 4 ltac:(lia)). pose proof (Z.mod_pos_bound irq 4 ltac:(lia)).
  destruct (Z.lt_ge_cases irq (4 * Z.of_nat n)) as [Hlt|Hge].
  - rewrite IH by lia. rewrite net_line_ops_other by lia. lia.
  - assert (irq / 4 = Z.of_nat n) as E by lia.
    rewrite E, Nat2Z.id, net_line_ops by lia. replace (irq mod 4) with (irq - 4 * Z.of_nat n) by lia.
    enough (net irq (flat_map (fun k => line_ops (new k) (old k) (4 * Z.of_nat k)) (seq 0 n)) = 0) by lia.
    clear IH Hi E. assert (forall l, Forall (fun k => (k < n)%nat) l ->
      net irq (flat_map (fun k => line_ops (new k) (old k) (4 * Z.of_nat k)) l) = 0) as Hl.
    { induction 1 as [|k l Hk _ IHl]; [done|]. cbn [flat_map].
      rewrite net_app, IHl, net_line_ops_other by lia. lia. }
    apply Hl. apply Forall_forall. intros k Hk%elem_of_seq. lia.
Qed.

(** ** A change of the mask *)
Section Change.
Context `{Platform}.
Context (n : nat).

(** What the mask string [s] says of a line, and whether this driver has it disabled. *)
Definition line_bit (s : list Z) (irq : Z) : bool :=
  Z.testbit (digit_from_end s (Z.to_nat (irq / 4))) (irq mod 4).
Definition disabled (w : World) (irq : Z) : bool :=
  Z.testbit (nth (n - 1 - Z.to_nat (irq / 4)) (imask_a (dev w)) 0) (irq mod 4).

(** The state in which masks are set: no debugging stub, nobody in the big lock. *)
Record masks_ok (w : World) : Prop := {
  mo_debug : acq200_debug (params w) <= 2;
  mo_length : (n <= length (imask_a (dev w)))%nat;
  mo_digits : forall i, (i < n)%nat -> 0 <= nth i (imask_a (dev w)) 0 < 16;
  mo_bkl : bkl_is_locked (dev w) = 0
}.

Context (HN : NR_IRQS = 4 * Z.of_nat n).

Definition mask_changed (s : list Z) (w w' : World) : Prop :=
  masks_ok w' /\ forall irq, 0 <= irq < NR_IRQS ->
    net irq (irqops w') = net irq (irqops w) + bit_net (line_bit s irq) (disabled w irq) /\
    disabled w' irq = line_bit s irq.

Lemma digit_from_end_range s k : 0 <= digit_from_end s k < 16.
Proof. unfold digit_from_end. case_match; [apply get_mask_range|lia]. Qed.

Lemma intsMask_changes w : masks_ok w ->
  exists w', acq200_intsMask w = Done 0 w' /\ mask_changed (imask (dev w)) w w'.
Proof.
  intros [Hd Hl Hi Hb].
  destruct (ints_mask_facts w n Hd HN Hl Hi) as (arr & E & Hlen & Harr).
  eexists. split; [exact E|]. split.
  - constructor; cbn; [done|by rewrite Hlen| |done]. intros i Hin.
    replace i with (n - 1 - (n - 1 - i))%nat by lia. rewrite Harr by lia. apply digit_from_end_range.
  - intros irq Hr. rewrite HN in Hr.
    assert (Z.to_nat (irq / 4) < n)%nat as Hk by (Z.to_euclidean_division_equations; lia).
    split; [|by unfold disabled; cbn; rewrite Harr].
    match goal with |- net irq (irqops ?v) = _ =>
      change (irqops v) with (irqops w ++ flat_map (fun k => line_ops (digit_from_end (imask (dev w)) k)
        (nth (n - 1 - k) (imask_a (dev w)) 0) (4 * Z.of_nat k)) (seq 0 n)) end.
    rewrite net_app. f_equal.
    by rewrite (net_digits (digit_from_end (imask (dev w))) (fun k => nth (n - 1 - k) (imask_a (dev w)) 0))
      by lia.
Qed.

Lemma hex_plain s t w : Forall (fun c => isxdigit c = true) s -> bkl_is_locked (dev w) = 0 ->
  plain_mask (s ++ newline :: t) w.
Proof.
  intros Hs Hb. assert (forall m u, isxdigit m = false -> m <> newline ->
    forall k, strncmp_eq (s ++ newline :: t) (m :: u) (S k) = false) as Hne.
  { intros m u Hm Hmn k. unfold strncmp_eq. apply bool_decide_eq_false_2.
    destruct Hs as [|c s Hc Hs]; cbn [app take]; intros E; injection E as E1 _; congruence. }
  split; [by apply Hne|]. split; [by apply Hne|done].
Qed.

Lemma store_changes s t w : Forall (fun c => isxdigit c = true) s -> (length s < n)%nat -> masks_ok w ->
  exists w', store_imask (s ++ newline :: t) w = Done (Z.of_nat (length (s ++ newline :: t))) w' /\
    mask_changed s w w'.
Proof.
  intros Hs Hl Hw. destruct (store_imask_spec _ w (hex_plain s t w Hs (mo_bkl _ Hw))) as (w' & E & Est & _).
  assert (hex_prefix (take (Z.to_nat (NR_IRQS / 4)) (s ++ newline :: t)) = s) as Ehex.
  { rewrite HN, Z.mul_comm, Z.div_mul by lia. rewrite Nat2Z.id.
    replace n with (length s + S (n - length s - 1))%nat by lia.
    rewrite take_app_add. cbn [take]. by apply hex_prefix_app. }
  rewrite Ehex in E. exists w'. split; [done|].
  assert (masks_ok (upd_dev (setf imask (fun _ => s)) w)) as Hw1 by (by destruct Hw).
  destruct (intsMask_changes _ Hw1) as (w'' & E' & Hc). rewrite E in E'. injection E' as <-. exact Hc.
Qed.

Lemma nomask_clear irq : line_bit NOMASK irq = false.
Proof.
  unfold line_bit, NOMASK, digit_from_end. destruct (_ <? _)%nat eqn:E; [|by rewrite Z.bits_0].
  apply Nat.ltb_lt in E. change (length (chars "00000000")) with 8%nat in *.
  assert (nth (8 - 1 - Z.to_nat (irq / 4)) (chars "00000000") 0 = 48) as ->; [|by rewrite Z.bits_0].
  destruct (Z.to_nat (irq / 4)) as [|[|[|[|[|[|[|[|m]]]]]]]]; done || lia.
Qed.


(** A mask that is set again disables its lines again, and the next mask enables them once: they
    stay disabled, and the driver forgets them. *)
Theorem mask_set_twice s w : Forall (fun c => isxdigit c = true) s -> (length s < n)%nat -> (8 < n)%nat ->
  masks_ok w -> (forall irq, 0 <= irq < NR_IRQS -> disabled w irq = false) ->
  exists r w', (let* _ := store_imask (s ++ [newline]) in let* _ := store_imask (s ++ [newline]) in
                store_imask (NOMASK ++ [newline])) w = Done r w' /\
    forall irq, 0 <= irq < NR_IRQS -> disabled w' irq = false /\
      net irq (irqops w') = net irq (irqops w) + (if line_bit s irq then 1 else 0).
Proof.
  intros Hs Hl H8 Hw Hd.
  destruct (store_changes s [] w Hs Hl Hw) as (w1 & E1 & Hw1 & Hc1).
  destruct (store_changes s [] w1 Hs Hl Hw1) as (w2 & E2 & Hw2 & Hc2).
  destruct (store_changes NOMASK [] w2) as (w3 & E3 & Hw3 & Hc3); [by repeat constructor|cbn; lia|done|].
  eexists _, w3. split; [by erewrite bind_done by exact E1; erewrite bind_done by exact E2; exact E3|].
  intros irq Hr. destruct (Hc1 irq Hr) as [N1 D1]. destruct (Hc2 irq Hr) as [N2 D2].
  destruct (Hc3 irq Hr) as [N3 D3]. rewrite D3, N3, N2, N1, D1, D2, nomask_clear, Hd by done.
  split; [done|]. unfold bit_net. destruct (line_bit s irq); lia.
Qed.
End Change.
