(* ===== verification/HtMain.v ===== *)
(** * htstream.c: the program as a whole

    The settings, which it takes from its environment; the nodes of the two buffers, which it opens
    and maps; the loop with the work it does on the data, that is nothing, a checksum by another
    program, a pause, or writing files; and the line of text it keeps about each turn. *)

From Stdlib Require Import String.
From S2P Require Import Prelude CString Stdio Local StreamBuf Pool Device HtStream.

(** ** Settings *)
Inductive Work := defaultWork | checkWork | sleepWork | fileWorkW.

Record Settings := mkSettings {
  h_debug : Z;   (** acq200_debug *)
  doWork : Work;
  SLEEP_WORK : Z;
  timeout : Z;
  SLOT : Z;
  MAXTO : Z;
  format : list Z;   (** G_file.format *)
  G : FILE_INFO   (** the rest of G_file *)
}.

Definition TIMEOUT : Z := 50.
Definition FORMAT_SIZE : nat := 128.

Section Environment.
Context (getenv : string -> option (list Z)).

Definition env_int (name : string) (default : Z) : Z :=
  match getenv name with Some v => atoi v | None => default end.

Definition is_set (name : string) : bool := match getenv name with Some _ => true | None => false end.

(** The pattern of the file names; [None] when [strcpy] or [strcat] writes past its end. *)
Definition file_format (pattern : list Z) : option (list Z) :=
  if (FORMAT_SIZE <=? length pattern)%nat then None
  else
    let f := if strstr pattern (chars "%") then pattern else pattern ++ chars ".%03d" in
    if (FORMAT_SIZE <=? length f)%nat then None else Some f.

Definition main_settings : option Settings :=
  let s := mkSettings (env_int "ACQ200_DEBUG" 0)
    (if is_set "ACQ200_SLEEP_WORK" then sleepWork
     else if is_set "ACQ200_CHECKWORK" then checkWork else defaultWork)
    (match getenv "ACQ200_SLEEP_WORK" with Some v => MAX (atoi v) 1 | None => 0 end)
    (env_int "ACQ200_TIMEOUT" TIMEOUT) (env_int "ACQ200_SLOT" 3) (env_int "ACQ200_MAXTO" 60) [] G_file in
  match getenv "ACQ200_WRITEFILE" with
  | None => Some s
  | Some pattern =>
      match file_format pattern with
      | None => None
      | Some f =>
          let maxfile := match getenv "ACQ200_MAXFILE" with Some v => strtoul0 v | None => maxfile G_file end in
          let nfiles := match getenv "ACQ200_NFILES" with Some v => u32 (atoi v) | None => nfiles G_file end in
          let oneshot := env_int "ACQ200_ONESHOT" (oneshot G_file) in
          Some (mkSettings (h_debug s) fileWorkW (SLEEP_WORK s) (timeout s) (SLOT s) (MAXTO s) f
            (mkFileInfo maxfile nfiles (ifile G_file) (fd G_file) oneshot (f_pos G_file) (f_opened G_file)))
      end
  end.
End Environment.

(** ** The nodes of the buffers *)
Definition buffer_node (slot : Z) (id : string) : list Z :=
  chars "/dev/acq200/acq200." ++ fmt_d slot ++ chars "." ++ chars id.

(** [initMapping]: the error number it exits with; [open_errno] is 0 when the node was opened,
    [mmap_errno] when it was mapped. *)
Definition initMapping (open_errno mmap_errno : list Z -> Z) (slot : Z) (id : string) : option Z :=
  let fname := buffer_node slot id in
  if istrue (open_errno fname) then Some (open_errno fname)
  else if istrue (mmap_errno fname) then Some (mmap_errno fname)
  else None.

(** ** The loop with its work *)
Section Run.
Context (s : Settings) (open write : Z -> Z).

(** The work on the buffers of one turn: the state of the files, or the code it exits with. *)
Definition do_works (works : list (Z * Z)) (g : FILE_INFO) : FILE_INFO + Z :=
  match doWork s with
  | fileWorkW => file_works open write (snd <$> works) g
  | _ => inl g
  end.

(** The requests sent, the state at the end, and the code; [None] when it waits for an answer.  The work
    of a turn is done after the turn's own counts, which it does not look at. *)
Fixpoint stream (answers : list Answer) (c : Client) (g : FILE_INFO)
    : list BufferAB_Ops * Client * FILE_INFO * option Z :=
  match answers with
  | [] => ([], c, g, None)
  | a :: answers =>
      let '(c', rc) := client_step (timeout s) (MAXTO s) a c in
      match do_works (skipn (length (c_work c)) (c_work c')) g with
      | inr code => ([c_ops c], c', g, Some code)
      | inl g' =>
          match rc with
          | Some rc => ([c_ops c], c', g', Some rc)
          | None =>
              let '(reqs, c'', g'', rc) := stream answers c' g' in (c_ops c :: reqs, c'', g'', rc)
          end
      end
  end.

Definition htstream_main (open_errno mmap_errno : list Z -> Z) (answers : list Answer) : Client * FILE_INFO * option Z :=
  match initMapping open_errno mmap_errno (SLOT s) "bufA" with
  | Some e => (client0, G s, Some e)
  | None =>
      match initMapping open_errno mmap_errno (SLOT s) "bufB" with
      | Some e => (client0, G s, Some e)
      | None => let '(_, c, g, rc) := stream answers client0 (G s) in (c, g, rc)
      end
  end.
End Run.

(** ** The line about a turn *)

(** [%8d] *)
Definition fmt_8d (z : Z) : list Z := replicate (8 - length (fmt_d z)) 32 ++ fmt_d z.

Definition status_of (next : Z) (ops : BufferAB_Ops) : list Z :=
  chars "N:" ++ fmt_d next ++ chars " " ++ fmt_8d (s32 (ab_get (ds_sid ops) next)) ++ chars " " ++
  fmt_8d (s32 (ab_get (ds_len ops) next)) ++ chars " :".

(** What is printed to [status] in a turn with an answer: [c] before the answer [ops]. *)
Definition status_line (debug : Z) (c : Client) (ops : BufferAB_Ops) : list Z :=
  (if istrue debug && istrue (c_timeouts c) then [newline] else []) ++
  fmt_8d (c_syscalls c) ++ chars ":" ++
  (if istrue (Z.land (ds_full ops) (BUFFER_FLAG_LUT (c_next c))) then
     status_of (c_next c) ops ++
     (let next := Zbool (c_next c =? 0) in
      if istrue (Z.land (ds_full ops) (BUFFER_FLAG_LUT next)) then chars ".." ++ status_of next ops
      else [])
   else []).

(** ** Theorems *)
Lemma fmt_8d_bound z : (length (fmt_8d (s32 z)) <= 11)%nat.
Proof.
  pose proof (s32_range z). pose proof (fmt_d_bound (s32 z) ltac:(lia)).
  unfold fmt_8d. rewrite length_app, length_replicate. lia.
Qed.

Lemma status_of_bound next ops : next = BUFFERA \/ next = BUFFERB ->
  (length (status_of next ops) <= 29)%nat.
Proof.
  intros Hn. unfold status_of. rewrite !length_app.
  pose proof (fmt_8d_bound (ab_get (ds_sid ops) next)). pose proof (fmt_8d_bound (ab_get (ds_len ops) next)).
  assert (length (fmt_d next) = 1%nat) as -> by (by destruct Hn as [-> | ->]).
  change (length (chars "N:")) with 2%nat. change (length (chars " ")) with 1%nat.
  change (length (chars " :")) with 2%nat. lia.
Qed.

(** The line about a turn fits in its 80 characters, with its end, whatever the driver answers. *)
Theorem status_fits debug c ops : c_next c = BUFFERA \/ c_next c = BUFFERB ->
  - 2 ^ 31 <= c_syscalls c < 2 ^ 31 -> (length (status_line debug c ops) < 80)%nat.
Proof.
  intros Hn Hc. unfold status_line. rewrite !length_app. change (length (chars ":")) with 1%nat.
  pose proof (fmt_8d_bound (c_syscalls c)) as H8. rewrite s32_id in H8 by lia.
  assert (Zbool (c_next c =? 0) = BUFFERA \/ Zbool (c_next c =? 0) = BUFFERB) as Hn'
    by (destruct Hn as [-> | ->]; [by right|by left]).
  pose proof (status_of_bound (c_next c) ops Hn). pose proof (status_of_bound _ ops Hn').
  destruct (_ && _); cbn [length]; destruct (istrue (Z.land _ _)); cbn [length]; try lia;
    rewrite length_app; destruct (istrue _); rewrite ?length_app; cbn [length];
    change (length (chars "..")) with 2%nat; lia.
Qed.

(** The numbers of the environment, as another program prints them, are the settings. *)
Theorem settings_read_back getenv slot time maxto : - 2 ^ 31 <= slot < 2 ^ 31 ->
  - 2 ^ 31 <= time < 2 ^ 31 -> - 2 ^ 31 <= maxto < 2 ^ 31 ->
  getenv "ACQ200_SLOT"%string = Some (fmt_d slot) -> getenv "ACQ200_TIMEOUT"%string = Some (fmt_d time) ->
  getenv "ACQ200_MAXTO"%string = Some (fmt_d maxto) -> getenv "ACQ200_WRITEFILE"%string = None ->
  exists s, main_settings getenv = Some s /\ SLOT s = slot /\ timeout s = time /\ MAXTO s = maxto /\
    doWork s <> fileWorkW.
Proof.
  intros Hs Ht Hm Es Et Em Ew. unfold main_settings. rewrite Ew. eexists. split; [reflexivity|].
  cbn [SLOT timeout MAXTO doWork]. unfold env_int. rewrite Es, Et, Em.
  assert (forall z, - 2 ^ 31 <= z < 2 ^ 31 -> atoi (fmt_d z) = z) as Hz.
  { intros z Hz. rewrite <- (app_nil_r (fmt_d z)). by apply atoi_fmt_d. }
  rewrite !Hz by done. repeat split. by destruct (is_set getenv "ACQ200_SLEEP_WORK"), (is_set getenv "ACQ200_CHECKWORK").
Qed.

(** The pattern of the file names either has its own conversion or gets one for the number; a pattern
    that with it is longer than 127 characters is written past the end of the array. *)
Lemma file_format_conversion pattern f : file_format pattern = Some f ->
  strstr f (chars "%") = true /\ (length f < FORMAT_SIZE)%nat.
Proof.
  unfold file_format. destruct (_ <=? _)%nat; [done|].
  set (g := if strstr pattern (chars "%") then _ else _).
  assert (strstr g (chars "%") = true) as Hg.
  { subst g. destruct (strstr pattern (chars "%")) eqn:E; [done|].
    apply strstr_spec. exists (pattern ++ chars "."), (chars "03d"). by rewrite <- app_assoc. }
  cbv zeta. destruct (Nat.leb_spec FORMAT_SIZE (length g)); [done|]. by intros [= <-].
Qed.
