(* ===== verification/AcqCmd.v ===== *)
(** * acqcmd.c: the command line client

    It writes commands to a device node (or to a socket) and prints the replies, up to a line "EOF".
    The commands are on its command line or on its standard input; or one command is repeated until
    the reply shows, or no longer shows, a word.

    The path to the card is a record of what was written to it and of the text it will still give, after
    which it closes or stays silent; what is printed on the standard output is a part of the state.  A
    program that reads from a silent path waits ([Blocked]).  The standard input is a text that ends.
    The options are given as popt finds them, one after the other.  Messages to the standard error, and
    those that the option "verbose" adds, are left out.  The alarm ends the program, whatever it does
    then. *)

From Stdlib Require Import String.
From S2P Require Import Prelude CString Stdio Device.

(** ** The path and the output *)
Record Stream := mkStream {
  f_sent : list Z;   (** written to the path *)
  f_inbox : list Z;   (** the text the path will give *)
  f_stdout : list Z;
  f_closes : bool   (** whether the path comes to its end after that text, or gives no more *)
}.
#[export] Instance set_f_sent : Setter f_sent := fun f r => mkStream (f (f_sent r)) (f_inbox r) (f_stdout r) (f_closes r).
#[export] Instance set_f_inbox : Setter f_inbox := fun f r => mkStream (f_sent r) (f (f_inbox r)) (f_stdout r) (f_closes r).
#[export] Instance set_f_stdout : Setter f_stdout := fun f r => mkStream (f_sent r) (f_inbox r) (f (f_stdout r)) (f_closes r).

Abbreviation MP := (M Stream).

Definition send (s : list Z) : MP unit := modify (setf f_sent (fun l => l ++ s)).
Definition print (s : list Z) : MP unit := modify (setf f_stdout (fun l => l ++ s)).

(** [char reply[80]] *)
Definition REPLY_SIZE : nat := 80.
Definition MAXLINE : nat := 4096.
Definition ERROR_STRING : list Z := chars "ACQ32:ERROR".
Definition EOF_LINE : list Z := chars "EOF" ++ [newline].

(** [fgets] of the path.  A piece is whole when it is a line, or fills the buffer; for less, or for nothing,
    the program waits until the path closes. *)
Definition whole_piece (size : nat) (buf : list Z) : bool :=
  bool_decide (last buf = Some newline) || (size - 1 <=? length buf)%nat.
Definition fgets_path (size : nat) : MP (option (list Z)) :=
  let* fd := gets (fun fd => fd) in
  match fgets size (f_inbox fd) with
  | Some (buf, rest) =>
      if whole_piece size buf || f_closes fd then modify (setf f_inbox (fun _ => rest)) >> ret (Some buf)
      else block
  | None => if f_closes fd then ret None else block
  end.

(** The loop that copies a reply to the standard output, from [nout] lines on: the number of lines,
    and whether one began with [ERROR_STRING]. *)
Fixpoint reply_loop (fuel : nat) (nout : nat) (err : bool) : MP (nat * bool) :=
  match fuel with
  | O => nofuel
  | S fuel =>
      let* o := fgets_path REPLY_SIZE in
      match o with
      | None => ret (nout, err)
      | Some buf =>
          let reply := c_string buf in
          let err := err || strncmp_eq reply ERROR_STRING (length ERROR_STRING) in
          if STREQ reply EOF_LINE then ret (nout, err)
          else print reply >> reply_loop fuel (S nout) err
      end
  end.

(** No more turns than there are characters to come. *)
Definition copy_reply : MP (nat * bool) :=
  let* fd := gets (fun fd => fd) in reply_loop (S (length (f_inbox fd))) 0 false.

(** ** The command on the command line *)
Fixpoint send_words (words : list (list Z)) : MP unit :=
  match words with
  | [] => ret tt
  | w :: words => send w >> send (chars " ") >> send_words words
  end.

Definition process_command (words : list (list Z)) : MP Z :=
  send_words words >>
  send [newline] >>
  let* r := copy_reply in
  ret (if (fst r =? 0)%nat then -1 else Zbool (snd r)).

(** ** Commands on the standard input *)
Definition ISCOMMENT (cl : list Z) : bool := match cl with c :: _ => c =? 35 | [] => false end.
Definition ISBLANK (cl : list Z) : bool := (length cl <=? 1)%nat.

Definition iscontinuation (line : list Z) : bool :=
  let len := length line in
  (1 <? len)%nat && bool_decide (line !! (len - 1)%nat = Some newline) &&
  (bool_decide (line !! (len - 2)%nat = Some 92) || bool_decide (line !! (len - 2)%nat = Some 59)).

Fixpoint stdin_loop (fuel : nat) (stdin : list Z) : MP Z :=
  match fuel with
  | O => nofuel
  | S fuel =>
      match fgets MAXLINE stdin with
      | None => ret 0
      | Some (buf, stdin) =>
          let command_line := c_string buf in
          if negb (ISCOMMENT command_line) && negb (ISBLANK command_line) then
            send command_line >>
            if iscontinuation command_line then stdin_loop fuel stdin
            else
              let* r := copy_reply in
              if (fst r =? 0)%nat then ret 1 else stdin_loop fuel stdin
          else stdin_loop fuel stdin
      end
  end.

Definition process_stdin (stdin : list Z) : MP Z := stdin_loop (S (length stdin)) stdin.

(** ** A command repeated until the reply says so *)
Section Poll.
(** The path is a socket; the words of the options "while" and "until". *)
Context (sock : bool) (do_while do_until : option (list Z)).
(** The error number with which the n-th opening of the path anew fails, or 0. *)
Context (reopen : nat -> Z).

Definition finds (word : option (list Z)) (reply : list Z) : bool :=
  match word with Some w => strstr reply w | None => false end.

(** The inner loop: [reads] is what [fgets] will give, [None] for an error or the end of the file,
    which leave [reply] as it was.  The result is [None] when the program waits for more. *)
Fixpoint read_replies (reads : list (option (list Z))) (reply : list Z) (found_while found_until : bool)
    : option (bool * bool * list Z * list (option (list Z))) :=
  match reads with
  | [] => None
  | r :: reads =>
      let reply := match r with Some buf => c_string buf | None => reply end in
      let found_while := found_while || finds do_while reply in
      let found_until := found_until || finds do_until reply in
      if negb sock || strstr reply (chars "EOF") then Some (found_while, found_until, reply, reads)
      else read_replies reads reply found_while found_until
  end.

(** How it ended, after how many commands: with a result; with [_exit] because the path could not be
    opened again; or it waits for a reply. *)
Inductive Polled :=
| Polled_result (success : Z) (ncommands : nat)
| Polled_exit (code : Z) (ncommands : nat)
| Polled_waiting (ncommands : nat).

Fixpoint poll_rounds (fuel n : nat) (reads : list (option (list Z))) (reply : list Z) : option Polled :=
  match fuel with
  | O => None
  | S fuel =>
      let n := S n in
      match read_replies reads reply false false with
      | None => Some (Polled_waiting n)
      | Some (found_while, found_until, reply, reads) =>
          if found_until then Some (Polled_result 0 n)
          else if bool_decide (do_until = None) && negb found_while then Some (Polled_result 0 n)
          else if (negb (bool_decide (do_while = None)) && found_while) || bool_decide (do_while = None) then
            if negb sock && istrue (reopen n) then Some (Polled_exit (reopen n) n)
            else poll_rounds fuel n reads reply
          else Some (Polled_result (-1) n)
      end
  end.

(** The command sent each time. *)
Definition poll_command (command : option (list Z)) : list Z :=
  default (chars "getState") command ++ [newline].

Definition do_poll (reads : list (option (list Z))) (reply : list Z) : option Polled :=
  poll_rounds (S (length reads)) 0 reads reply.
End Poll.

(** ** The options, and what to do *)
Inductive Opt :=
| OptDevice (arg : list Z) | OptBoard (n : Z) | OptShell (n : Z) | OptVerbose (n : Z) | OptVersion
| OptWhile (arg : list Z) | OptUntil (arg : list Z) | OptTimeout (n : Z).

Record Config := mkConfig {
  device : list Z;
  poll_while : option (list Z);
  poll_until : option (list Z);
  poll : bool;
  alarms : list Z;   (** the calls of [alarm] *)
  verbose : Z
}.

Definition MFMT (board1 board2 : Z) : list Z :=
  chars "/dev/acq32/acq32." ++ fmt_d board1 ++ chars ".m" ++ fmt_d board2.
Definition SHELL_FMT (board : Z) : list Z := chars "/dev/acq200/acq200." ++ fmt_d board ++ chars ".rsh".
Definition FNAME : list Z := chars "/dev/acq32/acq32.1.m1".

(** The loop over the options; [None] after [OptVersion], which ends the program. *)
Fixpoint get_options (opts : list Opt) (c : Config) : option Config :=
  match opts with
  | [] => Some c
  | o :: opts =>
      match o with
      | OptVersion => None
      | OptDevice arg =>
          get_options opts (mkConfig arg (poll_while c) (poll_until c) (poll c) (alarms c) (verbose c))
      | OptBoard n =>
          get_options opts (mkConfig (MFMT n n) (poll_while c) (poll_until c) (poll c) (alarms c) (verbose c))
      | OptShell n =>
          get_options opts (mkConfig (SHELL_FMT n) (poll_while c) (poll_until c) (poll c) (alarms c) (verbose c))
      | OptVerbose n =>
          get_options opts (mkConfig (device c) (poll_while c) (poll_until c) (poll c) (alarms c) n)
      | OptWhile w =>
          get_options opts (mkConfig (device c) (Some w) (poll_until c) true (alarms c) (verbose c))
      | OptUntil w =>
          get_options opts (mkConfig (device c) (poll_while c) (Some w) true (alarms c) (verbose c))
      | OptTimeout n =>
          get_options opts (mkConfig (device c) (poll_while c) (poll_until c) (poll c) (alarms c ++ [n]) (verbose c))
      end
  end.

Definition initial_config (env : option (list Z)) : Config :=
  mkConfig (default FNAME env) None None false [] 0.

(** What [main] does once the path is open. *)
Inductive Job :=
| Job_version
| Job_hold (device : list Z)
| Job_poll (device : list Z) (command do_while do_until : option (list Z))
| Job_command (device : list Z) (words : list (list Z))
| Job_stdin (device : list Z).

Definition main_job (argv0 : list Z) (env : option (list Z)) (opts : list Opt) (args : list (list Z)) : Job :=
  match get_options opts (initial_config env) with
  | None => Job_version
  | Some c =>
      if STREQ argv0 (chars "acqcmd-hold") then Job_hold (device c)
      else if poll c then Job_poll (device c) (head args) (poll_while c) (poll_until c)
      else match args with
           | [] => Job_stdin (device c)
           | _ => Job_command (device c) args
           end
  end.

(** ** The alarm *)

(** The seconds after which the signal comes: a call of [alarm] takes the place of the one before,
    and that of 0 takes it away. *)
Definition alarm (armed : option Z) (timeout : Z) : option Z :=
  if u32 timeout =? 0 then None else Some (u32 timeout).
Definition armed (c : Config) : option Z := fold_left alarm (alarms c) None.

(** The program's way to end: what it says on the standard error, and the status its parent sees. *)
Definition exit_status (code : Z) : Z := code mod 256.
Definition alarm_handler : list Z * Z := (chars "ERROR:TIMEOUT" ++ [newline], exit_status (- ETIMEDOUT)).

(** The handler is installed before the options are read.  A job that takes [seconds] ([None]:
    for ever, as [pause] does) and gives [code] ends so. *)
Definition under_alarm (armed : option Z) (seconds : option Z) (code : Z) : option (list Z * Z) :=
  match armed, seconds with
  | None, None => None
  | None, Some _ => Some ([], exit_status code)
  | Some _, None => Some alarm_handler
  | Some t, Some s => Some (if t <=? s then alarm_handler else ([], exit_status code))
  end.

(** ** Opening the path *)
Definition S_IFMT : Z := 0xf000.
Definition S_IFSOCK : Z := 0xc000.
Definition SUN_PATH_SIZE : nat := 108.

Section Connect.
(** the [st_mode] that [stat] leaves in the structure; the error numbers of [socket], [fdopen] and
    [fopen], 0 for success *)
Context (st_mode : list Z -> Z) (socket_errno fdopen_errno : Z) (fopen_errno : list Z -> Z).

Definition is_socket (file : list Z) : bool := Z.land (st_mode file) S_IFMT =? S_IFSOCK.

(** The code it exits with, or whether the path is a socket; [None] when [strcpy] writes past the end
    of [sun_path].  A [connect] that fails is reported, and otherwise ignored. *)
Definition make_connection (device : list Z) : option (Z + bool) :=
  if is_socket device then
    if istrue socket_errno then Some (inl socket_errno)
    else if (SUN_PATH_SIZE <=? length device)%nat then None
    else if istrue fdopen_errno then Some (inl fdopen_errno)
    else Some (inr true)
  else if istrue (fopen_errno device) then Some (inl (fopen_errno device))
  else Some (inr false).
End Connect.

(** ** Copying a reply *)
Lemma c_string_id s : 0 ∉ s -> c_string s = s.
Proof.
  induction s as [|c s IH]; [done|]. intros Hs. apply not_elem_of_cons in Hs as [Hc Hs].
  cbn [c_string]. rewrite (proj2 (Z.eqb_neq c 0)) by congruence. by rewrite IH.
Qed.

(** A line of text that a buffer of [size] characters holds. *)
Record text_line (size : nat) (l : list Z) : Prop := {
  tl_text : exists body, l = body ++ [newline] /\ newline ∉ body;
  tl_nul : 0 ∉ l;
  tl_fits : (length l < size)%nat
}.

Lemma fgets_line size l s : text_line size l -> fgets size (l ++ s) = Some (l, s).
Proof.
  intros [(body & -> & Hb) _ Hn]. rewrite length_app in Hn. cbn [length] in Hn.
  unfold fgets. rewrite <- app_assoc. cbn [app].
  destruct (body ++ newline :: s) eqn:E; [by destruct body|]. rewrite <- E.
  by rewrite take_line_whole by (done || lia).
Qed.

(** A line at the front of what the path will give is read, whether the path closes or not. *)
Lemma fgets_path_line size l s fd : text_line size l -> f_inbox fd = l ++ s ->
  fgets_path size fd = Done (Some l) (fd <| f_inbox := s |>).
Proof.
  intros Hl Hi. unfold fgets_path. erewrite bind_done by reflexivity. rewrite Hi, fgets_line by done.
  destruct Hl as [(b & -> & _) _ _]. unfold whole_piece. rewrite bool_decide_eq_true_2 by by rewrite last_snoc.
  reflexivity.
Qed.

(** Of a path that gives no more text it waits for ever, unless the path closes. *)
Lemma fgets_path_empty size fd : f_inbox fd = [] ->
  fgets_path size fd = if f_closes fd then Done None fd else Blocked fd.
Proof. intros Hi. unfold fgets_path. erewrite bind_done by reflexivity. rewrite Hi. by destruct (f_closes fd). Qed.

Lemma eof_line_text : text_line REPLY_SIZE EOF_LINE.
Proof.
  constructor.
  - exists (chars "EOF"). split; [done|]. by apply (bool_decide_unpack _).
  - by apply (bool_decide_unpack _).
  - unfold REPLY_SIZE. cbn. lia.
Qed.

(** A line of a reply, and one that reports an error. *)
Definition reply_line (l : list Z) : Prop := text_line REPLY_SIZE l /\ l <> EOF_LINE.
Definition is_error (l : list Z) : bool := strncmp_eq l ERROR_STRING (length ERROR_STRING).

(** What the path gives for a reply of these lines. *)
Definition reply_text (lines : list (list Z)) : list Z := concat lines ++ EOF_LINE.

Lemma reply_loop_body lines rest fuel nout err fd :
  Forall reply_line lines -> f_inbox fd = reply_text lines ++ rest -> (length lines < fuel)%nat ->
  reply_loop fuel nout err fd = Done ((nout + length lines)%nat, err || existsb is_error lines)
    (mkStream (f_sent fd) rest (f_stdout fd ++ concat lines) (f_closes fd)).
Proof.
  intros Hl. revert fuel nout err fd. induction Hl as [|l lines [Ht Hne] Hl IH]; intros fuel nout err fd Hi Hf;
    (destruct fuel as [|fuel]; [cbn in Hf; lia|]); cbn [reply_loop].
  - erewrite bind_done by (eapply fgets_path_line; [apply eof_line_text|exact Hi]). cbv beta iota zeta.
    assert (strncmp_eq EOF_LINE ERROR_STRING (length ERROR_STRING) = false) as E by (by vm_compute).
    rewrite c_string_id by apply eof_line_text. unfold STREQ. rewrite bool_decide_eq_true_2 by done.
    rewrite E, orb_false_r. cbn [length existsb]. rewrite Nat.add_0_r, orb_false_r. cbn [concat]. by rewrite app_nil_r.
  - unfold reply_text in Hi. cbn [concat] in Hi. rewrite <- !app_assoc in Hi.
    erewrite bind_done by (eapply fgets_path_line; [exact Ht|exact Hi]). cbv beta iota zeta.
    rewrite c_string_id by apply Ht. unfold STREQ. rewrite bool_decide_eq_false_2 by done.
    erewrite bind_done by reflexivity. cbn [length] in Hf.
    rewrite (IH fuel (S nout)); [|cbn; unfold reply_text; by rewrite <- app_assoc|lia].
    cbn [existsb concat length f_sent f_stdout f_closes setf set_f_inbox set_f_stdout]. fold (is_error l).
    rewrite <- app_assoc, orb_assoc. f_equal. f_equal. lia.
Qed.

(** The reply of a path without an answer. *)
Lemma copy_reply_silent fd : f_inbox fd = [] ->
  copy_reply fd = if f_closes fd then Done (0%nat, false) fd else Blocked fd.
Proof.
  intros E. unfold copy_reply. erewrite bind_done by reflexivity. rewrite E. cbn [length reply_loop].
  unfold bind. rewrite fgets_path_empty by done. by destruct (f_closes fd).
Qed.

Lemma line_nonempty size l : text_line size l -> (0 < length l)%nat.
Proof. intros [(b & -> & _) _ _]. rewrite length_app. cbn. lia. Qed.

Lemma length_concat_lines size (lines : list (list Z)) : Forall (text_line size) lines ->
  (length lines <= length (concat lines))%nat.
Proof.
  induction 1 as [|l lines Hl _ IH]; cbn [concat length]; [lia|]. rewrite length_app.
  apply line_nonempty in Hl. lia.
Qed.

Lemma copy_reply_body lines rest fd :
  Forall reply_line lines -> f_inbox fd = reply_text lines ++ rest ->
  copy_reply fd = Done (length lines, existsb is_error lines)
    (mkStream (f_sent fd) rest (f_stdout fd ++ concat lines) (f_closes fd)).
Proof.
  intros Hl Hi. unfold copy_reply. erewrite bind_done by reflexivity.
  assert (length lines <= length (concat lines))%nat as Hlen.
  { apply (length_concat_lines REPLY_SIZE). eapply Forall_impl; [exact Hl|by intros ? []]. }
  rewrite (reply_loop_body lines rest) by
    (done || (rewrite Hi; unfold reply_text; rewrite !length_app; lia)).
  done.
Qed.

Lemma send_words_eq words fd :
  send_words words fd = Done tt (fd <| f_sent := f_sent fd ++ concat ((fun w => w ++ chars " ") <$> words) |>).
Proof.
  revert fd. induction words as [|w words IH]; intros fd; cbn [send_words fmap list_fmap concat].
  - rewrite app_nil_r. by destruct fd.
  - do 2 (erewrite bind_done by reflexivity). rewrite IH. f_equal. destruct fd. unfold setf, set_f_sent. cbn.
    by rewrite <- !app_assoc.
Qed.

(** A command on the command line: the words are written to the path on one line, each followed by a
    blank; the lines of the reply, and nothing else, are printed, in order; the text after the line
    "EOF" is left; and the result tells whether a line reported an error, but is -1 when the reply
    has no lines. *)
Theorem process_command_reply words lines rest fd :
  Forall reply_line lines -> f_inbox fd = reply_text lines ++ rest ->
  process_command words fd = Done
    (if (length lines =? 0)%nat then -1 else Zbool (existsb is_error lines))
    (mkStream (f_sent fd ++ concat ((fun w => w ++ chars " ") <$> words) ++ [newline]) rest
       (f_stdout fd ++ concat lines) (f_closes fd)).
Proof.
  intros Hl Hi. unfold process_command. erewrite bind_done by apply send_words_eq.
  erewrite bind_done by reflexivity. erewrite bind_done by (by apply (copy_reply_body lines rest)).
  cbn. by rewrite <- app_assoc.
Qed.

(** ** The fuel is enough *)

(** A copy or the whole program, run on [fd], has fuel enough; it waits only for a path that does not close. *)
Definition runs {A} (m : MP A) (Q : A -> Stream -> Prop) (fd : Stream) : Prop :=
  match m fd with Done a fd' => Q a fd' | Blocked _ => f_closes fd = false | _ => False end.

Lemma runs_bind {A B} (m : MP A) (k : A -> MP B) P Q fd : runs m P fd ->
  (forall a fd', P a fd' -> f_closes fd' = f_closes fd /\ runs (k a) Q fd') -> runs (bind m k) Q fd.
Proof.
  unfold runs, bind. destruct (m fd) as [a fd'| | |]; try done. intros HP Hk.
  destruct (Hk a fd' HP) as [Hc Hr]. by destruct (k a fd'); rewrite <- ?Hc.
Qed.

Lemma fgets_path_runs size fd : (1 < size)%nat -> runs (fgets_path size) (fun o fd' => f_closes fd' = f_closes fd /\
  f_sent fd' = f_sent fd /\
  match o with Some _ => (length (f_inbox fd') < length (f_inbox fd))%nat | None => True end) fd.
Proof.
  intros Hs. unfold runs, fgets_path. erewrite bind_done by reflexivity.
  destruct (fgets size (f_inbox fd)) as [[buf rest]|] eqn:E; [|by destruct (f_closes fd) eqn:Hc; cbn].
  apply fgets_shrinks in E as [_ Hlt]; [|done]. destruct (f_closes fd) eqn:Hc; [rewrite orb_true_r|rewrite orb_false_r].
  - done.
  - by destruct (whole_piece size buf).
Qed.

Lemma reply_loop_runs fuel nout err fd : (length (f_inbox fd) < fuel)%nat ->
  runs (reply_loop fuel nout err) (fun _ fd' => f_closes fd' = f_closes fd) fd.
Proof.
  revert nout err fd. induction fuel as [|fuel IH]; intros nout err fd Hf; [lia|]. cbn [reply_loop].
  eapply runs_bind; [apply fgets_path_runs; unfold REPLY_SIZE; lia|]. intros [buf|] fd' (Hc & _ & Hl); split; try done.
  destruct (STREQ _ _); [done|]. unfold runs. erewrite bind_done by reflexivity.
  match goal with |- context [reply_loop fuel ?n ?e ?g] => pose proof (IH n e g ltac:(cbn; lia)) as Hr end.
  unfold runs in Hr. cbn [f_closes setf set_f_stdout] in Hr. by rewrite <- Hc.
Qed.

Lemma stdin_loop_runs fuel stdin fd : (length stdin < fuel)%nat ->
  runs (stdin_loop fuel stdin) (fun rc _ => rc = 0 \/ rc = 1) fd.
Proof.
  revert stdin fd. induction fuel as [|fuel IH]; intros stdin fd Hf; [lia|]. cbn [stdin_loop].
  destruct (fgets MAXLINE stdin) as [[buf rest]|] eqn:E; [|by left].
  apply fgets_shrinks in E as [_ Hlt]; [|unfold MAXLINE; lia].
  destruct (negb _ && _); [|apply IH; lia]. eapply (runs_bind (send _) _ (fun _ fd' => f_closes fd' = f_closes fd)); [done|].
  intros [] fd1 Hc. split; [done|]. destruct (iscontinuation _); [apply IH; lia|].
  eapply (runs_bind copy_reply _ (fun _ fd' => f_closes fd' = f_closes fd1)).
  { unfold copy_reply, runs. erewrite bind_done by reflexivity. apply reply_loop_runs. lia. }
  intros r fd2 Hc2. split; [done|]. destruct (fst r =? 0)%nat; [by right|]. apply IH. lia.
Qed.

(** Whatever is on the standard input, the program stops with 0 or 1 when the path closes after its text; the
    fuel is enough whether it does or not. *)
Theorem process_stdin_fuel stdin fd : runs (process_stdin stdin) (fun rc _ => rc = 0 \/ rc = 1) fd.
Proof. apply stdin_loop_runs. lia. Qed.

(** ** Commands on the standard input, line by line *)
Definition sendable (l : list Z) : bool := negb (ISCOMMENT l) && negb (ISBLANK l).

(** The reference: [bodies] are the lines of the replies the path still gives.  A command goes on
    until a line that does not ask for more; its reply is printed before the next one is written.
    The result, what was written and printed, and the replies left.  For a command without a reply the
    result is 1 when the path [closes], and there is none, since the program waits for ever, when it does
    not. *)
Fixpoint run_script (closes : bool) (script : list (list Z)) (bodies : list (list (list Z))) (sent out : list Z)
    : option Z * list Z * list Z * list (list (list Z)) :=
  match script with
  | [] => (Some 0, sent, out, bodies)
  | l :: script =>
      if negb (sendable l) then run_script closes script bodies sent out
      else if iscontinuation l then run_script closes script bodies (sent ++ l) out
      else
        match bodies with
        | [] => (if closes then Some 1 else None, sent ++ l, out, [])
        | [] :: bodies => (Some 1, sent ++ l, out, bodies)
        | body :: bodies => run_script closes script bodies (sent ++ l) (out ++ concat body)
        end
  end.

Definition inbox_of (bodies : list (list (list Z))) : list Z := concat (reply_text <$> bodies).

(** A program that ended with a result, or waits. *)
Definition ended (rc : option Z) (fd : Stream) : Outcome Stream Z :=
  match rc with Some rc => Done rc fd | None => Blocked fd end.

Lemma stdin_loop_script script bodies fuel fd :
  Forall (text_line MAXLINE) script -> Forall (Forall reply_line) bodies ->
  f_inbox fd = inbox_of bodies -> (length script < fuel)%nat ->
  let '(rc, sent, out, rest) := run_script (f_closes fd) script bodies (f_sent fd) (f_stdout fd) in
  stdin_loop fuel (concat script) fd = ended rc (mkStream sent (inbox_of rest) out (f_closes fd)).
Proof.
  intros Hs. revert bodies fuel fd. induction Hs as [|l script Hl Hs IH]; intros bodies fuel fd Hb Hi Hf;
    (destruct fuel as [|fuel]; [cbn in Hf; lia|]); cbn [run_script stdin_loop concat].
  - cbn [fgets]. rewrite <- Hi. by destruct fd.
  - rewrite fgets_line, c_string_id by (done || apply Hl). cbn [length] in Hf.
    change (negb (ISCOMMENT l) && negb (ISBLANK l)) with (sendable l).
    destruct (sendable l); cbn [negb]; [|by apply IH; [| |lia]].
    erewrite bind_done by reflexivity. set (fd1 := setf f_sent _ fd).
    destruct (iscontinuation l); [by apply (IH bodies fuel fd1); [| |lia]|].
    destruct bodies as [|body bodies].
    { unfold bind. rewrite copy_reply_silent by done. change (f_closes fd1) with (f_closes fd).
      unfold inbox_of in *. cbn in Hi. cbn. rewrite <- Hi. by destruct fd as [? ? ? []]. }
    apply Forall_cons in Hb as [Hb Hbs].
    erewrite bind_done by (by apply (copy_reply_body body (inbox_of bodies))). cbn [fst].
    destruct body as [|r body]; cbn [length Nat.eqb]; [cbn; by rewrite app_nil_r|].
    by apply (IH bodies fuel (mkStream (f_sent fd ++ l) (inbox_of bodies) (f_stdout fd ++ concat (r :: body)) (f_closes fd)));
      [| |lia].
Qed.

(** C22: commands on the standard input, when the path gives replies of some lines and a line "EOF", and then
    closes or stays silent: comments and blank lines are left out, a line that ends in a backslash or a
    semicolon is followed by the next without waiting, and after each command its reply is printed, before
    the next line is read; the program stops with result 1 at a command whose reply has no lines, or
    whose path has closed, and waits for ever at a command without a reply.  The byte streams do exactly
    what [run_script] says of lines and replies. *)
Theorem process_stdin_script script bodies fd :
  Forall (text_line MAXLINE) script -> Forall (Forall reply_line) bodies ->
  f_inbox fd = inbox_of bodies ->
  let '(rc, sent, out, rest) := run_script (f_closes fd) script bodies (f_sent fd) (f_stdout fd) in
  process_stdin (concat script) fd = ended rc (mkStream sent (inbox_of rest) out (f_closes fd)).
Proof.
  intros Hs Hb Hi. apply stdin_loop_script; try done.
  pose proof (length_concat_lines MAXLINE script Hs). lia.
Qed.

(** A line of more than 79 characters is read in pieces; when the rest of it is "EOF" it is taken for
    the end of the reply, and the lines after it for the reply to the next command. *)
Theorem long_line_ends_reply pre more fd : length pre = 79%nat -> newline ∉ pre -> 0 ∉ pre ->
  f_inbox fd = pre ++ EOF_LINE ++ more ->
  copy_reply fd = Done (1%nat, is_error pre) (mkStream (f_sent fd) more (f_stdout fd ++ pre) (f_closes fd)).
Proof.
  intros Hlen Hn H0 Hi.
  assert (forall l s, newline ∉ l -> take_line (length l) (l ++ s) = (l, s)) as Htake.
  { induction l as [|c l IH]; intros s Hl; [by destruct s|].
    apply not_elem_of_cons in Hl as [Hc Hl]. cbn [length take_line app].
    rewrite (proj2 (Z.eqb_neq c newline)) by congruence. by rewrite IH. }
  assert (fgets_path REPLY_SIZE fd = Done (Some pre) (fd <| f_inbox := EOF_LINE ++ more |>)) as Hf.
  { unfold fgets_path. erewrite bind_done by reflexivity. rewrite Hi. unfold fgets.
    destruct (pre ++ EOF_LINE ++ more) eqn:E; [by destruct pre|]. rewrite <- E.
    assert (take_line (REPLY_SIZE - 1) (pre ++ EOF_LINE ++ more) = (pre, EOF_LINE ++ more)) as ->.
    { change (REPLY_SIZE - 1)%nat with 79%nat. rewrite <- Hlen. by apply Htake. }
    unfold whole_piece. rewrite Hlen. by rewrite orb_true_r. }
  unfold copy_reply. erewrite bind_done by reflexivity. rewrite Hi, length_app, Hlen. cbn [Nat.add reply_loop].
  erewrite bind_done by exact Hf. cbv beta iota zeta. rewrite c_string_id by done.
  unfold STREQ at 1. rewrite bool_decide_eq_false_2 by (intros ->; done).
  erewrite bind_done by reflexivity. cbn [reply_loop].
  erewrite bind_done by (eapply fgets_path_line; [apply eof_line_text|reflexivity]). cbv beta iota zeta.
  rewrite c_string_id by apply eof_line_text. unfold STREQ. rewrite bool_decide_eq_true_2 by done.
  assert (strncmp_eq EOF_LINE ERROR_STRING (length ERROR_STRING) = false) as -> by (by vm_compute).
  cbn [orb]. by rewrite orb_false_r.
Qed.

(** ** Polling *)
Section PollTheorems.
Context (sock : bool) (do_while do_until : option (list Z)).

(** What the answer to one command means: the program stops with a result, or asks again. *)
Definition found (word : option (list Z)) (answer : list (list Z)) : bool := existsb (finds word) answer.
Definition verdict (answer : list (list Z)) : option Z :=
  if found do_until answer then Some 0
  else match do_while, do_until with
       | None, None => Some 0
       | None, Some _ => None
       | Some _, None => if found do_while answer then None else Some 0
       | Some _, Some _ => if found do_while answer then None else Some (-1)
       end.

(** A whole answer: one line of a device; of a socket the lines up to one with "EOF". *)
Definition whole_answer (answer : list (list Z)) : Prop :=
  Forall (fun l => 0 ∉ l) answer /\
  exists front last, answer = front ++ [last] /\
    if sock then Forall (fun l => strstr l (chars "EOF") = false) front /\ strstr last (chars "EOF") = true
    else front = [].

Lemma read_replies_whole answer more reply fw fu : whole_answer answer ->
  exists reply', read_replies sock do_while do_until ((Some <$> answer) ++ more) reply fw fu =
    Some (fw || found do_while answer, fu || found do_until answer, reply', more).
Proof.
  intros [H0 (front & last & -> & Hw)]. revert reply fw fu.
  induction front as [|l front IH]; intros reply fw fu.
  - apply Forall_cons in H0 as [H0 _]. exists last. cbn [app fmap list_fmap read_replies].
    rewrite c_string_id by done. unfold found. cbn [existsb]. rewrite !orb_false_r.
    destruct sock; cbn [negb orb]; [|done]. by destruct Hw as [_ ->].
  - cbn [app fmap list_fmap] in *. apply Forall_cons in H0 as [Hl H0].
    destruct sock; [|done]. destruct Hw as [Hf Hlast]. apply Forall_cons in Hf as [Hfl Hf].
    cbn [read_replies]. rewrite c_string_id by done. rewrite Hfl. cbn [negb orb].
    destruct (IH H0 (conj Hf Hlast) l (fw || finds do_while l) (fu || finds do_until l)) as [reply' E].
    exists reply'. rewrite E. unfold found. cbn [existsb]. by rewrite !orb_assoc.
Qed.

(** The first answer with a verdict. *)
Fixpoint first_verdict (n : nat) (answers : list (list (list Z))) : Polled :=
  match answers with
  | [] => Polled_waiting (S n)
  | a :: answers => match verdict a with Some rc => Polled_result rc (S n) | None => first_verdict (S n) answers end
  end.

Lemma poll_rounds_answers reopen answers fuel n reply :
  (sock = true \/ forall k, reopen k = 0) -> Forall whole_answer answers -> (length answers < fuel)%nat ->
  poll_rounds sock do_while do_until reopen fuel n (Some <$> concat answers) reply =
    Some (first_verdict n answers).
Proof.
  intros Ho Hw. revert fuel n reply. induction Hw as [|a answers Ha Hw IH]; intros fuel n reply Hf;
    (destruct fuel as [|fuel]; [cbn in Hf; lia|]); cbn [poll_rounds concat first_verdict]; [done|].
  rewrite fmap_app. destruct (read_replies_whole a (Some <$> concat answers) reply false false Ha) as [reply' ->].
  cbn [orb]. unfold verdict. destruct (found do_until a) eqn:Hu; [done|].
  assert (found None a = false) as Hnone by (unfold found; clear; by induction a).
  assert (negb sock && istrue (reopen (S n)) = false) as ->.
  { destruct Ho as [-> | ->]; [done|]. by rewrite andb_false_r. }
  cbn [length] in Hf. specialize (IH fuel (S n) reply' ltac:(lia)).
  destruct do_while as [w|], do_until as [u|]; cbn [bool_decide decide]; rewrite ?Hnone;
    repeat first [rewrite bool_decide_eq_true_2 by done | rewrite bool_decide_eq_false_2 by done];
    cbn [andb orb negb]; try done;
    match goal with |- context [found ?x a] => by destruct (found x a) end.
Qed.

(** C23: polling, when the path gives whole answers (and a device can be opened again): the command is sent
    until an answer decides, and no more often.  The word of "until" in any line of the answer is
    success.  Without it, success is the first answer without the word of "while".  With both, an
    answer with neither is a failure. *)
Theorem do_poll_answers reopen answers reply :
  (sock = true \/ forall k, reopen k = 0) -> Forall whole_answer answers ->
  do_poll sock do_while do_until reopen (Some <$> concat answers) reply = Some (first_verdict 0 answers).
Proof.
  intros Ho Hw. apply poll_rounds_answers; [done..|].
  enough (length answers <= length (Some <$> concat answers))%nat by lia.
  rewrite length_fmap. clear Ho. induction Hw as [|a answers (_ & f & l & -> & _) _ IH]; [done|].
  cbn [concat length]. rewrite !length_app. cbn [length]. lia.
Qed.

Lemma read_replies_shrinks reads reply fw fu fw' fu' reply' more :
  read_replies sock do_while do_until reads reply fw fu = Some (fw', fu', reply', more) ->
  (length more < length reads)%nat.
Proof.
  revert reply fw fu. induction reads as [|r reads IH]; intros reply fw fu; cbn [read_replies length]; [done|].
  destruct (_ || _); [intros [= _ _ _ ->]; lia|]. intros H. apply IH in H. lia.
Qed.

Lemma do_poll_total reopen reads reply :
  is_Some (do_poll sock do_while do_until reopen reads reply).
Proof.
  unfold do_poll. enough (forall fuel n reply, (length reads < fuel)%nat ->
    is_Some (poll_rounds sock do_while do_until reopen fuel n reads reply)) as H by (apply H; lia).
  intros fuel. revert reads. clear reply. induction fuel as [|fuel IH]; intros reads n reply Hf; [lia|].
  cbn [poll_rounds]. destruct (read_replies _ _ _ _ _ _ _) as [[[[fw fu] reply'] more]|] eqn:E; [|by eexists].
  apply read_replies_shrinks in E. destruct fu; [by eexists|]. destruct (_ && negb fw); [by eexists|].
  destruct (_ || _); [|by eexists]. destruct (_ && istrue _); [by eexists|]. apply IH. lia.
Qed.
End PollTheorems.

(** A socket that has no answer yet leaves the last line of the answer before in the buffer, which
    has "EOF" and ends the reading: a poll with "while" alone then stops with success, although the
    card still was in that state when it last said so. *)
Theorem stale_reply_ends_poll word line reopen reads reply :
  0 ∉ line -> strstr line word = true -> strstr line (chars "EOF") = false ->
  strstr EOF_LINE word = false ->
  do_poll true (Some word) None reopen (Some line :: Some EOF_LINE :: None :: reads) reply =
    Some (Polled_result 0 2).
Proof.
  intros H0 Hw He Hn. unfold do_poll. cbn [length poll_rounds].
  assert (strstr EOF_LINE (chars "EOF") = true) as Heof by (by vm_compute).
  assert (c_string EOF_LINE = EOF_LINE) as Hc by (by vm_compute).
  cbn [read_replies negb orb finds]. rewrite c_string_id, Hw, He, Hc, Hn, Heof by done.
  cbn [negb orb andb bool_decide]. rewrite !bool_decide_eq_true_2 by done.
  rewrite !bool_decide_eq_false_2 by done. cbn [read_replies finds negb orb andb].
  by rewrite Hn, Heof.
Qed.

(** ** Names of nodes *)

(** Whatever board numbers are given, the names of the nodes fit in [devname_buffer], with their
    ends. *)
Theorem device_name_fits n : - 2 ^ 31 <= n < 2 ^ 31 ->
  (length (MFMT n n) < 80)%nat /\ (length (SHELL_FMT n) < 80)%nat.
Proof.
  intros Hn. pose proof (fmt_d_bound n Hn). unfold MFMT, SHELL_FMT. rewrite !length_app.
  change (length (chars "/dev/acq32/acq32.")) with 17%nat. change (length (chars ".m")) with 2%nat.
  change (length (chars "/dev/acq200/acq200.")) with 19%nat. change (length (chars ".rsh")) with 4%nat. lia.
Qed.

(** ** The alarm *)
Lemma get_options_alarms opts c c' : get_options opts c = Some c' ->
  alarms c' = alarms c ++ omap (fun o => match o with OptTimeout n => Some n | _ => None end) opts.
Proof.
  revert c. induction opts as [|o opts IH]; intros c H; cbn [get_options] in H.
  - injection H as <-. by rewrite app_nil_r.
  - destruct o; [..|]; try discriminate; apply IH in H; cbn [alarms] in H; rewrite H; cbn [omap list_omap];
      by rewrite <- ?app_assoc.
Qed.

(** With the option [--timeout n], [n] not 0, and none after it, the program ends: when its job takes
    [n] seconds or for ever, with the message and a status that none of its own results has. *)
Theorem timeout_ends_program opts1 n opts2 c c' seconds code :
  get_options (opts1 ++ OptTimeout n :: opts2) c = Some c' ->
  (forall m, OptTimeout m ∉ opts2) -> 0 < n < 2 ^ 32 -> -1 <= code <= 1 ->
  exists out, under_alarm (armed c') seconds code = Some out /\
    (snd out = exit_status (- ETIMEDOUT) <->
     match seconds with Some s => n <= s | None => True end) /\
    (snd out <> exit_status (- ETIMEDOUT) -> out = ([], exit_status code)).
Proof.
  intros Hg Hno Hn Hc. assert (armed c' = Some n) as ->.
  { unfold armed. apply get_options_alarms in Hg as ->. rewrite omap_app. cbn [omap list_omap].
    assert (omap (fun o => match o with OptTimeout n => Some n | _ => None end) opts2 = []) as ->.
    { induction opts2 as [|o opts2 IH]; [done|]. cbn [omap list_omap].
      rewrite IH by (intros m Hm; apply (Hno m), list_elem_of_further, Hm).
      destruct o; try done. exfalso. apply (Hno n0), list_elem_of_here. }
    rewrite app_assoc, fold_left_app. cbn [fold_left]. unfold alarm. rewrite u32_id by lia.
    by rewrite (proj2 (Z.eqb_neq n 0)) by lia. }
  assert (exit_status code <> exit_status (- ETIMEDOUT)) as Hd.
  { assert (code = -1 \/ code = 0 \/ code = 1) as [-> | [-> | ->]] by lia; by vm_compute. }
  destruct seconds as [s|]; cbn [under_alarm]; eexists; (split; [reflexivity|]); [|by split].
  destruct (Z.leb_spec n s); cbn [snd]; (split; [split; [done||lia|done||lia]|done]).
Qed.
