(* ===== verification/Witnesses.v ===== *)
(** * The theorems at concrete inputs

    A small platform, a device made on it, a few states of the device, and the theorems on one device
    and on the streaming loop applied where their hypotheses hold.  The other theorems are in the file
    [LifeWitnesses]. *)

From Stdlib Require Import String.
From S2P Require Import Prelude CString BusProt StreamBuf Pool Device Rch I2o Isr Kernel Outer.
From S2P Require Import Owner Frames Sleep Mask Mailbox Waits Path Bridge Acquire Requests Completes Writes Answered Release BufferAB Nodes Mmap.
From S2P Require Import Init Sysfs HtStream.

(** ** Platforms *)

(** A card that gives the frame at 0x400, has no reply waiting and acknowledges every command; a user
    memory without faults. *)
Definition sample_reply (log : list Io) (reg : Z) : Z :=
  if reg =? CSR ACQ200_IQP then 0x400
  else if reg =? CSR ACQ200_OQP then PCI_I2O_INVALID_MFA
  else if reg =? MBOX BP_MB_COMMAND then BP_CI_ACK
  else 0.
Definition sample_platform : Platform :=
  {| card_reply := sample_reply; copy_fault := fun _ _ => 0; HZ := 100; NR_IRQS := 16; kthread_starts := fun _ => true |}.

(** The same, with a user memory that cannot be accessed. *)
Definition faulty_platform : Platform :=
  {| card_reply := sample_reply; copy_fault := fun _ n => n; HZ := 100; NR_IRQS := 16; kthread_starts := fun _ => true |}.

(** The same, with a card that has no frame left. *)
Definition full_platform : Platform :=
  {| card_reply := fun _ _ => PCI_I2O_INVALID_MFA; copy_fault := fun _ _ => 0; HZ := 100; NR_IRQS := 16; kthread_starts := fun _ => true |}.

(** ** States *)
Definition sample_buf : DmaBuf := mkDmaBuf 2 0x10000 0x200000.
Definition sample_path : Acq200Path :=
  mkPath 3 sample_buf (mkDmaBuf 0 0x8000 0x3000) 0 false (None, None)
    (mkIoMapping 0 0 0, mkIoMapping 0 0 0) 0 0 0 zero_mbc zero_message.
Definition sample_file : File := mkFile 0 (Z.lor (Z.shiftl 254 20) 3).

Definition sample_dev : Acq200Device :=
  setf dma_buf (fun _ => sample_buf)
    (setf mbox_sync (setf mbox_mutex (fun _ => 1))
    (setf buffer_AB_busy_mutex (fun _ => 1)
    (setf clients_mutex (fun _ => 1)
    (setf streambuf (fun _ => freshStreamBuf)
    (@zero_device sample_platform 0 11 80))))).
Definition sample_base : World :=
  mkWorld default_params [] ∅ ∅ sample_dev [] [] {[0%nat := sample_path]} [] 0 false [].

(** A device as it is created, with one path open. *)
Definition sample : World := Eval vm_compute in pools_created sample_base.

Lemma sample_inv : dev_inv sample.
Proof.
  assert (sample = pools_created sample_base) as -> by (vm_compute; reflexivity).
  apply pools_created_inv; [vm_compute; reflexivity..|]. split; vm_compute; congruence.
Qed.

Lemma sample_fresh : fresh_pools sample sample_buf.
Proof.
  assert (sample = pools_created sample_base) as -> by (vm_compute; reflexivity).
  apply (pools_created_fresh sample_base). split; vm_compute; congruence.
Qed.

Lemma sample_idle : idle sample.
Proof.
  intros r x Hx _. change (rchs sample) with (replicate 16 zero_rch) in Hx. by apply lookup_replicate in Hx as [-> _].
Qed.

(** The same with handler 0 queued for a reply, holding mapping 0. *)
Definition busy_rch : ReturnCommandHandler :=
  mkRch i2o_recycleRchWrapper_fn (Some 0%nat) (Some 0) 220 (mkRchReturn 0 0 0 (KPool 0) RCH_KB_POOL) LinkSelf.
Definition taken : World := Eval vm_compute in taken_map 0 (taken_rch 0 sample).
Definition built : World := Eval vm_compute in setf rchs (alter (fun x => busy_rch <| rlink := rlink x |>) 0%nat) taken.
Definition busy : World := Eval vm_compute in linked 0 (fun l => l ++ [0%nat]) LinkIn built.

Lemma taken_inv : dev_inv taken.
Proof.
  apply (inv_mono sample); [apply sample_inv|reflexivity..|intros p Hp; exact Hp| | | | | |].
  - change (pool_wf (reserve 0 (handlers (dev sample)))).
    apply reserve_wf; [apply sample_inv|by apply Nat.ltb_lt].
  - apply (reserve_same_items (handlers (dev sample)) 0).
  - change (pool_wf (reserve 0 (mappings (dev sample)))).
    apply reserve_wf; [apply sample_inv|by apply Nat.ltb_lt].
  - apply (reserve_same_items (mappings (dev sample)) 0).
  - intros r Hr. change (is_reserved (reserve 0 (handlers (dev sample))) r = true).
    rewrite (is_reserved_reserve _ _ (mkPoolEntry false 0%nat)); [|apply sample_inv|reflexivity].
    by case_decide.
  - intros k Hk. change (is_reserved (reserve 0 (mappings (dev sample))) k = true).
    rewrite (is_reserved_reserve _ _ (mkPoolEntry false (KPool 0))); [|apply sample_inv|reflexivity].
    by case_decide.
Qed.

Lemma built_inv : dev_inv built.
Proof.
  assert (built = setf rchs (alter (fun x => busy_rch <| rlink := rlink x |>) 0%nat) taken) as ->
    by (vm_compute; reflexivity).
  apply inv_upd_unqueued; [apply taken_inv| |done]. by apply not_elem_of_nil.
Qed.

Lemma busy_inv : dev_inv busy.
Proof.
  assert (busy = linked 0 (fun l => l ++ [0%nat]) LinkIn built) as -> by (vm_compute; reflexivity).
  apply (inv_enqueue built 0%nat busy_rch).
  - apply built_inv.
  - by apply not_elem_of_nil.
  - vm_compute. reflexivity.
  - by eexists.
  - exists 0%nat. split; [done|]. by eexists.
  - vm_compute. reflexivity.
  - intros k Hk. assert (k = KPool 0) as -> by (vm_compute in Hk; congruence).
    split; [vm_compute; reflexivity|]. intros r' [Hr' _]. by apply not_elem_of_nil in Hr'.
Qed.

(** ** The bottom half and the frames *)
Lemma events_safe_witness :
  let P := sample_platform in
  total (run_event EvIrq) (fun _ w' => evolves busy w') busy.
Proof. apply (@events_safe sample_platform EvIrq busy busy_inv). Defined.

Lemma bottom_half_returns_frames_witness :
  let P := sample_platform in
  total acq200_streaming_isr_bh (fun _ w' => evolves busy w' /\ frames_post busy w') busy.
Proof. apply (@bottom_half_returns_frames sample_platform busy busy_inv). Defined.

Lemma sample_mfa : mfa_ok 0x400.
Proof. split; [lia|]. vm_compute. congruence. Qed.

Lemma consume_keeps_frame_witness :
  let P := sample_platform in
  total (acq200_consume_i2o 0x400) (fun _ w' => evolves busy w' /\ consumed 0x400 busy w') busy.
Proof. apply (@consume_keeps_frame sample_platform 0x400 busy busy_inv sample_mfa). Defined.

(** ** The pools *)
Lemma sample_free_rch : has_free (handlers (dev sample)).
Proof. exists 0%nat, (mkPoolEntry false 0%nat). by split. Qed.
Lemma sample_free_map : has_free (mappings (dev sample)).
Proof. exists 0%nat, (mkPoolEntry false (KPool 0)). by split. Qed.

Lemma alloc_correct_witness :
  let P := sample_platform in
  total acq200_pool_alloc_rch (alloc_post (inv := ages sample) (host_pool (A := nat) sample)) sample.
Proof.
  refine (proj2 (@alloc_correct World nat handlers_host (@handlers_sleeper sample_platform) _ (ages sample)
           (@handlers_laws sample_platform sample sample_inv) calm
           (@handlers_calm sample_platform sample sample_inv) sample _) _).
  - split; [apply (evolves_refl sample sample_inv)|lia].
  - split; [reflexivity|apply not_elem_of_nil].
Defined.

(** With a signal pending, and nobody left to free a handler, the allocator goes round for ever. *)
Definition all_taken : World := upd_dev (setf handlers (fun p =>
  mkPool (max_entries p) ((fun e => mkPoolEntry true (item e)) <$> entries p) (cursor p)))
  (sample <| sigpending := true |>).
Example alloc_spins : @acq200_pool_alloc_rch sample_platform all_taken = Blocked all_taken.
Proof. vm_compute. reflexivity. Qed.


Lemma alloc_round_robin_witness :
  let P := sample_platform in
  exists j f, next_free (host_pool (A := nat) sample) j f /\
    acq200_pool_alloc_rch sample = Done (Some (item f)) (host_set_pool (reserve j (host_pool sample)) sample).
Proof.
  apply (alloc_round_robin (W := World) (A := nat) sample 0%nat (mkPoolEntry false 0%nat));
    [apply (di_handlers _ sample_inv)|reflexivity|reflexivity].
Defined.

(** ** Reads, writes, release *)
Lemma bridge_read_outcome_witness :
  let P := sample_platform in
  outcome (acq200_bridge_read sample_file 0x5000 0x1000 0)
    (read_post sample_file 0x5000 0 sample) (read_fault sample) sample.
Proof.
  apply (@bridge_read_outcome sample_platform sample_file 0x5000 0 sample 0x1000 sample_inv sample_idle).
  by exists sample_path.
Defined.

(** A card that answers: the message cause is set, and the frame at 0x800 is on the outbound queue. *)
Definition answering_platform : Platform :=
  {| card_reply log reg :=
       if reg =? CSR ACQ200_IQP then 0x400 else if reg =? CSR ACQ200_OISR then 8
       else if reg =? CSR ACQ200_OQP then 0x800 else 0;
     copy_fault := fun _ _ => 0; HZ := 100; NR_IRQS := 16; kthread_starts := fun _ => true |}.
Definition sample_answer : Message :=
  mkMessage (MAKE_ID_DTACQ 1) 32 (MAKE_MT_COMMAND (mtc_value MTC_HOST_REQUEST_DATA_HOSTBOUND))
    (mkHrdr 0 0 2 3 1) zero_hrdr.
(** The sample device, while the card is about to answer the next read with four bytes. *)
Definition answered : World :=
  sample <| sched := [EvCard 1 [(0x11000, [65; 66; 67; 10]); (0x10800, message_bytes sample_answer)];
                      EvIrq; EvTasklet; EvTick] |>.

Lemma answered_inv : dev_inv answered.
Proof. by apply (inv_same sample); [apply sample_inv|..]. Qed.

Lemma read_completes_witness :
  let P := answering_platform in
  exists r w', acq200_bridge_read sample_file 0x5000 0x1000 0 answered = Done (4, 0 + 4) w' /\
    dev_inv w' /\ umem w' = mem_write ∅ 0x5000 [65; 66; 67; 10] /\
    given_back answered w' r (KPool 1) /\ sched w' = [EvTick] /\
    iolog w' = [] ++ sent answered (read_request sample_file 0 answered (mkIoMapping 0x11000 0x201000 0x1000) 0x1000)
                  ++ answer_log 1 8 0x800.
Proof.
  apply (@read_completes answering_platform sample_file 0x5000 0 answered 0x1000 1%nat
    (mkIoMapping 0x11000 0x201000 0x1000) 1%nat (mkPoolEntry false (KPool 1)) 1 8 0x800
    [65; 66; 67; 10] sample_answer [EvTick]).
  - constructor; [apply answered_inv|by exists sample_path|by exists 1%nat, (mkPoolEntry false 1%nat)|..];
      try (vm_compute; repeat split; congruence).
    intros r x Hr. by apply elem_of_nil in Hr.
  - split; [reflexivity|]. split; [reflexivity|]. intros j' e' _ _.
    destruct j' as [|[|j']]; vm_compute; lia.
  - reflexivity.
  - reflexivity.
  - constructor; try (vm_compute; repeat split; congruence).
    + repeat constructor; vm_compute; congruence.
    + left. vm_compute. congruence.
  - vm_compute. congruence.
Defined.

Lemma sent_message_typed_witness :
  let P := sample_platform in
  let m := hrd_message (MAKE_ID_DTACQ 1) sample_file 0x1000 0 0x800 1 LDH_OUTBOUND HRD_CHAN_IS_FILE in
  total (let* m := build_hrd_message sample_file 0x1000 0 0x800 1 LDH_OUTBOUND HRD_CHAN_IS_FILE in
         acq200_sendI2O_kbuf (PD sample_file) m)
    (fun rc w' => rc = 0 /\ message_ok m /\ MESSAGE_ACTUAL_LEN m = Z.of_nat (length (message_bytes m)) /\
       message_at (mem w') (frame_va sample 0x400) = m) sample.
Proof.
  apply (@sent_message_typed sample_platform sample_file 0x1000 0 0x800 1 LDH_OUTBOUND HRD_CHAN_IS_FILE sample);
    [by exists sample_path|vm_compute; congruence].
Defined.

Lemma bridge_write_outcome_witness :
  let P := sample_platform in
  outcome (acq200_bridge_write sample_file 0x5000 0x1000 0)
    (write_post sample_file 0x5000 0 0x1000 sample) (write_fault sample) sample /\
  total (acq200_bridge_write sample_file 0x5000 0x1000 0) (write_at_once sample_file 0x5000 0 0x1000 sample) sample.
Proof.
  destruct (@bridge_write_outcome sample_platform sample_file 0x5000 0 sample 0x1000) as [Ho Ht];
    [lia|apply sample_inv|apply sample_idle|by exists sample_path|].
  split; [exact Ho|]. apply Ht; [apply sample_free_rch|apply sample_free_map].
Defined.

Lemma write_completes_witness :
  let P := answering_platform in
  exists r j m w1 w2, acq200_bridge_write sample_file 0x5000 0x100 0 sample = Done (0x100, 0 + 0x100) w1 /\
    answer_events w1 7 0x800 sample_answer w1 = Done tt w2 /\ given_back sample w2 r (KPool j) /\
    iolog w2 = iolog sample ++ write_seen sample_file 0x5000 0 sample m 0x100 ++ answer_log 7 8 0x800.
Proof.
  destruct (@write_completes answering_platform sample_file 0x5000 0 sample 0x100)
    as (r & j & m & w1 & E & Hm & _ & _ & _ & _ & Hans).
  - constructor; [apply sample_inv|by exists sample_path|apply sample_free_rch|apply sample_free_map|..];
      try (vm_compute; repeat split; congruence).
    intros r x Hr. by apply elem_of_nil in Hr.
  - lia.
  - destruct (Hans 7 8 0x800 sample_answer) as (w2 & Ea & _ & Hg & _ & Hl).
    { constructor; try (vm_compute; repeat split; congruence). repeat constructor; vm_compute; congruence. }
    assert (umin 0x100 (map_len m) = 0x100) as Hn.
    { pose proof (fp_maps _ _ sample_fresh) as Hf. assert (j < 4)%nat as Hj by (apply lookup_lt_Some in Hm; exact Hm).
      rewrite Hf in Hm by exact Hj. injection Hm as <-. vm_compute. reflexivity. }
    rewrite Hn in *. by exists r, j, m, w1, w2.
Defined.

Lemma cleanup_on_release_witness :
  let P := sample_platform in
  total (_cleanup_on_bridge_release 0 >> acq200_deletePath 0) (fun _ w' =>
      dev_inv w' /\ paths w' = delete 0%nat (paths busy) /\
      exists w1, cleaned 0 busy w1 /\ w' = setf paths (delete 0%nat) w1) busy.
Proof. apply (cleanup_on_release 0 busy busy_inv). Defined.

(** ** Messages and mailboxes *)
Lemma message_posted_witness :
  let P := sample_platform in
  exists w' x, (buildRch 1 i2o_recycleRchWrapper_fn 0 (KPool 1) RCH_KB_POOL >>
                acq200_sendI2O_kbuf 0 sample_message) sample = Done 0 w' /\
    rchs w' !! 1%nat = Some x /\
    let mfa := Z.land (next_frame sample) MFA_MASK in
    iolog w' = iolog sample ++ [IoRd (CSR ACQ200_IQP) (next_frame sample);
      IoMem (frame_va sample mfa) (message_bytes (with_id (command_id x) sample_message));
      IoWr (CSR ACQ200_IQP) mfa] /\
    message_at (mem w') (frame_va sample mfa) = with_id (command_id x) sample_message /\
    i2o_last_id_out (m_dpd (dev w')) = s16 (i2o_last_id_out (m_dpd (dev sample)) + 1).
Proof.
  apply (@message_posted sample_platform 1 i2o_recycleRchWrapper_fn 0 (KPool 1) RCH_KB_POOL
           sample_message sample zero_rch sample_path);
    [reflexivity|reflexivity|apply sample_message_ok|reflexivity|vm_compute; congruence].
Defined.

Lemma failed_send_steals_reply_witness :
  let P := full_platform in
  exists w', (buildRch 1 i2o_handleReadMessageFile_fn 0 (KPool 1) 1 >> rchAppend 1 >>
              let* _ := acq200_sendI2O_kbuf 0 sample_message in
              buildRch 2 i2o_handleReadMessageFile_fn 0 (KPool 2) 1) sample = Done tt w' /\
    exists x1 x2, rchs w' !! 1%nat = Some x1 /\ rchs w' !! 2%nat = Some x2 /\
      command_id x1 = command_id x2 /\
      find_rch (command_id x2) (queued w') w' = Done (Some 1%nat) w'.
Proof.
  apply (@failed_send_steals_reply full_platform 1 2 i2o_handleReadMessageFile_fn
           i2o_handleReadMessageFile_fn 0 (KPool 1) (KPool 2) 1 1 sample_message sample zero_rch zero_rch
           sample_path); [done|reflexivity|reflexivity|reflexivity|done|reflexivity|reflexivity].
Defined.

Definition sample_mbc : MailboxControl :=
  mkMbc (Z.lor (Z.lor 100 (MBC_TO_MBXW 0xf)) (MBC_TO_MBXR 0xf)) [0xc0; 1; 2; 3] [0; 0; 0; 0].

Lemma wbr_mbox_polling_witness :
  let P := sample_platform in
  total (acq200_ioctl_wbr_mbox sample_mbc) (fun '(rc, mbc') w' =>
    dev_inv w' /\ sem_get mbox_sem sample <= sem_get mbox_sem w' /\ (rc = 0 \/ rc = - ETIMEDOUT) /\
    exists polls, iolog w' = iolog sample ++ box_writes sample_mbc ++ polls ++
        box_reads (MBC_FROM_MBXR sample_mbc) mbc' /\
      (rc = 0 -> exists l v, iolog sample ++ box_writes sample_mbc ++ polls =
          l ++ [IoRd (MBOX BP_MB_COMMAND) v] /\ Z.testbit v BP_CI_ACK_BIT = true)) sample.
Proof.
  apply (@wbr_mbox_polling sample_platform sample_mbc sample sample_inv);
    [reflexivity|vm_compute; reflexivity|reflexivity].
Defined.

Lemma mailbox_command_last_witness :
  let P := sample_platform in
  last (box_writes sample_mbc) = Some (IoWr (MBOX BP_MB_COMMAND) 0xc0).
Proof.
  apply (proj1 (proj2 (mailbox_command_last sample_mbc sample))). reflexivity.
Defined.

Lemma mbox_ioctl_hides_error_witness :
  let P := sample_platform in
  let action := fun m => (ret (- ETIMEDOUT, m) : MW (Z * MailboxControl)) in
  acq200_mbox_ioctl sample_file 0x5000 action sample =
    Done 0 (sample <| umem := mem_write (umem sample) 0x5000 (mbc_bytes (mbc_at (umem sample) 0x5000)) |>).
Proof.
  apply (@mbox_ioctl_hides_error sample_platform sample_file 0x5000
           (fun m => ret (- ETIMEDOUT, m)) sample sample_path (- ETIMEDOUT));
    [reflexivity|reflexivity|reflexivity|reflexivity|reflexivity].
Defined.

Lemma sendCommandA3A4_flags_witness :
  let word := A3A4_word (Z.lor (BP_SET_FUNCODE 0x42) (BP_SET_A1 4)) in
  Z.testbit word BP_CI_A3_BIT = false /\ Z.testbit word BP_CI_A4_BIT = false /\
  BP_GET_A2 word = 3 /\ BP_GET_FUNCODE word = 0x42 /\ BP_GET_A1 word = 4.
Proof. apply (sendCommandA3A4_flags 0x42 4); lia. Defined.

(** ** Interrupts *)
Lemma ints_mask_visits_witness :
  acq200_intsDisable 0x8000000a sample = Done 0 (sample <| irqops := [disable_irq_nosync 31;
    disable_irq_nosync 3; disable_irq_nosync 1] |>).
Proof. apply (ints_mask_visits 0x8000000a sample); [lia|lia]. Defined.

(** The mask string 2f, of which lines 0 to 3 and 5 are to be disabled. *)
Definition masked : World :=
  Eval vm_compute in upd_dev (setf imask (fun _ => chars "2f")) sample.

Lemma ints_mask_string_witness :
  let P := sample_platform in
  exists arr, acq200_intsMask masked =
    Done 0 (upd_dev (fun d => d <| imask_a := arr |>) masked <| irqops := irqops masked ++
      flat_map (fun k => line_ops (digit_from_end (imask (dev masked)) k)
                           (nth (4 - 1 - k) (imask_a (dev masked)) 0) (4 * Z.of_nat k)) (seq 0 4) |>) /\
    length arr = length (imask_a (dev masked)) /\
    forall k, (k < 4)%nat -> nth (4 - 1 - k) arr 0 = digit_from_end (imask (dev masked)) k.
Proof.
  apply (@ints_mask_string sample_platform masked 4).
  - vm_compute. congruence.
  - reflexivity.
  - apply Nat.leb_le. reflexivity.
  - intros i Hi. destruct i as [|[|[|[|i]]]]; [..|lia]; vm_compute; split; congruence.
Defined.

Lemma store_imask_prefix_witness :
  let P := sample_platform in
  exists w', acq200_intsMask (upd_dev (setf imask (fun _ => chars "2f")) sample) = Done 0 w' /\
    store_imask (chars "2f" ++ [newline]) sample = Done 3 w' /\
    show_imask w' = Done (chars "2f" ++ [newline]) w'.
Proof.
  apply (@store_imask_prefix sample_platform (chars "2f") [] sample).
  - split; [reflexivity|]. split; [reflexivity|]. vm_compute. congruence.
  - repeat constructor.
  - reflexivity.
Defined.

(** A card that always interrupts for a message, and has none. *)
Definition stormy_platform : Platform :=
  {| card_reply := fun _ reg => if reg =? CSR ACQ200_OISR then 8
                                else if reg =? CSR ACQ200_OQP then PCI_I2O_INVALID_MFA else 0;
     copy_fault := fun _ _ => 0; HZ := 100; NR_IRQS := 16; kthread_starts := fun _ => true |}.

Lemma bad_mfa_masks_interrupt_witness :
  let P := stormy_platform in
  exists w', isr_times 101 sample = Done tt w' /\
    iolog w' = iolog sample ++ concat (replicate 101 (empty_reads 8)) ++ masking 0.
Proof.
  apply (@bad_mfa_masks_interrupt stormy_platform 8 0); [lia|reflexivity|lia|done..|lia].
Defined.

(** A card with only a cause that is ignored. *)
Definition ignored_platform : Platform :=
  {| card_reply := fun _ _ => 2; copy_fault := fun _ _ => 0; HZ := 100; NR_IRQS := 16; kthread_starts := fun _ => true |}.

Lemma isr_ignored_writes_word0_witness :
  let P := ignored_platform in
  acq200_isr sample = Done IRQ_NONE (sample <| iolog := [IoRd (CSR ACQ200_OISR) 2; IoWr 0 2] |>).
Proof. apply (@isr_ignored_writes_word0 ignored_platform sample). reflexivity. Defined.

(** ** Nodes *)
Lemma newfops_table_witness : newfops 237 = (acq200_bridge_fops, true).
Proof. apply (newfops_table 237). lia. Defined.

(** ** Mapping *)
Lemma sample_buf_ok : dma_buf_ok sample_buf.
Proof. constructor; vm_compute; try split; congruence. Qed.

Definition sample_vma : vm_area_struct := mkVma 0x40000000 0x40002000 0 VM_READ.

Lemma mmap_within_buffer_witness :
  exists rc o, acq200_mmap_host (fun _ _ _ => false) sample_file sample_vma sample = Done (rc, o) sample /\
    match o with
    | None => rc = - EINVAL /\ dma_buf_len sample_buf < vm_end sample_vma - vm_start sample_vma \/
              rc = - EAGAIN
    | Some r => rc = 0 /\ forall va, vm_start sample_vma <= va < vm_end sample_vma ->
        translate r va = Some (buf_pa sample_buf + (va - vm_start sample_vma)) /\
        va - vm_start sample_vma < dma_buf_len sample_buf
    end.
Proof.
  apply (mmap_within_buffer (fun _ _ _ => false) sample_file sample_vma sample sample_path).
  - reflexivity.
  - constructor; cbn; lia.
  - constructor.
  - apply sample_buf_ok.
Defined.

Lemma mmap_mbox_any_page_witness :
  exists pgoff r, 0 <= pgoff < 2 ^ 20 /\
    acq200_mmap_mbox (fun _ _ _ => false) sample_file
      (mkVma 0x40000000 (0x40000000 + PAGE_SIZE) pgoff (Z.lor VM_READ VM_WRITE)) sample =
      Done (0, Some r) sample /\
    forall i, 0 <= i < PAGE_SIZE -> translate r (0x40000000 + i) = Some (0x1000 + i).
Proof.
  apply (mmap_mbox_any_page (fun _ _ _ => false) sample_file 0x40000000 sample 0x1000);
    [by exists sample_path|reflexivity|reflexivity|split; vm_compute; congruence|split; vm_compute; congruence|done].
Defined.


Lemma fresh_mappings_disjoint_witness :
  exists m0 m3, maps sample !! 0%nat = Some m0 /\ maps sample !! 3%nat = Some m3 /\
    buf_va sample_buf <= map_va m0 /\ map_va m0 + map_len m0 <= map_va m3 /\
    map_va m3 + map_len m3 <= buf_va sample_buf + dma_buf_len sample_buf.
Proof.
  exists (mkIoMapping 0x10000 0x200000 0x1000), (mkIoMapping 0x13000 0x203000 0x1000).
  split; [reflexivity|]. split; [reflexivity|].
  apply (fresh_mappings_disjoint sample sample_buf 0 3 _ _ sample_fresh);
    [vm_compute; congruence|unfold NMAPPINGS; lia|reflexivity|reflexivity].
Defined.

(** ** Text *)
Lemma bigbuf_read_pieces_witness :
  let P := sample_platform in
  exists w', read_pieces sample_file 0x5000 [10; 0; 7; 100] 0 sample =
    Done (take (Z.to_nat (foldr Z.add 0 [10; 0; 7; 100])) (acq200_bigbuf_line sample)) w'.
Proof.
  apply (@bigbuf_read_pieces sample_platform sample_file 0x5000 [10; 0; 7; 100] sample sample_path);
    [reflexivity|done|repeat constructor; lia].
Defined.

(** ** Buffers A and B *)

(** Both requests were sent; buffer A, whose turn it is, has its reply, B not yet. *)
Definition ab_return (b : Z) : RchReturn := mkRchReturn (Zbool (b =? BUFFERA)) 7 1024 (KPath 0 b) 0.
Definition ab_rch (b : Z) : ReturnCommandHandler :=
  mkRch i2o_handleReadMessageFile_fn (Some 0%nat) (Some 0) 220 (ab_return b) LinkIn.
Definition ab_path : Acq200Path :=
  Eval vm_compute in setf rchAB (fun _ => (Some 0%nat, Some 1%nat)) sample_path.
Definition ab_world : World :=
  Eval vm_compute in
    setf paths (fun _ => {[0%nat := ab_path]}) (setf rchs (fun _ => [ab_rch BUFFERA; ab_rch BUFFERB]) sample).

Definition no_ops : BufferAB_Ops := mkABOps 0 100 0 (0, 0) (0, 0).

Lemma fill_status_in_turn_witness :
  let P := sample_platform in
  (let* r := fillDeviceStatus no_ops 0 in
   if fst r then let* r := fillDeviceStatus (snd r) 0 in ret (snd r) else ret (snd r)) ab_world =
    Done (report BUFFERA (ab_return BUFFERA) no_ops)
      (setf paths (alter (fun x => x <| ab_next := BUFFERB |>) 0%nat) ab_world).
Proof.
  apply (fill_status_in_turn no_ops 0 ab_world ab_path ab_return).
  constructor; [reflexivity|by left|].
  intros b [-> | ->]; eexists _, _; (split; [reflexivity|]); (split; [reflexivity|]); done.
Defined.

Lemma ioctlAB_fault_keeps_semaphore_witness :
  let P := faulty_platform in
  exists w', acq200_ioctlAB sample_file ACQ200_BUFFER_AB_IOWR 0x5000 sample = Done (- EFAULT) w' /\
    sem_get AB_busy_sem w' = sem_get AB_busy_sem sample - 1.
Proof.
  apply (@ioctlAB_fault_keeps_semaphore faulty_platform sample_file 0x5000 sample sample_path);
    [reflexivity|reflexivity|vm_compute; congruence].
Defined.

(** ** The client *)
Lemma client_follows_driver_witness :
  let '(c', stop) := client_step 50 60 (AOps 0 (driver_report BUFFERA ab_return no_ops)) client0 in
  c_work c' = [(BUFFERA, 1024)] /\ c_next c' = BUFFERB /\ ci_recycle (c_ops c') = BUFFER_A_FLAG /\ stop = None.
Proof.
  pose proof (client_follows_driver 50 60 client0 ab_return (or_introl eq_refl)) as E.
  exact E.
Defined.

Lemma files_bounded_witness :
  exists g', file_works (fun _ => 3) (fun len => len) [600; 600; 300] (mkFileInfo 1000 1 0 (-1) 0 0 []) =
    inl g' /\ 0 <= f_pos g' < 1000.
Proof.
  eexists. split; [reflexivity|].
  apply (files_bounded (fun _ => 3) (fun len => len) [600; 600; 300] (mkFileInfo 1000 1 0 (-1) 0 0 []));
    [cbn; lia|repeat constructor; cbn; lia|cbn; lia|reflexivity].
Defined.

Lemma files_cycle_witness :
  exists g', file_works (fun _ => 3) (fun len => len) (replicate 4 0x70000000)
      (mkFileInfo 0x80000000 2 0 (-1) 0 0 []) = inl g' /\
    f_opened g' = [0; 1; 2; 0] /\
    f_opened g' = (fun k => Z.of_nat k mod (2 + 1)) <$> seq 0 (length (f_opened g')).
Proof.
  eexists. split; [reflexivity|]. split; [reflexivity|].
  apply (files_cycle (fun _ => 3) (fun len => len) (replicate 4 0x70000000) _ 2);
    [done|lia|reflexivity].
Defined.

(** A client that waits for B, after it gave back A. *)
Definition waiting_client : Client := mkClient (mkABOps BUFFER_A_FLAG 50 1 (7, 0) (1024, 0)) BUFFERB 1024 2 0 true
  [(BUFFERA, 1024)].

(** A path whose buffer A has the queued handler. *)
Definition reused_path : Acq200Path := Eval vm_compute in setf rchAB (fun _ => (Some 0%nat, None)) sample_path.
Definition reused : World := busy <| paths := {[0%nat := reused_path]} |>.

Lemma reused_inv : dev_inv reused.
Proof.
  apply (inv_same busy); try done; [apply busy_inv|]. intros p [x Hx]. change (paths busy) with ({[0%nat := sample_path]} : gmap nat Acq200Path) in Hx.
  apply lookup_singleton_Some in Hx as [<- _]. by exists reused_path.
Qed.

Lemma timeout_recycles_again_witness :
  exists c' w', client_step 50 60 ATimeout waiting_client = (c', None) /\
    acq200_bufferABrecycle sample_file (c_ops c') reused = Done tt w' /\
    0%nat ∉ queued w' /\ fst <$> (rchAB <$> paths w' !! 0%nat) = Some None.
Proof.
  apply (@timeout_recycles_again 50 60 sample_platform waiting_client sample_file reused reused_path 0
           (busy_rch <| rlink := LinkIn |>)).
  - right. reflexivity.
  - reflexivity.
  - apply reused_inv.
  - reflexivity.
  - reflexivity.
  - apply list_elem_of_here.
  - reflexivity.
Defined.
