(* ===== verification/Races.v ===== *)
(** * The machine of processes at concrete inputs

    Runs of the machine on the sample device: one that obeys the exclusions of [orderly], and one that does
    not, in which a handler comes to belong to two processes and the reply queue is corrupted. *)

From S2P Require Import Prelude BusProt StreamBuf Pool Device Rch I2o Isr Kernel Outer.
From S2P Require Import Owner Frames Sleep Mask Mailbox Path Bridge Acquire Requests Writes Release Spares.
From S2P Require Import Exclusion Processes Runs Interleaved Shared Witnesses.

(** The sample device; its path was read before, and no process is in a call. *)
Definition read_before : World := Eval vm_compute in
  setf paths (alter (setf last_direction_hack (fun _ => LDH_INBOUND)) 0%nat) sample.
Definition at_rest : Machine := mkMachine read_before ∅.

Lemma at_rest_inv : machine_inv at_rest.
Proof.
  assert (dev_inv read_before) as Hi.
  { apply (inv_same sample); [apply sample_inv|done..| |done|done]. intros p [x Hx].
    change (paths sample) with ({[0%nat := sample_path]} : gmap nat Acq200Path) in Hx.
    apply lookup_singleton_Some in Hx as [<- _]. by eexists. }
  constructor; [exact Hi|exact sample_idle|..]; cbn [procs at_rest]; intros *; by rewrite lookup_empty.
Qed.

Definition other_file : File := mkFile 1 (Z.lor (Z.shiftl 254 20) 4).

(** Process 0 closes path 0, and the card answers its last message. *)
Definition close_answered : list Move :=
  [Opens 1 4; Calls 0 sample_file (Release_starts HRD_CHAN_IS_FILE); Turns 0 Wakes; Turns 0 (Takes 1);
   Happens (EvCard 1 [(0x10800, message_bytes sample_answer)]); Happens EvIrq; Happens EvTasklet].

(** Process 1 is given the handler of that message; only then does process 0 go on, and frees it; so process
    2 is given it too, and process 1 posts its request with it. *)
Definition racing : list Move := close_answered ++
  [Calls 1 other_file (Write_wants_handler 0x5000 0x100 0); Turns 1 (Takes 1);
   Turns 0 Wakes;
   Calls 2 other_file (Write_wants_handler 0x6000 0x100 0); Turns 2 (Takes 1);
   Turns 1 (Takes 0)].

(** The same, but process 1 is given another handler. *)
Definition obeying : list Move := close_answered ++
  [Calls 1 other_file (Write_wants_handler 0x5000 0x100 0); Turns 1 (Takes 2);
   Turns 0 Wakes;
   Calls 2 other_file (Read_wants_handler 0x6000 0x100 0 HRD_CHAN_IS_FILE KNull); Turns 2 (Takes 1);
   Turns 1 (Takes 0)].

(** What an executable run shows of a machine. *)
Definition after_moves (ok : Machine -> nat -> Pc -> Turn -> Prop) `{forall m i pc t, Decision (ok m i pc t)}
    (l : list Move) (test : Machine -> bool) : bool :=
  match @make_all answering_platform ok _ at_rest l with Some m => test m | None => false end.

Lemma after_moves_run ok `{forall m i pc t, Decision (ok m i pc t)} l test : after_moves ok l test = true ->
  exists m, rtc (@machine_step answering_platform ok) at_rest m /\ test m = true.
Proof.
  unfold after_moves. destruct (make_all _ _ l) as [m|] eqn:E; [|done]. intros Ht. exists m.
  split; [|done]. by apply (make_all_run ok at_rest l).
Qed.

(** Process 2 is about to take a mapping and to post its request, with the handler of process 1. *)
Definition about_to_corrupt (m : Machine) : bool :=
  bool_decide (1%nat ∈ queued (world m)) &&
  match procs m !! 2%nat with
  | Some (_, Write_wants_mapping 0x6000 0x100 0 1%nat) =>
      match @resume answering_platform other_file (Write_wants_mapping 0x6000 0x100 0 1) (Takes 1) (world m) with
      | Crash ListCorruption _ => true
      | _ => false
      end
  | _ => false
  end.

(** What goes wrong without the first exclusion of [interleaved_safe].  The bottom half recycles the
    handler of a close's last message, and the close recycles it again when it runs; in between a
    write was given that handler, and loses it: a third process is given it as well, and when both
    have posted their requests the reply queue has been linked into itself. *)
Theorem last_handler_race :
  let P := answering_platform in
  machine_inv at_rest /\ exists m g w', rtc (machine_step any_turn) at_rest m /\
    1%nat ∈ queued (world m) /\ procs m !! 2%nat = Some (g, Write_wants_mapping 0x6000 0x100 0 1) /\
    resume other_file (Write_wants_mapping 0x6000 0x100 0 1) (Takes 1) (world m) = Crash ListCorruption w'.
Proof.
  intros P. split; [exact at_rest_inv|].
  destruct (after_moves_run any_turn racing about_to_corrupt) as (m & Hr & Ht); [by vm_compute|].
  unfold about_to_corrupt in Ht. apply andb_true_iff in Ht as [Hq%bool_decide_eq_true Ht].
  destruct (procs m !! 2%nat) as [[g pc]|] eqn:Hp; [|done]. exists m, g.
  destruct (resume _ _ _ (world m)) as [? ?|f w'| |]; try (by destruct pc; repeat case_match).
  exists w'. split_and!; try done; destruct pc; repeat case_match; try done; by simplify_eq.
Qed.

(** A run with three processes that obeys the exclusions. *)
Definition in_midst (m : Machine) : bool :=
  bool_decide (length (queued (world m)) = 1%nat) && bool_decide (size (procs m) = 3%nat).

Lemma interleaved_safe_witness :
  let P := answering_platform in
  exists m, rtc (machine_step orderly) at_rest m /\ in_midst m = true /\ machine_inv m /\ readers_apart m.
Proof.
  destruct (after_moves_run orderly obeying in_midst) as (m & Hr & Ht); [by vm_compute|].
  exists m. split; [exact Hr|]. split; [exact Ht|].
  destruct (@interleaved_safe answering_platform at_rest m at_rest_inv Hr) as (Hm & Ha & _). by split.
Defined.

(** A write of the sample device. *)
Definition written : World :=
  match @whole sample_platform sample_file (Write_wants_handler 0x5000 0x100 0) sample with Done _ w' => w' | _ => sample end.

Lemma call_is_run_witness :
  let P := sample_platform in
  rtc (machine_step any_turn) (mkMachine sample {[5%nat := (sample_file, Write_wants_handler 0x5000 0x100 0)]})
    (mkMachine written {[5%nat := (sample_file, Finished 0x100 0x100)]}).
Proof.
  apply (@call_is_run sample_platform sample_file 5 ∅ sample (Write_wants_handler 0x5000 0x100 0) (0x100, 0x100) written).
  vm_compute. reflexivity.
Defined.

(** A read whose reply has come while a write was under way. *)
Definition read_and_write : list Move :=
  [Opens 1 4; Calls 0 sample_file (Read_wants_handler 0x5000 0x1000 0 HRD_CHAN_IS_FILE KNull);
   Calls 1 other_file (Write_wants_handler 0x7000 0x100 0);
   Turns 0 (Takes 1); Turns 1 (Takes 2); Turns 0 (Takes 1);
   Happens (EvCard 1 [(0x11000, [65; 66; 67; 10]); (0x10800, message_bytes sample_answer)]);
   Turns 1 (Takes 2); Happens EvIrq; Happens EvTasklet].

Definition reply_there (m : Machine) : bool :=
  match procs m !! 0%nat, rchs (world m) !! 1%nat with
  | Some (mkFile 0%nat _, Read_awaits 0x5000 0 1%nat), Some x =>
      (valid (rchReturn x) =? 1) && (u32 (nbytes (rchReturn x)) =? 4) &&
      bool_decide (pool_kbuf x = Some (KPool 1))
  | _, _ => false
  end.

Lemma answered_read_finishes_witness :
  let P := answering_platform in
  exists m file w', rtc (machine_step orderly) at_rest m /\
    resume file (Read_awaits 0x5000 0 1) Wakes (world m) = Done (Finished 4 4) w' /\
    1%nat ∉ queued w' /\ is_reserved (mappings (dev w')) (KPool 1) = false.
Proof.
  destruct (after_moves_run orderly read_and_write reply_there) as (m & Hr & Ht); [by vm_compute|].
  unfold reply_there in Ht. destruct (procs m !! 0%nat) as [[file pc]|] eqn:Hp; [|done].
  destruct (rchs (world m) !! 1%nat) as [x|] eqn:Hx; [|by repeat case_match].
  assert (pc = Read_awaits 0x5000 0 1 /\ valid (rchReturn x) = 1 /\ u32 (nbytes (rchReturn x)) = 4 /\
    pool_kbuf x = Some (KPool 1)) as (-> & Hv & Hn & Hk).
  { destruct file as [p ?], pc; repeat case_match; try done.
    apply andb_true_iff in Ht as [[?%Z.eqb_eq ?%Z.eqb_eq]%andb_true_iff ?%bool_decide_eq_true]. by simplify_eq. }
  destruct (@answered_read_finishes answering_platform at_rest m 0 file 0x5000 0 1 x at_rest_inv Hr Hp Hx Hv)
    as (b & w' & E & _ & _ & Hq & _ & Hm). exists m, file, w'. rewrite Hn in E.
  split_and!; [exact Hr|exact E|exact Hq|]. by apply Hm.
Defined.

(** ** Two processes and the mailboxes *)
Definition other_mbc : MailboxControl :=
  mkMbc (Z.lor (Z.lor 100 (MBC_TO_MBXW 0x1)) (MBC_TO_MBXR 0xf)) [0x80; 0; 0; 0] [0; 0; 0; 0].

Definition two_ask : MboxMachine :=
  mkMboxMachine sample (<[0%nat := Mbox_wants sample_mbc]> {[1%nat := Mbox_wants other_mbc]}).

Lemma two_ask_exclusive : exclusive two_ask.
Proof.
  assert (forall i pc, mprocs two_ask !! i = Some pc -> pc = Mbox_wants sample_mbc \/ pc = Mbox_wants other_mbc) as Hpc.
  { intros i pc Hi. cbn [mprocs two_ask] in Hi. apply lookup_insert_Some in Hi as [[_ <-]|[_ Hi]]; [by left|].
    apply lookup_singleton_Some in Hi as [_ <-]. by right. }
  assert (forall i pc, mprocs two_ask !! i = Some pc -> inside pc = None) as Hno.
  { by intros i pc [->| ->]%Hpc. }
  constructor.
  - left. split; [reflexivity|exact Hno].
  - intros i j pc pc' Hi _ Hin. rewrite (Hno _ _ Hi) in Hin. by destruct Hin.
  - intros i pc mbc Hi Hin. by rewrite (Hno _ _ Hi) in Hin.
  - by intros i pc [->| ->]%Hpc.
Qed.

(** What the first gets to, and what it ends with. *)
Definition first_asks : World := Eval vm_compute in
  match @mbox_resume sample_platform (Mbox_wants sample_mbc) Goes_on sample with Done _ w => w | _ => sample end.
Definition first_ends : World := Eval vm_compute in
  match @mbox_resume sample_platform (Mbox_polls sample_mbc 0 100) Goes_on first_asks with Done _ w => w | _ => sample end.
Definition first_answer : MailboxControl := sample_mbc <| mbxr := [BP_CI_ACK; 0; 0; 0] |>.
Definition first_inside : MboxMachine :=
  mkMboxMachine first_asks (<[0%nat := Mbox_polls sample_mbc 0 100]> (mprocs two_ask)).

(** While the first is inside the second cannot go on; the first ends with a transaction.  And the whole
    request of the first is a run. *)
Lemma mailbox_exclusive_witness :
  let P := sample_platform in
  (exclusive first_inside /\ mbox_resume (Mbox_wants other_mbc) Goes_on first_asks = Blocked first_asks /\
   transaction first_ends sample_mbc first_answer) /\
  rtc mbox_step two_ask (mkMboxMachine first_ends (<[0%nat := Mbox_done 0 first_answer]> (mprocs two_ask))).
Proof.
  intros P.
  assert (rtc mbox_step two_ask first_inside) as Hr.
  { apply rtc_once, (mbox_turn two_ask 0 (Mbox_wants sample_mbc) Goes_on); [reflexivity|vm_compute; reflexivity]. }
  split.
  - destruct (@mailbox_exclusive P two_ask first_inside two_ask_exclusive Hr) as (Hm & Ht & _).
    specialize (Ht 0%nat (Mbox_polls sample_mbc 0 100) Goes_on eq_refl).
    assert (mbox_resume (Mbox_polls sample_mbc 0 100) Goes_on (mworld first_inside) =
      Done (Mbox_done 0 first_answer) first_ends) as E by (vm_compute; reflexivity).
    unfold safe in Ht. rewrite E in Ht. destruct Ht as [_ Ht].
    destruct (Ht sample_mbc eq_refl eq_refl) as (rc & mbc' & [= <- <-] & Htr).
    split; [exact Hm|]. split; [vm_compute; reflexivity|exact Htr].
  - destruct (@mailbox_exclusive P two_ask two_ask two_ask_exclusive (rtc_refl _ _)) as (_ & _ & Hcall).
    apply (Hcall 0%nat sample_mbc 0 first_answer first_ends); [reflexivity|constructor|vm_compute; reflexivity].
Defined.

(** ** Both *)
Definition quiet_start : Together := mkTogether read_before ∅ ∅.

Lemma quiet_start_inv : together_inv quiet_start.
Proof.
  constructor; [exact at_rest_inv|]. constructor; cbn [mprocs mailboxes quiet_start tmboxes]; intros *;
    rewrite ?lookup_empty; try done. left. split; [reflexivity|]. intros i pc. by rewrite lookup_empty.
Qed.

(** A process asks; another writes through the bridge, from the beginning to the end; a third wants to ask. *)
Definition write_inside : list BothMove :=
  [Asks 0 sample_mbc; At_mailboxes 0 Goes_on;
   At_bridge (Opens 1 4); At_bridge (Calls 1 other_file (Write_wants_handler 0x7000 0x100 0));
   At_bridge (Turns 1 (Takes 2)); Asks 1 other_mbc; At_bridge (Turns 1 (Takes 0))].

Definition asks_still (s : Together) : bool :=
  bool_decide (tmboxes s !! 0%nat = Some (Mbox_polls sample_mbc 0 100)) &&
  bool_decide (length (queued (tworld s)) = 1%nat) &&
  match @mbox_resume sample_platform (Mbox_polls sample_mbc 0 100) Goes_on (tworld s) with
  | Done (Mbox_done 0 _) _ => true | _ => false end.

(** The request comes back as a transaction, with the messages of the write between its writes and its reads. *)
Lemma bridge_and_mailboxes_witness :
  let P := sample_platform in
  exists s mbc' w', rtc together_step quiet_start s /\ together_inv s /\ length (queued (tworld s)) = 1%nat /\
    mbox_resume (Mbox_polls sample_mbc 0 100) Goes_on (tworld s) = Done (Mbox_done 0 mbc') w' /\
    transaction w' sample_mbc mbc'.
Proof.
  intros P. destruct (@make_both_all P quiet_start write_inside) as [s|] eqn:Es; [|vm_compute in Es; discriminate].
  assert (asks_still s = true) as Ht.
  { assert (match @make_both_all P quiet_start write_inside with Some s => asks_still s | None => true end = true) as Hv
      by (vm_compute; reflexivity).
    by rewrite Es in Hv. }
  apply (make_both_run quiet_start) in Es. unfold asks_still in Ht.
  apply andb_true_iff in Ht as [[Hp%bool_decide_eq_true Hq%bool_decide_eq_true]%andb_true_iff Ht].
  destruct (@bridge_and_mailboxes P quiet_start s quiet_start_inv Es) as (Hs & _ & Hm).
  specialize (Hm 0%nat _ Goes_on Hp). unfold safe in Hm.
  destruct (mbox_resume _ _ (tworld s)) as [pc' w'| | |] eqn:E; try done.
  destruct pc' as [| | | |[|?|?] mbc']; try done. destruct Hm as (_ & _ & Hm).
  destruct (Hm sample_mbc eq_refl eq_refl) as (rc & mbc2 & [= <- <-] & Htr).
  exists s, mbc', w'. by split_and!.
Defined.
