(* ===== verification/LifeWitnesses.v ===== *)
(** * The theorems on the driver's life and on the programs at concrete inputs

    A kernel that grants what it is asked, a driver without cards and one with two, and the input and
    output of the programs. *)

From Stdlib Require Import String.
From S2P Require Import Prelude CString Stdio BusProt StreamBuf Pool Device Rch I2o Isr Kernel Outer.
From S2P Require Import Owner Frames Sleep Mask Mailbox Ioctl Path Clients Bridge Acquire Requests Mmap Init.
From S2P Require Import Writes Release BufferAB Nodes Driver Probe Removal Listing Sysfs Attributes System.
From S2P Require Import HtStream IntTest HtMain AcqCmd Witnesses.

(** ** The driver *)

Definition reg_dev (r : Registration) : Z :=
  match r with reg_class_dev _ d => d | reg_file d _ => d | _ => 0 end.
Definition fresh_dev (l : list Registration) : Z := foldr (fun r m => Z.max (reg_dev r + 1) m) 0 l.

Lemma fresh_dev_above l r : r ∈ l -> reg_dev r < fresh_dev l.
Proof.
  induction l as [|x l IH]; [by intros ?%elem_of_nil|]. intros [->|Hr]%elem_of_cons; cbn [fresh_dev foldr]; [lia|].
  apply IH in Hr. unfold fresh_dev in Hr. lia.
Qed.

(** A kernel with new memory for every descriptor and pages at [0x10000], but for blocks of more than
    one; class devices have numbers no other device has. *)
Definition sample_kernel : KernelApi :=
  {| kmalloc := fun s => Some (length (devices s));
     block_ok := fun _ _ => true;
     boot := sample_base;
     get_free_pages := fun _ order => if order =? 0 then 0x10000 else 0;
     dma_map_single := fun _ va => va;
     dma_alloc_coherent := fun _ => (0, 0);
     ioremap_nocache := fun pa _ => pa;
     pci_enable_device := fun _ => 0;
     register_chrdev := fun _ => 253;
     request_irq_rc := fun _ _ => 0;
     device_create_file := fun _ _ _ => 0;
     device_create := fun s _ => fresh_dev (regs s);
     sysfs_create_link := fun _ _ _ => 0 |}.

Definition sample_pci : PciDev := mkPciDev 0x5000 0x8086 11 80 (fun _ => 0xd0000000).
Definition no_cards : Driver := mkDriver [] ∅ [] [] [].

Lemma no_cards_inv : drv_inv no_cards.
Proof.
  constructor; cbn.
  - constructor.
  - intros p. rewrite lookup_empty. split; [by intros ?%elem_of_nil|by intros []].
  - intros p q d e. by rewrite lookup_empty.
  - unfold MAXDEV. lia.
Qed.

Lemma sample_card_new : @card_new sample_kernel sample_pci 0%nat no_cards.
Proof.
  constructor; [apply no_cards_inv|by intros q [= <-]|reflexivity|].
  intros q d. cbn. by rewrite lookup_empty.
Qed.

Lemma sample_unregistered : @unregistered sample_kernel sample_pci no_cards.
Proof.
  constructor; [intros a|intros cd|intros mj|reflexivity|]; try (by apply not_elem_of_nil).
  intros v r _ Hr. apply fresh_dev_above in Hr. unfold in_class_dev. cbn.
  destruct r; try done; apply Z.eqb_neq; cbn in Hr; lia.
Qed.


Lemma probe_remove_balance_witness :
  let P := sample_platform in let K := sample_kernel in
  settles (acq200_probe sample_pci) (fun rc s1 => rc = 0 ->
    exists s2, acq200_remove 0x5000 s1 = Done tt s2 /\
      heap s2 = ∅ /\ resources s2 = [] /\ devices s2 = [0%nat] /\
      forall r, has s2 r <-> has no_cards r \/ (istrue (acq200_use_interrupts (params boot)) && istrue 11 = true /\
        r = reg_irq 11 0)) (stopped 0 no_cards) no_cards.
Proof.
  apply (@probe_remove_balance sample_platform sample_kernel sample_pci 0%nat no_cards sample_card_new sample_unregistered).
Defined.

(** The probe of that card succeeds. *)
Example sample_probe_succeeds :
  match @acq200_probe sample_platform sample_kernel sample_pci no_cards with
  | Done rc s => rc = 0 /\ devices s = [0%nat] /\ length (regs s) = 19%nat
  | _ => False
  end.
Proof. vm_compute. repeat split. Qed.

(** A kernel that has no memory for one block, or none for the class device. *)
Definition failing_kernel (fails : option PoolBlock) (cd : Z) : KernelApi :=
  {| kmalloc := @kmalloc sample_kernel; block_ok := fun _ b => negb (bool_decide (Some b = fails));
     boot := sample_base; get_free_pages := @get_free_pages sample_kernel;
     dma_map_single := fun _ va => va; dma_alloc_coherent := fun _ => (0, 0); ioremap_nocache := fun pa _ => pa;
     pci_enable_device := fun _ => 0; register_chrdev := fun _ => 253; request_irq_rc := fun _ _ => 0;
     device_create_file := fun _ _ _ => 0; device_create := fun _ _ => cd; sysfs_create_link := fun _ _ _ => 0 |}.

Definition fault_of {A} (o : Outcome Driver A) : option Fault := match o with Crash f _ => Some f | _ => None end.

(** What the probe does when [class_device_create] or an allocation fails: none of the results is looked at,
    or it is asserted. *)
Example probe_of_failing_kernel :
  fault_of (@acq200_probe sample_platform (failing_kernel None (- 12)) sample_pci no_cards) = Some BadPointer /\
  fault_of (@acq200_probe sample_platform (failing_kernel (Some big_buf_pool) 0x7000) sample_pci no_cards) = Some NullDeref /\
  fault_of (@acq200_probe sample_platform (failing_kernel (Some handler_items) 0x7000) sample_pci no_cards) = Some KernelBug /\
  fault_of (@acq200_probe sample_platform (failing_kernel None 0x7000) sample_pci no_cards) = None.
Proof. vm_compute. repeat split. Qed.

Definition sample_desc (pci : Z) : Desc :=
  mkDesc sample pci (chars "acq200") (pci + 1) (mkIoMapping 0xd0000000 0xd0000000 0x1000) (chars "acq200").
Definition two_cards : Driver :=
  mkDriver [0%nat; 1%nat] (<[0%nat := sample_desc 0x5000]> {[1%nat := sample_desc 0x6000]}) [] [] [].

Lemma two_cards_heap p d : heap two_cards !! p = Some d ->
  (p = 0%nat /\ d = sample_desc 0x5000) \/ (p = 1%nat /\ d = sample_desc 0x6000).
Proof.
  unfold two_cards. cbn [heap]. intros [[-> <-]|[_ [-> <-]%lookup_singleton_Some]]%lookup_insert_Some; auto.
Qed.

Lemma two_cards_inv : drv_inv two_cards.
Proof.
  constructor.
  - repeat constructor; set_solver.
  - intros p. split; [|].
    + intros [->|[->|[]%elem_of_nil]%elem_of_cons]%elem_of_cons; by eexists.
    + intros [d Hd]. apply two_cards_heap in Hd as [[-> _]|[-> _]]; set_solver.
  - intros p q d e [[-> ->]|[-> ->]]%two_cards_heap [[-> ->]|[-> ->]]%two_cards_heap; done.
  - unfold MAXDEV. cbn. lia.
Qed.

Lemma sample_settled pci : settled (sample_desc pci).
Proof. split; [reflexivity|]. split; [by vm_compute|done]. Qed.

Lemma second_remove_faults_witness :
  let P := sample_platform in let K := sample_kernel in
  exists s1, acq200_remove 0x5000 two_cards = Done tt s1 /\
    acq200_lookupDevice 0x6000 s1 = Crash UseAfterFree s1 /\
    (acq200_remove 0x5000 >> acq200_remove 0x6000) two_cards = Crash UseAfterFree s1.
Proof.
  apply (@second_remove_faults two_cards [] 0%nat [1%nat] (sample_desc 0x5000) 0x6000
    two_cards_inv eq_refl eq_refl (sample_settled 0x5000)).
  intros q e Hq. by apply elem_of_nil in Hq.
Defined.

(** ** The files in /sys *)
Definition sample_addresses : Addresses :=
  {| map_addr := fun _ => 0x1000; rch_addr := fun _ => 0x2000; fn_addr := fun _ => 0x3000; path_addr := fun _ => 0 |}.

Lemma sample_addr_range :
  (forall k, 0 <= @map_addr sample_addresses k < 2 ^ 32) /\ (forall r, 0 <= @rch_addr sample_addresses r < 2 ^ 32) /\
  (forall h, 0 <= @fn_addr sample_addresses h < 2 ^ 32) /\ (forall p, 0 <= @path_addr sample_addresses p < 2 ^ 32).
Proof. cbn. repeat split; intros; lia. Qed.

Lemma valids_by w :
  forallb (fun x => (-2 ^ 31 <=? valid (rchReturn x)) && (valid (rchReturn x) <? 2 ^ 31)) (rchs w) = true ->
  valids_ok w.
Proof.
  rewrite forallb_forall. intros Hall r x Hx%list_elem_of_lookup_2. apply list_elem_of_In, Hall in Hx. lia.
Qed.

Lemma busy_valids : valids_ok busy.
Proof. apply valids_by. by vm_compute. Qed.

Lemma listings_fit_witness :
  let P := sample_platform in let A := sample_addresses in
  total pool_text (fun l w' => w' = busy /\ Z.of_nat (length l) < PAGE_SIZE) busy /\
  total rch_list_text (fun l w' => w' = busy /\ Z.of_nat (length l) < PAGE_SIZE) busy.
Proof.
  apply (@listings_fit sample_addresses sample_addr_range busy busy_inv busy_valids eq_refl eq_refl).
Defined.

Lemma sample_readable : @readable sample_platform sample.
Proof.
  constructor; [constructor|apply sample_inv| |by split].
  - by repeat constructor.
  - vm_compute. split; congruence.
  - by vm_compute.
  - by vm_compute.
  - apply valids_by. by vm_compute.
Qed.

Lemma attributes_read_witness :
  let P := sample_platform in let A := sample_addresses in
  (exists m t, read_device_file 0x5000 "interrupt_count" = Some m /\ m two_cards = Done (inl t) two_cards /\
     Z.of_nat (length t) < PAGE_SIZE) /\
  (exists m t, read_class_file 0x5001 "dev" = Some m /\ m two_cards = Done (inl t) two_cards /\
     Z.of_nat (length t) < PAGE_SIZE) /\
  exists m, read_device_file 0x5000 "heartbeat" = Some m /\
    total m (fun o s' => exists t w, o = inl t /\ Z.of_nat (length t) < PAGE_SIZE /\
      s' = put_world 0 w two_cards /\ evolves sample w) two_cards.
Proof.
  destruct (@attributes_read sample_platform sample_addresses sample_addr_range two_cards 0%nat (sample_desc 0x5000)
    two_cards_inv eq_refl sample_readable) as (Hd & Hc & Hh).
  { intros q e [[-> ->]|[-> ->]]%two_cards_heap E; [done|discriminate E]. }
  split; [|split; [|exact Hh]].
  - apply Hd; [|done]. apply (bool_decide_unpack _). vm_compute. exact I.
  - apply Hc. right. left.
Defined.

Lemma class_files_mask_witness :
  let P := sample_platform in let A := sample_addresses in
  exists w m, write_imask_file 0x5001 (chars "a0" ++ [newline]) two_cards = Done 3 (put_world 0 w two_cards) /\
    read_class_file 0x5001 "imask" = Some m /\
    m (put_world 0 w two_cards) = Done (inl (chars "a0" ++ [newline])) (put_world 0 w two_cards) /\
    forall q, q <> 0%nat -> heap (put_world 0 w two_cards) !! q = heap two_cards !! q.
Proof.
  apply (@class_files_mask sample_platform two_cards 0%nat (sample_desc 0x5000) (chars "a0") []
    two_cards_inv eq_refl).
  - intros q e [[-> ->]|[-> ->]]%two_cards_heap E; [done|discriminate E].
  - split; [|split]; by vm_compute.
  - by repeat constructor.
  - by vm_compute.
Defined.

(** ** The interrupt test *)
Definition wide_platform : Platform :=
  {| card_reply := sample_reply; copy_fault := fun _ _ => 0; HZ := 100; NR_IRQS := 64; kthread_starts := fun _ => true |}.
Definition unmasked : World := Eval vm_compute in upd_dev (setf imask_a (fun _ => replicate 16 0)) sample.

Lemma nth_zeros n k : nth k (replicate n 0) 0 = 0.
Proof. revert k. induction n as [|n IH]; intros [|k]; cbn; [done..|apply IH]. Qed.

Lemma unmasked_ok : masks_ok 16 unmasked.
Proof.
  constructor; [vm_compute; congruence|apply Nat.leb_le; reflexivity| |reflexivity].
  intros i _. change (imask_a (dev unmasked)) with (replicate 16 0). rewrite nth_zeros. lia.
Qed.

Definition test_acts : list Act := default [] (test_main 3 (chars "2f") 1).


(** ** The command line client *)
Lemma text_line_by size body : newline ∉ body -> 0 ∉ body -> (S (length body) < size)%nat ->
  text_line size (body ++ [newline]).
Proof.
  intros Hn H0 Hl. constructor; [by exists body| |rewrite length_app; cbn; lia].
  rewrite elem_of_app, list_elem_of_singleton. intros [|]; [done|discriminate].
Qed.

(** The members of a concrete list. *)
Ltac members := repeat match goal with |- Forall _ [] => constructor | |- Forall _ (_ :: _) => constructor end.

Definition text (s : string) : list Z := chars s ++ [newline].
Definition sample_script : list (list Z) :=
  [text "# set up"; text "setChannel 1;"; text "setArm"; text ""; text "getState"; text "getMode"].
Definition sample_bodies : list (list (list Z)) := [[text "OK"]; [text "ACQ32:getState"; text "ST_RUN"]; []].

Lemma sample_bodies_lines : Forall (Forall reply_line) sample_bodies.
Proof.
  assert (forall s, newline ∉ chars s -> 0 ∉ chars s -> (S (length (chars s)) < 80)%nat -> chars s <> chars "EOF" ->
    reply_line (text s)) as Hl.
  { intros s Hn H0 Hs He. split; [by apply text_line_by|]. intros [E _]%app_inj_tail. done. }
  unfold sample_bodies. members; apply Hl; try (by apply (bool_decide_unpack _)); try (apply Nat.ltb_lt; reflexivity); done.
Qed.

(** The last command gets an empty answer. *)
Lemma process_stdin_script_witness :
  process_stdin (concat sample_script) (mkStream [] (inbox_of sample_bodies) [] false) =
    Done 1 (mkStream (text "setChannel 1;" ++ text "setArm" ++ text "getState" ++ text "getMode") []
              (text "OK" ++ text "ACQ32:getState" ++ text "ST_RUN") false).
Proof.
  pose proof (process_stdin_script sample_script sample_bodies (mkStream [] (inbox_of sample_bodies) [] false)) as E.
  apply E; [|apply sample_bodies_lines|reflexivity].
  unfold sample_script. members; apply text_line_by; try (by apply (bool_decide_unpack _)); apply Nat.ltb_lt; reflexivity.
Defined.

(** The same commands to a path that answers the first two only: the program waits when it stays silent, and
    stops when it closes. *)
Example silent_path_waits :
  (exists fd, process_stdin (concat sample_script) (mkStream [] (inbox_of (firstn 2 sample_bodies)) [] false) = Blocked fd) /\
  (exists fd, process_stdin (concat sample_script) (mkStream [] (inbox_of (firstn 2 sample_bodies)) [] true) = Done 1 fd).
Proof. split; eexists; vm_compute; reflexivity. Qed.

Lemma process_command_reply_witness :
  process_command [chars "getState"; chars "1"] (mkStream [] (reply_text [text "ACQ32:ERROR none"; text "ST_STOP"]) [] false) =
    Done 1 (mkStream (text "getState 1 ") [] (text "ACQ32:ERROR none" ++ text "ST_STOP") false).
Proof.
  pose proof (process_command_reply [chars "getState"; chars "1"] [text "ACQ32:ERROR none"; text "ST_STOP"] []
    (mkStream [] (reply_text [text "ACQ32:ERROR none"; text "ST_STOP"]) [] false)) as E.
  apply E; [|by rewrite app_nil_r].
  members; (split; [apply text_line_by; [by apply (bool_decide_unpack _)..|apply Nat.ltb_lt; reflexivity]|]);
    intros [E' _]%(app_inj_tail _ (chars "EOF")); discriminate E'.
Defined.

(** A poll of a device until it has stopped: two answers, the second of which decides. *)
Lemma do_poll_answers_witness :
  do_poll false None (Some (chars "ST_STOP")) (fun _ => 0)
    (Some <$> concat [[text "ST_RUN"]; [text "ST_STOP"]; [text "ST_STOP"]]) [] = Some (Polled_result 0 2).
Proof.
  apply (do_poll_answers false None (Some (chars "ST_STOP")) (fun _ => 0) [[text "ST_RUN"]; [text "ST_STOP"]; [text "ST_STOP"]] []).
  - by right.
  - assert (forall s, 0 ∉ text s -> whole_answer false [text s]) as Hw.
    { intros s Hs. split; [by repeat constructor|]. by exists [], (text s). }
    members; apply Hw; by apply (bool_decide_unpack _).
Defined.

(** ** Closing, and any sequence of calls *)
Lemma bridge_release_safe_witness :
  let P := sample_platform in
  safe (acq200_bridge_release_generic sample_file HRD_CHAN_IS_FILE) (fun rc w' => rc = 0 /\ closed 0 sample w') sample.
Proof.
  apply (@bridge_release_safe sample_platform 0 sample_file HRD_CHAN_IS_FILE sample eq_refl sample_inv sample_idle).
  by eexists.
Defined.

Lemma sample_sys_inv : sys_inv sample.
Proof.
  assert (forall p x, paths sample !! p = Some x -> x = sample_path) as Hp.
  { intros p x Hx. change (paths sample) with ({[0%nat := sample_path]} : gmap nat Acq200Path) in Hx.
    by apply lookup_singleton_Some in Hx as [_ <-]. }
  constructor; [apply sample_inv|apply sample_idle|..].
  - intros p x b r ->%Hp [-> | ->]; done.
  - intros p x ->%Hp. by left.
  - intros r y p x Hr. by apply elem_of_nil in Hr.
Qed.

(** A write, a tick, an open of the buffers, and an ioctl on them that finds none full. *)
Definition ab_file : File := mkFile 1 97.
Definition sample_call (c : Call) : MW unit :=
  @run_call sample_platform (fun _ _ => 0x10000) (fun _ va => va) (fun _ _ _ => false) c.
Definition call_after (c : Call) (w : World) : World := match sample_call c w with Done _ w' => w' | _ => w end.
Definition returns (c : Call) (w : World) : bool := match sample_call c w with Done _ _ => true | _ => false end.
Definition after_write : World := call_after (Call_write sample_file 0x100 16 0) sample.
Definition after_tick : World := call_after (Call_event EvTick) after_write.
Definition after_open : World := call_after (Call_open 97 1%nat) after_tick.
Definition after_ioctl : World := call_after (Call_ioctl ab_file ACQ200_BUFFER_AB_IOWR 0x5000) after_open.

Lemma sample_step c w : enabled c w -> returns c w = true ->
  @step sample_platform (fun _ _ => 0x10000) (fun _ va => va) (fun _ _ _ => false) w (call_after c w).
Proof.
  intros He Hr. apply (step_call _ _ _ _ _ c He). unfold returns, call_after, sample_call in *.
  by destruct (run_call _ _ _ c w) as [[] w'| | |].
Qed.

Lemma sample_steps : rtc (@step sample_platform (fun _ _ => 0x10000) (fun _ va => va) (fun _ _ _ => false)) sample after_ioctl.
Proof.
  apply rtc_l with after_write; [|apply rtc_l with after_tick; [|apply rtc_l with after_open; [|apply rtc_once]]].
  - apply (sample_step (Call_write sample_file 0x100 16 0) sample); [|vm_compute; reflexivity].
    exists sample_path. split; [reflexivity|]. intros _. split; [apply sample_free_map|lia].
  - apply (sample_step (Call_event EvTick) after_write); [done|vm_compute; reflexivity].
  - apply (sample_step (Call_open 97 1%nat) after_tick); [split; vm_compute; reflexivity|vm_compute; reflexivity].
  - apply (sample_step (Call_ioctl ab_file ACQ200_BUFFER_AB_IOWR 0x5000) after_open); [|vm_compute; reflexivity].
    apply (bool_decide_unpack _). vm_compute. exact I.
Qed.

Lemma reachable_safe_witness :
  let P := sample_platform in
  (forall r, r ∈ queued after_ioctl -> exists y p x, rchs after_ioctl !! r = Some y /\ rpath y = Some p /\
     paths after_ioctl !! p = Some x /\ bridge_node x /\ is_reserved (handlers (dev after_ioctl)) r = true) /\
  (forall r r' k, holds after_ioctl r k -> holds after_ioctl r' k -> r = r') /\
  (forall p x b r, paths after_ioctl !! p = Some x -> is_AB b -> ab_get (rchAB x) b = Some r -> ab_request after_ioctl p b r) /\
  forall c, enabled c after_ioctl -> outcome (run_call (fun _ _ => 0x10000) (fun _ va => va) (fun _ _ _ => false) c)
    (fun _ w' => step (fun _ _ => 0x10000) (fun _ va => va) (fun _ _ _ => false) after_ioctl w')
    (known_fault (fun _ _ => 0x10000) c) after_ioctl.
Proof. apply (@reachable_safe sample_platform _ _ _ sample after_ioctl sample_sys_inv sample_steps). Defined.

(** Three handlers wait in that state: for the write, and for both buffers. *)
Example after_ioctl_waits : length (queued after_ioctl) = 3%nat /\
  rchAB <$> paths after_ioctl !! 1%nat = Some (Some 2%nat, Some 3%nat).
Proof. vm_compute. by split. Qed.

(** Mailbox 2 of an older card. *)
Lemma older_requests_refused_witness :
  @acq200_ioctl sample_platform sample_file (ACQ32_IOSMBX 2) 0x5000 sample = Done (- ENOTTY) sample.
Proof.
  apply (@older_requests_refused sample_platform sample_file (ACQ32_IOSMBX 2) 0x5000 sample);
    by apply (bool_decide_unpack _); vm_compute.
Defined.

(** One client of the buffers: another one comes, or it closes. *)
Definition one_client : World := Eval vm_compute in
  upd_dev (fun d => d <| clients_count := 1 |> <| i2o_backstop := task_runs |>) sample.

Lemma clients_backstop_witness :
  let P := sample_platform in
  safe (onOpen 0) (fun rc w' => backstop_ok w' /\
    (rc = 0 /\ clients_count (dev w') = 2 /\ i2o_backstop (dev w') = task_runs \/
     rc = - ERESTARTSYS /\ clients w' = clients one_client)) one_client /\
  outcome (onRelease 0) (fun rc w' => rc = 0 /\ backstop_ok w' /\
    clients_count (dev w') = 0 /\ i2o_backstop (dev w') = no_task)
    (fun f w' => f = BadPointer /\ clients_count (dev one_client) = 1 /\ i2o_backstop (dev one_client) = task_error) one_client.
Proof.
  intros P. apply (@clients_backstop P 0%nat one_client); [|split; [discriminate|intros Hc; vm_compute in Hc; congruence]|vm_compute; by split].
  apply (inv_same sample); [apply sample_inv|done..| |done|done]. done.
Defined.

Lemma open_close_restores_witness :
  let P := sample_platform in
  exists w1, acq200_open (fun _ _ => 0) (fun _ v => v) 3 (Some 1%nat) sample =
      Done (0, Some (mkFile 1 3, acq200_bridge_fops)) w1 /\
    sem_get AB_busy_sem w1 = sem_get AB_busy_sem sample - 1 /\
    vfs_release (mkFile 1 3) w1 = Done 0 sample.
Proof.
  apply (@open_close_restores sample_platform (fun _ _ => 0) (fun _ v => v) 3 1 sample);
    [apply sample_inv|reflexivity|reflexivity|vm_compute; congruence|intros _; vm_compute; reflexivity].
Defined.
